(* ===== verification/_CoqProject ===== *)
-Q . S2P
Prelude.v
CLib.v
Types.v
Filter.v
FilterSpec.v
FilterC.v
FilterText.v
FilterPrint.v
Payload.v
ShadowStack.v
Ring.v
CallAction.v
Reader.v
ReaderSpec.v
ReaderAccount.v
Seqlock.v
Pool.v
Emit.v
StubFrame.v
StubX86.v
StubX86Spec.v
StubA64.v
StubA64Spec.v
X86Trampoline.v
X86Spec.v
A64Machine.v
A64Trampoline.v
A64Spec.v
A64Build.v
RemoteMem.v
RemoteMemSpec.v
Arch.v
ArchSpec.v
RemoteExec.v
Threads.v
ThreadsSpec.v
Probes.v
ProbesSpec.v
SigConf.v
SigConfSpec.v
SigConfPrint.v
SigFormat.v
SigFormatSpec.v
SigVariadic.v
Symbols.v
TraceRunner.v
TraceSample.v
TableInv.v
TraceInv.v
TraceStop.v
TraceInstall.v
TraceEffect.v
TraceCall.v
TraceX86.v
TraceA64.v
MapsSpec.v
ElfSpec.v
ResolveSpec.v
FileLoops.v
Cli.v
CliSpec.v
LogText.v
CliInv.v
CliSample.v
