(* ===== verification/Prelude.v ===== *)
(** * zeroTrace: a verification library

    zeroTrace attaches to a running process with ptrace, patches the prologues of
    chosen functions with jumps to generated trampolines, and records entries and
    returns of those functions in a ring buffer shared with the target, which the
    controlling process reads and prints.  This library models the program's C code
    (paths below are those of the repository) and proves what makes it correct.

    ** How the parts interact

    - The shell (src/zt_cli.c) reads command lines and calls the runner and the
      injector.
    - The runner (src/zt_trace_runner.c) sets up the payload in the target, installs
      and removes probes, reads the ring and logs the events that pass the probe's
      condition, a filter expression (src/zt_filter.c), with the types of the
      function's signature (src/zt_sigconf.c).
    - The injector (src/zt_injector.c) attaches, stops the thread group, resolves
      symbols, reads and writes the target's memory, keeps the table of probes and
      patches prologues.  What depends on the instruction set is behind
      include/zt_arch.h: src/isa/*/arch.c and the remote execution driver
      src/isa/common/zt_remote_exec.c.
    - For each probe the trampoline builder (src/isa/*/trampoline_manager.c)
      relocates the displaced instructions into a slot of the pool
      (src/zt_trampoline_pool.c).
    - A probed call enters its trampoline, which calls entry_stub
      (src/isa/*/stub.S); entry_stub records the entry through src/zt_payload.c,
      saves the return address on a per-thread shadow stack and lets the function
      return to exit_stub, which records the return and goes back to the caller.

    ** Files

    - Prelude: machine integers as [Z] with explicit wrap-around ([u64], [i32], ...),
      little-endian bytes, C arrays, tactics and hint databases.
    - CLib: the C library functions used (strtoull, isspace, decimal output).
    - Types: the structures of include/zt_payload.h and include/zt_injector.h.
    - Filter, FilterSpec, FilterC, FilterText, FilterPrint: zt_filter.c.  The evaluator
      and validator (a recursive descent parser over tokens, with fuel three more than
      the tokens, enough because every step consumes one: [parse_fuel_enough]), the
      grammar the parser reads with a short-circuit semantics of its own, and C's grammar,
      with which it agrees unless an ordering comparison stands unparenthesised to the
      right of == or != (C9); the tokenizer (C10) and the round trip through printed
      text (C11).
    - Payload: zt_payload.c and the payload calls of the stubs, as functions on the
      state of a thread and the shared memory.  ShadowStack: return addresses of
      nested, overflowing and interleaved calls (C12 - C14).  Ring: the ring as an
      abstract log (C15 - C17).  CallAction: user-configured calls (C18).
    - Reader, ReaderSpec, ReaderAccount: the ring reader of zt_trace_runner.c: every
      sequence number it passes is shown from a stable snapshot, if its filter lets it,
      or reported lost (C19), nothing is missed on a quiet ring (C20),
      conditions decide entry and return together (C21).  The remote reads are the
      interface [remote_t]; the dump loop carries fuel, and with more fuel than
      events were written it returns.
    - Seqlock: the stamp protocol between producers and reader as a step relation;
      consistency of accepted snapshots (C22, C23) and, as a lemma, the interleaving
      that breaks it.
    - Pool: zt_trampoline_pool.c; slots are disjoint in every reachable state (C24).
    - Emit: emission into buffers and code in memory, shared by both builders.
      X86Trampoline, X86Spec: the x86_64 builder, its layout executed on a small
      processor model, relocation of control transfers and rip-relative operands,
      and size (C25 - C27).  A64Machine, A64Trampoline, A64Spec, A64Build: the same
      for AArch64 (C28).  The disassembler (capstone) is a parameter; what is
      assumed of it are the predicates [insn_ok], [a64_insn_ok] and [disasm_within].
    - StubFrame: words, ctx_t and vector areas on a stack, and the payload's
      functions as the stubs call them.  StubX86, StubA64: the two stub.S, instruction
      by instruction, on processors with the registers they touch; what a payload
      function does to the rest of the machine is a parameter under the calling
      convention ([abi]).  StubX86Spec, StubA64Spec: the frames, and what each stub gives
      the payload and gives back to the thread.
    - RemoteMem, RemoteMemSpec: remote reads and writes with partial transfers and
      refused calls (C29).
    - Arch: include/zt_arch.h as a class with the two arch.c as instances and the
      laws its clients use; ArchSpec: what the installed jump does, and which
      instructions it displaces.
    - RemoteExec: zt_remote_exec.c: code and registers are given back, also when the
      kernel refuses to start the stub (C30).
    - Threads, ThreadsSpec: stopping, resuming and polling the thread group, and
      moving threads out of patched code (C31, C32).  The kernel's state says which
      threads are in a reported stop and which tasks were listed last, apart from the
      session's own table; "stopped" in C31 is the kernel's.
    - Probes, ProbesSpec: the probe table; installing and removing a patch restores
      the code, proved against the class and so for both instruction sets (C33).
    - SigConf, SigConfSpec, SigConfPrint: the parser of the signature file; the table
      it leaves is well formed whatever the file holds (C34), and printed signatures
      are read back (C35).  SigFormat, SigFormatSpec, SigVariadic: the typed text of
      an event, with its buffer previews and the arguments of a printf format, against
      tables of conversions and registers of their own (C36).  Float and double are printed with %g by
      exact integer arithmetic.
    - Symbols, MapsSpec, ElfSpec, ResolveSpec: the ELF and /proc parts of
      zt_injector.c and attaching, on the bytes of files; what the kernel prints of
      its mappings is read back (C38), and a symbol resolves to the address the
      loader gave it (C37).  FileLoops: lemmas that the fuel of [load_loop], [lines_loop]
      and [modules_loop], the file's length plus one, is always enough.
    - TraceRunner: the runner's operations as computations on one [world], over the
      interfaces [Remote] (calls in the target) and [Builder]; TraceSample: their
      instances and a sample target.  TableInv, TraceInv: the invariant of the probe
      table, the call-action slots and the active trace in every reachable state (C6).
      TraceStop: a shutdown gives the target its code back, if no two probes overlap (C5).
      TraceInstall: a failed installation of a name that fits its field leaves the table
      as it was (C7).  TraceEffect, TraceCall: a
      successful one, from the command to the processor: a call of the function
      arrives in entry_stub with the probe's id and goes on as if it had not been
      patched (C3 for AArch64, C4 for x86_64).  TraceA64, TraceX86: the same call
      on through both stubs: the function starts with the registers, stack and arguments of
      the call and the caller is resumed with those of the function (C1, C2).
    - Cli, CliSpec, CliInv, CliSample: the shell.  Every command of its table, printed and
      entered in any state, has the effect it names (C39), and every session keeps the
      state consistent (C8).
    - LogText: the text of the log's lines; its numbers can be read back (C40).

    ** Conventions

    A function that returns -1 or a value is an [option] or returns its code; state
    is passed explicitly; pointers that the code never passes as NULL have no NULL
    case.  Calls into the kernel, the clock and the target's own functions are
    parameters that may answer anything (records of functions indexed by the number
    of the call), so the theorems hold for every behaviour of them that they do not
    exclude by a hypothesis.  Loops over arrays are structural; a bounded C loop keeps
    its bound (16 stop passes, 8 single steps), and other loops have fuel with a
    proof that it suffices.

    ** Not modelled

    The progress messages of the runner, readline and the command history, and the
    test programs.  Calls of
    malloc succeed.  The memory model is sequentially consistent, and the target's
    own threads do not write to the code that is patched. *)

From Stdlib Require Export ZArith Lia.
From stdpp Require Export base numbers list gmap strings.

#[global] Open Scope Z_scope.

(** ** Machine integers

    A w-bit unsigned integer is a [Z] in [0, 2^w); the wrap-around is written
    where the C code computes.  Signed views are explicit. *)

Definition u64 (x : Z) : Z := x mod 2 ^ 64.
Definition u32 (x : Z) : Z := x mod 2 ^ 32.
Definition i64 (x : Z) : Z := if u64 x <? 2 ^ 63 then u64 x else u64 x - 2 ^ 64.
Definition i32 (x : Z) : Z := if u32 x <? 2 ^ 31 then u32 x else u32 x - 2 ^ 32.

Definition is_u64 (x : Z) : Prop := 0 <= x < 2 ^ 64.
Definition is_u32 (x : Z) : Prop := 0 <= x < 2 ^ 32.
Definition is_byte (x : Z) : Prop := 0 <= x < 256.

(** C truth values: a comparison yields 0 or 1, a test is "non-zero". *)
Definition b2z (b : bool) : Z := if b then 1 else 0.
Definition truthy (x : Z) : bool := negb (x =? 0).

Declare Scope zt_scope.
Delimit Scope zt_scope with zt.
Notation "x '+64' y" := (u64 (x + y)) (at level 50, left associativity) : zt_scope.
Notation "x '-64' y" := (u64 (x - y)) (at level 50, left associativity) : zt_scope.
Notation "x '*64' y" := (u64 (x * y)) (at level 40, left associativity) : zt_scope.
#[global] Open Scope zt_scope.

Create HintDb zt.
Create Rewrite HintDb zt_rw.

Lemma u64_range x : is_u64 (u64 x).
Proof. unfold is_u64, u64. apply Z.mod_pos_bound. lia. Qed.

Lemma u64_small x : is_u64 x -> u64 x = x.
Proof. unfold is_u64, u64. intros. apply Z.mod_small. lia. Qed.

Lemma u64_idem x : u64 (u64 x) = u64 x.
Proof. apply u64_small, u64_range. Qed.

Lemma u32_range x : is_u32 (u32 x).
Proof. unfold is_u32, u32. apply Z.mod_pos_bound. lia. Qed.

Lemma u32_small x : is_u32 x -> u32 x = x.
Proof. unfold is_u32, u32. intros. apply Z.mod_small. lia. Qed.

Lemma u64_add_l x y : u64 (u64 x + y) = u64 (x + y).
Proof. unfold u64. apply Zplus_mod_idemp_l. Qed.

Lemma u64_add_r x y : u64 (x + u64 y) = u64 (x + y).
Proof. unfold u64. apply Zplus_mod_idemp_r. Qed.

Lemma u64_i64 x : u64 (i64 x) = u64 x.
Proof.
  unfold i64. case_match; [apply u64_idem|].
  unfold u64. rewrite <- (Z_mod_plus_full (x mod 2^64 - 2^64) 1).
  replace (x mod 2^64 - 2^64 + 1 * 2^64) with (x mod 2^64) by lia.
  apply Zmod_mod.
Qed.

Lemma b2z_range b : is_u64 (b2z b).
Proof. unfold is_u64. destruct b; simpl; lia. Qed.

#[export] Hint Resolve u64_range u32_range b2z_range : zt.
#[export] Hint Rewrite u64_idem u64_add_l u64_add_r u64_i64 : zt_rw.

(** Case analysis on the boolean comparisons of the model, as propositions. *)
Ltac zbool :=
  repeat match goal with
  | H : (_ && _)%bool = true |- _ => apply andb_true_iff in H as [? ?]
  | H : (_ || _)%bool = false |- _ => apply orb_false_iff in H as [? ?]
  | H : negb _ = true |- _ => apply negb_true_iff in H
  | H : negb _ = false |- _ => apply negb_false_iff in H
  | H : (_ =? _) = true |- _ => apply Z.eqb_eq in H
  | H : (_ =? _) = false |- _ => apply Z.eqb_neq in H
  | H : (_ <? _) = true |- _ => apply Z.ltb_lt in H
  | H : (_ <? _) = false |- _ => apply Z.ltb_ge in H
  | H : (_ <=? _) = true |- _ => apply Z.leb_le in H
  | H : (_ <=? _) = false |- _ => apply Z.leb_gt in H
  | H : (_ >=? _) = _ |- _ => rewrite Z.geb_leb in H
  | H : (_ >? _) = _ |- _ => rewrite Z.gtb_ltb in H
  end.

(** Split the [match]/[if] of the goal on its scrutinee, keeping an equation. *)
Ltac split_match :=
  match goal with
  | |- context [match ?x with _ => _ end] => destruct x eqn:?
  end.

Ltac split_match_in H :=
  match type of H with
  | context [match ?x with _ => _ end] => destruct x eqn:?
  end.

(** Equalities of appended lists up to associativity. *)
Ltac app_norm := repeat first [progress cbn [app] | rewrite <- app_assoc].
Ltac app_eq := by app_norm.

Ltac zsimp := repeat (simplify_eq; zbool); try done; try lia.

(** ** Little-endian encodings

    [memcpy(buf, &word, n)] on the little-endian targets the program supports. *)

Fixpoint le_bytes (n : nat) (z : Z) : list Z :=
  match n with
  | O => []
  | S n' => z mod 256 :: le_bytes n' (z / 256)
  end.

Fixpoint le_word (bs : list Z) : Z :=
  match bs with
  | [] => 0
  | b :: bs' => b + 256 * le_word bs'
  end.

Lemma length_le_bytes n z : length (le_bytes n z) = n.
Proof. revert z. induction n as [|n IH]; intros; simpl; [done|]. by rewrite IH. Qed.

Lemma le_bytes_bytes n z : Forall is_byte (le_bytes n z).
Proof.
  revert z. induction n as [|n IH]; intros z; simpl; constructor; [|done].
  unfold is_byte. apply Z.mod_pos_bound. lia.
Qed.

Lemma le_word_le_bytes n z : le_word (le_bytes n z) = z mod 256 ^ Z.of_nat n.
Proof.
  revert z. induction n as [|n IH]; intros z.
  - simpl. by rewrite Z.mod_1_r.
  - cbn [le_bytes le_word]. rewrite IH, Nat2Z.inj_succ, Z.pow_succ_r by lia.
    rewrite Z.rem_mul_r by lia. done.
Qed.

Lemma le_word_range bs :
  Forall is_byte bs -> 0 <= le_word bs < 256 ^ Z.of_nat (length bs).
Proof.
  induction 1 as [|b bs Hb _ IH].
  - simpl. lia.
  - cbn [le_word length]. rewrite Nat2Z.inj_succ, Z.pow_succ_r by lia.
    unfold is_byte in Hb. lia.
Qed.

Lemma le_bytes_le_word bs : Forall is_byte bs -> le_bytes (length bs) (le_word bs) = bs.
Proof.
  induction 1 as [|b bs Hb _ IH]; [done|].
  cbn [le_word length le_bytes]. unfold is_byte in Hb.
  rewrite (Z.mul_comm 256 (le_word bs)), Z_mod_plus_full, Z.mod_small by lia.
  rewrite Z_div_plus_full, Z.div_small, Z.add_0_l by lia. by rewrite IH.
Qed.

Lemma le_word_u64 z : le_word (le_bytes 8 z) = u64 z.
Proof. by rewrite le_word_le_bytes. Qed.

Lemma le_word_u32 z : le_word (le_bytes 4 z) = u32 z.
Proof. by rewrite le_word_le_bytes. Qed.

#[export] Hint Rewrite length_le_bytes le_word_u64 le_word_u32 : zt_rw.
#[export] Hint Resolve le_bytes_bytes : zt.

(** ** Arrays

    [arr_get]/[arr_set] index a C array held as a list; [memcpy_at] overwrites
    the bytes from an offset on (the caller's bound check keeps it in range). *)

Definition arr_get {A} `{Inhabited A} (l : list A) (i : Z) : A := l !!! Z.to_nat i.
Definition arr_set {A} (l : list A) (i : Z) (x : A) : list A := <[Z.to_nat i := x]> l.
Definition memcpy_at (off : nat) (src buf : list Z) : list Z :=
  take off buf ++ src ++ drop (off + length src) buf.

Lemma length_memcpy_at off src buf :
  (off + length src <= length buf)%nat -> length (memcpy_at off src buf) = length buf.
Proof.
  intros. unfold memcpy_at. rewrite !length_app, length_take, length_drop. lia.
Qed.

Lemma memcpy_at_app off src src' a b c :
  off = length a -> length src = length src' ->
  src' ++ b = c ->
  memcpy_at off src (a ++ c) = a ++ src ++ b.
Proof.
  intros -> Hl <-. unfold memcpy_at. rewrite take_app_length, Hl.
  rewrite <- drop_drop, drop_app_length, drop_app_length. done.
Qed.

Lemma length_arr_set {A} (l : list A) i x : length (arr_set l i x) = length l.
Proof. apply length_insert. Qed.

Lemma arr_get_set_eq {A} `{Inhabited A} (l : list A) i x :
  0 <= i < Z.of_nat (length l) -> arr_get (arr_set l i x) i = x.
Proof.
  intros. unfold arr_get, arr_set. apply list_lookup_total_insert_eq. lia.
Qed.

Lemma arr_get_set_ne {A} `{Inhabited A} (l : list A) i j x :
  0 <= i -> 0 <= j -> i <> j -> arr_get (arr_set l i x) j = arr_get l j.
Proof.
  intros. unfold arr_get, arr_set. apply list_lookup_total_insert_ne. lia.
Qed.

#[export] Hint Rewrite @length_arr_set : zt_rw.
