(* ===== verification/CLib.v ===== *)
(** * The C library calls the tracer relies on

    A C string is the list of its bytes up to (not including) the terminating
    NUL; a [char *] cursor into it is the suffix it points at, so [*p] is
    [chr p] (0 at the end) and [p + n] is [drop n p].  The functions are the
    ones of the C standard in the "C" locale. *)

From S2P Require Import Prelude.

Abbreviation cstr := (list Z).

(** String literals of the source. *)
Definition lit (s : string) : cstr :=
  (fun a => Z.of_N (Ascii.N_of_ascii a)) <$> String.list_ascii_of_string s.

Definition chr (p : cstr) : Z := match p with [] => 0 | c :: _ => c end.

(** A list of bytes that really is a C string: no embedded NUL. *)
Definition is_cstr (s : cstr) : Prop := Forall (fun c => 0 < c < 256) s.

Definition isspace (c : Z) : bool := ((9 <=? c) && (c <=? 13)) || (c =? 32).
Definition isdigit (c : Z) : bool := (48 <=? c) && (c <=? 57).
Definition isprint (c : Z) : bool := (32 <=? c) && (c <=? 126).
Definition isalpha (c : Z) : bool :=
  ((65 <=? c) && (c <=? 90)) || ((97 <=? c) && (c <=? 122)).
Definition isalnum (c : Z) : bool := isalpha c || isdigit c.

Fixpoint skip_while (f : Z -> bool) (p : cstr) : cstr :=
  match p with
  | c :: p' => if f c then skip_while f p' else p
  | [] => []
  end.

(** [strncmp(p, text, strlen(text)) == 0]. *)
Fixpoint starts_with (text p : cstr) : bool :=
  match text, p with
  | [], _ => true
  | t :: text', c :: p' => (t =? c) && starts_with text' p'
  | _ :: _, [] => false
  end.

(** ** strtoul / strtoull *)

Definition ULLONG_MAX : Z := 2 ^ 64 - 1.

Definition digit_val (c : Z) : option Z :=
  if isdigit c then Some (c - 48)
  else if (97 <=? c) && (c <=? 122) then Some (c - 87)
  else if (65 <=? c) && (c <=? 90) then Some (c - 55)
  else None.

Definition digit_in (base c : Z) : option Z :=
  match digit_val c with
  | Some d => if d <? base then Some d else None
  | None => None
  end.

(** Accumulate the longest digit prefix. *)
Fixpoint strto_digits (base acc : Z) (p : cstr) : Z * cstr :=
  match p with
  | c :: p' =>
      match digit_in base c with
      | Some d => strto_digits base (acc * base + d) p'
      | None => (acc, p)
      end
  | [] => (acc, p)
  end.

Record strto_result := {
  st_value : Z;      (* the returned value *)
  st_erange : bool;  (* errno set to ERANGE *)
  st_rest : cstr     (* *endptr *)
}.

(** The base and the digits' start for base 0: 0x (with a hexadecimal digit
    after it), 0 (octal), or decimal. *)
Definition strto_prefix (base : Z) (p : cstr) : Z * cstr :=
  if base =? 0 then
    match p with
    | 48 :: x :: c :: _ =>
        if ((x =? 120) || (x =? 88)) && bool_decide (is_Some (digit_in 16 c))
        then (16, drop 2 p) else (8, p)
    | 48 :: _ => (8, p)
    | _ => (10, p)
    end
  else (base, p).

(** [unsigned long] and [unsigned long long] are both 64 bits wide on the two
    targets, so one definition models strtoul and strtoull. *)
Definition strtoull (p : cstr) (base : Z) : strto_result :=
  let p1 := skip_while isspace p in
  let '(neg, p2) :=
    match p1 with
    | 45 :: q => (true, q)
    | 43 :: q => (false, q)
    | _ => (false, p1)
    end in
  let '(b, p3) := strto_prefix base p2 in
  if bool_decide (is_Some (digit_in b (chr p3))) then
    let '(v, rest) := strto_digits b 0 p3 in
    if ULLONG_MAX <? v then {| st_value := ULLONG_MAX; st_erange := true; st_rest := rest |}
    else {| st_value := if neg : bool then u64 (- v) else v; st_erange := false; st_rest := rest |}
  else {| st_value := 0; st_erange := false; st_rest := p |}.

(** ** Facts *)

Lemma strto_digits_shorter base acc p v rest :
  strto_digits base acc p = (v, rest) -> (length rest <= length p)%nat.
Proof.
  revert acc. induction p as [|c p IH]; simpl; intros acc H; [by simplify_eq|].
  case_match; simplify_eq; [apply IH in H; lia|simpl; lia].
Qed.

Lemma skip_while_shorter f p : (length (skip_while f p) <= length p)%nat.
Proof. induction p as [|c p IH]; simpl; [done|]. case_match; simpl; lia. Qed.

Lemma skip_while_head f p : skip_while f p = [] \/ f (chr (skip_while f p)) = false.
Proof.
  induction p as [|c p IH]; simpl; [by left|].
  destruct (f c) eqn:E; [done|]. right. done.
Qed.

Lemma skip_while_idem f p : f (chr p) = false -> skip_while f p = p.
Proof. destruct p; simpl; [done|]. by intros ->. Qed.

Lemma skip_while_app f q p :
  Forall (fun c => f c = true) q -> skip_while f (q ++ p) = skip_while f p.
Proof. induction 1 as [|c q Hc _ IH]; simpl; [done|]. by rewrite Hc. Qed.

Lemma digit_in_range b c d : digit_in b c = Some d -> 0 <= d < b.
Proof.
  unfold digit_in, digit_val, isdigit.
  repeat case_match; intros; zsimp.
Qed.

Lemma strto_digits_nonneg b acc p v rest :
  0 <= acc -> 0 <= b -> strto_digits b acc p = (v, rest) -> 0 <= v.
Proof.
  revert acc. induction p as [|c p IH]; simpl; intros acc Ha Hb H; [by simplify_eq|].
  case_match; [|by simplify_eq].
  apply digit_in_range in H0. eapply IH in H; [done|nia|done].
Qed.

Lemma strtoull_range p base : 0 <= base -> is_u64 (st_value (strtoull p base)).
Proof.
  intros Hb. unfold strtoull.
  set (p1 := skip_while isspace p).
  destruct (match p1 with 45 :: q => (true, q) | 43 :: q => (false, q) | _ => (false, p1) end)
    as [neg p2].
  destruct (strto_prefix base p2) as [b p3] eqn:Hp.
  assert (0 <= b) by (unfold strto_prefix in Hp; repeat case_match; simplify_eq; lia).
  case_bool_decide; [|by unfold is_u64; simpl].
  destruct (strto_digits b 0 p3) as [v rest] eqn:Hd.
  case_match; simpl; [unfold is_u64, ULLONG_MAX; lia|].
  apply strto_digits_nonneg in Hd; [|lia..].
  destruct neg; [apply u64_range|]. zbool. unfold is_u64, ULLONG_MAX in *. lia.
Qed.

Lemma starts_with_app text p : starts_with text (text ++ p) = true.
Proof. induction text as [|t text IH]; simpl; [done|]. by rewrite Z.eqb_refl, IH. Qed.

(** ** Decimal output, as printf("%llu") writes it *)

Fixpoint dec_aux (fuel : nat) (z : Z) (acc : cstr) : cstr :=
  match fuel with
  | O => acc
  | S fuel' =>
      let acc' := 48 + z mod 10 :: acc in
      if z <? 10 then acc' else dec_aux fuel' (z / 10) acc'
  end.

(** 20 digits hold every 64-bit value. *)
Definition dec_str (z : Z) : cstr := dec_aux 20 z [].

Lemma digit_in_dec d : 0 <= d < 10 -> digit_in 10 (48 + d) = Some d.
Proof.
  intros Hd. unfold digit_in, digit_val, isdigit.
  replace ((48 <=? 48 + d) && (48 + d <=? 57)) with true by lia.
  replace (48 + d - 48) with d by lia. by replace (d <? 10) with true by lia.
Qed.

Lemma dec_aux_spec fuel z acc :
  0 <= z < 10 ^ Z.of_nat fuel ->
  exists ds, dec_aux fuel z acc = ds ++ acc /\ Forall (fun c => isdigit c = true) ds /\
    (ds <> [] \/ fuel = O) /\ (0 < z -> chr ds <> 48) /\ (z = 0 -> fuel <> O -> ds = [48]) /\
    forall a r, strto_digits 10 a (ds ++ r) = strto_digits 10 (a * 10 ^ Z.of_nat (length ds) + z) r.
Proof.
  revert z acc. induction fuel as [|fuel IH]; intros z acc Hz.
  { exists []. simpl in *. replace z with 0 by lia. split_and!; auto; try lia.
    intros. f_equal. lia. }
  cbn [dec_aux]. pose proof (Z.mod_pos_bound z 10 ltac:(lia)) as Hm.
  assert (Hdig : isdigit (48 + z mod 10) = true) by (unfold isdigit; lia).
  destruct (Z.ltb_spec z 10) as [Hlt|Hge].
  - exists [48 + z mod 10]. rewrite Z.mod_small in * by lia. split_and!; auto; try (simpl; lia); try (by intros ->).
    intros a r. cbn [app strto_digits length]. rewrite digit_in_dec by lia.
    f_equal; lia.
  - assert (Hq : 0 <= z / 10 < 10 ^ Z.of_nat fuel).
    { rewrite Nat2Z.inj_succ, Z.pow_succ_r in Hz by lia.
      split; [apply Z.div_pos; lia|]. apply Z.div_lt_upper_bound; lia. }
    assert (Hq1 : 0 < z / 10) by (apply Z.div_str_pos; lia).
    destruct (IH (z / 10) (48 + z mod 10 :: acc) Hq) as (ds & -> & Hd & Hne & Hh & _ & Hs).
    exists (ds ++ [48 + z mod 10]). rewrite <- app_assoc. split_and!; [done| | | | |].
    + apply Forall_app. auto.
    + left. by destruct ds.
    + intros _. destruct ds; [|by apply Hh].
      destruct Hne as [?|Hf0]; [done|]. subst fuel. simpl in Hq. lia.
    + lia.
    + intros a r. rewrite <- app_assoc, Hs. cbn [app strto_digits].
      rewrite digit_in_dec by lia. f_equal. rewrite length_app. cbn [length].
      rewrite Nat2Z.inj_add, Z.pow_add_r by lia. pose proof (Z.div_mod z 10 ltac:(lia)). lia.
Qed.

Lemma dec_str_spec z :
  is_u64 z ->
  dec_str z <> [] /\ Forall (fun c => isdigit c = true) (dec_str z) /\
  (0 < z -> chr (dec_str z) <> 48) /\ (z = 0 -> dec_str z = [48]) /\
  forall r, strto_digits 10 0 (dec_str z ++ r) = strto_digits 10 z r.
Proof.
  intros Hz. unfold is_u64 in Hz. unfold dec_str.
  destruct (dec_aux_spec 20 z []) as (ds & -> & Hd & Hne & Hh & H0 & Hs); [lia|].
  rewrite app_nil_r. split_and!; auto.
  by destruct Hne.
Qed.

Lemma strto_digits_stop b a r : digit_in b (chr r) = None -> strto_digits b a r = (a, r).
Proof. destruct r; simpl; [done|]. by intros ->. Qed.
