(* ===== verification/Types.v ===== *)
(** * Data shared by the components

    The structures of include/zt_payload.h, include/zt_injector.h and
    include/zt_trampoline_manager.h.  A [uint64_t] field is a [Z]; a fixed-size
    array is a list whose length the well-formedness predicates state.  The
    unions of [zt_trace_event_t] are two word arrays, of which the named members
    are views. *)

From S2P Require Import Prelude CLib.

(** ** Capacities *)

Definition ZT_TRACE_EVENT_CAPACITY : Z := 4096.
Definition ZT_TRACE_BUFFER_MAGIC : Z := 0x5a54425546464552.
Definition ZT_PROBE_FILTER_EXPR_MAX : Z := 128.
Definition ZT_PROBE_FILTER_TOKEN_CAP : Z := 64.
Definition ZT_TRACE_GP_ARG_COUNT : Z := 6.
Definition ZT_TRACE_FP_ARG_COUNT : Z := 8.
Definition ZT_PAYLOAD_PROBE_ACTION_CAP : Z := 32.
Definition ZT_CALL_ACTION_ARG_CAP : Z := ZT_TRACE_GP_ARG_COUNT.
Definition ZT_PROBES_CAPACITY : Z := 32.
Definition ZT_PROBE_ORIG_CODE_MAX : Z := 32.
Definition ZT_PROBE_SYMBOL_MAX : Z := 64.
Definition ZT_PROBE_MODULE_MAX : Z := 512.

(** ** Filter bytecode *)

Inductive zt_probe_filter_token_type_t :=
| ZT_PROBE_FILTER_TOK_END
| ZT_PROBE_FILTER_TOK_ARG
| ZT_PROBE_FILTER_TOK_NUM
| ZT_PROBE_FILTER_TOK_EQ
| ZT_PROBE_FILTER_TOK_NE
| ZT_PROBE_FILTER_TOK_GT
| ZT_PROBE_FILTER_TOK_GE
| ZT_PROBE_FILTER_TOK_LT
| ZT_PROBE_FILTER_TOK_LE
| ZT_PROBE_FILTER_TOK_AND
| ZT_PROBE_FILTER_TOK_OR
| ZT_PROBE_FILTER_TOK_NOT
| ZT_PROBE_FILTER_TOK_ADD
| ZT_PROBE_FILTER_TOK_SUB
| ZT_PROBE_FILTER_TOK_MUL
| ZT_PROBE_FILTER_TOK_DIV
| ZT_PROBE_FILTER_TOK_LPAREN
| ZT_PROBE_FILTER_TOK_RPAREN.

#[export] Instance token_type_eq_dec : EqDecision zt_probe_filter_token_type_t.
Proof. solve_decision. Defined.

Record zt_probe_filter_token_t := mk_token {
  tok_type : zt_probe_filter_token_type_t;
  tok_arg_index : Z;
  tok_value : Z
}.

#[export] Instance token_eq_dec : EqDecision zt_probe_filter_token_t.
Proof. solve_decision. Defined.

(** A zeroed token, what [memset] leaves in the array. *)
Definition zero_token : zt_probe_filter_token_t := mk_token ZT_PROBE_FILTER_TOK_END 0 0.

#[export] Instance token_inhabited : Inhabited zt_probe_filter_token_t := populate zero_token.

Record zt_probe_filter_t := mk_filter {
  flt_probe_id : Z;
  flt_enabled : Z;
  flt_token_count : Z;
  flt_expr : cstr;
  flt_tokens : list zt_probe_filter_token_t
}.

Definition zero_filter : zt_probe_filter_t :=
  mk_filter 0 0 0 [] (replicate (Z.to_nat ZT_PROBE_FILTER_TOKEN_CAP) zero_token).

(** ** Ring-buffer events *)

Definition ZT_TRACE_EVENT_ENTRY : Z := 0.
Definition ZT_TRACE_EVENT_RETURN : Z := 1.
Definition ZT_TRACE_EVENT_CALL : Z := 2.

Record zt_trace_event_t := mk_event {
  ev_committed_seq : Z;
  ev_probe_id : Z;
  ev_event_type : Z;
  ev_call_id : Z;
  ev_timestamp_ns : Z;
  ev_tid : Z;
  ev_cpu_id : Z;
  ev_args : list Z;      (* args[6] = value0..value5 = call_callee_addr, ... *)
  ev_fp_args : list Z    (* fp_args[8] = fp0..fp7, call_args[6] its prefix *)
}.

#[export] Instance event_eq_dec : EqDecision zt_trace_event_t.
Proof. solve_decision. Defined.

Definition zero_event : zt_trace_event_t :=
  mk_event 0 0 0 0 0 0 0 (replicate 6 0) (replicate 8 0).

#[export] Instance event_inhabited : Inhabited zt_trace_event_t := populate zero_event.

(** ** Call actions *)

Definition ZT_CALL_ACTION_ARG_CONST : Z := 1.
Definition ZT_CALL_ACTION_ARG_ENTRY_ARG : Z := 2.

Record zt_call_action_arg_t := mk_call_arg { ca_kind : Z; ca_value : Z }.

Definition zero_call_arg : zt_call_action_arg_t := mk_call_arg 0 0.

#[export] Instance call_arg_inhabited : Inhabited zt_call_action_arg_t := populate zero_call_arg.
#[export] Instance call_arg_eq_dec : EqDecision zt_call_action_arg_t.
Proof. solve_decision. Defined.

Record zt_probe_call_action_t := mk_call_action {
  act_enabled : Z;
  act_probe_id : Z;
  act_callee_addr : Z;
  act_arg_count : Z;
  act_args : list zt_call_action_arg_t
}.

Definition zero_call_action : zt_probe_call_action_t :=
  mk_call_action 0 0 0 0 (replicate 6 zero_call_arg).

#[export] Instance call_action_inhabited : Inhabited zt_probe_call_action_t :=
  populate zero_call_action.
#[export] Instance call_action_eq_dec : EqDecision zt_probe_call_action_t.
Proof. solve_decision. Defined.

(** ** The shared buffer *)

Record zt_trace_buffer_t := mk_buffer {
  buf_magic : Z;
  buf_write_seq : Z;
  buf_call_action_count : Z;
  buf_call_actions : list zt_probe_call_action_t;
  buf_events : list zt_trace_event_t
}.

Definition zero_buffer : zt_trace_buffer_t :=
  mk_buffer 0 0 0
    (replicate (Z.to_nat ZT_PAYLOAD_PROBE_ACTION_CAP) zero_call_action)
    (replicate (Z.to_nat ZT_TRACE_EVENT_CAPACITY) zero_event).

(** [sizeof(zt_trace_buffer_t)]: three words, 32 actions of 4 + 6*2 words and
    4096 events of 21 words. *)
Definition sizeof_zt_probe_call_action_t : Z := 8 * (4 + 2 * 6).
Definition sizeof_zt_trace_event_t : Z := 8 * (7 + 6 + 8).
Definition offsetof_call_actions : Z := 24.
Definition offsetof_events : Z :=
  offsetof_call_actions + ZT_PAYLOAD_PROBE_ACTION_CAP * sizeof_zt_probe_call_action_t.
Definition sizeof_zt_trace_buffer_t : Z :=
  offsetof_events + ZT_TRACE_EVENT_CAPACITY * sizeof_zt_trace_event_t.

(** ** Probes *)

Inductive zt_probe_state_t :=
| ZT_PROBE_EMPTY
| ZT_PROBE_RESOLVED
| ZT_PROBE_PREPARED
| ZT_PROBE_INSTALLED
| ZT_PROBE_DISABLED.

#[export] Instance probe_state_eq_dec : EqDecision zt_probe_state_t.
Proof. solve_decision. Defined.

Record zt_symbol_target_t := mk_target {
  tgt_symbol : cstr;
  tgt_module_path : cstr;
  tgt_remote_addr : Z
}.

Definition zero_target : zt_symbol_target_t := mk_target [] [] 0.

Record zt_probe_info_t := mk_probe {
  pr_probe_id : Z;
  pr_target : zt_symbol_target_t;
  pr_trampoline_addr : Z;
  pr_trampoline_slot : Z;
  pr_orig_code : list Z;
  pr_orig_len : Z;
  pr_state : zt_probe_state_t;
  pr_filter : zt_probe_filter_t;
  pr_call_action : zt_probe_call_action_t;
  pr_call_action_slot : Z;
  pr_call_symbol : cstr
}.

Definition zero_probe : zt_probe_info_t :=
  mk_probe 0 zero_target 0 0 (replicate (Z.to_nat ZT_PROBE_ORIG_CODE_MAX) 0) 0
    ZT_PROBE_EMPTY zero_filter zero_call_action 0 [].

#[export] Instance probe_inhabited : Inhabited zt_probe_info_t := populate zero_probe.
