(* ===== verification/Filter.v ===== *)
(** * The conditional-probe expression compiler and evaluator (src/zt_filter.c)

    [zt_probe_filter_compile] tokenizes the text of an `if` condition into the
    fixed token array of the probe and validates it by one dry run of the
    evaluator; [zt_probe_filter_eval] runs the evaluator, a recursive descent
    over the token array, on an entry event.

    The C functions share a context [ctx] that they mutate; here every parse
    function takes the context and returns the value with the new context.
    [None] is exhaustion of the fuel that bounds the recursion (FilterSpec shows
    that the fuel used never runs out). *)

From S2P Require Import Prelude CLib Types.

(** ** Evaluation context *)

Record zt_filter_eval_t := mk_eval {
  fe_filter : zt_probe_filter_t;
  fe_event : option zt_trace_event_t;
  fe_pos : Z;
  fe_ok : bool;
  fe_eval_enabled : bool
}.

Definition set_pos (c : zt_filter_eval_t) (p : Z) : zt_filter_eval_t :=
  mk_eval (fe_filter c) (fe_event c) p (fe_ok c) (fe_eval_enabled c).
Definition set_ok (c : zt_filter_eval_t) (b : bool) : zt_filter_eval_t :=
  mk_eval (fe_filter c) (fe_event c) (fe_pos c) b (fe_eval_enabled c).

(** [zt_filter_set_eval_enabled]: the new context and the previous flag. *)
Definition zt_filter_set_eval_enabled (c : zt_filter_eval_t) (b : bool)
    : bool * zt_filter_eval_t :=
  (fe_eval_enabled c, mk_eval (fe_filter c) (fe_event c) (fe_pos c) (fe_ok c) b).

Definition zt_filter_eval_init (filter : zt_probe_filter_t) (event : option zt_trace_event_t)
    : zt_filter_eval_t :=
  mk_eval filter event 0 true (bool_decide (is_Some event)).

Definition zt_filter_event_arg (event : option zt_trace_event_t) (arg_index : Z) : Z :=
  match event with
  | None => 0
  | Some e => if arg_index >=? ZT_TRACE_GP_ARG_COUNT then 0 else arr_get (ev_args e) arg_index
  end.

(** ** Token access *)

Definition zt_filter_peek (c : zt_filter_eval_t) : option zt_probe_filter_token_t :=
  if fe_pos c >=? flt_token_count (fe_filter c) then None
  else Some (arr_get (flt_tokens (fe_filter c)) (fe_pos c)).

(** [Some ctx'] when the token was taken, [None] when it was not. *)
Definition zt_filter_take (c : zt_filter_eval_t) (type : zt_probe_filter_token_type_t)
    : option zt_filter_eval_t :=
  match zt_filter_peek c with
  | None => None
  | Some token => if bool_decide (tok_type token = type) then Some (set_pos c (fe_pos c + 1)) else None
  end.

Definition zt_filter_token_is_cmp (type : zt_probe_filter_token_type_t) : bool :=
  match type with
  | ZT_PROBE_FILTER_TOK_EQ | ZT_PROBE_FILTER_TOK_NE | ZT_PROBE_FILTER_TOK_GT
  | ZT_PROBE_FILTER_TOK_GE | ZT_PROBE_FILTER_TOK_LT | ZT_PROBE_FILTER_TOK_LE => true
  | _ => false
  end.

Definition zt_filter_take_cmp (c : zt_filter_eval_t)
    : option (zt_probe_filter_token_type_t * zt_filter_eval_t) :=
  match zt_filter_peek c with
  | None => None
  | Some token =>
      if zt_filter_token_is_cmp (tok_type token)
      then Some (tok_type token, set_pos c (fe_pos c + 1)) else None
  end.

Definition zt_filter_apply_cmp (type : zt_probe_filter_token_type_t) (lhs rhs : Z) : Z :=
  match type with
  | ZT_PROBE_FILTER_TOK_EQ => b2z (lhs =? rhs)
  | ZT_PROBE_FILTER_TOK_NE => b2z (negb (lhs =? rhs))
  | ZT_PROBE_FILTER_TOK_GT => b2z (rhs <? lhs)
  | ZT_PROBE_FILTER_TOK_GE => b2z (rhs <=? lhs)
  | ZT_PROBE_FILTER_TOK_LT => b2z (lhs <? rhs)
  | ZT_PROBE_FILTER_TOK_LE => b2z (lhs <=? rhs)
  | _ => 0
  end.

(** ** Recursive descent *)

Definition parse_fn : Type := zt_filter_eval_t -> option (Z * zt_filter_eval_t).

(** One iteration of a [while (ctx->ok) { ... }] loop over [lhs]: leave the loop,
    go round again, or return from the function. *)
Inductive loop_ctl :=
| LBreak (lhs : Z) (c : zt_filter_eval_t)
| LNext (lhs : Z) (c : zt_filter_eval_t)
| LReturn (v : Z) (c : zt_filter_eval_t).

Fixpoint while_ok (fuel : nat) (body : Z -> zt_filter_eval_t -> option loop_ctl)
    (lhs : Z) (c : zt_filter_eval_t) : option (Z * zt_filter_eval_t) :=
  match fuel with
  | O => None
  | S fuel' =>
      if fe_ok c then
        match body lhs c with
        | None => None
        | Some (LBreak v c') => Some (v, c')
        | Some (LNext v c') => while_ok fuel' body v c'
        | Some (LReturn v c') => Some (v, c')
        end
      else Some (lhs, c)
  end.

(** [zt_filter_parse_or] is the recursion point: the functions below take it as
    an argument, and it is tied at the end. *)
Definition zt_filter_parse_primary (parse_or : parse_fn) : parse_fn := fun c =>
  match zt_filter_peek c with
  | None => Some (0, set_ok c false)
  | Some token =>
      match zt_filter_take c ZT_PROBE_FILTER_TOK_NUM with
      | Some c1 => Some (tok_value token, c1)
      | None =>
          match zt_filter_take c ZT_PROBE_FILTER_TOK_ARG with
          | Some c1 =>
              if negb (fe_eval_enabled c1) || bool_decide (fe_event c1 = None)
              then Some (0, c1)
              else Some (zt_filter_event_arg (fe_event c1) (tok_arg_index token), c1)
          | None =>
              match zt_filter_take c ZT_PROBE_FILTER_TOK_LPAREN with
              | Some c1 =>
                  match parse_or c1 with
                  | None => None
                  | Some (value, c2) =>
                      match zt_filter_take c2 ZT_PROBE_FILTER_TOK_RPAREN with
                      | Some c3 => Some (value, c3)
                      | None => Some (value, set_ok c2 false)
                      end
                  end
              | None => Some (0, set_ok c false)
              end
          end
      end
  end.

Fixpoint zt_filter_parse_unary (fuel : nat) (parse_or : parse_fn) : parse_fn := fun c =>
  match fuel with
  | O => None
  | S fuel' =>
      match zt_filter_take c ZT_PROBE_FILTER_TOK_NOT with
      | Some c1 =>
          match zt_filter_parse_unary fuel' parse_or c1 with
          | None => None
          | Some (v, c2) => Some (b2z (negb (truthy v)), c2)
          end
      | None => zt_filter_parse_primary parse_or c
      end
  end.

Definition zt_filter_mul_body (unary : parse_fn) (lhs : Z) (c : zt_filter_eval_t)
    : option loop_ctl :=
  match zt_filter_take c ZT_PROBE_FILTER_TOK_MUL with
  | Some c1 =>
      match unary c1 with
      | None => None
      | Some (rhs, c2) => Some (LNext (lhs *64 rhs) c2)
      end
  | None =>
      match zt_filter_take c ZT_PROBE_FILTER_TOK_DIV with
      | Some c1 =>
          match unary c1 with
          | None => None
          | Some (rhs, c2) =>
              if negb (fe_eval_enabled c2) then Some (LNext 0 c2)
              else if rhs =? 0 then Some (LReturn 0 (set_ok c2 false))
              else Some (LNext (lhs / rhs) c2)
          end
      | None => Some (LBreak lhs c)
      end
  end.

Definition zt_filter_parse_mul (fuel : nat) (parse_or : parse_fn) : parse_fn := fun c =>
  match zt_filter_parse_unary fuel parse_or c with
  | None => None
  | Some (lhs, c1) => while_ok fuel (zt_filter_mul_body (zt_filter_parse_unary fuel parse_or)) lhs c1
  end.

Definition zt_filter_add_body (mul : parse_fn) (lhs : Z) (c : zt_filter_eval_t)
    : option loop_ctl :=
  match zt_filter_take c ZT_PROBE_FILTER_TOK_ADD with
  | Some c1 =>
      match mul c1 with
      | None => None
      | Some (rhs, c2) => Some (LNext (lhs +64 rhs) c2)
      end
  | None =>
      match zt_filter_take c ZT_PROBE_FILTER_TOK_SUB with
      | Some c1 =>
          match mul c1 with
          | None => None
          | Some (rhs, c2) => Some (LNext (lhs -64 rhs) c2)
          end
      | None => Some (LBreak lhs c)
      end
  end.

Definition zt_filter_parse_add (fuel : nat) (parse_or : parse_fn) : parse_fn := fun c =>
  match zt_filter_parse_mul fuel parse_or c with
  | None => None
  | Some (lhs, c1) => while_ok fuel (zt_filter_add_body (zt_filter_parse_mul fuel parse_or)) lhs c1
  end.

Definition zt_filter_cmp_body (add : parse_fn) (lhs : Z) (c : zt_filter_eval_t)
    : option loop_ctl :=
  match zt_filter_take_cmp c with
  | None => Some (LBreak lhs c)
  | Some (type, c1) =>
      match add c1 with
      | None => None
      | Some (rhs, c2) => Some (LNext (zt_filter_apply_cmp type lhs rhs) c2)
      end
  end.

Definition zt_filter_parse_cmp (fuel : nat) (parse_or : parse_fn) : parse_fn := fun c =>
  match zt_filter_parse_add fuel parse_or c with
  | None => None
  | Some (lhs, c1) => while_ok fuel (zt_filter_cmp_body (zt_filter_parse_add fuel parse_or)) lhs c1
  end.

Definition zt_filter_parse_with_eval (c : zt_filter_eval_t) (eval_enabled : bool)
    (parse : parse_fn) : option (Z * zt_filter_eval_t) :=
  let '(previous_eval, c1) := zt_filter_set_eval_enabled c eval_enabled in
  match parse c1 with
  | None => None
  | Some (value, c2) => Some (value, snd (zt_filter_set_eval_enabled c2 previous_eval))
  end.

Definition zt_filter_parse_maybe_skipped (c : zt_filter_eval_t) (skip_eval : bool)
    (parse : parse_fn) : option (Z * zt_filter_eval_t) :=
  if skip_eval then zt_filter_parse_with_eval c false parse else parse c.

Definition zt_filter_and_body (cmp : parse_fn) (lhs : Z) (c : zt_filter_eval_t)
    : option loop_ctl :=
  match zt_filter_take c ZT_PROBE_FILTER_TOK_AND with
  | None => Some (LBreak lhs c)
  | Some c1 =>
      match zt_filter_parse_maybe_skipped c1 (fe_eval_enabled c1 && negb (truthy lhs)) cmp with
      | None => None
      | Some (rhs, c2) => Some (LNext (b2z (truthy lhs && truthy rhs)) c2)
      end
  end.

Definition zt_filter_parse_and (fuel : nat) (parse_or : parse_fn) : parse_fn := fun c =>
  match zt_filter_parse_cmp fuel parse_or c with
  | None => None
  | Some (lhs, c1) => while_ok fuel (zt_filter_and_body (zt_filter_parse_cmp fuel parse_or)) lhs c1
  end.

Definition zt_filter_or_body (and_ : parse_fn) (lhs : Z) (c : zt_filter_eval_t)
    : option loop_ctl :=
  match zt_filter_take c ZT_PROBE_FILTER_TOK_OR with
  | None => Some (LBreak lhs c)
  | Some c1 =>
      match zt_filter_parse_maybe_skipped c1 (fe_eval_enabled c1 && truthy lhs) and_ with
      | None => None
      | Some (rhs, c2) => Some (LNext (b2z (truthy lhs || truthy rhs)) c2)
      end
  end.

Fixpoint zt_filter_parse_or (fuel : nat) : parse_fn := fun c =>
  match fuel with
  | O => None
  | S fuel' =>
      let parse_or := zt_filter_parse_or fuel' in
      match zt_filter_parse_and fuel' parse_or c with
      | None => None
      | Some (lhs, c1) =>
          while_ok fuel' (zt_filter_or_body (zt_filter_parse_and fuel' parse_or)) lhs c1
      end
  end.

(** Every recursion and every loop iteration consumes a token. *)
Definition parse_fuel (filter : zt_probe_filter_t) : nat :=
  (3 + Z.to_nat (flt_token_count filter))%nat.

(** ** Validation and evaluation *)

Definition zt_filter_validate (filter : zt_probe_filter_t) : Z :=
  if negb (truthy (flt_enabled filter)) || (flt_token_count filter =? 0) then -1
  else
    match zt_filter_parse_or (parse_fuel filter) (zt_filter_eval_init filter None) with
    | Some (_, c) => if fe_ok c && (fe_pos c =? flt_token_count filter) then 0 else -1
    | None => -1
    end.

Definition zt_probe_filter_eval (filter : option zt_probe_filter_t)
    (event : option zt_trace_event_t) : Z :=
  match filter with
  | None => 1
  | Some f =>
      if negb (truthy (flt_enabled f)) then 1
      else
        match zt_filter_parse_or (parse_fuel f) (zt_filter_eval_init f event) with
        | Some (result, c) =>
            if negb (fe_ok c) || negb (fe_pos c =? flt_token_count f) then 0
            else b2z (truthy result)
        | None => 0
        end
  end.

(** ** Tokenizer

    The [append] functions return the C result code (1 appended, 0 not this kind
    of token, -1 error) with the filter and the cursor they leave behind. *)

Definition zt_filter_append_token (filter : zt_probe_filter_t)
    (type : zt_probe_filter_token_type_t) (value arg_index : Z)
    : option zt_probe_filter_t :=
  if flt_token_count filter >=? ZT_PROBE_FILTER_TOKEN_CAP then None
  else Some (mk_filter (flt_probe_id filter) (flt_enabled filter)
               (flt_token_count filter + 1) (flt_expr filter)
               (arr_set (flt_tokens filter) (flt_token_count filter)
                  (mk_token type arg_index value))).

Definition append_result : Type := Z * zt_probe_filter_t * cstr.

Definition zt_filter_op_rule_t : Type := cstr * zt_probe_filter_token_type_t.

Definition k_two_char_ops : list zt_filter_op_rule_t :=
  [ (lit "==", ZT_PROBE_FILTER_TOK_EQ);
    (lit "!=", ZT_PROBE_FILTER_TOK_NE);
    (lit ">=", ZT_PROBE_FILTER_TOK_GE);
    (lit "<=", ZT_PROBE_FILTER_TOK_LE);
    (lit "&&", ZT_PROBE_FILTER_TOK_AND);
    (lit "||", ZT_PROBE_FILTER_TOK_OR) ].

Definition k_one_char_ops : list zt_filter_op_rule_t :=
  [ (lit ">", ZT_PROBE_FILTER_TOK_GT);
    (lit "<", ZT_PROBE_FILTER_TOK_LT);
    (lit "!", ZT_PROBE_FILTER_TOK_NOT);
    (lit "+", ZT_PROBE_FILTER_TOK_ADD);
    (lit "-", ZT_PROBE_FILTER_TOK_SUB);
    (lit "*", ZT_PROBE_FILTER_TOK_MUL);
    (lit "/", ZT_PROBE_FILTER_TOK_DIV);
    (lit "(", ZT_PROBE_FILTER_TOK_LPAREN);
    (lit ")", ZT_PROBE_FILTER_TOK_RPAREN) ].

Definition zt_filter_skip_spaces (cursor : cstr) : cstr := skip_while isspace cursor.

Fixpoint zt_filter_append_operator (filter : zt_probe_filter_t) (cursor : cstr)
    (rules : list zt_filter_op_rule_t) : append_result :=
  match rules with
  | [] => (0, filter, cursor)
  | (text, type) :: rules' =>
      if starts_with text cursor then
        match zt_filter_append_token filter type 0 0 with
        | None => (-1, filter, cursor)
        | Some filter' => (1, filter', drop (length text) cursor)
        end
      else zt_filter_append_operator filter cursor rules'
  end.

Definition zt_filter_append_arg (filter : zt_probe_filter_t) (cursor : cstr) : append_result :=
  if negb (starts_with (lit "arg") cursor) || negb (isdigit (chr (drop 3 cursor)))
  then (0, filter, cursor)
  else
    let r := strtoull (drop 3 cursor) 10 in
    if bool_decide (st_rest r = drop 3 cursor) || (st_value r >=? ZT_TRACE_GP_ARG_COUNT)
    then (-1, filter, cursor)
    else
      match zt_filter_append_token filter ZT_PROBE_FILTER_TOK_ARG 0 (st_value r mod 256) with
      | None => (-1, filter, cursor)
      | Some filter' => (1, filter', st_rest r)
      end.

Definition zt_filter_append_number (filter : zt_probe_filter_t) (cursor : cstr) : append_result :=
  if negb (isdigit (chr cursor)) then (0, filter, cursor)
  else
    let r := strtoull cursor 0 in
    if bool_decide (st_rest r = cursor) || st_erange r then (-1, filter, cursor)
    else
      match zt_filter_append_token filter ZT_PROBE_FILTER_TOK_NUM (st_value r) 0 with
      | None => (-1, filter, cursor)
      | Some filter' => (1, filter', st_rest r)
      end.

Definition zt_filter_append_next_token (filter : zt_probe_filter_t) (cursor : cstr)
    : append_result :=
  let cursor := zt_filter_skip_spaces cursor in
  if chr cursor =? 0 then (0, filter, cursor)
  else
    let '(rc, f1, c1) := zt_filter_append_arg filter cursor in
    if negb (rc =? 0) then (rc, f1, c1)
    else
      let '(rc, f2, c2) := zt_filter_append_number f1 c1 in
      if negb (rc =? 0) then (rc, f2, c2)
      else
        let '(rc, f3, c3) := zt_filter_append_operator f2 c2 k_two_char_ops in
        if negb (rc =? 0) then (rc, f3, c3)
        else zt_filter_append_operator f3 c3 k_one_char_ops.

(** The tokenizing loop; every successful iteration consumes a character. *)
Fixpoint compile_loop (fuel : nat) (filter : zt_probe_filter_t) (p : cstr)
    : option (Z * zt_probe_filter_t) :=
  match fuel with
  | O => None
  | S fuel' =>
      if chr p =? 0 then Some (0, filter)
      else
        let '(rc, filter', p') := zt_filter_append_next_token filter p in
        if rc <=? 0 then Some (-1, filter') else compile_loop fuel' filter' p'
  end.

(** The result code and the filter as the C function leaves it. *)
Definition zt_probe_filter_compile (expr : option cstr) (filter : zt_probe_filter_t)
    : Z * zt_probe_filter_t :=
  match expr with
  | None => (-1, filter)
  | Some expr =>
      let p := zt_filter_skip_spaces expr in
      if (chr p =? 0) || (Z.of_nat (length p) >=? ZT_PROBE_FILTER_EXPR_MAX) then (-1, zero_filter)
      else
        let filter := mk_filter 0 1 0 p (flt_tokens zero_filter) in
        match compile_loop (S (length p)) filter p with
        | Some (rc, filter') => if rc =? 0 then (zt_filter_validate filter', filter') else (-1, filter')
        | None => (-1, filter)
        end
  end.
