(* ===== verification/FilterSpec.v ===== *)
(** * What the filter evaluator computes

    The abstract specification of src/zt_filter.c: expressions with their
    short-circuit semantics on 64-bit words, a grammar with five left-associative
    precedence levels over the token array, and the refinement: the recursive
    descent accepts exactly the token arrays the grammar derives, and computes
    the value the semantics gives to the derived expression. *)

From S2P Require Import Prelude CLib Types Filter.

(** ** Expressions and their meaning *)

Inductive expr :=
| ENum (v : Z)
| EArg (index : Z)
| ENot (e : expr)
| EBin (op : zt_probe_filter_token_type_t) (e1 e2 : expr).

(** The truth value of a comparison, as a word. *)
Definition truth (P : Prop) `{Decision P} : Z := if decide P then 1 else 0.

(** Strict operators on words; [None] is a division by zero. *)
Definition apply_op (op : zt_probe_filter_token_type_t) (x y : Z) : option Z :=
  match op with
  | ZT_PROBE_FILTER_TOK_MUL => Some (x *64 y)
  | ZT_PROBE_FILTER_TOK_DIV => if y =? 0 then None else Some (x / y)
  | ZT_PROBE_FILTER_TOK_ADD => Some (x +64 y)
  | ZT_PROBE_FILTER_TOK_SUB => Some (x -64 y)
  | ZT_PROBE_FILTER_TOK_EQ => Some (truth (x = y))
  | ZT_PROBE_FILTER_TOK_NE => Some (truth (x <> y))
  | ZT_PROBE_FILTER_TOK_LT => Some (truth (x < y))
  | ZT_PROBE_FILTER_TOK_LE => Some (truth (x <= y))
  | ZT_PROBE_FILTER_TOK_GT => Some (truth (x > y))
  | ZT_PROBE_FILTER_TOK_GE => Some (truth (x >= y))
  | _ => None
  end.

(** The argument register an `argN` names; 0 for one the event does not have. *)
Definition arg_value (ev : option zt_trace_event_t) (i : Z) : Z :=
  default 0 (event ← ev; if decide (i < 6) then Some (ev_args event !!! Z.to_nat i) else None).

(** The value of an expression on the arguments of an event.  [None]: a division
    by zero is reached; `&&` and `||` do not reach a skipped right operand. *)
Fixpoint eval_expr (ev : option zt_trace_event_t) (e : expr) : option Z :=
  match e with
  | ENum v => Some v
  | EArg i => Some (arg_value ev i)
  | ENot e => v ← eval_expr ev e; Some (b2z (negb (truthy v)))
  | EBin op e1 e2 =>
      x ← eval_expr ev e1;
      if bool_decide (op = ZT_PROBE_FILTER_TOK_AND) then
        if truthy x then y ← eval_expr ev e2; Some (b2z (truthy y)) else Some 0
      else if bool_decide (op = ZT_PROBE_FILTER_TOK_OR) then
        if truthy x then Some 1 else y ← eval_expr ev e2; Some (b2z (truthy y))
      else y ← eval_expr ev e2; apply_op op x y
  end.

Lemma truth_b2z (P : Prop) `{Decision P} b : (P <-> b = true) -> truth P = b2z b.
Proof.
  intros [H1 H2]. unfold truth. case_decide as Hd; destruct b; try done.
  - by specialize (H1 Hd).
  - by destruct (Hd (H2 eq_refl)).
Qed.

(** The code's comparisons and its argument lookup compute these. *)
Lemma apply_cmp_op t x y :
  zt_filter_token_is_cmp t = true -> apply_op t x y = Some (zt_filter_apply_cmp t x y).
Proof. destruct t; try done; intros _; cbn; f_equal; apply truth_b2z; lia. Qed.

Lemma event_arg_value ev i : zt_filter_event_arg ev i = arg_value ev i.
Proof.
  unfold zt_filter_event_arg, arg_value, ZT_TRACE_GP_ARG_COUNT. destruct ev as [e|]; [cbn|done].
  case_decide; destruct (Z.geb_spec i 6); try done; lia.
Qed.

(** ** Grammar

    Level 0 is a unary expression; level n > 0 is a left-associative chain of
    level n-1 expressions joined by the operators of precedence n. *)

Definition op_prec (t : zt_probe_filter_token_type_t) : option nat :=
  match t with
  | ZT_PROBE_FILTER_TOK_MUL | ZT_PROBE_FILTER_TOK_DIV => Some 1%nat
  | ZT_PROBE_FILTER_TOK_ADD | ZT_PROBE_FILTER_TOK_SUB => Some 2%nat
  | ZT_PROBE_FILTER_TOK_EQ | ZT_PROBE_FILTER_TOK_NE | ZT_PROBE_FILTER_TOK_GT
  | ZT_PROBE_FILTER_TOK_GE | ZT_PROBE_FILTER_TOK_LT | ZT_PROBE_FILTER_TOK_LE => Some 3%nat
  | ZT_PROBE_FILTER_TOK_AND => Some 4%nat
  | ZT_PROBE_FILTER_TOK_OR => Some 5%nat
  | _ => None
  end.

Definition top_level : nat := 5.

Section grammar.
Context (toks : list zt_probe_filter_token_t).

Definition tok_at (i : nat) (t : zt_probe_filter_token_type_t) : Prop :=
  exists tok, toks !! i = Some tok /\ tok_type tok = t.

(** [derives n i j e]: the tokens at positions i..j-1 are a level n expression
    whose tree is e.  [chain n e0 i j e]: appended to a level n expression with
    tree e0, they make one with tree e. *)
Inductive derives : nat -> nat -> nat -> expr -> Prop :=
| d_num i tok :
    toks !! i = Some tok -> tok_type tok = ZT_PROBE_FILTER_TOK_NUM ->
    derives 0 i (S i) (ENum (tok_value tok))
| d_arg i tok :
    toks !! i = Some tok -> tok_type tok = ZT_PROBE_FILTER_TOK_ARG ->
    derives 0 i (S i) (EArg (tok_arg_index tok))
| d_paren i j e :
    tok_at i ZT_PROBE_FILTER_TOK_LPAREN ->
    derives top_level (S i) j e ->
    tok_at j ZT_PROBE_FILTER_TOK_RPAREN ->
    derives 0 i (S j) e
| d_not i j e :
    tok_at i ZT_PROBE_FILTER_TOK_NOT -> derives 0 (S i) j e ->
    derives 0 i j (ENot e)
| d_chain n i k j e0 e :
    derives n i k e0 -> chain (S n) e0 k j e -> derives (S n) i j e
with chain : nat -> expr -> nat -> nat -> expr -> Prop :=
| c_end n e i : chain n e i i e
| c_op n op i k j e0 e1 e :
    tok_at i op -> op_prec op = Some (S n) ->
    derives n (S i) k e1 ->
    chain (S n) (EBin op e0 e1) k j e ->
    chain (S n) e0 i j e.

Scheme derives_mut := Induction for derives Sort Prop
  with chain_mut := Induction for chain Sort Prop.
Combined Scheme derives_chain_ind from derives_mut, chain_mut.

Lemma tok_at_lt i t : tok_at i t -> (i < length toks)%nat.
Proof. intros (tok & H & _). eauto using lookup_lt_Some. Qed.

Lemma derives_chain_span :
  (forall n i j e, derives n i j e -> (i < j <= length toks)%nat) /\
  (forall n e0 i j e, chain n e0 i j e -> (i <= j)%nat /\ ((i <= length toks)%nat -> (j <= length toks)%nat)).
Proof.
  apply derives_chain_ind; intros;
    repeat match goal with H : tok_at _ _ |- _ => apply tok_at_lt in H end;
    repeat match goal with H : toks !! _ = Some _ |- _ => apply lookup_lt_Some in H end; lia.
Qed.

Lemma derives_span n i j e : derives n i j e -> (i < j <= length toks)%nat.
Proof. apply derives_chain_span. Qed.

(** A division by zero in the left part is one of the whole chain. *)
Lemma chain_strict ev n e0 i j e :
  chain n e0 i j e -> eval_expr ev e0 = None -> eval_expr ev e = None.
Proof.
  induction 1 as [|n op i k j e0 e1 e _ _ _ _ IH]; [done|].
  intros H. apply IH. simpl. by rewrite H.
Qed.

(** The next token does not continue a level n expression. *)
Definition stops (n i : nat) : Prop :=
  forall tok m, toks !! i = Some tok -> op_prec (tok_type tok) = Some m -> (n < m)%nat.

Lemma stops_pred n i : stops (S n) i -> stops n i.
Proof. intros H tok m H1 H2. specialize (H tok m H1 H2). lia. Qed.

Lemma stops_before_op n i op : tok_at i op -> op_prec op = Some (S n) -> stops n i.
Proof. intros (tok & Ht & <-) Hp tok' m H1 H2. simplify_eq. lia. Qed.

Lemma stops_other n i t : tok_at i t -> op_prec t = None -> stops n i.
Proof. intros (tok & Ht & <-) Hp tok' m H1 H2. by simplify_eq. Qed.

Lemma stops_end n i : (length toks <= i)%nat -> stops n i.
Proof. intros H tok m H1. apply lookup_lt_Some in H1. lia. Qed.

End grammar.

(** The tokens a filter holds. *)
Definition filter_tokens (f : zt_probe_filter_t) : list zt_probe_filter_token_t :=
  take (Z.to_nat (flt_token_count f)) (flt_tokens f).

(** A filter denotes an expression when the grammar derives it from all its tokens. *)
Definition filter_denotes (f : zt_probe_filter_t) (e : expr) : Prop :=
  derives (filter_tokens f) top_level 0 (length (filter_tokens f)) e.

(** The array invariant of [zt_probe_filter_t]. *)
Definition filter_wf (f : zt_probe_filter_t) : Prop :=
  length (flt_tokens f) = Z.to_nat ZT_PROBE_FILTER_TOKEN_CAP /\
  0 <= flt_token_count f <= ZT_PROBE_FILTER_TOKEN_CAP.

(** ** The recursive descent, level by level *)

Definition parse_body (n : nat) (sub : parse_fn) : Z -> zt_filter_eval_t -> option loop_ctl :=
  match n with
  | 1%nat => zt_filter_mul_body sub
  | 2%nat => zt_filter_add_body sub
  | 3%nat => zt_filter_cmp_body sub
  | 4%nat => zt_filter_and_body sub
  | _ => zt_filter_or_body sub
  end.

Fixpoint parse_level (fuel : nat) (parse_or : parse_fn) (n : nat) : parse_fn :=
  match n with
  | O => zt_filter_parse_unary fuel parse_or
  | S n' => fun c =>
      match parse_level fuel parse_or n' c with
      | None => None
      | Some (lhs, c1) => while_ok fuel (parse_body n (parse_level fuel parse_or n')) lhs c1
      end
  end.

Lemma parse_or_level fuel c :
  zt_filter_parse_or (S fuel) c = parse_level fuel (zt_filter_parse_or fuel) top_level c.
Proof. reflexivity. Qed.

Section refinement.
Context (f : zt_probe_filter_t) (ev : option zt_trace_event_t) (Hwf : filter_wf f).

Let toks := filter_tokens f.

(** The contexts of a run that has met no error. *)
Definition st (en : bool) (i : nat) : zt_filter_eval_t := mk_eval f ev (Z.of_nat i) true en.

Lemma peek_st en i : zt_filter_peek (st en i) = toks !! i.
Proof using Hwf.
  destruct Hwf as [Hl Hc]. unfold zt_filter_peek, toks, filter_tokens. simpl.
  rewrite Z.geb_leb. destruct (Z.leb_spec (flt_token_count f) (Z.of_nat i)).
  - symmetry. apply lookup_ge_None. rewrite length_take. lia.
  - rewrite lookup_take_lt by lia. unfold arr_get. rewrite Nat2Z.id.
    symmetry. apply list_lookup_lookup_total_lt.
    rewrite Hl. unfold ZT_PROBE_FILTER_TOKEN_CAP in *. lia.
Qed.

Lemma set_pos_st en i : set_pos (st en i) (fe_pos (st en i) + 1) = st en (S i).
Proof. unfold set_pos, st. simpl. f_equal. lia. Qed.

Lemma take_st_eq en i t : tok_at toks i t -> zt_filter_take (st en i) t = Some (st en (S i)).
Proof using Hwf.
  intros (tok & H & <-). unfold zt_filter_take. rewrite peek_st, H.
  rewrite bool_decide_eq_true_2 by done. by rewrite set_pos_st.
Qed.

Lemma take_st_ne en i t t' : tok_at toks i t' -> t' <> t -> zt_filter_take (st en i) t = None.
Proof using Hwf.
  intros (tok & H & <-) Hne. unfold zt_filter_take. rewrite peek_st, H.
  by rewrite bool_decide_eq_false_2.
Qed.

Lemma take_st_none en i t : toks !! i = None -> zt_filter_take (st en i) t = None.
Proof using Hwf. intros H. unfold zt_filter_take. by rewrite peek_st, H. Qed.

Lemma take_st_inv en i t c : zt_filter_take (st en i) t = Some c -> c = st en (S i) /\ tok_at toks i t.
Proof using Hwf.
  unfold zt_filter_take. rewrite peek_st.
  destruct (toks !! i) as [tok|] eqn:E; [|done].
  case_bool_decide; [|done]. rewrite set_pos_st. intros [= <-].
  split; [done|]. by exists tok.
Qed.

Lemma take_cmp_st_inv en i t c :
  zt_filter_take_cmp (st en i) = Some (t, c) ->
  c = st en (S i) /\ tok_at toks i t /\ op_prec t = Some 3%nat.
Proof using Hwf.
  unfold zt_filter_take_cmp. rewrite peek_st.
  destruct (toks !! i) as [tok|] eqn:E; [|done].
  destruct (zt_filter_token_is_cmp (tok_type tok)) eqn:Hc; [|done].
  rewrite set_pos_st. intros [= <- <-].
  split_and!; [done|by exists tok|]. by destruct (tok_type tok).
Qed.

Lemma take_cmp_st_eq en i t :
  tok_at toks i t -> op_prec t = Some 3%nat -> zt_filter_take_cmp (st en i) = Some (t, st en (S i)).
Proof using Hwf.
  intros (tok & H & <-) Hp. unfold zt_filter_take_cmp. rewrite peek_st, H, set_pos_st.
  by destruct (tok_type tok).
Qed.

(** *** Soundness and termination: what a run that ends without error has read *)

(** The run from position i either reports an error or has read a level n
    expression; evaluated, its value is the expression's. *)
Definition sound_at (n : nat) (en : bool) (i : nat) (r : option (Z * zt_filter_eval_t)) : Prop :=
  exists v c, r = Some (v, c) /\
    (fe_ok c = false \/
     exists j e, c = st en j /\ derives toks n i j e /\ (en = true -> eval_expr ev e = Some v)).

(** One iteration of the level n+1 loop: it stops, fails, or extends the chain. *)
Definition body_sound (n : nat) (en : bool) (k : nat) (lhs : Z) (r : option loop_ctl) : Prop :=
  r = Some (LBreak lhs (st en k)) \/
  (exists v c, (r = Some (LNext v c) \/ r = Some (LReturn v c)) /\ fe_ok c = false) \/
  (exists v k' op e1, r = Some (LNext v (st en k')) /\
     tok_at toks k op /\ op_prec op = Some (S n) /\ derives toks n (S k) k' e1 /\
     forall e0, en = true -> eval_expr ev e0 = Some lhs -> eval_expr ev (EBin op e0 e1) = Some v).

Ltac sub_case H :=
  destruct H as (?v & ?c & -> & [?Hok|(?k' & ?e1 & -> & ?Hd & ?He)]);
  [right; left; eauto|].

Lemma mul_body_sound sub en k lhs :
  (k < length toks -> forall en, sound_at 0 en (S k) (sub (st en (S k))))%nat ->
  body_sound 0 en k lhs (zt_filter_mul_body sub lhs (st en k)).
Proof using Hwf.
  intros Hs. unfold zt_filter_mul_body.
  destruct (zt_filter_take _ ZT_PROBE_FILTER_TOK_MUL) eqn:E.
  { apply take_st_inv in E as [-> Ht]. specialize (Hs (tok_at_lt _ _ _ Ht) en). sub_case Hs.
    right; right. do 4 eexists. split_and!; [done..|].
    intros e0 -> H0. simpl. by rewrite H0, He. }
  clear E. destruct (zt_filter_take _ ZT_PROBE_FILTER_TOK_DIV) eqn:E; [|by left].
  apply take_st_inv in E as [-> Ht]. specialize (Hs (tok_at_lt _ _ _ Ht) en).
  destruct Hs as (v & c & -> & [Hok|(k' & e1 & -> & Hd & He)]).
  - right; left. repeat case_match; eauto.
  - simpl. destruct en; simpl.
    + destruct (v =? 0) eqn:Hv; [right; left; by eauto|].
      right; right. do 4 eexists. split_and!; [done..|].
      intros e0 _ H0. simpl. rewrite H0. simpl. rewrite He by done. simpl. by rewrite Hv.
    + right; right. do 4 eexists. split_and!; [done..|]. done.
Qed.

Lemma add_body_sound sub en k lhs :
  (k < length toks -> forall en, sound_at 1 en (S k) (sub (st en (S k))))%nat ->
  body_sound 1 en k lhs (zt_filter_add_body sub lhs (st en k)).
Proof using Hwf.
  intros Hs. unfold zt_filter_add_body.
  destruct (zt_filter_take _ ZT_PROBE_FILTER_TOK_ADD) eqn:E;
    [|clear E; destruct (zt_filter_take _ ZT_PROBE_FILTER_TOK_SUB) eqn:E; [|by left]].
  all: apply take_st_inv in E as [-> Ht]; specialize (Hs (tok_at_lt _ _ _ Ht) en); sub_case Hs.
  all: right; right; do 4 eexists; split_and!; [done..|];
    intros e0 -> H0; simpl; by rewrite H0, He.
Qed.

Lemma cmp_body_sound sub en k lhs :
  (k < length toks -> forall en, sound_at 2 en (S k) (sub (st en (S k))))%nat ->
  body_sound 2 en k lhs (zt_filter_cmp_body sub lhs (st en k)).
Proof using Hwf.
  intros Hs. unfold zt_filter_cmp_body.
  destruct (zt_filter_take_cmp _) as [[t c]|] eqn:E; [|by left].
  apply take_cmp_st_inv in E as (-> & Ht & Hp).
  specialize (Hs (tok_at_lt _ _ _ Ht) en); sub_case Hs.
  right; right; do 4 eexists; split_and!; [done..|].
  intros e0 -> H0; simpl. rewrite H0, He by done. cbn.
  rewrite apply_cmp_op by by destruct t. by destruct t.
Qed.

(** A skipped operand is parsed with evaluation off and leaves the flag as it was. *)
Lemma maybe_skipped_sound sub n en k skip :
  (forall en, sound_at n en k (sub (st en k))) ->
  exists v c, zt_filter_parse_maybe_skipped (st en k) skip sub = Some (v, c) /\
    (fe_ok c = false \/
     exists j e, c = st en j /\ derives toks n k j e /\
       (en = true -> skip = false -> eval_expr ev e = Some v)).
Proof.
  intros Hs. unfold zt_filter_parse_maybe_skipped. destruct skip.
  - unfold zt_filter_parse_with_eval. simpl. specialize (Hs false).
    change (mk_eval f ev (Z.of_nat k) true false) with (st false k).
    destruct Hs as (v & c & -> & [Hok|(j & e & -> & Hd & _)]).
    + do 2 eexists. split; [done|]. by left.
    + do 2 eexists. split; [done|]. right. by exists j, e.
  - destruct (Hs en) as (v & c & -> & H). do 2 eexists. split; [done|].
    destruct H as [?|(j & e & -> & Hd & He)]; [by left|]. right. exists j, e. by auto.
Qed.

Lemma and_body_sound sub en k lhs :
  (k < length toks -> forall en, sound_at 3 en (S k) (sub (st en (S k))))%nat ->
  body_sound 3 en k lhs (zt_filter_and_body sub lhs (st en k)).
Proof using Hwf.
  intros Hs. unfold zt_filter_and_body.
  destruct (zt_filter_take _ ZT_PROBE_FILTER_TOK_AND) eqn:E; [|by left].
  apply take_st_inv in E as [-> Ht]. specialize (Hs (tok_at_lt _ _ _ Ht)).
  change (fe_eval_enabled (st en (S k))) with en.
  destruct (maybe_skipped_sound sub 3 en (S k) (en && negb (truthy lhs)) Hs)
    as (v & c & -> & [Hok|(k' & e1 & -> & Hd & He)]); [right; left; eauto|].
  right; right; do 4 eexists; split_and!; [done..|].
  intros e0 -> H0; simpl. rewrite H0. simpl.
  destruct (truthy lhs); simpl; [by rewrite He|done].
Qed.

Lemma or_body_sound sub en k lhs :
  (k < length toks -> forall en, sound_at 4 en (S k) (sub (st en (S k))))%nat ->
  body_sound 4 en k lhs (zt_filter_or_body sub lhs (st en k)).
Proof using Hwf.
  intros Hs. unfold zt_filter_or_body.
  destruct (zt_filter_take _ ZT_PROBE_FILTER_TOK_OR) eqn:E; [|by left].
  apply take_st_inv in E as [-> Ht]. specialize (Hs (tok_at_lt _ _ _ Ht)).
  change (fe_eval_enabled (st en (S k))) with en.
  destruct (maybe_skipped_sound sub 4 en (S k) (en && truthy lhs) Hs)
    as (v & c & -> & [Hok|(k' & e1 & -> & Hd & He)]); [right; left; eauto|].
  right; right; do 4 eexists; split_and!; [done..|].
  intros e0 -> H0; simpl. rewrite H0. simpl.
  destruct (truthy lhs); simpl; [done|by rewrite He].
Qed.

Lemma parse_body_sound n sub en k lhs :
  (n < top_level)%nat ->
  (k < length toks -> forall en, sound_at n en (S k) (sub (st en (S k))))%nat ->
  body_sound n en k lhs (parse_body (S n) sub lhs (st en k)).
Proof using Hwf.
  unfold top_level. intros Hn.
  do 5 (destruct n as [|n]; [simpl; eauto using mul_body_sound, add_body_sound,
    cmp_body_sound, and_body_sound, or_body_sound|]). lia.
Qed.

(** The loop ends within the fuel, having read a chain. *)
Lemma while_sound n sub en fuel k lhs e0 :
  (n < top_level)%nat ->
  (forall k', k <= k' < length toks -> forall en, sound_at n en (S k') (sub (st en (S k'))))%nat ->
  (length toks + 2 <= k + fuel)%nat -> (k <= length toks)%nat ->
  (en = true -> eval_expr ev e0 = Some lhs) ->
  exists v c, while_ok fuel (parse_body (S n) sub) lhs (st en k) = Some (v, c) /\
    (fe_ok c = false \/
     exists j e, c = st en j /\ chain toks (S n) e0 k j e /\ (en = true -> eval_expr ev e = Some v)).
Proof using Hwf.
  intros Hn. revert k lhs e0. induction fuel as [|fuel IH]; intros k lhs e0 Hs Hf Hk He; [lia|].
  cbn [while_ok]. change (fe_ok (st en k)) with true. cbv iota.
  destruct (parse_body_sound n sub en k lhs Hn) as [->|[(v & c & Hr & Hok)|Hx]].
  { intros Hlt en'. apply Hs. lia. }
  - do 2 eexists. split; [done|]. right. exists k, e0. by split_and!; [|constructor|].
  - exists v, c. split; [|by left].
    destruct Hr as [-> | ->]; [|done]. destruct fuel; [lia|]. simpl. by rewrite Hok.
  - destruct Hx as (v & k' & op & e1 & -> & Ht & Hp & Hd & Hv).
    pose proof (derives_span _ _ _ _ _ Hd).
    destruct (IH k' v (EBin op e0 e1)) as (v' & c & Hw & Hc); [|lia|lia|auto|].
    + intros k'' ? en'. apply Hs. lia.
    + exists v', c. split; [done|].
      destruct Hc as [?|(j & e & -> & Hch & Hev)]; [by left|].
      right. exists j, e. split_and!; [done| |done]. by eapply c_op.
Qed.

Lemma primary_sound po en i :
  (i < length toks -> sound_at top_level en (S i) (po (st en (S i))))%nat ->
  sound_at 0 en i (zt_filter_parse_primary po (st en i)).
Proof using Hwf.
  intros Hpo. unfold zt_filter_parse_primary. rewrite peek_st.
  destruct (toks !! i) as [tok|] eqn:Hi; [|do 2 eexists; split; [done|by left]].
  assert (Ht : tok_at toks i (tok_type tok)) by by exists tok.
  destruct (zt_filter_take _ ZT_PROBE_FILTER_TOK_NUM) eqn:E.
  { apply take_st_inv in E as [-> (tok' & H' & Hty)]. simplify_eq.
    do 2 eexists. split; [done|]. right. exists (S i), (ENum (tok_value tok)).
    split_and!; [done|by constructor|done]. }
  clear E. destruct (zt_filter_take _ ZT_PROBE_FILTER_TOK_ARG) eqn:E.
  { apply take_st_inv in E as [-> (tok' & H' & Hty)]. simplify_eq. simpl.
    assert (Hd : derives toks 0 i (S i) (EArg (tok_arg_index tok))) by by constructor.
    case_match; do 2 eexists; (split; [done|]); right; exists (S i), (EArg (tok_arg_index tok));
      (split_and!; [done|done|]); [|by rewrite event_arg_value].
    intros ->. simpl in *. case_bool_decide as Hn; [|done]. simpl. by rewrite Hn. }
  clear E. destruct (zt_filter_take _ ZT_PROBE_FILTER_TOK_LPAREN) eqn:E;
    [|do 2 eexists; split; [done|by left]].
  apply take_st_inv in E as [-> Hl].
  destruct (Hpo (tok_at_lt _ _ _ Hl)) as (v & c & -> & [Hok|(j & e & -> & Hd & He)]).
  - case_match; do 2 eexists; (split; [done|]); left; [|done].
    unfold zt_filter_take in *. repeat case_match; simplify_eq; done.
  - destruct (zt_filter_take _ ZT_PROBE_FILTER_TOK_RPAREN) eqn:E;
      [|do 2 eexists; split; [done|by left]].
    apply take_st_inv in E as [-> Hr]. do 2 eexists. split; [done|]. right.
    exists (S j), e. split_and!; [done|by eapply d_paren|done].
Qed.

Lemma unary_sound po en fuel i :
  (forall i', i <= i' < length toks -> sound_at top_level en (S i') (po (st en (S i'))))%nat ->
  (length toks + 1 <= i + fuel)%nat -> (i <= length toks)%nat ->
  sound_at 0 en i (zt_filter_parse_unary fuel po (st en i)).
Proof using Hwf.
  revert i. induction fuel as [|fuel IH]; intros i Hpo Hf Hi; [lia|].
  cbn [zt_filter_parse_unary].
  destruct (zt_filter_take _ ZT_PROBE_FILTER_TOK_NOT) eqn:E;
    [|apply primary_sound; intros; apply Hpo; lia].
  apply take_st_inv in E as [-> Ht]. pose proof (tok_at_lt _ _ _ Ht).
  destruct (IH (S i)) as (v & c & -> & Hc); [intros; apply Hpo; lia|lia|lia|].
  do 2 eexists. split; [done|]. destruct Hc as [?|(j & e & -> & Hd & He)]; [by left|].
  right. exists j, (ENot e). split_and!; [done|by constructor|].
  intros Hen. simpl. by rewrite He.
Qed.

Lemma level_sound po n en fuel i :
  (n <= top_level)%nat ->
  (forall i' en, i <= i' < length toks -> sound_at top_level en (S i') (po (st en (S i'))))%nat ->
  (length toks + 2 <= i + fuel)%nat -> (i <= length toks)%nat ->
  sound_at n en i (parse_level fuel po n (st en i)).
Proof using Hwf.
  revert en i. induction n as [|n IH]; intros en i Hn Hpo Hf Hi.
  - apply unary_sound; [intros; apply Hpo; lia|lia|lia].
  - cbn [parse_level].
    destruct (IH en i) as (v & c & -> & Hc); [lia|intros; apply Hpo; lia|lia|lia|].
    destruct Hc as [Hok|(k & e0 & -> & Hd & He)].
    { exists v, c. split; [|by left]. destruct fuel; [lia|]. simpl. by rewrite Hok. }
    pose proof (derives_span _ _ _ _ _ Hd).
    destruct (while_sound n (parse_level fuel po n) en fuel k v e0)
      as (v' & c' & Hw & Hc'); [lia| |lia|lia|done|].
    { intros k' ? en'. apply IH; [lia|intros; apply Hpo; lia|lia|lia]. }
    exists v', c'. split; [done|]. destruct Hc' as [?|(j & e & -> & Hch & Hev)]; [by left|].
    right. exists j, e. split_and!; [done|by eapply d_chain|done].
Qed.

(** Enough fuel always gives a result, and the result is sound. *)
Lemma parse_or_sound fuel en i :
  (length toks + 3 <= i + fuel)%nat -> (i <= length toks)%nat ->
  sound_at top_level en i (zt_filter_parse_or fuel (st en i)).
Proof using Hwf.
  revert en i. induction fuel as [|fuel IH]; intros en i Hf Hi; [lia|].
  rewrite parse_or_level. apply level_sound; [done| |lia|lia].
  intros i' en' ?. apply IH; lia.
Qed.

(** *** Completeness: every derivation is found *)

Definition outcome (en : bool) (j : nat) (e : expr) (r : option (Z * zt_filter_eval_t)) : Prop :=
  if en then
    match eval_expr ev e with
    | Some v => r = Some (v, st true j)
    | None => exists v c, r = Some (v, c) /\ fe_ok c = false
    end
  else exists v, r = Some (v, st false j).

Definition body_outcome (en : bool) (k : nat) (e : expr) (r : option loop_ctl) : Prop :=
  if en then
    match eval_expr ev e with
    | Some v => r = Some (LNext v (st true k))
    | None => exists v c, (r = Some (LNext v c) \/ r = Some (LReturn v c)) /\ fe_ok c = false
    end
  else exists v, r = Some (LNext v (st false k)).

Lemma parse_body_break n sub en i lhs :
  (n < top_level)%nat -> stops toks (S n) i ->
  parse_body (S n) sub lhs (st en i) = Some (LBreak lhs (st en i)).
Proof using Hwf.
  intros Hn Hs. unfold top_level in Hn.
  assert (Htk : forall t, op_prec t = Some (S n) -> zt_filter_take (st en i) t = None).
  { intros t Hp. destruct (zt_filter_take _ t) eqn:E; [|done].
    apply take_st_inv in E as [_ (tok & Hi & <-)]. specialize (Hs _ _ Hi Hp). lia. }
  destruct n as [|[|[|[|[|]]]]]; [..|lia]; simpl;
    unfold zt_filter_mul_body, zt_filter_add_body, zt_filter_cmp_body, zt_filter_and_body,
      zt_filter_or_body; rewrite ?Htk by done; try done.
  destruct (zt_filter_take_cmp _) as [[t c]|] eqn:E; [|done].
  apply take_cmp_st_inv in E as (_ & (tok & Hi & <-) & Hp). specialize (Hs _ _ Hi Hp). lia.
Qed.

Ltac sub_outcome Hsub en e1 :=
  specialize (Hsub en); unfold outcome in Hsub; destruct en; simpl;
  [destruct (eval_expr ev e1) as [y|] eqn:?Hy; [rewrite Hsub|destruct Hsub as (?v & ?c & -> & ?Hok)]
  |destruct Hsub as (?v & ->)].

Lemma strict_body_outcome n sub en i k lhs op e0 e1 :
  (n < 3)%nat -> tok_at toks i op -> op_prec op = Some (S n) ->
  (forall en, outcome en k e1 (sub (st en (S i)))) ->
  (en = true -> eval_expr ev e0 = Some lhs) ->
  body_outcome en k (EBin op e0 e1) (parse_body (S n) sub lhs (st en i)).
Proof using Hwf.
  intros Hn Ht Hp Hsub He0. unfold body_outcome. simpl eval_expr.
  assert (op <> ZT_PROBE_FILTER_TOK_AND /\ op <> ZT_PROBE_FILTER_TOK_OR) as [Ha Ho]
    by (split; intros ->; simplify_eq/=; lia).
  rewrite (bool_decide_eq_false_2 _ Ha), (bool_decide_eq_false_2 _ Ho).
  destruct n as [|[|[|]]]; [| | |lia]; simpl;
    unfold zt_filter_mul_body, zt_filter_add_body, zt_filter_cmp_body.
  3: rewrite (take_cmp_st_eq en i op Ht Hp).
  all: destruct op; try discriminate Hp;
    rewrite ?(take_st_eq _ _ _ Ht);
    try (erewrite (take_st_ne en i) by first [exact Ht|done]);
    rewrite ?(take_st_eq _ _ _ Ht).
  all: sub_outcome Hsub en e1; rewrite ?He0 by done; simpl; eauto;
    try (do 2 f_equal; symmetry; apply truth_b2z; lia).
  - destruct (y =? 0); simpl; eauto.
  - case_match; simpl; eauto. case_match; eauto.
Qed.

Lemma logic_body_outcome n sub en i k lhs op e0 e1 :
  (3 <= n < top_level)%nat -> tok_at toks i op -> op_prec op = Some (S n) ->
  (forall en, outcome en k e1 (sub (st en (S i)))) ->
  (en = true -> eval_expr ev e0 = Some lhs) ->
  body_outcome en k (EBin op e0 e1) (parse_body (S n) sub lhs (st en i)).
Proof using Hwf.
  unfold top_level. intros Hn Ht Hp Hsub He0. unfold body_outcome. simpl eval_expr.
  destruct n as [|[|[|[|[|]]]]]; try lia; destruct op; try discriminate Hp; simpl;
    unfold zt_filter_and_body, zt_filter_or_body; rewrite (take_st_eq _ _ _ Ht);
    unfold zt_filter_parse_maybe_skipped, zt_filter_parse_with_eval;
    change (fe_eval_enabled (st en (S i))) with en; destruct en; simpl;
    try (destruct (Hsub false) as (v & ->); by eauto);
    rewrite He0 by done; simpl; destruct (truthy lhs) eqn:Hl; simpl.
  1, 4: specialize (Hsub true); unfold outcome in Hsub; destruct (eval_expr ev e1) as [y|];
    [by rewrite Hsub|destruct Hsub as (v & c & -> & Hok); simpl; eauto].
  all: change (mk_eval f ev (Z.of_nat (S i)) true false) with (st false (S i));
    destruct (Hsub false) as (v & ->); done.
Qed.

Lemma parse_body_outcome n sub en i k lhs op e0 e1 :
  (n < top_level)%nat -> tok_at toks i op -> op_prec op = Some (S n) ->
  (forall en, outcome en k e1 (sub (st en (S i)))) ->
  (en = true -> eval_expr ev e0 = Some lhs) ->
  body_outcome en k (EBin op e0 e1) (parse_body (S n) sub lhs (st en i)).
Proof using Hwf.
  intros. destruct (le_lt_dec 3 n);
    [apply logic_body_outcome|apply strict_body_outcome]; auto; lia.
Qed.

Lemma while_not_ok fuel body lhs c :
  fuel <> O -> fe_ok c = false -> while_ok fuel body lhs c = Some (lhs, c).
Proof. destruct fuel; [done|]. simpl. by intros _ ->. Qed.

(** The cases of a level 0 run. *)
Lemma outcome_num po en fuel i tok :
  toks !! i = Some tok -> tok_type tok = ZT_PROBE_FILTER_TOK_NUM -> fuel <> O ->
  outcome en (S i) (ENum (tok_value tok)) (zt_filter_parse_unary fuel po (st en i)).
Proof using Hwf.
  intros Hi Hty Hf. destruct fuel; [done|]. cbn [zt_filter_parse_unary].
  assert (Ht : tok_at toks i ZT_PROBE_FILTER_TOK_NUM) by by exists tok.
  rewrite (take_st_ne _ _ _ _ Ht) by done. unfold zt_filter_parse_primary.
  rewrite peek_st, Hi, (take_st_eq _ _ _ Ht). destruct en; simpl; eauto.
Qed.

Lemma outcome_arg po en fuel i tok :
  toks !! i = Some tok -> tok_type tok = ZT_PROBE_FILTER_TOK_ARG -> fuel <> O ->
  outcome en (S i) (EArg (tok_arg_index tok)) (zt_filter_parse_unary fuel po (st en i)).
Proof using Hwf.
  intros Hi Hty Hf. destruct fuel; [done|]. cbn [zt_filter_parse_unary].
  assert (Ht : tok_at toks i ZT_PROBE_FILTER_TOK_ARG) by by exists tok.
  rewrite (take_st_ne _ _ _ _ Ht) by done. unfold zt_filter_parse_primary.
  rewrite peek_st, Hi, (take_st_ne _ _ _ _ Ht) by done. rewrite (take_st_eq _ _ _ Ht).
  destruct en; simpl; [|by eauto]. rewrite event_arg_value. case_bool_decide as Hn; [by rewrite Hn|done].
Qed.

Lemma outcome_paren po en fuel i j e :
  tok_at toks i ZT_PROBE_FILTER_TOK_LPAREN -> tok_at toks j ZT_PROBE_FILTER_TOK_RPAREN ->
  fuel <> O -> outcome en j e (po (st en (S i))) ->
  outcome en (S j) e (zt_filter_parse_unary fuel po (st en i)).
Proof using Hwf.
  intros Hl Hr Hf IH. destruct fuel; [done|]. cbn [zt_filter_parse_unary].
  rewrite (take_st_ne _ _ _ _ Hl) by done. unfold zt_filter_parse_primary.
  destruct Hl as (tok & Hi & Hty). rewrite peek_st, Hi.
  assert (Hl : tok_at toks i ZT_PROBE_FILTER_TOK_LPAREN) by by exists tok.
  rewrite !(take_st_ne _ _ _ _ Hl) by done. rewrite (take_st_eq _ _ _ Hl).
  unfold outcome in *. destruct en; [destruct (eval_expr ev e)|].
  - by rewrite IH, (take_st_eq _ _ _ Hr).
  - destruct IH as (v & c & -> & Hok). case_match; do 2 eexists; (split; [done|]); [|done].
    unfold zt_filter_take in *. repeat case_match; by simplify_eq.
  - destruct IH as (v & ->). rewrite (take_st_eq _ _ _ Hr). eauto.
Qed.

Lemma outcome_not po en fuel i j e :
  tok_at toks i ZT_PROBE_FILTER_TOK_NOT ->
  outcome en j e (zt_filter_parse_unary fuel po (st en (S i))) ->
  outcome en j (ENot e) (zt_filter_parse_unary (S fuel) po (st en i)).
Proof using Hwf.
  intros Ht IH. cbn [zt_filter_parse_unary]. rewrite (take_st_eq _ _ _ Ht).
  unfold outcome in *. simpl. destruct en; [destruct (eval_expr ev e); simpl|].
  - by rewrite IH.
  - destruct IH as (v & c & -> & Hok). eauto.
  - destruct IH as (v & ->). eauto.
Qed.

(** The cases of a loop: no further operator, and one more operand. *)
Lemma outcome_loop_end n sub en lf i lhs e :
  (n < top_level)%nat -> stops toks (S n) i -> lf <> O ->
  (en = true -> eval_expr ev e = Some lhs) ->
  outcome en i e (while_ok lf (parse_body (S n) sub) lhs (st en i)).
Proof using Hwf.
  intros Hn Hs Hlf He. destruct lf as [|lf]; [done|].
  cbn [while_ok]. change (fe_ok (st en i)) with true. cbv iota.
  rewrite parse_body_break by done. unfold outcome. destruct en; [|by eauto]. by rewrite He.
Qed.

Lemma outcome_loop_op n sub en lf i k j lhs op e0 e1 e :
  (n < top_level)%nat -> tok_at toks i op -> op_prec op = Some (S n) ->
  (forall en, outcome en k e1 (sub (st en (S i)))) ->
  (en = true -> eval_expr ev e0 = Some lhs) -> lf <> O ->
  chain toks (S n) (EBin op e0 e1) k j e ->
  (forall lhs', (en = true -> eval_expr ev (EBin op e0 e1) = Some lhs') ->
     outcome en j e (while_ok lf (parse_body (S n) sub) lhs' (st en k))) ->
  outcome en j e (while_ok (S lf) (parse_body (S n) sub) lhs (st en i)).
Proof using Hwf.
  intros Hn Ht Hp Hsub He Hlf Hc IH.
  cbn [while_ok]. change (fe_ok (st en i)) with true. cbv iota.
  pose proof (parse_body_outcome n _ en i k lhs op e0 e1 Hn Ht Hp Hsub He) as Hb.
  unfold body_outcome in Hb. destruct en; [destruct (eval_expr ev (EBin op e0 e1)) eqn:Hv|].
  - rewrite Hb. by apply IH.
  - destruct Hb as (v & c & Hr & Hok). unfold outcome.
    rewrite (chain_strict _ _ _ _ _ _ _ Hc Hv).
    destruct Hr as [-> | ->]; [|by eauto]. exists v, c.
    split; [|done]. by apply while_not_ok.
  - destruct Hb as (v & ->). by apply IH.
Qed.

(** A chained level: the first operand, then the loop. *)
Lemma outcome_chain n fuel po en i k j e0 e :
  chain toks (S n) e0 k j e -> fuel <> O ->
  outcome en k e0 (parse_level fuel po n (st en i)) ->
  (forall lhs, (en = true -> eval_expr ev e0 = Some lhs) ->
     outcome en j e (while_ok fuel (parse_body (S n) (parse_level fuel po n)) lhs (st en k))) ->
  outcome en j e (parse_level fuel po (S n) (st en i)).
Proof.
  intros Hc Hf IHd IHc. cbn [parse_level]. unfold outcome in IHd.
  destruct en; [destruct (eval_expr ev e0) as [v|] eqn:He|].
  - rewrite IHd. by apply IHc.
  - destruct IHd as (v & c & -> & Hok). unfold outcome.
    rewrite (chain_strict _ _ _ _ _ _ _ Hc He). do 2 eexists.
    split; [|exact Hok]. by apply while_not_ok.
  - destruct IHd as (v & ->). by apply IHc.
Qed.

Lemma chain_stops n e0 i j e :
  chain toks (S n) e0 i j e -> stops toks (S n) j -> stops toks n i.
Proof. inversion 1; subst; eauto using stops_pred, stops_before_op. Qed.

(** Running level n (or the level n loop) over a derivation. *)
Lemma derives_complete :
  (forall n i j e, derives toks n i j e -> (n <= top_level)%nat -> stops toks n j ->
     forall en fuel pf, (length toks + 2 <= i + fuel)%nat -> (length toks + 2 <= i + pf)%nat ->
     outcome en j e (parse_level fuel (zt_filter_parse_or pf) n (st en i))) /\
  (forall n e0 i j e, chain toks n e0 i j e ->
     forall m, n = S m -> (n <= top_level)%nat -> stops toks n j ->
     forall en fuel lf pf lhs, (length toks + 2 <= i + fuel)%nat -> (length toks + 2 <= i + pf)%nat ->
     (length toks + 2 <= i + lf)%nat -> (en = true -> eval_expr ev e0 = Some lhs) ->
     (i <= length toks)%nat ->
     outcome en j e
       (while_ok lf (parse_body n (parse_level fuel (zt_filter_parse_or pf) m)) lhs (st en i))).
Proof using Hwf.
  apply derives_chain_ind.
  - intros i tok Hi Hty _ _ en fuel pf Hf _. apply lookup_lt_Some in Hi as Hlt.
    apply outcome_num; [done..|lia].
  - intros i tok Hi Hty _ _ en fuel pf Hf _. apply lookup_lt_Some in Hi as Hlt.
    apply outcome_arg; [done..|lia].
  - intros i j e Hl Hd IH Hr _ _ en fuel pf Hf Hpf. apply tok_at_lt in Hl as Hlt.
    destruct pf as [|pf]; [lia|]. apply outcome_paren; [done|done|lia|].
    rewrite parse_or_level. apply IH; [done|by eapply stops_other|lia|lia].
  - intros i j e Ht Hd IH Hn Hs en fuel pf Hf Hpf. apply tok_at_lt in Ht as Hlt.
    destruct fuel; [lia|]. apply outcome_not; [done|].
    apply (IH Hn Hs en fuel pf); lia.
  - intros n i k j e0 e Hd IHd Hc IHc Hn Hs en fuel pf Hf Hpf.
    apply derives_span in Hd as Hsp. apply (outcome_chain n fuel _ en i k j e0); [done|lia| |].
    + apply IHd; [lia|by eapply chain_stops|lia|lia].
    + intros lhs Hl. apply IHc; [done..|lia|lia|lia|done|lia].
  - intros n e i m -> Hn Hs en fuel lf pf lhs _ _ Hlf He Hi.
    apply outcome_loop_end; [lia|done|lia|done].
  - intros n op i k j e0 e1 e Ht Hp Hd IHd Hc IHc m [= <-] Hn Hs en fuel lf pf lhs Hf Hpf Hlf He Hi.
    apply derives_span in Hd as Hsp. destruct lf as [|lf]; [lia|].
    apply (outcome_loop_op n _ en lf i k j lhs op e0 e1); [lia|done|done| |done|lia|done|].
    + intros en'. apply IHd; [lia|by eapply chain_stops|lia|lia].
    + intros lhs' Hl. apply IHc; [done..|lia|lia|lia|done|lia].
Qed.

Lemma length_toks : Z.of_nat (length toks) = flt_token_count f.
Proof using Hwf.
  destruct Hwf as [Hl Hc]. unfold toks, filter_tokens. rewrite length_take, Hl.
  unfold ZT_PROBE_FILTER_TOKEN_CAP in *. lia.
Qed.

Lemma parse_or_complete en e :
  filter_denotes f e ->
  outcome en (length toks) e (zt_filter_parse_or (parse_fuel f) (st en 0)).
Proof using Hwf.
  intros Hd. unfold parse_fuel. cbn [Nat.add]. rewrite parse_or_level.
  pose proof length_toks.
  eapply (proj1 derives_complete); [exact Hd|done|by apply stops_end|lia|lia].
Qed.

End refinement.

(** ** The properties of the evaluator *)

Lemma eval_init_some f event : zt_filter_eval_init f (Some event) = st f (Some event) true 0.
Proof. reflexivity. Qed.

Lemma eval_init_none f : zt_filter_eval_init f None = st f None false 0.
Proof. reflexivity. Qed.

Lemma parse_fuel_enough f :
  filter_wf f -> (length (filter_tokens f) + 3 <= 0 + parse_fuel f)%nat.
Proof. intros Hwf. pose proof (length_toks f Hwf). unfold parse_fuel. lia. Qed.

(** A probe with an enabled filter accepts an event exactly when the filter's
    tokens derive an expression of the grammar whose value on the event's
    arguments is defined (no division by zero is reached) and non-zero. *)
Lemma zt_probe_filter_eval_accepts f event :
  filter_wf f -> truthy (flt_enabled f) = true ->
  zt_probe_filter_eval (Some f) (Some event) = 1 <->
  exists e v, filter_denotes f e /\ eval_expr (Some event) e = Some v /\ truthy v = true.
Proof.
  intros Hwf Hen. unfold zt_probe_filter_eval. rewrite Hen. cbn [negb].
  rewrite eval_init_some. split.
  - destruct (parse_or_sound f (Some event) Hwf (parse_fuel f) true 0)
      as (v & c & -> & [Hok|(j & e & -> & Hd & He)]); [by apply parse_fuel_enough|lia| |].
    + by rewrite Hok.
    + simpl. destruct (Z.of_nat j =? flt_token_count f) eqn:Hj; [|done]. simpl. intros Hv.
      exists e, v. zbool. rewrite <- (length_toks f Hwf) in Hj. apply Nat2Z.inj in Hj as ->.
      split_and!; [done|auto|]. by destruct (truthy v).
  - intros (e & v & Hd & He & Hv).
    pose proof (parse_or_complete f (Some event) Hwf true e Hd) as Ho.
    unfold outcome in Ho. rewrite He in Ho. rewrite Ho. cbn [st fe_ok fe_pos negb orb].
    rewrite (length_toks f Hwf), Z.eqb_refl. cbn [negb]. by rewrite Hv.
Qed.

(** Validation accepts exactly the token lists the grammar derives. *)
Lemma validate_denotes f :
  filter_wf f ->
  zt_filter_validate f = 0 <-> truthy (flt_enabled f) = true /\ exists e, filter_denotes f e.
Proof.
  intros Hwf. unfold zt_filter_validate.
  destruct (truthy (flt_enabled f)); [|simpl; split; [done|by intros []]].
  pose proof (length_toks f Hwf) as Hlen. cbn [negb orb]. split.
  - destruct (Z.eqb_spec (flt_token_count f) 0); [done|]. rewrite eval_init_none.
    destruct (parse_or_sound f None Hwf (parse_fuel f) false 0)
      as (v & c & -> & [Hok|(j & e & -> & Hd & _)]); [by apply parse_fuel_enough|lia| |].
    + by rewrite Hok.
    + simpl. destruct (Z.of_nat j =? flt_token_count f) eqn:Hj; [|done]. intros _.
      split; [done|]. exists e. zbool. rewrite <- Hlen in Hj. by apply Nat2Z.inj in Hj as ->.
  - intros [_ [e Hd]]. pose proof (derives_span _ _ _ _ _ Hd).
    destruct (Z.eqb_spec (flt_token_count f) 0); [lia|].
    destruct (parse_or_complete f None Hwf false e Hd) as [v Ho].
    rewrite eval_init_none. rewrite Ho. cbn [st fe_ok fe_pos].
    by rewrite Hlen, Z.eqb_refl.
Qed.

(** The evaluation function of a filter that denotes an expression. *)
Lemma zt_probe_filter_eval_denotes f event e :
  filter_wf f -> truthy (flt_enabled f) = true -> filter_denotes f e ->
  zt_probe_filter_eval (Some f) (Some event) =
    match eval_expr (Some event) e with Some v => b2z (truthy v) | None => 0 end.
Proof.
  intros Hwf Hen Hd. unfold zt_probe_filter_eval. rewrite Hen. cbn [negb].
  rewrite eval_init_some.
  pose proof (parse_or_complete f (Some event) Hwf true e Hd) as Ho.
  unfold outcome in Ho. destruct (eval_expr (Some event) e).
  - rewrite Ho. cbn [st fe_ok fe_pos negb orb].
    by rewrite (length_toks f Hwf), Z.eqb_refl.
  - destruct Ho as (v & c & -> & ->). done.
Qed.

(** Validation at install time accepts an enabled filter exactly when its
    tokens derive an expression: the dry run without an event neither rejects a
    well-formed expression (not even one that divides by zero) nor accepts a
    malformed one. *)
Lemma zt_filter_validate_spec f :
  filter_wf f ->
  zt_filter_validate f = 0 <-> truthy (flt_enabled f) = true /\ exists e, filter_denotes f e.
Proof. apply validate_denotes. Qed.

(** The filters of the witnesses: `arg0 / arg1` and the malformed `arg0 arg1`. *)
Definition sample_tokens (l : list zt_probe_filter_token_t) : zt_probe_filter_t :=
  mk_filter 0 1 (Z.of_nat (length l)) [] (l ++ drop (length l) (flt_tokens zero_filter)).

Definition arg_token (i : Z) : zt_probe_filter_token_t := mk_token ZT_PROBE_FILTER_TOK_ARG i 0.

(** At the malformed token list `arg0 arg1`, which denotes no expression. *)
Lemma zt_filter_validate_spec_witness :
  ~ exists e, filter_denotes (sample_tokens [arg_token 0; arg_token 1]) e.
Proof.
  intros H. assert (Hv : zt_filter_validate (sample_tokens [arg_token 0; arg_token 1]) = 0).
  - apply zt_filter_validate_spec.
    + unfold filter_wf. vm_compute. split; [reflexivity|split; discriminate].
    + split; [vm_compute; reflexivity|exact H].
  - vm_compute in Hv. discriminate Hv.
Defined.
