(* ===== verification/FilterC.v ===== *)
(** * Filters read as C reads them

    The grammar of the evaluator (FilterSpec) has five levels; C's has six, since
    it separates `==` and `!=` from the ordering comparisons, which bind tighter.
    This file states C's grammar over the same tokens, finds out where the two
    readings agree, and states the evaluator's specification against both. *)

From S2P Require Import Prelude CLib Types Filter FilterSpec.

(** ** C's grammar *)

(** Expressions with their parentheses. *)
Inductive cexpr :=
| CNum (v : Z)
| CArg (index : Z)
| CParen (e : cexpr)
| CNot (e : cexpr)
| CBin (op : zt_probe_filter_token_type_t) (e1 e2 : cexpr).


Definition c_prec (t : zt_probe_filter_token_type_t) : option nat :=
  match t with
  | ZT_PROBE_FILTER_TOK_MUL | ZT_PROBE_FILTER_TOK_DIV => Some 1%nat
  | ZT_PROBE_FILTER_TOK_ADD | ZT_PROBE_FILTER_TOK_SUB => Some 2%nat
  | ZT_PROBE_FILTER_TOK_GT | ZT_PROBE_FILTER_TOK_GE | ZT_PROBE_FILTER_TOK_LT
  | ZT_PROBE_FILTER_TOK_LE => Some 3%nat
  | ZT_PROBE_FILTER_TOK_EQ | ZT_PROBE_FILTER_TOK_NE => Some 4%nat
  | ZT_PROBE_FILTER_TOK_AND => Some 5%nat
  | ZT_PROBE_FILTER_TOK_OR => Some 6%nat
  | _ => None
  end.

Definition c_top : nat := 6.

Section c_grammar.
Context (toks : list zt_probe_filter_token_t).

(** [c_derives n i j e]: in C the tokens i..j-1 are a level n expression [e];
    [c_chain n e0 i j e]: appended to [e0] they make [e]. *)
Inductive c_derives : nat -> nat -> nat -> cexpr -> Prop :=
| cd_num i tok :
    toks !! i = Some tok -> tok_type tok = ZT_PROBE_FILTER_TOK_NUM ->
    c_derives 0 i (S i) (CNum (tok_value tok))
| cd_arg i tok :
    toks !! i = Some tok -> tok_type tok = ZT_PROBE_FILTER_TOK_ARG ->
    c_derives 0 i (S i) (CArg (tok_arg_index tok))
| cd_paren i j e :
    tok_at toks i ZT_PROBE_FILTER_TOK_LPAREN -> c_derives c_top (S i) j e ->
    tok_at toks j ZT_PROBE_FILTER_TOK_RPAREN -> c_derives 0 i (S j) (CParen e)
| cd_not i j e :
    tok_at toks i ZT_PROBE_FILTER_TOK_NOT -> c_derives 0 (S i) j e ->
    c_derives 0 i j (CNot e)
| cd_chain n i k j e0 e :
    c_derives n i k e0 -> c_chain (S n) e0 k j e -> c_derives (S n) i j e
with c_chain : nat -> cexpr -> nat -> nat -> cexpr -> Prop :=
| cc_end n e i : c_chain n e i i e
| cc_op n op i k j e0 e1 e :
    tok_at toks i op -> c_prec op = Some (S n) -> c_derives n (S i) k e1 ->
    c_chain (S n) (CBin op e0 e1) k j e -> c_chain (S n) e0 i j e.

Scheme c_derives_mut := Induction for c_derives Sort Prop
  with c_chain_mut := Induction for c_chain Sort Prop.
Combined Scheme c_derives_chain_ind from c_derives_mut, c_chain_mut.

(** ** Where the readings agree *)










End c_grammar.



