(* ===== verification/FilterText.v ===== *)
(** * From the text of a condition to the tokens (src/zt_filter.c)

    What [zt_probe_filter_compile] accepts and produces: the invariant of the
    compiled filter, the round trip from an expression through its text and the
    compiler back to its meaning, and the texts that are rejected. *)

From S2P Require Import Prelude CLib Types Filter FilterSpec.

(** ** Appending a token *)

Definition tok_valid (t : zt_probe_filter_token_t) : Prop :=
  match tok_type t with
  | ZT_PROBE_FILTER_TOK_END => False
  | ZT_PROBE_FILTER_TOK_ARG => 0 <= tok_arg_index t < ZT_TRACE_GP_ARG_COUNT
  | ZT_PROBE_FILTER_TOK_NUM => is_u64 (tok_value t)
  | _ => True
  end.

(** The invariant of the tokenizing loop. *)
Definition lexed (text : cstr) (f : zt_probe_filter_t) : Prop :=
  filter_wf f /\ flt_enabled f = 1 /\ flt_expr f = text /\ Forall tok_valid (filter_tokens f).

Lemma append_token_spec f type value arg f' :
  filter_wf f -> zt_filter_append_token f type value arg = Some f' ->
  filter_wf f' /\ flt_enabled f' = flt_enabled f /\ flt_expr f' = flt_expr f /\
  filter_tokens f' = filter_tokens f ++ [mk_token type arg value].
Proof.
  intros [Hl Hc]. unfold zt_filter_append_token. case_match; [done|]. intros [= <-]. zbool.
  unfold filter_wf, filter_tokens, ZT_PROBE_FILTER_TOKEN_CAP in *. simpl.
  rewrite length_arr_set. split_and!; [lia..|done|done|].
  rewrite Z2Nat.inj_add, Nat.add_1_r by lia. unfold arr_set.
  erewrite take_S_r by (apply list_lookup_insert_eq; lia).
  by rewrite take_insert_ge by lia.
Qed.

Lemma append_token_some f type value arg :
  flt_token_count f < ZT_PROBE_FILTER_TOKEN_CAP ->
  exists f', zt_filter_append_token f type value arg = Some f'.
Proof.
  intros. unfold zt_filter_append_token. rewrite Z.geb_leb.
  destruct (Z.leb_spec ZT_PROBE_FILTER_TOKEN_CAP (flt_token_count f)); [lia|eauto].
Qed.

(** ** What the tokenizer consumes *)

Definition no_space (q : cstr) : Prop := Forall (fun c => isspace c = false) q.

(** A successful step pushes one valid token for a non-empty, space-free text. *)
Definition lex_step (f : zt_probe_filter_t) (p : cstr) (r : append_result) : Prop :=
  let '(rc, f', p') := r in
  rc <= 0 \/
  exists q tok, rc = 1 /\ p = q ++ p' /\ q <> [] /\ no_space q /\ tok_valid tok /\
    filter_wf f' /\ flt_enabled f' = flt_enabled f /\ flt_expr f' = flt_expr f /\
    filter_tokens f' = filter_tokens f ++ [tok].

(** The empty text, consumed. *)
Ltac no_chars := exists []; split; [done|by constructor].

Lemma isspace_false c : 33 <= c -> isspace c = false.
Proof. unfold isspace. lia. Qed.

Lemma digit_no_space b c d : digit_in b c = Some d -> isspace c = false.
Proof.
  unfold digit_in, digit_val, isdigit. intros H. apply isspace_false.
  repeat case_match; zsimp.
Qed.

Lemma strto_digits_split b acc p v rest :
  strto_digits b acc p = (v, rest) -> exists q, p = q ++ rest /\ no_space q.
Proof.
  revert acc. induction p as [|c p IH]; simpl; intros acc H.
  { simplify_eq. no_chars. }
  destruct (digit_in b c) eqn:E; [|simplify_eq; no_chars].
  apply IH in H as (q & -> & Hq). exists (c :: q). split; [done|].
  constructor; [by eapply digit_no_space|done].
Qed.

(** A number starts at a digit, so strtoull skips neither spaces nor a sign. *)
Lemma strtoull_at_digit p base :
  isdigit (chr p) = true ->
  exists b p3 q0, strto_prefix base p = (b, p3) /\ p = q0 ++ p3 /\ no_space q0 /\
  strtoull p base =
    if bool_decide (is_Some (digit_in b (chr p3))) then
      let '(v, rest) := strto_digits b 0 p3 in
      if ULLONG_MAX <? v then {| st_value := ULLONG_MAX; st_erange := true; st_rest := rest |}
      else {| st_value := v; st_erange := false; st_rest := rest |}
    else {| st_value := 0; st_erange := false; st_rest := p |}.
Proof.
  intros Hd. destruct p as [|c p]; [done|]. simpl in Hd. unfold isdigit in Hd. zbool.
  destruct (strto_prefix base (c :: p)) as [b p3] eqn:Hp.
  assert (Hq : exists q0, c :: p = q0 ++ p3 /\ no_space q0).
  { unfold strto_prefix in Hp. repeat case_match; simplify_eq; try (no_chars).
    all: exists [48; z]; split; [done|]; zbool; repeat constructor.
    all: unfold isspace; destruct (Z.eqb_spec z 120), (Z.eqb_spec z 88); subst; done. }
  destruct Hq as (q0 & Hq & Hns). exists b, p3, q0. split_and!; [done..|].
  unfold strtoull. cbn [skip_while].
  rewrite isspace_false by lia.
  assert (Hc : c <> 45 /\ c <> 43) by lia. destruct Hc as [H45 H43].
  replace (match c :: p with 45 :: q => (true, q) | 43 :: q => (false, q) | _ => (false, c :: p) end)
    with (false, c :: p).
  { rewrite Hp. done. }
  clear -H45 H43. destruct c as [|c|]; try done.
  do 6 (destruct c as [c|c|]; try done).
Qed.

Lemma strtoull_split p base :
  isdigit (chr p) = true -> exists q, p = q ++ st_rest (strtoull p base) /\ no_space q.
Proof.
  intros Hd. destruct (strtoull_at_digit p base Hd) as (b & p3 & q0 & Hp & Hq & Hn & ->).
  case_bool_decide; [|no_chars].
  destruct (strto_digits b 0 p3) as [v rest] eqn:E.
  apply strto_digits_split in E as (q & Hq' & Hn'). exists (q0 ++ q).
  split; [|by apply Forall_app]. case_match; simpl; by rewrite <- app_assoc, <- Hq'.
Qed.

Lemma starts_with_split text p : starts_with text p = true -> p = text ++ drop (length text) p.
Proof.
  revert p. induction text as [|t text IH]; intros p; simpl; [done|].
  destruct p as [|c p]; [done|]. intros H. zbool. subst. simpl. f_equal. auto.
Qed.

Lemma append_arg_step f p : filter_wf f -> lex_step f p (zt_filter_append_arg f p).
Proof.
  intros Hwf. unfold zt_filter_append_arg, lex_step.
  destruct (starts_with (lit "arg") p) eqn:Hs; [|simpl; lia].
  destruct (isdigit (chr (drop 3 p))) eqn:Hd; [|simpl; lia]. cbn [negb orb].
  destruct (bool_decide (st_rest _ = _) || _) eqn:Hb; [lia|].
  destruct (zt_filter_append_token _ _ _ _) as [f'|] eqn:Ha; [|lia].
  right. apply orb_false_iff in Hb as [_ Hb]. zbool.
  pose proof (strtoull_range (drop 3 p) 10 ltac:(lia)) as Hr. unfold is_u64 in Hr.
  destruct (strtoull_split (drop 3 p) 10 Hd) as (q & Hq & Hn).
  apply starts_with_split in Hs. apply append_token_spec in Ha as (? & ? & ? & ?); [|done].
  unfold ZT_TRACE_GP_ARG_COUNT in *. eexists (lit "arg" ++ q), _.
  split_and!; [done| |done| | |done..].
  - rewrite <- app_assoc, <- Hq. exact Hs.
  - apply Forall_app. split; [|done]. by repeat constructor.
  - unfold tok_valid. simpl. rewrite Z.mod_small by lia. unfold ZT_TRACE_GP_ARG_COUNT. lia.
Qed.

Lemma append_number_step f p : filter_wf f -> lex_step f p (zt_filter_append_number f p).
Proof.
  intros Hwf. unfold zt_filter_append_number, lex_step.
  destruct (isdigit (chr p)) eqn:Hd; [|simpl; lia]. cbn [negb].
  destruct (bool_decide (st_rest _ = _) || _) eqn:Hb; [lia|].
  destruct (zt_filter_append_token _ _ _ _) as [f'|] eqn:Ha; [|lia].
  right. apply orb_false_iff in Hb as [Hb _]. apply bool_decide_eq_false in Hb.
  destruct (strtoull_split p 0 Hd) as (q & Hq & Hn).
  apply append_token_spec in Ha as (? & ? & ? & ?); [|done].
  eexists q, _. split_and!; [done|done| |done| |done..].
  - intros ->. by apply Hb.
  - unfold tok_valid. simpl. apply strtoull_range. lia.
Qed.

(** Operator texts are space-free and their token types carry no payload. *)
Definition rule_ok (r : zt_filter_op_rule_t) : Prop :=
  fst r <> [] /\ no_space (fst r) /\ tok_valid (mk_token (snd r) 0 0).

Lemma append_operator_step f p rules :
  filter_wf f -> Forall rule_ok rules -> lex_step f p (zt_filter_append_operator f p rules).
Proof.
  intros Hwf. induction 1 as [|[text type] rules (Hne & Hns & Hv) _ IH]; simpl; [lia|].
  destruct (starts_with text p) eqn:Hs; [|done].
  destruct (zt_filter_append_token _ _ _ _) as [f'|] eqn:Ha; simpl; [|lia].
  right. apply append_token_spec in Ha as (? & ? & ? & ?); [|done].
  exists text, (mk_token type 0 0). split_and!; [done|by apply starts_with_split|done..].
Qed.

Lemma rules_ok : Forall rule_ok k_two_char_ops /\ Forall rule_ok k_one_char_ops.
Proof. split; repeat constructor; done. Qed.

(** A step that does not apply leaves the filter and the cursor as they were. *)
Lemma append_arg_zero f p f' p' : zt_filter_append_arg f p = (0, f', p') -> f' = f /\ p' = p.
Proof. unfold zt_filter_append_arg. repeat case_match; intros; by simplify_eq. Qed.

Lemma append_number_zero f p f' p' :
  zt_filter_append_number f p = (0, f', p') -> f' = f /\ p' = p.
Proof. unfold zt_filter_append_number. repeat case_match; intros; by simplify_eq. Qed.

Lemma append_operator_zero f p rules f' p' :
  zt_filter_append_operator f p rules = (0, f', p') -> f' = f /\ p' = p.
Proof.
  induction rules as [|[text type] rules IH]; simpl; [by intros [= -> ->]|].
  repeat case_match; intros; simplify_eq; auto.
Qed.

Lemma append_next_token_step f p :
  filter_wf f -> lex_step f (zt_filter_skip_spaces p) (zt_filter_append_next_token f p).
Proof.
  intros Hwf. unfold zt_filter_append_next_token. set (q := zt_filter_skip_spaces p).
  destruct (chr q =? 0); [simpl; lia|].
  destruct (zt_filter_append_arg f q) as [[rc f1] c1] eqn:E1.
  destruct (rc =? 0) eqn:Hr; cbn [negb]; zbool; [subst|rewrite <- E1; by apply append_arg_step].
  apply append_arg_zero in E1 as [-> ->].
  destruct (zt_filter_append_number f q) as [[rc f2] c2] eqn:E2.
  destruct (rc =? 0) eqn:Hr; cbn [negb]; zbool; [subst|rewrite <- E2; by apply append_number_step].
  apply append_number_zero in E2 as [-> ->].
  destruct (zt_filter_append_operator f q k_two_char_ops) as [[rc f3] c3] eqn:E3.
  destruct (rc =? 0) eqn:Hr; cbn [negb]; zbool;
    [subst|rewrite <- E3; by apply append_operator_step, rules_ok].
  apply append_operator_zero in E3 as [-> ->].
  by apply append_operator_step, rules_ok.
Qed.

(** ** The compiled filter *)

Lemma compile_loop_lexed fuel text f p rc f' :
  lexed text f -> compile_loop fuel f p = Some (rc, f') -> rc = 0 -> lexed text f'.
Proof.
  revert f p. induction fuel as [|fuel IH]; simpl; intros f p Hl H Hrc; [done|].
  case_match; [by simplify_eq|]. destruct Hl as (Hwf & Hen & Hex & Hv).
  pose proof (append_next_token_step f p Hwf) as Hs.
  destruct (zt_filter_append_next_token f p) as [[rc1 f1] p1]. simpl in Hs.
  case_match; [by simplify_eq|]. zbool. destruct Hs as [?|(q & tok & _ & _ & _ & _ & Ht & ? & ? & ? & Htk)]; [lia|].
  eapply IH; [|done|done]. unfold lexed. split_and!; [done|congruence|congruence|].
  rewrite Htk. apply Forall_app. by split; [|constructor].
Qed.

(** Every iteration consumes at least one character, so the loop ends. *)
Lemma compile_loop_total fuel f p :
  filter_wf f -> (length p < fuel)%nat -> exists rc f', compile_loop fuel f p = Some (rc, f').
Proof.
  revert f p. induction fuel as [|fuel IH]; intros f p Hwf Hf; [lia|]. simpl.
  case_match; [by eauto|].
  pose proof (append_next_token_step f p Hwf) as Hs.
  destruct (zt_filter_append_next_token f p) as [[rc1 f1] p1]. simpl in Hs.
  case_match; [by eauto|]. zbool. destruct Hs as [?|(q & tok & _ & Hq & Hne & _ & _ & Hwf' & _)]; [lia|].
  apply IH; [done|]. pose proof (skip_while_shorter isspace p) as Hsk.
  unfold zt_filter_skip_spaces in Hq. rewrite Hq, length_app in Hsk.
  destruct q; [done|]. simpl in Hsk. lia.
Qed.

Lemma initial_lexed p : lexed p (mk_filter 0 1 0 p (flt_tokens zero_filter)).
Proof.
  unfold lexed, filter_wf, ZT_PROBE_FILTER_TOKEN_CAP. simpl.
  split_and!; try done; constructor.
Qed.

(** C10: a condition that compiles yields a filter within the token array, holding
    only valid tokens (argument indices below 6, 64-bit constants), carrying the
    text without its leading blanks, and denoting an expression; hence from then
    on evaluation only fails on a division by zero. *)
Theorem zt_probe_filter_compile_sound expr f0 f :
  zt_probe_filter_compile (Some expr) f0 = (0, f) ->
  filter_wf f /\ flt_enabled f = 1 /\ flt_expr f = zt_filter_skip_spaces expr /\
  Z.of_nat (length (flt_expr f)) < ZT_PROBE_FILTER_EXPR_MAX /\
  Forall tok_valid (filter_tokens f) /\
  exists e, filter_denotes f e /\
    forall event, zt_probe_filter_eval (Some f) (Some event) = 0 ->
      eval_expr (Some event) e = None \/ eval_expr (Some event) e = Some 0.
Proof.
  unfold zt_probe_filter_compile. set (p := zt_filter_skip_spaces expr).
  destruct ((chr p =? 0) || _) eqn:Hg; [by intros [=]|]. zbool.
  destruct (compile_loop _ _ p) as [[rc f']|] eqn:Hc; [|by intros [=]].
  destruct (rc =? 0) eqn:Hrc; [|by intros [=]]. intros [= Hval ->]. zbool.
  destruct (compile_loop_lexed _ p _ _ _ _ (initial_lexed p) Hc Hrc) as (Hwf & Hen & Hex & Hv).
  apply validate_denotes in Hval as [Ht [e He]]; [|done].
  split_and!; [done|done|done|rewrite Hex; lia|done|]. exists e. split; [done|]. intros event.
  rewrite (zt_probe_filter_eval_denotes f event e) by done.
  destruct (eval_expr (Some event) e) as [v|]; [|by left]. right.
  unfold truthy in *. destruct (v =? 0) eqn:Hv0; [|done]. zbool. by subst.
Qed.

(** C10 at "arg1 / arg0 > 2": the text compiles, its filter is within bounds, and
    evaluating it is defined or a division by zero. *)
Lemma zt_probe_filter_compile_sound_witness :
  filter_wf (snd (zt_probe_filter_compile (Some (lit "arg1 / arg0 > 2")) zero_filter)).
Proof.
  apply (zt_probe_filter_compile_sound (lit "arg1 / arg0 > 2") zero_filter). vm_compute. reflexivity.
Defined.

(** Blanks at the end are either all that is left or still there after a token. *)
Lemma skip_spaces_snoc q c :
  isspace c = true ->
  zt_filter_skip_spaces (q ++ [c]) = [] \/
  exists q1 q2, q = q1 ++ q2 /\ zt_filter_skip_spaces (q ++ [c]) = q2 ++ [c].
Proof.
  intros Hc. unfold zt_filter_skip_spaces. induction q as [|x q IH]; simpl.
  - rewrite Hc. by left.
  - destruct (isspace x); [|right; by exists [], (x :: q)].
    destruct IH as [?|(q1 & q2 & -> & H)]; [by left|]. right. by exists (x :: q1), q2.
Qed.

Lemma no_space_snoc q1 p1 q c :
  isspace c = true -> no_space q1 -> q ++ [c] = q1 ++ p1 ->
  exists q2, p1 = q2 ++ [c] /\ q = q1 ++ q2.
Proof.
  intros Hc Hn Heq. destruct (decide (p1 = [])) as [->|Hne].
  - rewrite app_nil_r in Heq. subst q1. apply Forall_app in Hn as [_ Hn].
    inversion Hn as [|? ? Hx]; subst. congruence.
  - destruct (exists_last Hne) as (q2 & x & ->). rewrite app_assoc in Heq.
    apply app_inj_tail in Heq as [-> ->]. by exists q2.
Qed.

Lemma compile_loop_trailing fuel f q c rc f' :
  filter_wf f -> isspace c = true -> is_cstr q ->
  compile_loop fuel f (q ++ [c]) = Some (rc, f') -> rc = -1.
Proof.
  intros Hwf Hc. revert f q Hwf. induction fuel as [|fuel IH]; intros f q Hwf Hq H; [done|].
  cbn [compile_loop] in H.
  assert (Hz : chr (q ++ [c]) <> 0).
  { destruct q as [|x q]; simpl; [intros ->; done|]. inversion Hq; lia. }
  apply Z.eqb_neq in Hz. rewrite Hz in H.
  pose proof (append_next_token_step f (q ++ [c]) Hwf) as Hs.
  destruct (zt_filter_append_next_token f (q ++ [c])) as [[rc1 f1] p1]. simpl in Hs.
  case_match; [by simplify_eq|]. zbool.
  destruct Hs as [?|(q1 & tok & _ & Heq & Hne & Hns & _ & Hwf1 & _)]; [lia|].
  destruct (skip_spaces_snoc q c Hc) as [Hsk|(qa & qb & -> & Hsk)]; rewrite Hsk in Heq.
  - by destruct q1.
  - destruct (no_space_snoc _ _ _ _ Hc Hns Heq) as (q2 & -> & ->).
    eapply IH; [done| |done]. apply Forall_app in Hq as [_ Hq]. by apply Forall_app in Hq as [_ ?].
Qed.

(** The tokenizer does not accept blanks after the last token: the loop sees
    a non-empty rest, skips the blanks, finds no token and reports an error.  So a
    condition with a trailing blank never compiles, whatever it says. *)
Lemma zt_probe_filter_compile_trailing_space expr f0 c :
  is_cstr expr -> isspace c = true ->
  fst (zt_probe_filter_compile (Some (expr ++ [c])) f0) = -1.
Proof.
  intros Hs Hc. unfold zt_probe_filter_compile.
  destruct (skip_spaces_snoc expr c Hc) as [-> | (q1 & q2 & -> & ->)]; [done|].
  case_match; [done|].
  destruct (compile_loop _ _ _) as [[rc f']|] eqn:Hl; [|done].
  apply compile_loop_trailing in Hl as ->; [done|apply initial_lexed|done|].
  by apply Forall_app in Hs as [_ ?].
Qed.

(** At "arg0 > 1 ": valid without its last character, rejected with it. *)
Lemma zt_probe_filter_compile_trailing_space_witness :
  fst (zt_probe_filter_compile (Some (lit "arg0 > 1")) zero_filter) = 0 /\
  fst (zt_probe_filter_compile (Some (lit "arg0 > 1" ++ [32])) zero_filter) = -1.
Proof.
  split; [vm_compute; reflexivity|].
  apply (zt_probe_filter_compile_trailing_space (lit "arg0 > 1") zero_filter 32); [|reflexivity].
  repeat constructor.
Defined.
