(* ===== verification/FilterPrint.v ===== *)
(** * Round trip: expression, text, tokens, meaning (src/zt_filter.c)

    A printer for the expressions of FilterSpec, with every binary operation in
    parentheses, and the proof that the tokenizer and the parser read such a text
    back as the expression it came from. *)

From S2P Require Import Prelude CLib Types Filter FilterSpec FilterText.

(** The operator texts of the two rule tables. *)
Definition op_text (op : zt_probe_filter_token_type_t) : cstr :=
  match op with
  | ZT_PROBE_FILTER_TOK_EQ => lit "=="
  | ZT_PROBE_FILTER_TOK_NE => lit "!="
  | ZT_PROBE_FILTER_TOK_GE => lit ">="
  | ZT_PROBE_FILTER_TOK_LE => lit "<="
  | ZT_PROBE_FILTER_TOK_AND => lit "&&"
  | ZT_PROBE_FILTER_TOK_OR => lit "||"
  | ZT_PROBE_FILTER_TOK_GT => lit ">"
  | ZT_PROBE_FILTER_TOK_LT => lit "<"
  | ZT_PROBE_FILTER_TOK_NOT => lit "!"
  | ZT_PROBE_FILTER_TOK_ADD => lit "+"
  | ZT_PROBE_FILTER_TOK_SUB => lit "-"
  | ZT_PROBE_FILTER_TOK_MUL => lit "*"
  | ZT_PROBE_FILTER_TOK_DIV => lit "/"
  | ZT_PROBE_FILTER_TOK_LPAREN => lit "("
  | ZT_PROBE_FILTER_TOK_RPAREN => lit ")"
  | _ => []
  end.

Fixpoint print (e : expr) : cstr :=
  match e with
  | ENum v => dec_str v
  | EArg i => lit "arg" ++ [48 + i]
  | ENot e => op_text ZT_PROBE_FILTER_TOK_NOT ++ print e
  | EBin op a b =>
      op_text ZT_PROBE_FILTER_TOK_LPAREN ++ print a ++ op_text op ++ print b ++
      op_text ZT_PROBE_FILTER_TOK_RPAREN
  end.

Definition op_token (op : zt_probe_filter_token_type_t) : zt_probe_filter_token_t :=
  mk_token op 0 0.

Fixpoint expr_tokens (e : expr) : list zt_probe_filter_token_t :=
  match e with
  | ENum v => [mk_token ZT_PROBE_FILTER_TOK_NUM 0 v]
  | EArg i => [mk_token ZT_PROBE_FILTER_TOK_ARG i 0]
  | ENot e => op_token ZT_PROBE_FILTER_TOK_NOT :: expr_tokens e
  | EBin op a b =>
      op_token ZT_PROBE_FILTER_TOK_LPAREN :: expr_tokens a ++
      op_token op :: expr_tokens b ++ [op_token ZT_PROBE_FILTER_TOK_RPAREN]
  end.

(** Expressions the language can write. *)
Fixpoint expr_ok (e : expr) : Prop :=
  match e with
  | ENum v => is_u64 v
  | EArg i => 0 <= i < ZT_TRACE_GP_ARG_COUNT
  | ENot e => expr_ok e
  | EBin op a b => is_Some (op_prec op) /\ expr_ok a /\ expr_ok b
  end.

(** ** Parsing the tokens back *)

Lemma derives_lift toks n m i j e :
  (n <= m)%nat -> derives toks n i j e -> derives toks m i j e.
Proof. induction 1 as [|m _ IH]; [done|]. intros H. econstructor; [by apply IH|constructor]. Qed.

(** The list l is found in toks from position i on. *)
Fixpoint toks_at (toks : list zt_probe_filter_token_t) (i : nat)
    (l : list zt_probe_filter_token_t) : Prop :=
  match l with
  | [] => True
  | t :: l' => toks !! i = Some t /\ toks_at toks (S i) l'
  end.

Lemma toks_at_app toks i l1 l2 :
  toks_at toks i (l1 ++ l2) <-> toks_at toks i l1 /\ toks_at toks (i + length l1) l2.
Proof.
  revert i. induction l1 as [|t l1 IH]; intros i; simpl.
  - rewrite Nat.add_0_r. tauto.
  - rewrite IH. replace (S i + length l1)%nat with (i + S (length l1))%nat by lia. tauto.
Qed.

Lemma toks_at_suffix pre l : toks_at (pre ++ l) (length pre) l.
Proof.
  revert pre. induction l as [|t l IH]; intros pre; simpl; [done|]. split.
  - by rewrite lookup_app_r, Nat.sub_diag by lia.
  - specialize (IH (pre ++ [t])). rewrite length_app, <- app_assoc, Nat.add_1_r in IH. exact IH.
Qed.

Lemma tok_at_op toks i op : toks !! i = Some (op_token op) -> tok_at toks i op.
Proof. intros H. by exists (op_token op). Qed.

(** A parenthesized binary operation. *)
Lemma derives_binary toks op i k j a b :
  is_Some (op_prec op) ->
  tok_at toks i ZT_PROBE_FILTER_TOK_LPAREN -> derives toks 0 (S i) k a ->
  tok_at toks k op -> derives toks 0 (S k) j b ->
  tok_at toks j ZT_PROBE_FILTER_TOK_RPAREN ->
  derives toks 0 i (S j) (EBin op a b).
Proof.
  intros [p Hp] Hl Ha Ho Hb Hr.
  assert (exists m, p = S m /\ (S m <= top_level)%nat) as (m & -> & Hm)
    by (unfold top_level; destruct op; simplify_eq/=; eexists; (split; [done|lia])).
  apply d_paren; [done| |done]. apply (derives_lift _ (S m)); [done|].
  eapply d_chain; [apply (derives_lift _ 0); [lia|exact Ha]|].
  eapply c_op; [exact Ho|done| |constructor]. apply (derives_lift _ 0); [lia|done].
Qed.

Lemma expr_tokens_derive e toks i :
  expr_ok e -> toks_at toks i (expr_tokens e) ->
  derives toks 0 i (i + length (expr_tokens e)) e.
Proof.
  revert i. induction e as [v|x|e IH|op a IHa b IHb]; simpl; intros i Hok Hat.
  - rewrite Nat.add_1_r. destruct Hat as [Hat _]. by apply (d_num _ _ _ Hat).
  - rewrite Nat.add_1_r. destruct Hat as [Hat _]. by apply (d_arg _ _ _ Hat).
  - destruct Hat as [Ht Hat]. apply d_not; [by apply tok_at_op|].
    rewrite Nat.add_succ_r. by apply (IH (S i)).
  - destruct Hok as (Hp & Ha & Hb), Hat as [Hl Hat].
    apply toks_at_app in Hat as [Hta [Hto Hat]]. apply toks_at_app in Hat as [Htb [Htr _]].
    rewrite length_app. simpl. rewrite length_app. simpl.
    replace (i + S (length (expr_tokens a) + S (length (expr_tokens b) + 1)))%nat
      with (S (S (S i + length (expr_tokens a)) + length (expr_tokens b))) by lia.
    eapply derives_binary; eauto using tok_at_op.
Qed.

(** ** Reading the text back *)

(** The character after a token does not extend it. *)
Definition delimited (rest : cstr) : Prop :=
  isdigit (chr rest) = false /\ chr rest <> 120 /\ chr rest <> 88.

(** The first character of a printed expression. *)
Lemma print_head e rest :
  expr_ok e ->
  (isdigit (chr (print e ++ rest)) = true \/ chr (print e ++ rest) = 97 \/
   chr (print e ++ rest) = 33 \/ chr (print e ++ rest) = 40).
Proof.
  destruct e; simpl; auto. intros Hv. left.
  destruct (dec_str_spec v Hv) as (Hne & Hd & _). destruct (dec_str v); [done|].
  by inversion Hd.
Qed.

Definition op_follow (rest : cstr) : Prop := chr rest <> 61.

Lemma next_token_op f op rest :
  (is_Some (op_prec op) \/ op = ZT_PROBE_FILTER_TOK_NOT \/ op = ZT_PROBE_FILTER_TOK_LPAREN \/
   op = ZT_PROBE_FILTER_TOK_RPAREN) ->
  op_follow rest \/ op = ZT_PROBE_FILTER_TOK_RPAREN ->
  flt_token_count f < ZT_PROBE_FILTER_TOKEN_CAP ->
  exists f', zt_filter_append_token f op 0 0 = Some f' /\
    zt_filter_append_next_token f (op_text op ++ rest) = (1, f', rest).
Proof.
  intros Hop Hf Hc. destruct (append_token_some f op 0 0 Hc) as [f' Hf']. exists f'.
  split; [done|].
  destruct (decide (op = ZT_PROBE_FILTER_TOK_RPAREN)) as [->|Hrp].
  { unfold zt_filter_append_next_token, zt_filter_append_arg, zt_filter_append_number. simpl.
    by rewrite Hf'. }
  destruct Hf as [Hf|]; [|done].
  assert (Hne : forall b, match rest with [] => false | c :: _ => (61 =? c) && b end = false).
  { intros b. destruct rest as [|c r]; [done|]. unfold op_follow in Hf. simpl in Hf.
    apply andb_false_iff. left. apply Z.eqb_neq. lia. }
  destruct Hop as [[p Hp] | [-> | [-> | ->]]]; [destruct op; try discriminate Hp|..]; try done;
    unfold zt_filter_append_next_token, zt_filter_append_arg, zt_filter_append_number; simpl;
    rewrite ?Hne; simpl; by rewrite Hf'.
Qed.

Lemma digit_in_delim b c : b <= 10 -> isdigit c = false -> digit_in b c = None.
Proof.
  intros Hb Hc. unfold digit_in, digit_val. rewrite Hc.
  repeat case_match; try done; zsimp.
Qed.

(** strtoull, base 0, on a decimal number. *)
Lemma strtoull_dec_str v rest :
  is_u64 v -> delimited rest ->
  strtoull (dec_str v ++ rest) 0 = {| st_value := v; st_erange := false; st_rest := rest |}.
Proof.
  intros Hv (Hd1 & Hd2 & Hd3).
  destruct (dec_str_spec v Hv) as (Hne & Hd & Hpos & Hz & Hs).
  assert (Hh : isdigit (chr (dec_str v ++ rest)) = true)
    by (destruct (dec_str v); [done|by inversion Hd]).
  destruct (strtoull_at_digit (dec_str v ++ rest) 0 Hh) as (b & p3 & q0 & Hp & _ & _ & ->).
  assert (Hmax : (ULLONG_MAX <? v) = false) by (unfold ULLONG_MAX, is_u64 in *; lia).
  destruct (decide (v = 0)) as [->|Hnz].
  - rewrite Hz in Hp by done. assert (Hb : b = 8 /\ p3 = 48 :: rest).
    { unfold strto_prefix in Hp. simpl in Hp. destruct rest as [|x [|c r]]; [by injection Hp as <- <-..|].
      simpl in Hd2, Hd3. apply Z.eqb_neq in Hd2, Hd3. rewrite Hd2, Hd3 in Hp. by injection Hp as <- <-. }
    destruct Hb as [-> ->]. simpl. rewrite strto_digits_stop by by apply digit_in_delim.
    done.
  - specialize (Hpos ltac:(unfold is_u64 in Hv; lia)).
    assert (Hb : b = 10 /\ p3 = dec_str v ++ rest).
    { unfold strto_prefix in Hp. simpl in Hp. destruct (dec_str v) as [|d ds]; [done|].
      simpl in Hpos, Hp. clear -Hp Hpos.
      destruct d as [|d|]; simplify_eq; try done.
      do 6 (destruct d as [d|d|]; simplify_eq; try done). }
    destruct Hb as [-> ->].
    rewrite bool_decide_eq_true_2.
    + rewrite Hs, strto_digits_stop by by apply digit_in_delim. by rewrite Hmax.
    + unfold isdigit in Hh. set (c := chr (dec_str v ++ rest)) in *. clearbody c. zbool.
      exists (c - 48). replace c with (48 + (c - 48)) at 1 by lia. apply digit_in_dec. lia.
Qed.

Lemma next_token_num f v rest :
  is_u64 v -> delimited rest -> flt_token_count f < ZT_PROBE_FILTER_TOKEN_CAP ->
  exists f', zt_filter_append_token f ZT_PROBE_FILTER_TOK_NUM v 0 = Some f' /\
    zt_filter_append_next_token f (dec_str v ++ rest) = (1, f', rest).
Proof.
  intros Hv Hdel Hc.
  destruct (append_token_some f ZT_PROBE_FILTER_TOK_NUM v 0 Hc) as [f' Hf']. exists f'.
  split; [done|]. destruct (dec_str_spec v Hv) as (Hne & Hd & _).
  pose proof (strtoull_dec_str v rest Hv Hdel) as Hst.
  destruct (dec_str v) as [|d ds]; [done|]. inversion Hd as [|? ? Hdd]; subst.
  assert (Hrange : 48 <= d <= 57) by (unfold isdigit in Hdd; zbool; lia).
  unfold zt_filter_append_next_token, zt_filter_skip_spaces, zt_filter_append_arg,
    zt_filter_append_number. cbn [app skip_while chr].
  rewrite isspace_false by lia. cbn [chr].
  replace (d =? 0) with false by lia.
  assert (Ha : starts_with (lit "arg") (d :: ds ++ rest) = false).
  { change ((97 =? d) && starts_with (lit "rg") (ds ++ rest) = false).
    by replace (97 =? d) with false by lia. }
  rewrite Ha. cbn [negb orb Z.eqb chr]. rewrite Hdd. cbn [negb].
  change (strtoull (d :: ds ++ rest) 0) with (strtoull ((d :: ds) ++ rest) 0).
  rewrite Hst. cbn [st_rest st_erange st_value].
  rewrite bool_decide_eq_false_2.
  - cbn [orb]. by rewrite Hf'.
  - intros Heq. apply (f_equal length) in Heq. simpl in Heq. rewrite length_app in Heq. lia.
Qed.

Lemma next_token_arg f i rest :
  0 <= i < ZT_TRACE_GP_ARG_COUNT -> delimited rest ->
  flt_token_count f < ZT_PROBE_FILTER_TOKEN_CAP ->
  exists f', zt_filter_append_token f ZT_PROBE_FILTER_TOK_ARG 0 i = Some f' /\
    zt_filter_append_next_token f (lit "arg" ++ [48 + i] ++ rest) = (1, f', rest).
Proof.
  unfold ZT_TRACE_GP_ARG_COUNT. intros Hi (Hd & _) Hc.
  destruct (append_token_some f ZT_PROBE_FILTER_TOK_ARG 0 i Hc) as [f' Hf']. exists f'.
  split; [done|].
  assert (Hst : strtoull ([48 + i] ++ rest) 10 =
    {| st_value := i; st_erange := false; st_rest := rest |}).
  { destruct (strtoull_at_digit ([48 + i] ++ rest) 10) as (b & p3 & q0 & Hp & _ & _ & ->);
      [unfold isdigit; simpl; lia|].
    unfold strto_prefix in Hp. simplify_eq/=. rewrite bool_decide_eq_true_2
      by (rewrite digit_in_dec by lia; eauto).
    rewrite digit_in_dec by lia. rewrite strto_digits_stop by by apply digit_in_delim.
    replace (ULLONG_MAX <? 0 * 10 + i) with false by (unfold ULLONG_MAX; lia).
    done. }
  unfold zt_filter_append_next_token, zt_filter_append_arg.
  change (zt_filter_skip_spaces (lit "arg" ++ [48 + i] ++ rest)) with (lit "arg" ++ [48 + i] ++ rest).
  change (drop 3 (lit "arg" ++ [48 + i] ++ rest)) with ([48 + i] ++ rest).
  change (starts_with (lit "arg") (lit "arg" ++ [48 + i] ++ rest)) with true.
  change (chr ([48 + i] ++ rest)) with (48 + i).
  change (chr (lit "arg" ++ [48 + i] ++ rest) =? 0) with false.
  replace (isdigit (48 + i)) with true by (unfold isdigit; lia). rewrite Hst.
  cbn [negb orb st_rest st_value]. rewrite bool_decide_eq_false_2.
  - replace (i >=? ZT_TRACE_GP_ARG_COUNT) with false by (unfold ZT_TRACE_GP_ARG_COUNT; lia).
    cbn [orb]. rewrite Z.mod_small by lia. by rewrite Hf'.
  - intros Heq. apply (f_equal length) in Heq. simpl in Heq. lia.
Qed.

(** The filter after the tokens of l have been appended. *)
Inductive pushed : zt_probe_filter_t -> list zt_probe_filter_token_t -> zt_probe_filter_t -> Prop :=
| pushed_nil f : pushed f [] f
| pushed_cons f t l f1 f2 :
    zt_filter_append_token f (tok_type t) (tok_value t) (tok_arg_index t) = Some f1 ->
    pushed f1 l f2 -> pushed f (t :: l) f2.

Lemma pushed_app f l1 l2 f1 f2 : pushed f l1 f1 -> pushed f1 l2 f2 -> pushed f (l1 ++ l2) f2.
Proof. induction 1; simpl; eauto using pushed. Qed.

Lemma pushed_spec f l f' :
  filter_wf f -> pushed f l f' ->
  filter_wf f' /\ flt_enabled f' = flt_enabled f /\ filter_tokens f' = filter_tokens f ++ l /\
  flt_token_count f' = flt_token_count f + Z.of_nat (length l).
Proof.
  intros Hwf H. induction H as [f|f t l f1 f2 Ha _ IH].
  - rewrite app_nil_r. simpl. split_and!; [done..|lia].
  - pose proof (append_token_spec _ _ _ _ _ Hwf Ha) as (Hwf1 & He & _ & Ht).
    destruct (IH Hwf1) as (? & ? & Ht2 & Hc). split_and!; [done|congruence| |].
    + rewrite Ht2, Ht, <- app_assoc. by destruct t.
    + unfold zt_filter_append_token in Ha. case_match; simplify_eq. simpl in *. lia.
Qed.

(** The loop reads text as the tokens l, whatever delimited text follows. *)
Definition reads (ok_after : cstr -> Prop) (text : cstr) (l : list zt_probe_filter_token_t) : Prop :=
  forall f rest, ok_after rest ->
    flt_token_count f + Z.of_nat (length l) <= ZT_PROBE_FILTER_TOKEN_CAP ->
    filter_wf f ->
    exists f', pushed f l f' /\
      forall fuel, compile_loop (length l + fuel) f (text ++ rest) = compile_loop fuel f' rest.

Lemma reads_weaken (P Q : cstr -> Prop) text l :
  (forall r, Q r -> P r) -> reads P text l -> reads Q text l.
Proof. intros HPQ H f rest Hr. apply H. auto. Qed.

Lemma reads_app (P Q : cstr -> Prop) t1 t2 l1 l2 :
  reads P t1 l1 -> reads Q t2 l2 -> (forall r, Q r -> P (t2 ++ r)) -> reads Q (t1 ++ t2) (l1 ++ l2).
Proof.
  intros H1 H2 HP f rest Hr Hc Hwf. rewrite length_app in Hc.
  destruct (H1 f (t2 ++ rest)) as (f1 & Hp1 & Hl1); [auto|lia|done|].
  destruct (pushed_spec _ _ _ Hwf Hp1) as (Hwf1 & _ & _ & Hc1).
  destruct (H2 f1 rest) as (f2 & Hp2 & Hl2); [done|lia|done|].
  exists f2. split; [by eapply pushed_app|]. intros fuel.
  rewrite length_app, <- app_assoc, <- Nat.add_assoc, Hl1. apply Hl2.
Qed.

(** One token read by one iteration. *)
Lemma reads_one (P : cstr -> Prop) text t :
  chr text <> 0 ->
  (forall f rest, P rest -> flt_token_count f < ZT_PROBE_FILTER_TOKEN_CAP ->
     exists f', zt_filter_append_token f (tok_type t) (tok_value t) (tok_arg_index t) = Some f' /\
       zt_filter_append_next_token f (text ++ rest) = (1, f', rest)) ->
  reads P text [t].
Proof.
  intros Hch H f rest Hr Hc Hwf. simpl in Hc.
  destruct (H f rest Hr ltac:(lia)) as (f' & Ha & Hn). exists f'.
  split; [by eapply pushed_cons; [|constructor]|]. intros fuel. cbn [length Nat.add compile_loop].
  replace (chr (text ++ rest) =? 0) with false by (destruct text; simpl in *; lia).
  by rewrite Hn.
Qed.

Lemma reads_op op :
  (is_Some (op_prec op) \/ op = ZT_PROBE_FILTER_TOK_NOT \/ op = ZT_PROBE_FILTER_TOK_LPAREN \/
   op = ZT_PROBE_FILTER_TOK_RPAREN) ->
  reads op_follow (op_text op) [op_token op].
Proof.
  intros Hop. apply reads_one; [|intros; apply next_token_op; auto].
  destruct Hop as [[p Hp] | [-> | [-> | ->]]]; [destruct op|..]; done.
Qed.

Lemma print_follow e r : expr_ok e -> op_follow (print e ++ r).
Proof.
  intros He. unfold op_follow.
  destruct (print_head e r He) as [H|[H|[H|H]]]; [unfold isdigit in H; zbool; lia|lia..].
Qed.

Lemma op_delimits op r : is_Some (op_prec op) -> delimited (op_text op ++ r).
Proof. intros [p Hp]. destruct op; try discriminate Hp; by unfold delimited. Qed.

Lemma reads_print e : expr_ok e -> reads delimited (print e) (expr_tokens e).
Proof.
  induction e as [v|i|e IH|op a IHa b IHb]; cbn [print expr_tokens expr_ok]; intros Hok.
  - apply reads_one; [|intros; by apply next_token_num].
    destruct (dec_str_spec v Hok) as (Hne & Hd & _). destruct (dec_str v); [done|].
    inversion Hd as [|? ? Hz]. unfold isdigit in Hz. zbool. simpl. lia.
  - apply reads_one; [done|]. intros f rest Hr Hc. rewrite <- app_assoc. by apply next_token_arg.
  - apply (reads_app op_follow _ _ _ [op_token ZT_PROBE_FILTER_TOK_NOT]); [apply reads_op; auto|auto|].
    intros. by apply print_follow.
  - destruct Hok as (Hp & Ha & Hb).
    apply (reads_app op_follow delimited _ _ [op_token ZT_PROBE_FILTER_TOK_LPAREN]);
      [apply reads_op; auto| |intros; rewrite <- app_assoc; by apply print_follow].
    apply (reads_app delimited); [auto| |intros; rewrite <- app_assoc; by apply op_delimits].
    apply (reads_app op_follow delimited _ _ [op_token op]);
      [apply reads_op; auto| |intros; rewrite <- app_assoc; by apply print_follow].
    apply (reads_app delimited); [auto| |intros; by unfold delimited].
    apply reads_one; [done|]. intros f rest Hr Hc. apply next_token_op; auto.
Qed.

Lemma tokens_le_print e : expr_ok e -> (length (expr_tokens e) <= length (print e))%nat.
Proof.
  induction e as [v|i|e IH|op a IHa b IHb]; simpl; intros Hok.
  - destruct (dec_str_spec v Hok) as [Hne _]. destruct (dec_str v); [done|]. simpl. lia.
  - lia.
  - specialize (IH Hok). lia.
  - destruct Hok as ([p Hp] & Ha & Hb). rewrite !length_app. simpl. rewrite !length_app. simpl.
    specialize (IHa Ha). specialize (IHb Hb).
    assert (1 <= length (op_text op))%nat by (destruct op; try discriminate Hp; simpl; lia). lia.
Qed.

Lemma print_chr e : expr_ok e -> chr (print e) <> 0 /\ isspace (chr (print e)) = false.
Proof.
  intros He. pose proof (print_head e [] He) as H. rewrite app_nil_r in H.
  assert (33 <= chr (print e)) by (destruct H as [H|[H|[H|H]]]; [unfold isdigit in H; zbool; lia|lia..]).
  split; [lia|by apply isspace_false].
Qed.

(** C11: printing an expression and compiling the text gives back its tokens, and
    evaluating the compiled filter computes the expression's short-circuit
    meaning on every event: true when the value is non-zero, false when it is zero
    or a division by zero is reached.  The text must fit the 128-byte buffer and
    the tokens the array of 64. *)
Theorem zt_probe_filter_compile_print e f0 :
  expr_ok e -> Z.of_nat (length (print e)) < ZT_PROBE_FILTER_EXPR_MAX ->
  Z.of_nat (length (expr_tokens e)) <= ZT_PROBE_FILTER_TOKEN_CAP ->
  exists f, zt_probe_filter_compile (Some (print e)) f0 = (0, f) /\
    filter_tokens f = expr_tokens e /\
    forall event, zt_probe_filter_eval (Some f) (Some event) =
      match eval_expr (Some event) e with Some v => b2z (truthy v) | None => 0 end.
Proof.
  intros Hok Hlen Htok. destruct (print_chr e Hok) as [Hch Hsp].
  unfold zt_probe_filter_compile, zt_filter_skip_spaces.
  rewrite (skip_while_idem _ _ Hsp).
  replace ((chr (print e) =? 0) || _) with false by lia.
  destruct (initial_lexed (print e)) as (Hwf & Hen & _ & _).
  set (f := mk_filter 0 1 0 (print e) (flt_tokens zero_filter)) in *.
  destruct (reads_print e Hok f []) as (f' & Hp & Hl); [by unfold delimited|exact Htok|done|].
  destruct (pushed_spec _ _ _ Hwf Hp) as (Hwf' & Hen' & Ht & _).
  pose proof (tokens_le_print e Hok).
  specialize (Hl (S (length (print e) - length (expr_tokens e)))). rewrite app_nil_r in Hl.
  replace (length (expr_tokens e) + S (length (print e) - length (expr_tokens e)))%nat
    with (S (length (print e))) in Hl by lia.
  rewrite Hl. cbn [compile_loop chr Z.eqb].
  assert (Ht' : filter_tokens f' = expr_tokens e) by by rewrite Ht.
  assert (Hden : filter_denotes f' e).
  { unfold filter_denotes. rewrite Ht'. apply (derives_lift _ 0); [unfold top_level; lia|].
    apply (expr_tokens_derive e _ 0 Hok). apply (toks_at_suffix [] (expr_tokens e)). }
  assert (Hent : truthy (flt_enabled f') = true) by by rewrite Hen', Hen.
  exists f'. split_and!; [|done|intros; by apply zt_probe_filter_eval_denotes].
  f_equal. apply validate_denotes; [done|]. split; [done|eauto].
Qed.

(** C11 at `(arg0==1) && !(10 / arg2)`. *)
Lemma zt_probe_filter_compile_print_witness :
  let e := EBin ZT_PROBE_FILTER_TOK_AND (EBin ZT_PROBE_FILTER_TOK_EQ (EArg 0) (ENum 1))
             (ENot (EBin ZT_PROBE_FILTER_TOK_DIV (ENum 10) (EArg 2))) in
  print e = lit "((arg0==1)&&!(10/arg2))" /\
  exists f, zt_probe_filter_compile (Some (print e)) zero_filter = (0, f) /\
    filter_tokens f = expr_tokens e.
Proof.
  intros e. split; [vm_compute; reflexivity|].
  destruct (zt_probe_filter_compile_print e zero_filter) as (f & H1 & H2 & _).
  - unfold e. simpl. unfold is_u64, ZT_TRACE_GP_ARG_COUNT. split_and!; eauto; lia.
  - vm_compute. reflexivity.
  - vm_compute. discriminate.
  - exists f. split; [exact H1|exact H2].
Defined.

(** The reference's C reading of `2 == 1 < 3`, where `==` binds looser than `<`. *)
Definition c_reading : expr :=
  EBin ZT_PROBE_FILTER_TOK_EQ (ENum 2)
    (EBin ZT_PROBE_FILTER_TOK_LT (ENum 1) (ENum 3)).

(** Equality and ordering comparisons share one left-associative precedence
    level, unlike in C: `2 == 1 < 3` compiles and is true (it reads as
    `(2 == 1) < 3`), although its C reading `2 == (1 < 3)` is false. *)
Lemma zt_filter_cmp_precedence event :
  exists f, zt_probe_filter_compile (Some (lit "2 == 1 < 3")) zero_filter = (0, f) /\
    zt_probe_filter_eval (Some f) (Some event) = 1 /\
    eval_expr (Some event) c_reading = Some 0.
Proof. eexists. split; [vm_compute; reflexivity|]. split; reflexivity. Qed.
