(* ===== verification/Payload.v ===== *)
(** * The payload (src/zt_payload.c and the stubs' call sequence)

    The code that runs inside the target: the per-thread shadow stack, the ring
    reservation and publication, the call actions and the entry and return
    handlers.  The state of one running thread is its TLS block plus the globals
    and the shared memory; [world] holds the TLS of every thread.

    The clock, the cpu number, the thread id and the functions of the target that
    call actions invoke are not part of the program: they are the fields of
    [env_t], an argument of the operations that use them. *)

From S2P Require Import Prelude CLib Types.

(** ** State *)

Record zt_saved_probe_frame_t := mk_frame {
  fr_ret_addr : Z;
  fr_probe_id : Z;
  fr_call_id : Z
}.

Definition zero_frame : zt_saved_probe_frame_t := mk_frame 0 0 0.

#[export] Instance frame_inhabited : Inhabited zt_saved_probe_frame_t := populate zero_frame.
#[export] Instance frame_eq_dec : EqDecision zt_saved_probe_frame_t.
Proof. solve_decision. Defined.

Definition ZT_MAX_SAVED_RET_ADDR : Z := 256.
Definition ZT_FP_STATE_VEC_OFFSET : Z := 0.
Definition ZT_FP_STATE_VEC_STRIDE : Z := 16.
Definition NSEC_PER_SEC : Z := 1000000000.

(** The ABI context the stubs build on the stack. *)
Record ctx_t := mk_ctx {
  ctx_r15 : Z; ctx_r14 : Z; ctx_r13 : Z; ctx_r12 : Z; ctx_r11 : Z; ctx_r10 : Z;
  gp_arg5 : Z; gp_arg4 : Z; gp_arg0 : Z; gp_arg1 : Z;
  ctx_rbp : Z;
  gp_arg2 : Z; gp_arg3 : Z;
  ctx_rbx : Z;
  gp_retval0 : Z;
  status_flags : Z;
  trampoline_ret_addr : Z;
  func_id : Z
}.

Definition zero_ctx : ctx_t := mk_ctx 0 0 0 0 0 0 0 0 0 0 0 0 0 0 0 0 0 0.

(** [context->func_id = id], the store exit_stub makes before zt_handle_return. *)
Definition ctx_with_func_id (c : ctx_t) (id : Z) : ctx_t :=
  mk_ctx (ctx_r15 c) (ctx_r14 c) (ctx_r13 c) (ctx_r12 c) (ctx_r11 c) (ctx_r10 c)
    (gp_arg5 c) (gp_arg4 c) (gp_arg0 c) (gp_arg1 c) (ctx_rbp c) (gp_arg2 c) (gp_arg3 c)
    (ctx_rbx c) (gp_retval0 c) (status_flags c) (trampoline_ret_addr c) id.

Record zt_payload_config_t := mk_config {
  shared_buffer_addr : Z;
  shared_buffer_size : Z
}.

(** The [__thread] variables. *)
Record tls_t := mk_tls {
  saved_frames : list zt_saved_probe_frame_t;
  call_stack_idx : Z;
  last_call_id : Z;
  cached_tid : Z;
  in_call_action : Z
}.

Definition zero_tls : tls_t :=
  mk_tls (replicate (Z.to_nat ZT_MAX_SAVED_RET_ADDR) zero_frame) 0 0 0 0.

(** The state one thread of the target sees.  [pl_mem] maps an address to the
    trace buffer mapped there; [pl_tick] counts the calls to the system services. *)
Record payload_t := mk_payload {
  g_payload_config : zt_payload_config_t;
  g_call_id_seq : Z;
  pl_mem : gmap Z zt_trace_buffer_t;
  pl_tick : nat;
  pl_tls : tls_t
}.

Definition set_tls (f : tls_t -> tls_t) (s : payload_t) : payload_t :=
  mk_payload (g_payload_config s) (g_call_id_seq s) (pl_mem s) (pl_tick s) (f (pl_tls s)).

Definition tls_set_frames fs (t : tls_t) :=
  mk_tls fs (call_stack_idx t) (last_call_id t) (cached_tid t) (in_call_action t).
Definition tls_set_idx i (t : tls_t) :=
  mk_tls (saved_frames t) i (last_call_id t) (cached_tid t) (in_call_action t).
Definition tls_set_last_call_id x (t : tls_t) :=
  mk_tls (saved_frames t) (call_stack_idx t) x (cached_tid t) (in_call_action t).
Definition tls_set_cached_tid x (t : tls_t) :=
  mk_tls (saved_frames t) (call_stack_idx t) (last_call_id t) x (in_call_action t).
Definition tls_set_in_call_action x (t : tls_t) :=
  mk_tls (saved_frames t) (call_stack_idx t) (last_call_id t) (cached_tid t) x.

Definition tick (s : payload_t) : payload_t :=
  mk_payload (g_payload_config s) (g_call_id_seq s) (pl_mem s) (S (pl_tick s)) (pl_tls s).

(** The services the payload relies on: [clock_gettime(CLOCK_MONOTONIC)] ([None]
    for an error return), [sched_getcpu], [gettid], indexed by the call number, and
    the functions of the target a call action invokes, which may change the state
    (they may be probed themselves). *)
Record env_t := mk_env {
  clock_gettime : nat -> option (Z * Z);
  sched_getcpu : nat -> Z;
  sys_gettid : Z;
  callee : Z -> list Z -> payload_t -> Z * payload_t
}.

(** ** System services *)

Definition zt_clock_monotonic_ns (E : env_t) (s : payload_t) : Z * payload_t :=
  match clock_gettime E (pl_tick s) with
  | None => (0, tick s)
  | Some (tv_sec, tv_nsec) => (u64 tv_sec *64 NSEC_PER_SEC +64 u64 tv_nsec, tick s)
  end.

Definition zt_gettid_u64 (E : env_t) (s : payload_t) : Z * payload_t :=
  let s := if cached_tid (pl_tls s) =? 0
           then set_tls (tls_set_cached_tid (u64 (sys_gettid E))) (tick s) else s in
  (cached_tid (pl_tls s), s).

Definition zt_getcpu_u64 (E : env_t) (s : payload_t) : Z * payload_t :=
  let cpu := sched_getcpu E (pl_tick s) in
  (if cpu >=? 0 then u64 cpu else 0, tick s).

(** ** The shared buffer *)

(** [None] is NULL; otherwise the address of the buffer. *)
Definition zt_get_trace_buffer (s : payload_t) : option Z :=
  let c := g_payload_config s in
  if (shared_buffer_addr c =? 0) || (shared_buffer_size c <? sizeof_zt_trace_buffer_t)
  then None else Some (shared_buffer_addr c).

Definition buffer_at (s : payload_t) (addr : Z) : zt_trace_buffer_t :=
  default zero_buffer (pl_mem s !! addr).

Definition store_buffer (addr : Z) (b : zt_trace_buffer_t) (s : payload_t) : payload_t :=
  mk_payload (g_payload_config s) (g_call_id_seq s) (<[addr := b]> (pl_mem s))
    (pl_tick s) (pl_tls s).

Definition buf_set_event (i : Z) (e : zt_trace_event_t) (b : zt_trace_buffer_t) :=
  mk_buffer (buf_magic b) (buf_write_seq b) (buf_call_action_count b) (buf_call_actions b)
    (arr_set (buf_events b) i e).

Definition buf_set_write_seq (x : Z) (b : zt_trace_buffer_t) :=
  mk_buffer (buf_magic b) x (buf_call_action_count b) (buf_call_actions b) (buf_events b).

(** A pointer to an event of the ring: the buffer's address and the slot. *)
Record slot_ptr := mk_slot { sp_buffer : Z; sp_index : Z }.

(** [*slot = f(old contents)], one or several field stores through the pointer. *)
Definition slot_update (p : slot_ptr) (f : zt_trace_event_t -> zt_trace_event_t)
    (s : payload_t) : payload_t :=
  let b := buffer_at s (sp_buffer p) in
  store_buffer (sp_buffer p)
    (buf_set_event (sp_index p) (f (arr_get (buf_events b) (sp_index p))) b) s.

Definition ev_set_committed (x : Z) (e : zt_trace_event_t) :=
  mk_event x (ev_probe_id e) (ev_event_type e) (ev_call_id e) (ev_timestamp_ns e)
    (ev_tid e) (ev_cpu_id e) (ev_args e) (ev_fp_args e).

Definition ev_set_args (l : list Z) (e : zt_trace_event_t) :=
  mk_event (ev_committed_seq e) (ev_probe_id e) (ev_event_type e) (ev_call_id e)
    (ev_timestamp_ns e) (ev_tid e) (ev_cpu_id e) l (ev_fp_args e).

Definition ev_set_fp_args (l : list Z) (e : zt_trace_event_t) :=
  mk_event (ev_committed_seq e) (ev_probe_id e) (ev_event_type e) (ev_call_id e)
    (ev_timestamp_ns e) (ev_tid e) (ev_cpu_id e) (ev_args e) l.

(** [event->args[i] = x], [event->fp_args[i] = x]. *)
Definition ev_set_arg (i x : Z) (e : zt_trace_event_t) :=
  ev_set_args (arr_set (ev_args e) i x) e.
Definition ev_set_fp_arg (i x : Z) (e : zt_trace_event_t) :=
  ev_set_fp_args (arr_set (ev_fp_args e) i x) e.

(** The low 64 bits of vector slot [index] of the stub's snapshot. *)
Definition zt_fp_state_vec_low64 (fp_state_area : option (list Z)) (index : Z) : Z :=
  match fp_state_area with
  | None => 0
  | Some area =>
      if (index <? 0) || (index >=? ZT_TRACE_FP_ARG_COUNT) then 0
      else le_word (take 8 (drop (Z.to_nat (ZT_FP_STATE_VEC_OFFSET
                                            + index * ZT_FP_STATE_VEC_STRIDE)) area))
  end.

(** Reservation: [None] is a NULL slot, otherwise the slot and [*commit_seq_out]. *)
Definition zt_reserve_event_slot (s : payload_t) : option (slot_ptr * Z) * payload_t :=
  match zt_get_trace_buffer s with
  | None => (None, s)
  | Some addr =>
      let buffer := buffer_at s addr in
      if negb (buf_magic buffer =? ZT_TRACE_BUFFER_MAGIC) then (None, s)
      else
        let seq := buf_write_seq buffer in
        let s := store_buffer addr (buf_set_write_seq (seq +64 1) buffer) s in
        let slot := mk_slot addr (seq mod ZT_TRACE_EVENT_CAPACITY) in
        let s := slot_update slot (ev_set_committed 0) s in
        (Some (slot, seq +64 1), s)
  end.

Definition zt_commit_event_slot (slot : slot_ptr) (commit_seq : Z) (s : payload_t) : payload_t :=
  if commit_seq =? 0 then s else slot_update slot (ev_set_committed commit_seq) s.

Definition zt_init_event_header (E : env_t) (event : slot_ptr)
    (probe_id event_type call_id : Z) (s : payload_t) : payload_t :=
  let s := slot_update event (fun e =>
    mk_event (ev_committed_seq e) probe_id event_type call_id (ev_timestamp_ns e)
      (ev_tid e) (ev_cpu_id e) (ev_args e) (ev_fp_args e)) s in
  let '(ts, s) := zt_clock_monotonic_ns E s in
  let s := slot_update event (fun e =>
    mk_event (ev_committed_seq e) (ev_probe_id e) (ev_event_type e) (ev_call_id e) ts
      (ev_tid e) (ev_cpu_id e) (ev_args e) (ev_fp_args e)) s in
  let '(tid, s) := zt_gettid_u64 E s in
  let s := slot_update event (fun e =>
    mk_event (ev_committed_seq e) (ev_probe_id e) (ev_event_type e) (ev_call_id e)
      (ev_timestamp_ns e) tid (ev_cpu_id e) (ev_args e) (ev_fp_args e)) s in
  let '(cpu, s) := zt_getcpu_u64 E s in
  slot_update event (fun e =>
    mk_event (ev_committed_seq e) (ev_probe_id e) (ev_event_type e) (ev_call_id e)
      (ev_timestamp_ns e) (ev_tid e) cpu (ev_args e) (ev_fp_args e)) s.

(** ** Call actions *)

(** The snapshot of an action slot between the two loads of [enabled]; the
    interleavings with the tracer's update are the subject of the protocol file. *)
Definition action_matches (snapshot : zt_probe_call_action_t) (enabled probe_id : Z) : bool :=
  negb (negb (act_enabled snapshot =? enabled)
        || negb (act_probe_id snapshot =? probe_id)
        || (act_callee_addr snapshot =? 0)
        || (act_arg_count snapshot >? ZT_CALL_ACTION_ARG_CAP)).

Definition zt_copy_call_action_if_match (action : zt_probe_call_action_t) (probe_id : Z)
    : option zt_probe_call_action_t :=
  let enabled := act_enabled action in
  if enabled =? 0 then None
  else
    let snapshot := mk_call_action (act_enabled action) (act_probe_id action)
                      (act_callee_addr action) (act_arg_count action) (act_args action) in
    if action_matches snapshot enabled probe_id then Some snapshot else None.

(** The scan of the other slots, from slot [i] on. *)
Fixpoint find_call_action_loop (n : nat) (i home_slot : Z) (b : zt_trace_buffer_t)
    (probe_id : Z) : option zt_probe_call_action_t :=
  match n with
  | O => None
  | S n' =>
      if i =? home_slot then find_call_action_loop n' (i + 1) home_slot b probe_id
      else
        match zt_copy_call_action_if_match (arr_get (buf_call_actions b) i) probe_id with
        | Some a => Some a
        | None => find_call_action_loop n' (i + 1) home_slot b probe_id
        end
  end.

Definition zt_find_call_action (probe_id : Z) (s : payload_t) : option zt_probe_call_action_t :=
  match zt_get_trace_buffer s with
  | None => None
  | Some addr =>
      let buffer := buffer_at s addr in
      if negb (buf_magic buffer =? ZT_TRACE_BUFFER_MAGIC)
         || (buf_call_action_count buffer =? 0) || (probe_id =? 0)
      then None
      else
        let home_slot := probe_id mod ZT_PAYLOAD_PROBE_ACTION_CAP in
        match zt_copy_call_action_if_match (arr_get (buf_call_actions buffer) home_slot) probe_id with
        | Some a => Some a
        | None => find_call_action_loop (Z.to_nat ZT_PAYLOAD_PROBE_ACTION_CAP) 0 home_slot
                    buffer probe_id
        end
  end.

Definition zt_context_gp_arg (context : option ctx_t) (index : Z) : Z :=
  match context with
  | None => 0
  | Some c =>
      match index with
      | 0 => gp_arg0 c
      | 1 => gp_arg1 c
      | 2 => gp_arg2 c
      | 3 => gp_arg3 c
      | 4 => gp_arg4 c
      | 5 => gp_arg5 c
      | _ => 0
      end
  end.

Definition resolve_call_arg (context : ctx_t) (a : zt_call_action_arg_t) : Z :=
  if ca_kind a =? ZT_CALL_ACTION_ARG_CONST then ca_value a
  else if ca_kind a =? ZT_CALL_ACTION_ARG_ENTRY_ARG then zt_context_gp_arg (Some context) (ca_value a)
  else 0.

(** The loop of zt_resolve_call_args from index [i], with [n] iterations left. *)
Fixpoint resolve_loop (n : nat) (i : Z) (action : zt_probe_call_action_t) (context : ctx_t)
    (resolved_args : list Z) : list Z :=
  match n with
  | O => resolved_args
  | S n' =>
      if (i <? act_arg_count action) && (i <? ZT_CALL_ACTION_ARG_CAP)
      then resolve_loop n' (i + 1) action context
             (arr_set resolved_args i (resolve_call_arg context (arr_get (act_args action) i)))
      else resolved_args
  end.

Definition zt_resolve_call_args (action : zt_probe_call_action_t) (context : ctx_t) : list Z :=
  resolve_loop (Z.to_nat ZT_CALL_ACTION_ARG_CAP) 0 action context
    (replicate (Z.to_nat ZT_CALL_ACTION_ARG_CAP) 0).

(** The switch on [arg_count]: the callee receives that many arguments. *)
Definition zt_call_action_invoke (E : env_t) (callee_addr arg_count : Z) (args : list Z)
    (s : payload_t) : Z * payload_t :=
  let a := arr_get args in
  match arg_count with
  | 0 => callee E callee_addr [] s
  | 1 => callee E callee_addr [a 0] s
  | 2 => callee E callee_addr [a 0; a 1] s
  | 3 => callee E callee_addr [a 0; a 1; a 2] s
  | 4 => callee E callee_addr [a 0; a 1; a 2; a 3] s
  | 5 => callee E callee_addr [a 0; a 1; a 2; a 3; a 4] s
  | _ => callee E callee_addr [a 0; a 1; a 2; a 3; a 4; a 5] s
  end.

(** [memcpy(event->call_args, call_args, 48)] over the union's fp_args. *)
Definition ev_set_call_args (call_args : list Z) (e : zt_trace_event_t) :=
  ev_set_fp_args (take 6 call_args ++ drop 6 (ev_fp_args e)) e.

Definition zt_run_call_action (E : env_t) (context : ctx_t) (call_id : Z) (s : payload_t)
    : payload_t :=
  if truthy (in_call_action (pl_tls s)) then s
  else
    match zt_find_call_action (func_id context) s with
    | None => s
    | Some action =>
        let call_args := zt_resolve_call_args action context in
        let s := set_tls (tls_set_in_call_action 1) s in
        let '(retval, s) := zt_call_action_invoke E (act_callee_addr action)
                              (act_arg_count action) call_args s in
        let s := set_tls (tls_set_in_call_action 0) s in
        match zt_reserve_event_slot s with
        | (None, s) => s
        | (Some (event, commit_seq), s) =>
            let s := zt_init_event_header E event (func_id context) ZT_TRACE_EVENT_CALL call_id s in
            let s := slot_update event (ev_set_arg 0 (act_callee_addr action)) s in
            let s := slot_update event (ev_set_arg 1 retval) s in
            let s := slot_update event (ev_set_arg 2 (act_arg_count action)) s in
            let s := slot_update event (ev_set_call_args call_args) s in
            zt_commit_event_slot event commit_seq s
        end
    end.

(** ** The exported functions *)

Definition zt_payload_init (config : option zt_payload_config_t) (s : payload_t) : Z * payload_t :=
  let s := match config with
           | Some c => mk_payload c (g_call_id_seq s) (pl_mem s) (pl_tick s) (pl_tls s)
           | None => s
           end in
  let s := match zt_get_trace_buffer s with
           | Some addr =>
               store_buffer addr
                 (mk_buffer ZT_TRACE_BUFFER_MAGIC 0 (buf_call_action_count zero_buffer)
                    (buf_call_actions zero_buffer) (buf_events zero_buffer)) s
           | None => s
           end in
  (0, mk_payload (g_payload_config s) 0 (pl_mem s) (pl_tick s) (pl_tls s)).

Definition entry_args (context : ctx_t) (fp : option (list Z)) (e : zt_trace_event_t) :=
  let e := ev_set_arg 0 (gp_arg0 context) e in
  let e := ev_set_arg 1 (gp_arg1 context) e in
  let e := ev_set_arg 2 (gp_arg2 context) e in
  let e := ev_set_arg 3 (gp_arg3 context) e in
  let e := ev_set_arg 4 (gp_arg4 context) e in
  let e := ev_set_arg 5 (gp_arg5 context) e in
  let e := ev_set_fp_arg 0 (zt_fp_state_vec_low64 fp 0) e in
  let e := ev_set_fp_arg 1 (zt_fp_state_vec_low64 fp 1) e in
  let e := ev_set_fp_arg 2 (zt_fp_state_vec_low64 fp 2) e in
  let e := ev_set_fp_arg 3 (zt_fp_state_vec_low64 fp 3) e in
  let e := ev_set_fp_arg 4 (zt_fp_state_vec_low64 fp 4) e in
  let e := ev_set_fp_arg 5 (zt_fp_state_vec_low64 fp 5) e in
  let e := ev_set_fp_arg 6 (zt_fp_state_vec_low64 fp 6) e in
  ev_set_fp_arg 7 (zt_fp_state_vec_low64 fp 7) e.

Definition zt_handle_entry (E : env_t) (context : option ctx_t) (fp : option (list Z))
    (s : payload_t) : payload_t :=
  match context with
  | None => s
  | Some context =>
      let call_id := g_call_id_seq s +64 1 in
      let s := mk_payload (g_payload_config s) call_id (pl_mem s) (pl_tick s) (pl_tls s) in
      let s := set_tls (tls_set_last_call_id call_id) s in
      match zt_reserve_event_slot s with
      | (None, s) => s
      | (Some (event, commit_seq), s) =>
          let s := zt_init_event_header E event (func_id context) ZT_TRACE_EVENT_ENTRY call_id s in
          let s := slot_update event (entry_args context fp) s in
          let s := zt_commit_event_slot event commit_seq s in
          zt_run_call_action E context call_id s
      end
  end.

Definition peek_call_id_c (s : payload_t) : Z :=
  if call_stack_idx (pl_tls s) <=? 0 then 0
  else fr_call_id (arr_get (saved_frames (pl_tls s)) (call_stack_idx (pl_tls s) - 1)).

Definition zt_handle_return (E : env_t) (context : option ctx_t) (fp : option (list Z))
    (s : payload_t) : payload_t :=
  match context with
  | None => s
  | Some context =>
      let call_id := peek_call_id_c s in
      if call_id =? 0 then s
      else
        match zt_reserve_event_slot s with
        | (None, s) => s
        | (Some (event, commit_seq), s) =>
            let s := zt_init_event_header E event (func_id context) ZT_TRACE_EVENT_RETURN call_id s in
            let s := slot_update event (ev_set_arg 0 (gp_retval0 context)) s in
            let s := slot_update event (ev_set_fp_arg 0 (zt_fp_state_vec_low64 fp 0)) s in
            zt_commit_event_slot event commit_seq s
        end
  end.

Definition save_probe_frame_c (ret_addr func_id : Z) (s : payload_t) : Z * payload_t :=
  let t := pl_tls s in
  if call_stack_idx t >=? ZT_MAX_SAVED_RET_ADDR then (1, s)
  else
    let frame := mk_frame ret_addr func_id (last_call_id t) in
    (0, set_tls (fun t => tls_set_idx (call_stack_idx t + 1)
          (tls_set_frames (arr_set (saved_frames t) (call_stack_idx t) frame) t)) s).

Definition peek_probe_id_c (s : payload_t) : Z :=
  if call_stack_idx (pl_tls s) <=? 0 then 0
  else fr_probe_id (arr_get (saved_frames (pl_tls s)) (call_stack_idx (pl_tls s) - 1)).

Definition get_ret_addr_c (s : payload_t) : Z * payload_t :=
  if call_stack_idx (pl_tls s) <=? 0 then (0, s)
  else
    let s := set_tls (fun t => tls_set_idx (call_stack_idx t - 1) t) s in
    (fr_ret_addr (arr_get (saved_frames (pl_tls s)) (call_stack_idx (pl_tls s))), s).

(** ** The stubs' calls into the payload

    Both ISAs' entry_stub calls zt_handle_entry, then save_probe_frame_c with the
    caller's return address, ignores its result, and makes the function return to
    exit_stub; exit_stub records the return and continues at the saved address. *)

Definition entry_stub (E : env_t) (context : ctx_t) (fp : list Z) (ret_addr : Z)
    (s : payload_t) : payload_t :=
  let s := zt_handle_entry E (Some context) (Some fp) s in
  let '(_, s) := save_probe_frame_c ret_addr (func_id context) s in
  s.

Definition exit_stub (E : env_t) (context : ctx_t) (fp : list Z) (s : payload_t)
    : Z * payload_t :=
  let context := ctx_with_func_id context (peek_probe_id_c s) in
  let s := zt_handle_return E (Some context) (Some fp) s in
  get_ret_addr_c s.

(** ** Threads

    Each thread runs on the shared part with its own TLS. *)

Record world_t := mk_world {
  w_shared : payload_t;           (* the TLS field of this record is not used *)
  w_tls : gmap Z tls_t
}.

Definition thread_view (tid : Z) (w : world_t) : payload_t :=
  set_tls (fun _ => default zero_tls (w_tls w !! tid)) (w_shared w).

Definition thread_back (tid : Z) (w : world_t) (s : payload_t) : world_t :=
  mk_world s (<[tid := pl_tls s]> (w_tls w)).

(** What a thread does to the payload: it enters or leaves a probed function. *)
Inductive stub_action :=
| StubEntry (c : ctx_t) (fp : list Z) (ret_addr : Z)
| StubExit (c : ctx_t) (fp : list Z).

(** The address an exit stub continues at, if the action is an exit. *)
Definition run_stub (E : env_t) (a : stub_action) (s : payload_t) : list Z * payload_t :=
  match a with
  | StubEntry c fp ret => ([], entry_stub E c fp ret s)
  | StubExit c fp => let '(r, s) := exit_stub E c fp s in ([r], s)
  end.

(** An interleaving of the threads' actions; the result lists, with the thread, the
    addresses the exit stubs continued at. *)
Fixpoint run_schedule (E : Z -> env_t) (l : list (Z * stub_action)) (w : world_t)
    : list (Z * Z) * world_t :=
  match l with
  | [] => ([], w)
  | (tid, a) :: l =>
      let '(rs, s) := run_stub (E tid) a (thread_view tid w) in
      let '(rs', w) := run_schedule E l (thread_back tid w s) in
      (map (pair tid) rs ++ rs', w)
  end.
