(* ===== verification/ShadowStack.v ===== *)
(** * The shadow stack of return addresses

    The abstract stack behind [saved_frames]/[call_stack_idx], the calls of a
    thread as a tree, and what running the tree through the stubs does to it. *)

From S2P Require Import Prelude CLib Types Payload.

(** ** Abstraction *)

Definition tls_ok (t : tls_t) : Prop :=
  length (saved_frames t) = Z.to_nat ZT_MAX_SAVED_RET_ADDR /\
  0 <= call_stack_idx t <= ZT_MAX_SAVED_RET_ADDR.

(** The live frames, outermost call first. *)
Definition shadow (t : tls_t) : list zt_saved_probe_frame_t :=
  take (Z.to_nat (call_stack_idx t)) (saved_frames t).

(** [same_stack s s']: the thread's live frames are the same in both states. *)
Definition same_stack (s s' : payload_t) : Prop :=
  call_stack_idx (pl_tls s') = call_stack_idx (pl_tls s) /\
  length (saved_frames (pl_tls s')) = length (saved_frames (pl_tls s)) /\
  shadow (pl_tls s') = shadow (pl_tls s).

#[export] Instance same_stack_equiv : Equivalence same_stack.
Proof.
  split; unfold same_stack.
  - by intros s.
  - intros s s' (? & ? & ?). auto.
  - intros s1 s2 s3 (? & ? & ?) (? & ? & ?). split_and!; congruence.
Qed.

Lemma same_stack_shadow s s' : same_stack s s' -> shadow (pl_tls s') = shadow (pl_tls s).
Proof. by intros (_ & _ & ->). Qed.

Lemma same_stack_ok s s' : same_stack s s' -> tls_ok (pl_tls s) -> tls_ok (pl_tls s').
Proof. unfold tls_ok. by intros (-> & -> & _). Qed.

Lemma length_shadow t : tls_ok t -> Z.of_nat (length (shadow t)) = call_stack_idx t.
Proof.
  unfold tls_ok, shadow, ZT_MAX_SAVED_RET_ADDR. intros [H1 H2]. rewrite length_take. lia.
Qed.

(** The abstract push and pop. *)
Lemma save_probe_frame_push ret id s :
  tls_ok (pl_tls s) -> call_stack_idx (pl_tls s) < ZT_MAX_SAVED_RET_ADDR ->
  let '(rc, s') := save_probe_frame_c ret id s in
  rc = 0 /\ tls_ok (pl_tls s') /\
  call_stack_idx (pl_tls s') = call_stack_idx (pl_tls s) + 1 /\
  shadow (pl_tls s') = shadow (pl_tls s) ++ [mk_frame ret id (last_call_id (pl_tls s))].
Proof.
  unfold save_probe_frame_c, tls_ok, shadow, ZT_MAX_SAVED_RET_ADDR.
  destruct (pl_tls s) as [fs i lc ct ic] eqn:Ht. cbn. intros [Hl Hi] Hlt.
  destruct (Z.geb_spec i 256); [lia|]. cbn. rewrite Ht. cbn. rewrite length_arr_set.
  split_and!; try lia. rewrite Z2Nat.inj_add by lia. change (Z.to_nat 1) with 1%nat.
  rewrite Nat.add_1_r, (take_S_r _ _ (mk_frame ret id lc)).
  - unfold arr_set. by rewrite take_insert_ge by lia.
  - unfold arr_set. apply list_lookup_insert_eq. lia.
Qed.

Lemma shadow_top t fs f :
  tls_ok t -> shadow t = fs ++ [f] ->
  0 < call_stack_idx t /\ arr_get (saved_frames t) (call_stack_idx t - 1) = f /\
  shadow (tls_set_idx (call_stack_idx t - 1) t) = fs.
Proof.
  intros Hok Hs. pose proof (length_shadow t Hok) as Hl. rewrite Hs, length_app in Hl. simpl in Hl.
  split_and!; [lia| |].
  - unfold arr_get. apply list_lookup_total_correct.
    transitivity (shadow t !! Z.to_nat (call_stack_idx t - 1)).
    + unfold shadow. rewrite lookup_take_lt by lia. done.
    + rewrite Hs, lookup_app_r by lia. by replace (_ - _)%nat with 0%nat by lia.
  - unfold shadow, tls_set_idx in *. cbn.
    replace (Z.to_nat (call_stack_idx t - 1))
      with (Z.to_nat (call_stack_idx t - 1) `min` Z.to_nat (call_stack_idx t))%nat by lia.
    rewrite <- take_take, Hs, take_app_le, take_ge by lia. done.
Qed.

Lemma get_ret_addr_pop s fs f :
  tls_ok (pl_tls s) -> shadow (pl_tls s) = fs ++ [f] ->
  let '(ret, s') := get_ret_addr_c s in
  ret = fr_ret_addr f /\ tls_ok (pl_tls s') /\ shadow (pl_tls s') = fs /\
  call_stack_idx (pl_tls s') = call_stack_idx (pl_tls s) - 1.
Proof.
  intros Hok Hs. destruct (shadow_top _ _ _ Hok Hs) as (Hpos & Hget & Hsh).
  unfold get_ret_addr_c. destruct (Z.leb_spec (call_stack_idx (pl_tls s)) 0); [lia|]. cbn.
  rewrite Hget. split_and!; [done| |done|done].
  destruct Hok. unfold tls_ok. cbn. split; [done|lia].
Qed.

Lemma peek_probe_id_top s fs f :
  tls_ok (pl_tls s) -> shadow (pl_tls s) = fs ++ [f] -> peek_probe_id_c s = fr_probe_id f.
Proof.
  intros Hok Hs. destruct (shadow_top _ _ _ Hok Hs) as (Hpos & Hget & _).
  unfold peek_probe_id_c. destruct (Z.leb_spec (call_stack_idx (pl_tls s)) 0); [lia|]. by rewrite Hget.
Qed.

Lemma peek_call_id_top s fs f :
  tls_ok (pl_tls s) -> shadow (pl_tls s) = fs ++ [f] -> peek_call_id_c s = fr_call_id f.
Proof.
  intros Hok Hs. destruct (shadow_top _ _ _ Hok Hs) as (Hpos & Hget & _).
  unfold peek_call_id_c. destruct (Z.leb_spec (call_stack_idx (pl_tls s)) 0); [lia|]. by rewrite Hget.
Qed.

(** ** The handlers leave the stack alone *)

(** What a call action's callee promises: with [d] free frames it returns with the
    thread's stack as it found it, its own probed calls having all returned. *)
Class CalleeBalanced (E : env_t) (d : Z) : Prop := {
  callee_depth_nonneg : 0 <= d;
  callee_balanced : forall addr args s,
    tls_ok (pl_tls s) -> call_stack_idx (pl_tls s) + d <= ZT_MAX_SAVED_RET_ADDR ->
    same_stack s (snd (callee E addr args s))
}.

(** The stack has [d] free frames. *)
Definition room (d : Z) (s : payload_t) : Prop :=
  tls_ok (pl_tls s) /\ call_stack_idx (pl_tls s) + d <= ZT_MAX_SAVED_RET_ADDR.

Lemma same_stack_room d s s' : same_stack s s' -> room d s -> room d s'.
Proof. intros H [? ?]. split; [by apply (same_stack_ok s)|]. destruct H as (-> & _). done. Qed.

Lemma slot_update_stack p f s : same_stack s (slot_update p f s).
Proof. done. Qed.

Lemma init_header_stack E p a b c s : same_stack s (zt_init_event_header E p a b c s).
Proof.
  unfold zt_init_event_header, zt_clock_monotonic_ns, zt_gettid_u64, zt_getcpu_u64.
  destruct (clock_gettime E _) as [[? ?]|]; cbn;
    destruct (cached_tid (pl_tls s) =? 0); done.
Qed.

Lemma commit_stack p n s : same_stack s (zt_commit_event_slot p n s).
Proof. unfold zt_commit_event_slot. by destruct (n =? 0). Qed.

Lemma reserve_stack s : same_stack s (snd (zt_reserve_event_slot s)).
Proof. unfold zt_reserve_event_slot. repeat case_match; done. Qed.

Lemma invoke_stack E `{!CalleeBalanced E d} addr n args s :
  room d s -> same_stack s (snd (zt_call_action_invoke E addr n args s)).
Proof.
  intros [? ?]. unfold zt_call_action_invoke. repeat case_match; by apply (callee_balanced (d := d)).
Qed.

Lemma set_in_call_action_stack x s : same_stack s (set_tls (tls_set_in_call_action x) s).
Proof. done. Qed.

#[export] Hint Resolve slot_update_stack init_header_stack commit_stack reserve_stack
  set_in_call_action_stack : zt.

(** Chains the steps of a handler by transitivity, last step first. *)
Ltac stack_steps :=
  repeat first
    [ reflexivity
    | solve [auto with zt]
    | etransitivity; [|solve [eauto with zt]] ].

Lemma run_call_action_stack E `{!CalleeBalanced E d} c id s :
  room d s -> same_stack s (zt_run_call_action E c id s).
Proof.
  intros Hroom. unfold zt_run_call_action. case_match; [done|].
  destruct (zt_find_call_action (func_id c) s) as [a|]; [|done].
  set (s1 := set_tls (tls_set_in_call_action 1) s).
  pose proof (invoke_stack E (act_callee_addr a) (act_arg_count a) (zt_resolve_call_args a c) s1 Hroom) as Hi.
  destruct (zt_call_action_invoke _ _ _ _ s1) as [r s2]. cbn [snd] in Hi.
  set (s3 := set_tls (tls_set_in_call_action 0) s2).
  assert (H3 : same_stack s s3) by (transitivity s2; [exact Hi|done]).
  pose proof (reserve_stack s3) as Hr.
  destruct (zt_reserve_event_slot s3) as [[[p n]|] s4]; cbn [snd] in Hr;
    (etransitivity; [exact H3|]); [|done].
  transitivity s4; [done|]. stack_steps.
Qed.

Lemma handle_entry_stack E `{!CalleeBalanced E d} c fp s :
  room d s -> same_stack s (zt_handle_entry E c fp s).
Proof.
  intros Hroom. unfold zt_handle_entry. destruct c as [c|]; [|done].
  set (s1 := set_tls _ _). transitivity s1; [done|]. pose proof (reserve_stack s1) as Hr.
  destruct (zt_reserve_event_slot s1) as [[[p n]|] s2]; cbn [snd] in Hr; [|done].
  transitivity s2; [done|].
  match goal with |- same_stack s2 (zt_run_call_action _ _ _ ?x) => assert (H3 : same_stack s2 x) by stack_steps end.
  etransitivity; [exact H3|]. apply (run_call_action_stack E).
  apply (same_stack_room d s2); [done|]. by apply (same_stack_room d s1).
Qed.

Lemma handle_return_stack E c fp s : same_stack s (zt_handle_return E c fp s).
Proof.
  unfold zt_handle_return. destruct c as [c|]; [|done]. case_match; [done|].
  pose proof (reserve_stack s) as Hr.
  destruct (zt_reserve_event_slot s) as [[[p n]|] s2]; cbn [snd] in Hr; [|done].
  transitivity s2; [done|]. stack_steps.
Qed.

(** ** Calls as trees *)

(** One call of a probed function: the context and vector snapshot at entry, the
    caller's return address, the probed calls it makes in order, and the context
    and snapshot at its return. *)
Inductive ctree :=
  CNode (c : ctx_t) (fp : list Z) (ret_addr : Z) (kids : list ctree) (rc : ctx_t) (rfp : list Z).

(** Runs calls one after the other; the results list the addresses returned to. *)
Definition run_seq {A} (run : A -> payload_t -> list Z * payload_t) :=
  fix go (ts : list A) (s : payload_t) : list Z * payload_t :=
    match ts with
    | [] => ([], s)
    | t :: ts =>
        let '(l1, s) := run t s in
        let '(l2, s) := go ts s in (l1 ++ l2, s)
    end.

(** Runs a call through the stubs: entry_stub, the inner calls, exit_stub.  The
    result lists the addresses the exit stubs return to, in order. *)
Fixpoint run_tree (E : env_t) (t : ctree) (s : payload_t) {struct t} : list Z * payload_t :=
  let '(CNode c fp ret kids rc rfp) := t in
  let s := entry_stub E c fp ret s in
  let '(l, s) := run_seq (run_tree E) kids s in
  let '(r, s) := exit_stub E rc rfp s in
  (l ++ [r], s).

Definition run_trees (E : env_t) := run_seq (run_tree E).

(** The return addresses the caller put there, in the order the calls return. *)
Fixpoint ret_addrs (t : ctree) : list Z :=
  let '(CNode _ _ ret kids _ _) := t in concat (map ret_addrs kids) ++ [ret].

Definition ret_addrs_list (ts : list ctree) : list Z := concat (map ret_addrs ts).

Fixpoint depth (t : ctree) : Z :=
  let '(CNode _ _ _ kids _ _) := t in 1 + foldr Z.max 0 (map depth kids).

Definition depth_list (ts : list ctree) : Z := foldr Z.max 0 (map depth ts).

(** Induction over trees and their lists of children. *)
Lemma ctree_ind' (P : ctree -> Prop) :
  (forall c fp ret kids rc rfp, Forall P kids -> P (CNode c fp ret kids rc rfp)) ->
  forall t, P t.
Proof.
  intros H. fix IH 1. intros [c fp ret kids rc rfp]. apply H.
  induction kids as [|t ts IHts]; constructor; [apply IH|exact IHts].
Qed.

(** [returns_to run l d]: running leaves the stack as it was and returns to the
    given addresses, from any stack with [d] free frames. *)
Definition returns_to (run : payload_t -> list Z * payload_t) (l : list Z) (d : Z) : Prop :=
  forall s, tls_ok (pl_tls s) -> call_stack_idx (pl_tls s) + d <= ZT_MAX_SAVED_RET_ADDR ->
    let '(l', s') := run s in
    l' = l /\ tls_ok (pl_tls s') /\ shadow (pl_tls s') = shadow (pl_tls s) /\
    call_stack_idx (pl_tls s') = call_stack_idx (pl_tls s).

Lemma returns_to_list E d ts :
  Forall (fun t => returns_to (run_tree E t) (ret_addrs t) (depth t + d)) ts ->
  returns_to (run_trees E ts) (ret_addrs_list ts) (depth_list ts + d).
Proof.
  induction 1 as [|t ts Ht _ IH]; intros s Hok Hd; cbn [run_trees run_seq]; [done|].
  unfold depth_list in Hd. cbn in Hd. fold (depth_list ts) in Hd. specialize (Ht s Hok ltac:(lia)).
  destruct (run_tree E t s) as [l1 s1]. destruct Ht as (-> & Hok1 & Hsh1 & Hi1).
  specialize (IH s1 Hok1 ltac:(lia)). destruct (run_trees E ts s1) as [l2 s2].
  destruct IH as (-> & Hok2 & Hsh2 & Hi2). split_and!; [done|done|congruence|congruence].
Qed.

(** entry_stub pushes the caller's return address. *)
Lemma entry_stub_push E `{!CalleeBalanced E d} c fp ret s :
  room d s -> room 1 s ->
  let s1 := zt_handle_entry E (Some c) (Some fp) s in
  let s' := entry_stub E c fp ret s in
  tls_ok (pl_tls s') /\ call_stack_idx (pl_tls s') = call_stack_idx (pl_tls s) + 1 /\
  shadow (pl_tls s') = shadow (pl_tls s) ++ [mk_frame ret (func_id c) (last_call_id (pl_tls s1))].
Proof.
  intros Hroom [Hok Hlt] s1. unfold entry_stub. fold s1.
  pose proof (handle_entry_stack E (Some c) (Some fp) s Hroom) as Hs. fold s1 in Hs.
  pose proof (save_probe_frame_push ret (func_id c) s1 (same_stack_ok _ _ Hs Hok)) as Hp.
  destruct Hs as (Hi & Hf & Hs). rewrite Hi in Hp. specialize (Hp ltac:(lia)).
  destruct (save_probe_frame_c ret (func_id c) s1) as [rc s2].
  destruct Hp as (_ & Hok2 & Hi2 & Hsh). split_and!; [done|done|].
  by rewrite Hsh, Hs.
Qed.

(** exit_stub pops the innermost frame. *)
Lemma exit_stub_pop E rc rfp s fs f :
  tls_ok (pl_tls s) -> shadow (pl_tls s) = fs ++ [f] ->
  let '(r, s') := exit_stub E rc rfp s in
  r = fr_ret_addr f /\ tls_ok (pl_tls s') /\ shadow (pl_tls s') = fs /\
  call_stack_idx (pl_tls s') = call_stack_idx (pl_tls s) - 1.
Proof.
  intros Hok Hsh. unfold exit_stub. set (s1 := zt_handle_return _ _ _ _).
  assert (Hs : same_stack s s1) by apply handle_return_stack.
  pose proof (get_ret_addr_pop s1 fs f (same_stack_ok _ _ Hs Hok)) as Hp.
  rewrite (same_stack_shadow _ _ Hs) in Hp. specialize (Hp Hsh).
  destruct (get_ret_addr_c s1) as [r s2]. destruct Hs as [Hi _]. rewrite Hi in Hp. done.
Qed.

Lemma run_tree_returns E `{!CalleeBalanced E d} t :
  returns_to (run_tree E t) (ret_addrs t) (depth t + d).
Proof.
  induction t as [c fp ret kids rc rfp IH] using ctree_ind'.
  intros s Hok Hd. cbn [run_tree ret_addrs depth] in *.
  fold (ret_addrs_list kids) (run_trees E) (depth_list kids) in *.
  assert (Hkd : 0 <= depth_list kids) by (clear; unfold depth_list; induction kids; cbn in *; lia).
  pose proof (callee_depth_nonneg (E := E)) as Hd0.
  destruct (entry_stub_push E c fp ret s ltac:(split; [done|lia]) ltac:(split; [done|lia])) as (Hok1 & Hi1 & Hsh1).
  set (s1 := entry_stub E c fp ret s) in *.
  pose proof (returns_to_list E d kids IH s1 Hok1 ltac:(lia)) as Hk.
  destruct (run_trees E kids s1) as [l s2]. destruct Hk as (-> & Hok2 & Hsh2 & Hi2).
  rewrite Hsh1 in Hsh2. pose proof (exit_stub_pop E rc rfp s2 _ _ Hok2 Hsh2) as Hx.
  destruct (exit_stub E rc rfp s2) as [r s3]. destruct Hx as (-> & Hok3 & Hsh3 & Hi3).
  split_and!; [done|done|done|lia].
Qed.

(** C12: a thread's probed calls, nested and sequenced in any way, return through
    the stubs to exactly the addresses they were called from, in order, and leave
    the shadow stack as it was, as long as the nesting fits the 256 saved frames.
    Call actions may run in between; a callee that is probed itself needs [d] frames
    more and must return. *)
Theorem run_tree_ret_addrs E `{!CalleeBalanced E d} t s :
  tls_ok (pl_tls s) -> call_stack_idx (pl_tls s) + (depth t + d) <= ZT_MAX_SAVED_RET_ADDR ->
  let '(l, s') := run_tree E t s in
  l = ret_addrs t /\ shadow (pl_tls s') = shadow (pl_tls s).
Proof.
  intros Hok Hd. pose proof (run_tree_returns E t s Hok Hd) as H.
  destruct (run_tree E t s). by destruct H as (? & _ & ? & _).
Qed.

(** A concrete environment: a fixed clock and cpu, and callees that are not probed. *)
Definition sample_env : env_t :=
  mk_env (fun n => Some (5, Z.of_nat n)) (fun _ => 3) 77 (fun addr args s => (0, s)).

Definition sample_call (id ret : Z) (kids : list ctree) : ctree :=
  CNode (ctx_with_func_id zero_ctx id) [] ret kids zero_ctx [].

(** An environment whose callees are probed functions (probe 9) themselves. *)
Definition probed_env : env_t :=
  mk_env (fun n => Some (5, Z.of_nat n)) (fun _ => 3) 77
    (fun addr args s => (42, snd (run_tree sample_env (sample_call 9 4096 []) s))).

Definition sample_config : zt_payload_config_t := mk_config 65536 sizeof_zt_trace_buffer_t.

Definition sample_state : payload_t :=
  snd (zt_payload_init (Some sample_config)
         (mk_payload (mk_config 0 0) 0 ∅ 0 zero_tls)).

#[export] Instance sample_env_balanced : CalleeBalanced sample_env 0.
Proof. split; [done|]. intros. reflexivity. Qed.

#[export] Instance probed_env_balanced : CalleeBalanced probed_env 1.
Proof.
  split; [done|]. intros addr args s Hok Hi.
  pose proof (run_tree_returns sample_env (sample_call 9 4096 []) s Hok Hi) as H.
  cbn [callee probed_env snd]. destruct (run_tree _ _ s) as [l s'].
  destruct H as (_ & [Hl _] & Hsh & Hidx). destruct Hok as [Hl0 _].
  split_and!; [done| |done]. cbn [snd]. congruence.
Qed.

(** C12 at two nested levels below a call, with probed callees. *)
Lemma run_tree_ret_addrs_witness :
  let t := sample_call 1 1000 [sample_call 2 2000 [sample_call 1 3000 []]; sample_call 2 2004 []] in
  fst (run_tree probed_env t sample_state) = [3000; 2000; 2004; 1000].
Proof.
  intros t. pose proof (run_tree_ret_addrs probed_env t sample_state) as H.
  destruct (run_tree probed_env t sample_state) as [l s'].
  apply H; [vm_compute; split; [reflexivity|split; discriminate]|vm_compute; discriminate].
Defined.

(** C13: on a full shadow stack entry_stub still diverts the return of the call to
    exit_stub although save_probe_frame_c refused the frame; the call then returns
    to the return address of the innermost frame saved before it, and that
    frame's own return is lost. *)
Theorem entry_stub_overflow E `{!CalleeBalanced E 0} c fp ret rc rfp s fs f :
  tls_ok (pl_tls s) -> call_stack_idx (pl_tls s) = ZT_MAX_SAVED_RET_ADDR ->
  shadow (pl_tls s) = fs ++ [f] ->
  let '(l, s') := run_tree E (CNode c fp ret [] rc rfp) s in
  l = [fr_ret_addr f] /\ shadow (pl_tls s') = fs.
Proof.
  intros Hok Hi Hsh. cbn [run_tree run_seq]. unfold entry_stub.
  set (s1 := zt_handle_entry E (Some c) (Some fp) s).
  assert (Hs : same_stack s s1) by (apply (handle_entry_stack E (d := 0)); split; [done|lia]).
  unfold save_probe_frame_c. pose proof Hs as [Hi1 _]. rewrite Hi1, Hi.
  cbn [Z.geb ZT_MAX_SAVED_RET_ADDR Z.compare Pos.compare Pos.compare_cont].
  pose proof (exit_stub_pop E rc rfp s1 fs f) as Hx.
  destruct (exit_stub E rc rfp s1) as [r s2].
  destruct Hx as (-> & _ & -> & _); [|rewrite <- Hsh; by apply same_stack_shadow|done].
  by apply (same_stack_ok s s1).
Qed.

(** A thread with 256 live frames, the innermost returning to 2000. *)
Definition full_state : payload_t :=
  set_tls (fun t => tls_set_idx 256 (tls_set_frames
    (replicate 255 (mk_frame 1000 1 1) ++ [mk_frame 2000 1 1]) t)) sample_state.

(** C13 at a call from 3000, which returns to 2000. *)
Lemma entry_stub_overflow_witness :
  fst (run_tree sample_env (sample_call 1 3000 []) full_state) = [2000].
Proof.
  pose proof (entry_stub_overflow sample_env (ctx_with_func_id zero_ctx 1) [] 3000 zero_ctx []
    full_state (replicate 255 (mk_frame 1000 1 1)) (mk_frame 2000 1 1)) as H.
  unfold sample_call. destruct (run_tree sample_env _ full_state) as [l s'].
  apply H; [vm_compute; split; [reflexivity|split; discriminate]|vm_compute; reflexivity..].
Defined.

(** A probed call left without a return (longjmp, an unwound exception) keeps its frame: the
    next return, the outer call's, goes to the return address of the call that was left. *)
Lemma unreturned_call_diverts E `{!CalleeBalanced E d} c fp ret c' fp' ret' rc rfp s :
  room (2 + d) s ->
  fst (exit_stub E rc rfp (entry_stub E c' fp' ret' (entry_stub E c fp ret s))) = ret'.
Proof.
  intros [Hok Hr]. pose proof (callee_depth_nonneg (E := E)).
  destruct (entry_stub_push E c fp ret s ltac:(split; [done|lia]) ltac:(split; [done|lia])) as (Ok1 & I1 & _).
  set (s1 := entry_stub E c fp ret s) in *.
  destruct (entry_stub_push E c' fp' ret' s1 ltac:(split; [done|lia]) ltac:(split; [done|lia])) as (Ok2 & _ & Sh2).
  pose proof (exit_stub_pop E rc rfp _ _ _ Ok2 Sh2) as Hx. destruct (exit_stub E rc rfp _) as [r s2]. by destruct Hx as (-> & _).
Qed.

(** ** Threads *)

(** What the stubs read of the stack: how many frames are live, where they return
    to and which probes they belong to. *)
Definition stack_view (t : tls_t) : list (Z * Z) :=
  map (fun f => (fr_ret_addr f, fr_probe_id f)) (shadow t).

(** Two well-formed thread states with the same view. *)
Definition view_eq (s s' : payload_t) : Prop :=
  tls_ok (pl_tls s) /\ tls_ok (pl_tls s') /\
  stack_view (pl_tls s) = stack_view (pl_tls s').

Lemma view_eq_idx s s' :
  view_eq s s' -> call_stack_idx (pl_tls s) = call_stack_idx (pl_tls s').
Proof.
  intros (Hok & Hok' & H). apply (f_equal length) in H. unfold stack_view in H.
  rewrite !length_map in H. rewrite <- !length_shadow by done. by rewrite H.
Qed.

Lemma same_stack_views s s1 s' s1' :
  same_stack s s1 -> same_stack s' s1' -> view_eq s s' -> view_eq s1 s1'.
Proof.
  intros H H' (Hok & Hok' & Hv). split_and!; [by apply (same_stack_ok s)|by apply (same_stack_ok s')|].
  unfold stack_view. by rewrite (same_stack_shadow _ _ H), (same_stack_shadow _ _ H').
Qed.

Lemma save_probe_frame_view ret id s s' :
  view_eq s s' -> view_eq (snd (save_probe_frame_c ret id s)) (snd (save_probe_frame_c ret id s')).
Proof.
  intros Hv. pose proof (view_eq_idx _ _ Hv) as Hi. destruct Hv as (Hok & Hok' & Hv).
  destruct (Z.geb_spec (call_stack_idx (pl_tls s)) ZT_MAX_SAVED_RET_ADDR) as [Hge|Hlt].
  - unfold save_probe_frame_c. rewrite <- Hi.
    destruct (Z.geb_spec (call_stack_idx (pl_tls s)) ZT_MAX_SAVED_RET_ADDR); [done|lia].
  - pose proof (save_probe_frame_push ret id s Hok Hlt) as H1.
    rewrite Hi in Hlt. pose proof (save_probe_frame_push ret id s' Hok' Hlt) as H2.
    destruct (save_probe_frame_c ret id s), (save_probe_frame_c ret id s').
    destruct H1 as (_ & Ho1 & _ & Hs1), H2 as (_ & Ho2 & _ & Hs2). split_and!; [done|done|].
    unfold stack_view in *. cbn [snd]. by rewrite Hs1, Hs2, !map_app, Hv.
Qed.

Lemma get_ret_addr_view s s' :
  view_eq s s' ->
  fst (get_ret_addr_c s) = fst (get_ret_addr_c s') /\
  view_eq (snd (get_ret_addr_c s)) (snd (get_ret_addr_c s')).
Proof.
  intros Hv. pose proof (view_eq_idx _ _ Hv) as Hi. pose proof Hv as (Hok & Hok' & Hm).
  unfold stack_view in Hm.
  destruct (shadow (pl_tls s)) as [|f fs _] eqn:Hs using rev_ind.
  - unfold get_ret_addr_c. rewrite <- Hi, <- (length_shadow _ Hok), Hs. done.
  - rewrite map_app in Hm. destruct (shadow (pl_tls s')) as [|f' fs' _] eqn:Hs' using rev_ind;
      [by destruct (map _ fs)|].
    rewrite map_app in Hm. apply app_inj_tail in Hm as [Hfs Hf].
    pose proof (get_ret_addr_pop s fs f Hok Hs) as H1.
    pose proof (get_ret_addr_pop s' fs' f' Hok' Hs') as H2.
    destruct (get_ret_addr_c s), (get_ret_addr_c s').
    destruct H1 as (-> & Ho1 & Hs1 & _), H2 as (-> & Ho2 & Hs2 & _). cbn.
    split; [congruence|]. split_and!; [done|done|]. unfold stack_view. by rewrite Hs1, Hs2.
Qed.

Lemma tls_ok_room s : tls_ok (pl_tls s) -> room 0 s.
Proof. intros H. split; [done|]. destruct H. lia. Qed.

Lemma run_stub_view E E' `{!CalleeBalanced E 0, !CalleeBalanced E' 0} a s s' :
  view_eq s s' ->
  fst (run_stub E a s) = fst (run_stub E' a s') /\
  view_eq (snd (run_stub E a s)) (snd (run_stub E' a s')).
Proof.
  intros Hv. pose proof Hv as (Hok & Hok' & _).
  apply tls_ok_room in Hok, Hok'. destruct a as [c fp ret|c fp]; cbn [run_stub fst snd].
  - split; [done|]. unfold entry_stub.
    set (s1 := zt_handle_entry E _ _ _). set (s1' := zt_handle_entry E' _ _ _).
    assert (H1 : view_eq s1 s1').
    { apply (same_stack_views s s1 s' s1'); [by apply (handle_entry_stack _ (d := 0))..|done]. }
    pose proof (save_probe_frame_view ret (func_id c) s1 s1' H1) as H2.
    destruct (save_probe_frame_c _ _ s1), (save_probe_frame_c _ _ s1'). done.
  - unfold exit_stub. set (s1 := zt_handle_return E _ _ _). set (s1' := zt_handle_return E' _ _ _).
    assert (H1 : view_eq s1 s1').
    { apply (same_stack_views s s1 s' s1'); [apply handle_return_stack..|done]. }
    destruct (get_ret_addr_view s1 s1' H1) as [H2 H3].
    destruct (get_ret_addr_c s1), (get_ret_addr_c s1'). cbn in H2, H3. cbn. by rewrite H2.
Qed.

Lemma run_stub_ok E `{!CalleeBalanced E 0} a s :
  tls_ok (pl_tls s) -> tls_ok (pl_tls (snd (run_stub E a s))).
Proof. intros Hok. by destruct (run_stub_view E E a s s) as (_ & ? & _). Qed.

Definition own {A} (tid : Z) (l : list (Z * A)) : list (Z * A) := filter (fun x => x.1 = tid) l.

Lemma own_pair {A} tid tid' (l : list A) :
  own tid (map (pair tid') l) = if bool_decide (tid' = tid) then map (pair tid') l else [].
Proof.
  unfold own. case_bool_decide as H; induction l as [|x l IH]; try done; cbn [map].
  - rewrite filter_cons_True by done. by rewrite IH.
  - rewrite filter_cons_False by done. done.
Qed.

(** Every thread's TLS block is well formed. *)
Definition world_ok (w : world_t) : Prop := forall t, tls_ok (pl_tls (thread_view t w)).

Lemma thread_view_back_eq t w s : pl_tls (thread_view t (thread_back t w s)) = pl_tls s.
Proof. unfold thread_view, thread_back. cbn. by rewrite lookup_insert_eq. Qed.

Lemma thread_view_back_ne t t' w s :
  t <> t' -> pl_tls (thread_view t' (thread_back t w s)) = pl_tls (thread_view t' w).
Proof. intros. unfold thread_view, thread_back. cbn. by rewrite lookup_insert_ne. Qed.

Lemma world_ok_back E t a w `{!CalleeBalanced E 0} :
  world_ok w -> world_ok (thread_back t w (snd (run_stub E a (thread_view t w)))).
Proof.
  intros Hw t'. destruct (decide (t = t')) as [<-|Hne].
  - rewrite thread_view_back_eq. apply run_stub_ok, Hw. done.
  - rewrite thread_view_back_ne by done. apply Hw.
Qed.

Lemma schedule_own (E : Z -> env_t) tid l w w' :
  (forall t, CalleeBalanced (E t) 0) -> world_ok w -> world_ok w' ->
  stack_view (pl_tls (thread_view tid w)) = stack_view (pl_tls (thread_view tid w')) ->
  own tid (fst (run_schedule E l w)) = fst (run_schedule E (own tid l) w').
Proof.
  intros HE. revert w w'. induction l as [|[t a] l IH]; intros w w' Hw Hw' Hv; [done|].
  cbn [run_schedule]. pose proof (world_ok_back (E t) t a w Hw) as Hb.
  destruct (decide (t = tid)) as [->|Hne].
  - unfold own at 2. rewrite filter_cons_True by done. fold (own tid l). cbn [run_schedule].
    destruct (run_stub_view (E tid) (E tid) a (thread_view tid w) (thread_view tid w'))
      as [Hr (_ & _ & Hv')]; [by split_and!|].
    pose proof (world_ok_back (E tid) tid a w' Hw') as Hb'.
    destruct (run_stub (E tid) a (thread_view tid w)) as [rs s1],
      (run_stub (E tid) a (thread_view tid w')) as [rs' s1'].
    cbn [fst snd] in *. subst rs'. specialize (IH _ _ Hb Hb').
    destruct (run_schedule E l _) as [r2 w2], (run_schedule E (own tid l) _) as [r2' w2'].
    cbn [fst snd] in *. unfold own at 1. rewrite filter_app. f_equal.
    + fold (own tid (map (pair tid) rs)). by rewrite own_pair, bool_decide_true.
    + apply IH. by rewrite !thread_view_back_eq.
  - unfold own at 2. rewrite filter_cons_False by done. fold (own tid l).
    destruct (run_stub (E t) a _) as [rs s1]. cbn [snd] in Hb. specialize (IH _ w' Hb Hw').
    destruct (run_schedule E l _) as [r2 w2].
    cbn [fst snd] in *. unfold own at 1. rewrite filter_app. fold (own tid (map (pair t) rs)).
    rewrite own_pair, bool_decide_false by done. apply IH. by rewrite thread_view_back_ne.
Qed.

(** C14: the threads' return probes do not interfere.  In any interleaving of entry
    and exit stubs of any threads, the addresses a thread's exit stubs continue at
    are those it gets when its own actions run alone. *)
Theorem run_schedule_isolated E tid l w :
  (forall t, CalleeBalanced (E t) 0) -> world_ok w ->
  own tid (fst (run_schedule E l w)) = fst (run_schedule E (own tid l) w).
Proof. intros HE Hw. by apply schedule_own. Qed.

(** C14 at two threads whose calls overlap. *)
Lemma run_schedule_isolated_witness :
  let c := ctx_with_func_id zero_ctx 1 in
  let w := mk_world sample_state ∅ in
  let l := [(1, StubEntry c [] 100); (2, StubEntry c [] 200); (1, StubExit c []); (2, StubExit c [])] in
  own 1 (fst (run_schedule (fun _ => sample_env) l w)) = [(1, 100)].
Proof.
  intros c w l.
  rewrite (run_schedule_isolated (fun _ => sample_env) 1 l w (fun _ => sample_env_balanced)).
  - vm_compute. reflexivity.
  - intros t. unfold thread_view, w. cbn. rewrite lookup_empty. cbn.
    split; [reflexivity|]. split; discriminate.
Defined.
