(* ===== verification/Ring.v ===== *)
(** * The ring buffer as an event log

    The abstract log of records behind the ring of 4096 events, and the proof that
    the payload's handlers append to it.  A slot reused by a later event keeps the
    fields that event does not write, so an abstract record holds only the fields
    its kind defines. *)

From S2P Require Import Prelude CLib Types Payload ShadowStack.

(** ** Abstract records *)

Record rec_header := mk_header {
  rh_probe_id : Z; rh_call_id : Z; rh_timestamp : Z; rh_tid : Z; rh_cpu : Z
}.

Inductive trace_rec :=
| REntry (h : rec_header) (args fp_args : list Z)
| RReturn (h : rec_header) (retval fp0 : Z)
| RCall (h : rec_header) (callee_addr retval arg_count : Z) (call_args : list Z).

Definition ev_header (e : zt_trace_event_t) : rec_header :=
  mk_header (ev_probe_id e) (ev_call_id e) (ev_timestamp_ns e) (ev_tid e) (ev_cpu_id e).

(** The record an event stands for. *)
Definition ev_view (e : zt_trace_event_t) : option trace_rec :=
  if ev_event_type e =? ZT_TRACE_EVENT_ENTRY then Some (REntry (ev_header e) (ev_args e) (ev_fp_args e))
  else if ev_event_type e =? ZT_TRACE_EVENT_RETURN then
    Some (RReturn (ev_header e) (arr_get (ev_args e) 0) (arr_get (ev_fp_args e) 0))
  else if ev_event_type e =? ZT_TRACE_EVENT_CALL then
    Some (RCall (ev_header e) (arr_get (ev_args e) 0) (arr_get (ev_args e) 1)
            (arr_get (ev_args e) 2) (take 6 (ev_fp_args e)))
  else None.

Definition event_ok (e : zt_trace_event_t) : Prop :=
  length (ev_args e) = 6%nat /\ length (ev_fp_args e) = 8%nat.

(** ** Representation *)

Definition CAP : nat := Z.to_nat ZT_TRACE_EVENT_CAPACITY.

(** The buffer holds the last 4096 records of the log: record number [k] (from 0)
    sits in slot [k mod 4096] with committed_seq [k + 1]. *)
Record ring_rep (b : zt_trace_buffer_t) (log : list trace_rec) : Prop := {
  rep_magic : buf_magic b = ZT_TRACE_BUFFER_MAGIC;
  rep_length : length (buf_events b) = CAP;
  rep_events : Forall event_ok (buf_events b);
  rep_write_seq : buf_write_seq b = u64 (Z.of_nat (length log));
  rep_slots : forall k r, log !! k = Some r -> (length log <= k + CAP)%nat ->
    exists e, buf_events b !! (k mod CAP)%nat = Some e /\
      ev_committed_seq e = u64 (Z.of_nat k + 1) /\ ev_view e = Some r;
  rep_fresh : forall i e, (length log <= i)%nat -> buf_events b !! i = Some e ->
    ev_committed_seq e = 0
}.

(** The payload's buffer is configured at [addr] and represents the log. *)
Definition pl_rep (addr : Z) (s : payload_t) (log : list trace_rec) : Prop :=
  zt_get_trace_buffer s = Some addr /\ ring_rep (buffer_at s addr) log.

Lemma CAP_pos : (0 < CAP)%nat.
Proof. unfold CAP, ZT_TRACE_EVENT_CAPACITY. lia. Qed.

Lemma slot_index log : Z.to_nat (u64 (Z.of_nat log) mod ZT_TRACE_EVENT_CAPACITY) = (log mod CAP)%nat.
Proof.
  unfold u64, ZT_TRACE_EVENT_CAPACITY. unfold CAP.
  replace (2 ^ 64) with (4096 * 2 ^ 52) by lia.
  rewrite Z.rem_mul_r by lia. rewrite Z.mul_comm, Z_mod_plus_full, Zmod_mod.
  replace 4096 with (Z.of_nat 4096) by done. by rewrite <- Nat2Z.inj_mod, Nat2Z.id.
Qed.

(** ** Storing through a slot pointer *)

Lemma buffer_at_store addr b s : buffer_at (store_buffer addr b s) addr = b.
Proof. unfold buffer_at. cbn. by rewrite lookup_insert_eq. Qed.

Lemma store_store addr b b' s : store_buffer addr b' (store_buffer addr b s) = store_buffer addr b' s.
Proof. unfold store_buffer. cbn. by rewrite insert_insert_eq. Qed.

Definition slot_in (p : slot_ptr) (s : payload_t) : Prop :=
  0 <= sp_index p < Z.of_nat (length (buf_events (buffer_at s (sp_buffer p)))).

Lemma slot_update_in p q f s : sp_buffer p = sp_buffer q -> slot_in q s -> slot_in q (slot_update p f s).
Proof.
  unfold slot_in, slot_update. intros ->. rewrite buffer_at_store. cbn. by rewrite length_arr_set.
Qed.

Lemma slot_update_update p f g s :
  slot_in p s -> slot_update p g (slot_update p f s) = slot_update p (fun e => g (f e)) s.
Proof.
  intros Hin. unfold slot_update. rewrite buffer_at_store, store_store. f_equal.
  unfold buf_set_event. cbn. rewrite arr_get_set_eq by done. f_equal.
  unfold arr_set. by rewrite list_insert_insert_eq.
Qed.

Lemma tick_slot p f s : tick (slot_update p f s) = slot_update p f (tick s).
Proof. done. Qed.

Lemma set_tls_slot g p f s : set_tls g (slot_update p f s) = slot_update p f (set_tls g s).
Proof. done. Qed.

(** ** The header *)

(** The system calls of zt_init_event_header: its three values and the state left. *)
Definition header_values (E : env_t) (s : payload_t) : (Z * Z * Z) * payload_t :=
  let '(ts, s) := zt_clock_monotonic_ns E s in
  let '(tid, s) := zt_gettid_u64 E s in
  let '(cpu, s) := zt_getcpu_u64 E s in ((ts, tid, cpu), s).

Definition ev_set_header (probe_id type call_id : Z) (v : Z * Z * Z) (e : zt_trace_event_t) :=
  mk_event (ev_committed_seq e) probe_id type call_id v.1.1 v.1.2 v.2 (ev_args e) (ev_fp_args e).

Lemma clock_slot E p f s :
  zt_clock_monotonic_ns E (slot_update p f s) =
  let '(v, s) := zt_clock_monotonic_ns E s in (v, slot_update p f s).
Proof. unfold zt_clock_monotonic_ns. cbn. by destruct (clock_gettime E (pl_tick s)) as [[? ?]|]. Qed.

Lemma gettid_slot E p f s :
  zt_gettid_u64 E (slot_update p f s) =
  let '(v, s) := zt_gettid_u64 E s in (v, slot_update p f s).
Proof. unfold zt_gettid_u64. cbn. by destruct (cached_tid (pl_tls s) =? 0). Qed.

Lemma getcpu_slot E p f s :
  zt_getcpu_u64 E (slot_update p f s) =
  let '(v, s) := zt_getcpu_u64 E s in (v, slot_update p f s).
Proof. done. Qed.

Lemma clock_mem E s : pl_mem (snd (zt_clock_monotonic_ns E s)) = pl_mem s.
Proof. unfold zt_clock_monotonic_ns. by destruct (clock_gettime E _) as [[? ?]|]. Qed.

Lemma gettid_mem E s : pl_mem (snd (zt_gettid_u64 E s)) = pl_mem s.
Proof. unfold zt_gettid_u64. by destruct (_ =? 0). Qed.

Lemma slot_in_mem p s s' : pl_mem s' = pl_mem s -> slot_in p s -> slot_in p s'.
Proof. unfold slot_in, buffer_at. by intros ->. Qed.

Lemma init_header_eq E p probe type id s :
  slot_in p s ->
  zt_init_event_header E p probe type id s =
  let '(v, s') := header_values E s in slot_update p (ev_set_header probe type id v) s'.
Proof.
  intros Hin. unfold zt_init_event_header, header_values. rewrite clock_slot.
  pose proof (clock_mem E s) as Hm1. destruct (zt_clock_monotonic_ns E s) as [ts s1]. cbn in Hm1.
  assert (Hin1 : slot_in p s1) by by apply (slot_in_mem _ s).
  rewrite slot_update_update, gettid_slot by done.
  pose proof (gettid_mem E s1) as Hm2. destruct (zt_gettid_u64 E s1) as [tid s2]. cbn in Hm2.
  assert (Hin2 : slot_in p s2) by by apply (slot_in_mem _ s1).
  rewrite slot_update_update, getcpu_slot by done. unfold zt_getcpu_u64.
  rewrite slot_update_update; [done|by apply (slot_in_mem _ s2)].
Qed.

Lemma header_values_frame E s :
  pl_mem (snd (header_values E s)) = pl_mem s /\
  g_payload_config (snd (header_values E s)) = g_payload_config s /\
  g_call_id_seq (snd (header_values E s)) = g_call_id_seq s /\
  last_call_id (pl_tls (snd (header_values E s))) = last_call_id (pl_tls s) /\
  in_call_action (pl_tls (snd (header_values E s))) = in_call_action (pl_tls s).
Proof.
  unfold header_values, zt_clock_monotonic_ns, zt_gettid_u64, zt_getcpu_u64.
  destruct (clock_gettime E _) as [[? ?]|]; cbn; destruct (cached_tid (pl_tls s) =? 0); done.
Qed.

Lemma header_store E a b s :
  header_values E (store_buffer a b s) =
  let '(v, s') := header_values E s in (v, store_buffer a b s').
Proof.
  unfold header_values, zt_clock_monotonic_ns, zt_gettid_u64, zt_getcpu_u64. cbn.
  destruct (clock_gettime E (pl_tick s)) as [[? ?]|]; cbn;
    destruct (cached_tid (pl_tls s) =? 0); done.
Qed.

(** ** Publication *)

(** Reserve, fill, commit: the shape of the three handlers. *)
Definition publish (E : env_t) (probe type id : Z) (F : zt_trace_event_t -> zt_trace_event_t)
    (s : payload_t) : payload_t :=
  match zt_reserve_event_slot s with
  | (None, s) => s
  | (Some (p, n), s) =>
      zt_commit_event_slot p n (slot_update p F (zt_init_event_header E p probe type id s))
  end.

(** The body's stores: they keep the arrays' sizes and do not touch committed_seq. *)
Definition filler (F : zt_trace_event_t -> zt_trace_event_t) : Prop :=
  (forall e, event_ok e -> event_ok (F e)) /\
  (forall e x, F (ev_set_committed x e) = ev_set_committed x (F e)).

(** The buffer after a publication. *)
Definition pushed (b : zt_trace_buffer_t) (e : zt_trace_event_t) : zt_trace_buffer_t :=
  buf_set_event (buf_write_seq b mod ZT_TRACE_EVENT_CAPACITY)
    (ev_set_committed (buf_write_seq b +64 1) e)
    (buf_set_write_seq (buf_write_seq b +64 1) b).

Lemma length_cap : Z.of_nat CAP = ZT_TRACE_EVENT_CAPACITY.
Proof. unfold CAP, ZT_TRACE_EVENT_CAPACITY. lia. Qed.

(** A store through the pointer to a slot that was just written. *)
Lemma slot_update_store p f e b s :
  0 <= sp_index p < Z.of_nat (length (buf_events b)) ->
  slot_update p f (store_buffer (sp_buffer p) (buf_set_event (sp_index p) e b) s) =
  store_buffer (sp_buffer p) (buf_set_event (sp_index p) (f e) b) s.
Proof.
  intros Hin. unfold slot_update. rewrite buffer_at_store, store_store. f_equal.
  unfold buf_set_event. cbn. rewrite arr_get_set_eq by done. f_equal.
  unfold arr_set. by rewrite list_insert_insert_eq.
Qed.

Lemma publish_eq E probe type id F s addr log :
  pl_rep addr s log -> filler F ->
  let b := buffer_at s addr in
  let e := arr_get (buf_events b) (buf_write_seq b mod ZT_TRACE_EVENT_CAPACITY) in
  let '(v, s') := header_values E s in
  publish E probe type id F s = store_buffer addr (pushed b (F (ev_set_header probe type id v e))) s'.
Proof.
  intros [Ha Hrep] [_ Hcomm] b e. change (buffer_at s addr) with b in Hrep.
  unfold publish, zt_reserve_event_slot. rewrite Ha. fold b.
  rewrite (rep_magic _ _ Hrep), Z.eqb_refl. cbn [negb].
  set (n := buf_write_seq b) in *. set (p := mk_slot addr (n mod ZT_TRACE_EVENT_CAPACITY)).
  set (b1 := buf_set_write_seq (n +64 1) b).
  assert (Hin : 0 <= sp_index p < Z.of_nat (length (buf_events b1))).
  { change (buf_events b1) with (buf_events b).
    rewrite (rep_length _ _ Hrep), length_cap. apply Z.mod_pos_bound. done. }
  assert (Hs1 : slot_update p (ev_set_committed 0) (store_buffer addr b1 s) =
    store_buffer (sp_buffer p) (buf_set_event (sp_index p) (ev_set_committed 0 e) b1) s).
  { unfold slot_update. cbn [sp_buffer p]. by rewrite buffer_at_store, store_store. }
  rewrite Hs1, init_header_eq, header_store
    by (unfold slot_in; rewrite buffer_at_store; cbn [buf_set_event buf_events]; by rewrite length_arr_set).
  destruct (header_values E s) as [v s']. rewrite !slot_update_store by done.
  change (ev_set_header probe type id v (ev_set_committed 0 e))
    with (ev_set_committed 0 (ev_set_header probe type id v e)).
  rewrite Hcomm. unfold zt_commit_event_slot, pushed. fold n b1.
  destruct (Z.eqb_spec (n +64 1) 0) as [H0|H0]; [by rewrite H0|].
  by rewrite slot_update_store by done.
Qed.

Lemma mod_window (k n c : nat) : (k < n -> n < k + c -> k mod c <> n mod c)%nat.
Proof.
  intros Hk Hn Heq. pose proof (Nat.div_mod_eq k c). pose proof (Nat.div_mod_eq n c).
  assert (k / c <= n / c)%nat by (apply Nat.Div0.div_le_mono; lia).
  destruct (Nat.eq_dec (k / c)%nat (n / c)%nat) as [E|]; [rewrite E in *; lia|].
  assert (c * (k / c + 1) <= c * (n / c))%nat by (apply Nat.mul_le_mono_l; lia). lia.
Qed.

#[local] Opaque CAP.

(** Overwriting the oldest slot of the ring is appending to the log. *)
Lemma ring_rep_push b log e r :
  ring_rep b log -> event_ok e -> ev_view e = Some r -> ring_rep (pushed b e) (log ++ [r]).
Proof.
  intros Hrep Hok Hv.
  assert (Hi : Z.to_nat (buf_write_seq b mod ZT_TRACE_EVENT_CAPACITY) = (length log mod CAP)%nat)
    by (rewrite (rep_write_seq _ _ Hrep); apply slot_index).
  assert (Hlt : (length log mod CAP < length (buf_events b))%nat)
    by (rewrite (rep_length _ _ Hrep); apply Nat.mod_upper_bound; pose proof CAP_pos; lia).
  assert (Hw : buf_write_seq b +64 1 = u64 (Z.of_nat (length log) + 1))
    by (rewrite (rep_write_seq _ _ Hrep); apply u64_add_l).
  unfold pushed, buf_set_event. rewrite Hw. split; cbn; unfold arr_set; rewrite ?Hi.
  - apply (rep_magic _ _ Hrep).
  - rewrite length_insert. apply (rep_length _ _ Hrep).
  - apply Forall_insert; [apply (rep_events _ _ Hrep)|done].
  - rewrite length_app. simpl. f_equal. lia.
  - rewrite length_app. simpl. intros k r' Hk Hcap.
    apply lookup_app_Some in Hk as [Hk|[Hge Hk]].
    + apply lookup_lt_Some in Hk as Hkl.
      assert ((k mod CAP) <> (length log mod CAP))%nat.
      { apply mod_window; lia. }
      rewrite list_lookup_insert_ne by done. apply (rep_slots _ _ Hrep); [done|lia].
    + assert (k = length log) as -> by (destruct (k - length log)%nat eqn:?; [lia|done]).
      rewrite Nat.sub_diag in Hk. simplify_eq/=.
      eexists. rewrite list_lookup_insert_eq by done. by split_and!.
  - rewrite length_app. simpl. intros i e' Hge Hl.
    rewrite list_lookup_insert_ne in Hl; [apply (rep_fresh _ _ Hrep i e'); [lia|done]|].
    apply lookup_lt_Some in Hl. rewrite length_insert, (rep_length _ _ Hrep) in Hl.
    pose proof (Nat.Div0.mod_le (length log) CAP). lia.
Qed.

(** What publishing does to a represented payload. *)
Lemma publish_rep E probe type id F s addr log r :
  pl_rep addr s log -> filler F ->
  (forall e, event_ok e -> ev_view (F (ev_set_header probe type id (fst (header_values E s)) e)) = Some r) ->
  let s' := publish E probe type id F s in
  pl_rep addr s' (log ++ [r]) /\ g_call_id_seq s' = g_call_id_seq s /\
  last_call_id (pl_tls s') = last_call_id (pl_tls s) /\
  in_call_action (pl_tls s') = in_call_action (pl_tls s) /\
  buf_call_actions (buffer_at s' addr) = buf_call_actions (buffer_at s addr) /\
  buf_call_action_count (buffer_at s' addr) = buf_call_action_count (buffer_at s addr).
Proof.
  intros Hrep HF Hview. pose proof (publish_eq E probe type id F s addr log Hrep HF) as Heq.
  pose proof (header_values_frame E s) as (Hm & Hc & Hg & Hl & Hi).
  destruct (header_values E s) as [v s1]. cbn [fst snd] in *. rewrite Heq. cbn zeta.
  destruct Hrep as [Ha Hr]. rewrite buffer_at_store. split_and!; try done.
  split; [unfold zt_get_trace_buffer in *; cbn; by rewrite Hc|]. rewrite buffer_at_store.
  set (e := arr_get _ _).
  assert (He : event_ok e).
  { unfold e, arr_get. apply (Forall_lookup_total_1 _ _ _ (rep_events _ _ Hr)).
    rewrite (rep_length _ _ Hr), (rep_write_seq _ _ Hr), slot_index.
    apply Nat.mod_upper_bound. pose proof CAP_pos. lia. }
  apply ring_rep_push; [done| |by apply Hview]. by apply HF.
Qed.

(** ** The handlers as publications *)

Lemma init_header_in E p probe type id s :
  slot_in p s -> slot_in p (zt_init_event_header E p probe type id s).
Proof.
  intros Hin. rewrite init_header_eq by done.
  destruct (header_values_frame E s) as [Hm _]. destruct (header_values E s) as [v s'].
  apply slot_update_in; [done|]. by apply (slot_in_mem _ s).
Qed.

Lemma reserve_in addr s log p n s' :
  pl_rep addr s log -> zt_reserve_event_slot s = (Some (p, n), s') -> slot_in p s'.
Proof.
  intros [Ha Hr]. unfold zt_reserve_event_slot. rewrite Ha, (rep_magic _ _ Hr), Z.eqb_refl.
  cbn [negb]. intros [= <- _ <-]. apply slot_update_in; [done|].
  unfold slot_in. cbn. rewrite buffer_at_store. cbn. rewrite (rep_length _ _ Hr), length_cap.
  by apply Z.mod_pos_bound.
Qed.

Definition return_fill (c : ctx_t) (fp : option (list Z)) (e : zt_trace_event_t) :=
  ev_set_fp_arg 0 (zt_fp_state_vec_low64 fp 0) (ev_set_arg 0 (gp_retval0 c) e).

Definition call_fill (a : zt_probe_call_action_t) (retval : Z) (call_args : list Z)
    (e : zt_trace_event_t) :=
  ev_set_call_args call_args
    (ev_set_arg 2 (act_arg_count a) (ev_set_arg 1 retval (ev_set_arg 0 (act_callee_addr a) e))).

Lemma handle_return_publish E c fp s addr log :
  pl_rep addr s log -> peek_call_id_c s <> 0 ->
  zt_handle_return E (Some c) fp s =
  publish E (func_id c) ZT_TRACE_EVENT_RETURN (peek_call_id_c s) (return_fill c fp) s.
Proof.
  intros Hrep Hid. unfold zt_handle_return, publish. destruct (Z.eqb_spec (peek_call_id_c s) 0); [done|].
  destruct (zt_reserve_event_slot s) as [[[p k]|] s1] eqn:Hr; [|done].
  rewrite slot_update_update; [done|]. by eapply init_header_in, reserve_in.
Qed.

Lemma length_arr_set_n (l : list Z) i x n : length l = n -> length (arr_set l i x) = n.
Proof. by rewrite length_arr_set. Qed.

Ltac filler_solver :=
  split; [intros e [? ?]; split; cbn; repeat apply length_arr_set_n; done|done].

Lemma return_filler c fp : filler (return_fill c fp).
Proof. filler_solver. Qed.

Lemma entry_filler c fp : filler (entry_args c fp).
Proof. filler_solver. Qed.

Lemma call_filler a r args : length args = 6%nat -> filler (call_fill a r args).
Proof.
  intros Hl. split; [|done]. intros e [? ?].
  split; cbn; [repeat apply length_arr_set_n; done|].
  rewrite length_app, length_take, length_drop. lia.
Qed.

(** The records the handlers append. *)
Definition mk_rec_header (probe id : Z) (v : Z * Z * Z) : rec_header :=
  mk_header probe id v.1.1 v.1.2 v.2.

Definition entry_rec (c : ctx_t) (fp : option (list Z)) (id : Z) (v : Z * Z * Z) : trace_rec :=
  REntry (mk_rec_header (func_id c) id v)
    [gp_arg0 c; gp_arg1 c; gp_arg2 c; gp_arg3 c; gp_arg4 c; gp_arg5 c]
    (map (zt_fp_state_vec_low64 fp) [0; 1; 2; 3; 4; 5; 6; 7]).

Definition return_rec (c : ctx_t) (fp : option (list Z)) (id : Z) (v : Z * Z * Z) : trace_rec :=
  RReturn (mk_rec_header (func_id c) id v) (gp_retval0 c) (zt_fp_state_vec_low64 fp 0).

Definition call_rec (c : ctx_t) (a : zt_probe_call_action_t) (id retval : Z) (v : Z * Z * Z) : trace_rec :=
  RCall (mk_rec_header (func_id c) id v) (act_callee_addr a) retval (act_arg_count a)
    (zt_resolve_call_args a c).

Lemma entry_view c fp id v e :
  event_ok e ->
  ev_view (entry_args c fp (ev_set_header (func_id c) ZT_TRACE_EVENT_ENTRY id v e)) =
    Some (entry_rec c fp id v).
Proof.
  destruct e as [? ? ? ? ? ? ? l fl]. intros [Hl Hfl]. cbn in Hl, Hfl.
  do 6 (destruct l as [|? l]; [done|]). destruct l; [|done].
  do 8 (destruct fl as [|? fl]; [done|]). destruct fl; done.
Qed.

Lemma return_view c fp id v e :
  event_ok e ->
  ev_view (return_fill c fp (ev_set_header (func_id c) ZT_TRACE_EVENT_RETURN id v e)) =
    Some (return_rec c fp id v).
Proof.
  destruct e as [? ? ? ? ? ? ? l fl]. intros [Hl Hfl]. cbn in Hl, Hfl.
  destruct l; [done|]. destruct fl; done.
Qed.

Lemma resolve_loop_length n i a c l : length (resolve_loop n i a c l) = length l.
Proof.
  revert i l. induction n as [|n IH]; intros i l; cbn [resolve_loop]; [done|].
  case_match; [|done]. by rewrite IH, length_arr_set.
Qed.

Lemma resolve_length a c : length (zt_resolve_call_args a c) = 6%nat.
Proof. apply resolve_loop_length. Qed.

Lemma call_view c a id r v e :
  event_ok e ->
  ev_view (call_fill a r (zt_resolve_call_args a c)
    (ev_set_header (func_id c) ZT_TRACE_EVENT_CALL id v e)) = Some (call_rec c a id r v).
Proof.
  destruct e as [? ? ? ? ? ? ? l fl]. intros [Hl Hfl]. cbn in Hl, Hfl.
  do 6 (destruct l as [|? l]; [done|]). destruct l; [|done].
  pose proof (resolve_length a c) as Hr. unfold call_rec.
  set (args := zt_resolve_call_args a c) in *. cbn. do 2 f_equal.
  rewrite take_app_le by (rewrite length_take; lia). rewrite take_take. by rewrite take_ge by lia.
Qed.

(** ** Call actions and the log *)

(** What a callee promises about the ring: it only appends records to it, and
    leaves the payload's configuration and action table alone. *)
Class CalleeLogs (E : env_t) : Prop :=
  callee_logs : forall addr args base s log,
    pl_rep base s log -> truthy (in_call_action (pl_tls s)) = true ->
    exists l, pl_rep base (snd (callee E addr args s)) (log ++ l).

Lemma pl_rep_tls base f s log : pl_rep base s log -> pl_rep base (set_tls f s) log.
Proof. done. Qed.

Lemma invoke_logs E `{!CalleeLogs E} addr n args base s log :
  pl_rep base s log -> truthy (in_call_action (pl_tls s)) = true ->
  exists l, pl_rep base (snd (zt_call_action_invoke E addr n args s)) (log ++ l).
Proof.
  intros Hrep Hin. unfold zt_call_action_invoke. repeat case_match; by apply callee_logs.
Qed.

(** The action a handler runs, if any. *)
Definition action_of (c : ctx_t) (s : payload_t) : option zt_probe_call_action_t :=
  if truthy (in_call_action (pl_tls s)) then None else zt_find_call_action (func_id c) s.

(** The tail of zt_run_call_action is one publication. *)
Lemma call_publish E c a id r base s log :
  pl_rep base s log ->
  match zt_reserve_event_slot s with
  | (None, s) => s
  | (Some (event, commit_seq), s) =>
      zt_commit_event_slot event commit_seq
        (slot_update event (ev_set_call_args (zt_resolve_call_args a c))
          (slot_update event (ev_set_arg 2 (act_arg_count a))
            (slot_update event (ev_set_arg 1 r)
              (slot_update event (ev_set_arg 0 (act_callee_addr a))
                (zt_init_event_header E event (func_id c) ZT_TRACE_EVENT_CALL id s)))))
  end = publish E (func_id c) ZT_TRACE_EVENT_CALL id (call_fill a r (zt_resolve_call_args a c)) s.
Proof.
  intros Hrep. unfold publish. destruct (zt_reserve_event_slot s) as [[[p k]|] s4] eqn:Hr; [|done].
  rewrite !slot_update_update; [done|..];
    repeat apply slot_update_in; try done; by eapply init_header_in, reserve_in.
Qed.

Lemma run_call_action_logs E `{!CalleeLogs E} c id base s log :
  pl_rep base s log ->
  match action_of c s with
  | None => zt_run_call_action E c id s = s
  | Some a => exists l retval v,
      pl_rep base (zt_run_call_action E c id s) ((log ++ l) ++ [call_rec c a id retval v])
  end.
Proof.
  intros Hrep. unfold action_of, zt_run_call_action. destruct (truthy _); [done|].
  destruct (zt_find_call_action (func_id c) s) as [a|]; [|done].
  pose proof (invoke_logs E (act_callee_addr a) (act_arg_count a) (zt_resolve_call_args a c) base
    (set_tls (tls_set_in_call_action 1) s) log Hrep eq_refl) as [l Hl].
  destruct (zt_call_action_invoke _ _ _ _ _) as [r s2]. cbn [snd] in Hl.
  set (s3 := set_tls (tls_set_in_call_action 0) s2).
  assert (H3 : pl_rep base s3 (log ++ l)) by done.
  rewrite (call_publish E c a id r base s3 _ H3). exists l, r, (fst (header_values E s3)).
  apply publish_rep; [done|apply call_filler, resolve_length|]. intros e He. by apply call_view.
Qed.

Lemma find_loop_actions n i home b b' probe_id :
  buf_call_actions b' = buf_call_actions b ->
  find_call_action_loop n i home b' probe_id = find_call_action_loop n i home b probe_id.
Proof.
  intros Ha. revert i. induction n as [|n IH]; intros i; cbn [find_call_action_loop]; [done|].
  by rewrite Ha, !IH.
Qed.

(** The entry handler appends the entry record and then whatever the action does. *)
Lemma handle_entry_logs E `{!CalleeLogs E} c fp base s log :
  pl_rep base s log ->
  exists v s1, let id := g_call_id_seq s +64 1 in
    zt_handle_entry E (Some c) fp s = zt_run_call_action E c id s1 /\
    pl_rep base s1 (log ++ [entry_rec c fp id v]) /\ action_of c s1 = action_of c s /\
    last_call_id (pl_tls s1) = id /\ g_call_id_seq s1 = id.
Proof.
  intros Hrep. set (id := g_call_id_seq s +64 1).
  set (s0 := set_tls (tls_set_last_call_id id)
    (mk_payload (g_payload_config s) id (pl_mem s) (pl_tick s) (pl_tls s))).
  assert (H0 : pl_rep base s0 log) by done.
  exists (fst (header_values E s0)), (publish E (func_id c) ZT_TRACE_EVENT_ENTRY id (entry_args c fp) s0).
  destruct (publish_rep E (func_id c) ZT_TRACE_EVENT_ENTRY id (entry_args c fp) s0 base log
    (entry_rec c fp id (fst (header_values E s0))) H0 (entry_filler c fp)) as (Hp & Hg & Hl & Hi & Ha & Hn).
  { intros e He. by apply entry_view. }
  split_and!; [|done| |done|done].
  - unfold zt_handle_entry. cbv zeta. fold id. fold s0. unfold publish.
    destruct (zt_reserve_event_slot s0) as [[[p k]|] s2] eqn:Hr; [done|].
    exfalso. unfold zt_reserve_event_slot in Hr. destruct H0 as [H0 H0'].
    rewrite H0, (rep_magic _ _ H0'), Z.eqb_refl in Hr. done.
  - unfold action_of. rewrite Hi. change (in_call_action (pl_tls s0)) with (in_call_action (pl_tls s)).
    case_match; [done|]. unfold zt_find_call_action. destruct Hp as [Hp Hpm], Hrep as [Hr Hrm].
    rewrite Hp, Hr, Hn, Ha, (rep_magic _ _ Hpm), (rep_magic _ _ Hrm), (find_loop_actions _ _ _ _ _ _ Ha).
    done.
Qed.

(** C15: the entry handler appends to the log an entry record with a fresh call id,
    the six integer arguments and the eight vector arguments of the context; then,
    if the thread is not already in a call action and the probe has one, the
    records of the callee followed by a call record with the same call id, the
    callee, the argument count and the resolved arguments; and nothing else. *)
Theorem zt_handle_entry_log E `{!CalleeLogs E} c fp base s log :
  pl_rep base s log ->
  exists v tail, let id := g_call_id_seq s +64 1 in
    pl_rep base (zt_handle_entry E (Some c) fp s) (log ++ entry_rec c fp id v :: tail) /\
    match action_of c s with
    | None => tail = []
    | Some a => exists l retval v', tail = l ++ [call_rec c a id retval v']
    end.
Proof.
  intros Hrep. destruct (handle_entry_logs E c fp base s log Hrep) as (v & s1 & Heq & H1 & Ha & _).
  cbn zeta in *. set (id := g_call_id_seq s +64 1) in *. exists v. rewrite Heq, <- Ha.
  pose proof (run_call_action_logs E c id base s1 _ H1) as Hrun.
  destruct (action_of c s1) as [a|].
  - destruct Hrun as (l & r & v' & Hrun). exists (l ++ [call_rec c a id r v']).
    rewrite <- !app_assoc in Hrun. split; [done|eauto].
  - exists []. rewrite Hrun. done.
Qed.

(** The return handler on a represented payload. *)
Lemma handle_return_logs E c fp base s log :
  pl_rep base s log -> peek_call_id_c s <> 0 ->
  let s' := zt_handle_return E (Some c) fp s in
  pl_rep base s' (log ++ [return_rec c fp (peek_call_id_c s) (fst (header_values E s))]) /\
  g_call_id_seq s' = g_call_id_seq s.
Proof.
  intros Hrep Hid s'. unfold s'. rewrite (handle_return_publish E c fp s base log) by done.
  destruct (publish_rep E (func_id c) ZT_TRACE_EVENT_RETURN (peek_call_id_c s) (return_fill c fp) s base
    log (return_rec c fp (peek_call_id_c s) (fst (header_values E s)))) as (H1 & H2 & _);
    [done|apply return_filler|intros; by apply return_view|done].
Qed.

(** C16: with a frame on the shadow stack, exit_stub appends one return record
    with the probe id and call id of the innermost frame, the integer and the
    vector return value; with an empty stack it records nothing. *)
Theorem exit_stub_log E c fp base s log :
  pl_rep base s log -> tls_ok (pl_tls s) ->
  match last (shadow (pl_tls s)) with
  | None => exit_stub E c fp s = (0, s)
  | Some f => fr_call_id f <> 0 -> exists v,
      pl_rep base (snd (exit_stub E c fp s))
        (log ++ [RReturn (mk_rec_header (fr_probe_id f) (fr_call_id f) v) (gp_retval0 c)
                   (zt_fp_state_vec_low64 (Some fp) 0)])
  end.
Proof.
  intros Hrep Hok. destruct (last (shadow (pl_tls s))) as [f|] eqn:Hl.
  - apply last_Some in Hl as [fs Hs]. intros Hid. unfold exit_stub.
    rewrite (peek_probe_id_top s fs f Hok Hs).
    destruct (handle_return_logs E (ctx_with_func_id c (fr_probe_id f)) (Some fp) base s log Hrep)
      as [H1 _]; rewrite (peek_call_id_top s fs f Hok Hs) in *; [done|].
    exists (fst (header_values E s)). unfold get_ret_addr_c. by case_match.
  - apply last_None in Hl. pose proof (length_shadow _ Hok) as Hi. rewrite Hl in Hi.
    assert (Hp : peek_call_id_c s = 0) by (unfold peek_call_id_c; by rewrite <- Hi).
    unfold exit_stub, zt_handle_return. rewrite Hp. cbn [Z.eqb].
    unfold get_ret_addr_c. by rewrite <- Hi.
Qed.

(** ** Traces of calls *)

(** Functions the tracer does not probe leave the payload's state alone. *)
Class Unprobed (E : env_t) : Prop :=
  unprobed : forall addr args s, snd (callee E addr args s) = s.

#[export] Instance unprobed_logs E `{!Unprobed E} : CalleeLogs E.
Proof. intros addr args base s log Hrep _. exists []. by rewrite unprobed, app_nil_r. Qed.

#[export] Instance unprobed_balanced E `{!Unprobed E} : CalleeBalanced E 0.
Proof. split; [done|]. intros. by rewrite unprobed. Qed.

Definition same_call (h h' : rec_header) : Prop :=
  rh_probe_id h' = rh_probe_id h /\ rh_call_id h' = rh_call_id h.

(** The record of the probe's call action, if it has one. *)
Definition action_part (h : rec_header) (l : list trace_rec) : Prop :=
  l = [] \/ exists hc a r n args, l = [RCall hc a r n args] /\ same_call h hc.

(** Well-bracketed logs: every entry is closed by a return of the same call, the
    call record in between belongs to it, and calls nest. *)
Inductive bracketed : list trace_rec -> Prop :=
| br_nil : bracketed []
| br_call h args fps acts body h' r f rest :
    action_part h acts -> bracketed body -> same_call h h' -> bracketed rest ->
    bracketed (REntry h args fps :: acts ++ body ++ RReturn h' r f :: rest).

#[export] Hint Constructors bracketed : zt.

Lemma bracketed_app l1 l2 : bracketed l1 -> bracketed l2 -> bracketed (l1 ++ l2).
Proof.
  intros H1 H2. induction H1 as [|h args fps acts body h' r f rest Ha Hb IHb Hs Hr IHr]; [done|].
  cbn. rewrite <- !app_assoc. by constructor.
Qed.

Definition entry_id (r : trace_rec) : option Z :=
  match r with REntry h _ _ => Some (rh_call_id h) | _ => None end.

(** The call ids of the entries, in the order of the log. *)
Definition entry_ids (l : list trace_rec) : list Z := omap entry_id l.

Fixpoint calls (t : ctree) : Z :=
  let '(CNode _ _ _ kids _ _) := t in 1 + foldr Z.add 0 (map calls kids).

Definition calls_list (ts : list ctree) : Z := foldr Z.add 0 (map calls ts).

Lemma run_call_action_unprobed E `{!Unprobed E} c id base s log :
  pl_rep base s log ->
  exists acts, pl_rep base (zt_run_call_action E c id s) (log ++ acts) /\
    (acts = [] \/ exists a r v, acts = [call_rec c a id r v]) /\
    last_call_id (pl_tls (zt_run_call_action E c id s)) = last_call_id (pl_tls s) /\
    g_call_id_seq (zt_run_call_action E c id s) = g_call_id_seq s.
Proof.
  intros Hrep. unfold zt_run_call_action.
  destruct (truthy (in_call_action (pl_tls s))); [exists []; rewrite app_nil_r; auto|].
  destruct (zt_find_call_action (func_id c) s) as [a|]; [|exists []; rewrite app_nil_r; auto].
  set (s1 := set_tls (tls_set_in_call_action 1) s).
  assert (Hinv : snd (zt_call_action_invoke E (act_callee_addr a) (act_arg_count a)
    (zt_resolve_call_args a c) s1) = s1) by (unfold zt_call_action_invoke; repeat case_match; apply unprobed).
  destruct (zt_call_action_invoke _ _ _ _ s1) as [r s2]. cbn [snd] in Hinv. subst s2.
  set (s3 := set_tls (tls_set_in_call_action 0) s1).
  assert (H3 : pl_rep base s3 log) by done.
  exists [call_rec c a id r (fst (header_values E s3))].
  rewrite (call_publish E c a id r base s3 log H3).
  destruct (publish_rep E (func_id c) ZT_TRACE_EVENT_CALL id (call_fill a r (zt_resolve_call_args a c)) s3
    base log (call_rec c a id r (fst (header_values E s3)))) as (H1 & H2 & H4 & _);
    [done|apply call_filler, resolve_length|intros; by apply call_view|].
  split_and!; [done|eauto|done|done].
Qed.

(** entry_stub on a represented payload, callees not probed: the records it
    appends, the call id it takes, and the frame it pushes. *)
Lemma entry_stub_logs E `{!Unprobed E} c fp ret base s log :
  pl_rep base s log -> room 1 s ->
  let id := g_call_id_seq s +64 1 in
  let s' := entry_stub E c fp ret s in
  exists v acts, pl_rep base s' (log ++ entry_rec c (Some fp) id v :: acts) /\
    (acts = [] \/ exists a r v, acts = [call_rec c a id r v]) /\
    g_call_id_seq s' = id /\ tls_ok (pl_tls s') /\
    call_stack_idx (pl_tls s') = call_stack_idx (pl_tls s) + 1 /\
    shadow (pl_tls s') = shadow (pl_tls s) ++ [mk_frame ret (func_id c) id].
Proof.
  intros Hrep Hroom id s'.
  destruct (handle_entry_logs E c (Some fp) base s log Hrep) as (v & s1 & Heq & H1 & _ & Hl & Hg).
  fold id in Heq, H1, Hl, Hg.
  destruct (run_call_action_unprobed E c id base s1 _ H1) as (acts & H2 & Hacts & Hl2 & Hg2).
  rewrite <- Heq in H2, Hl2, Hg2. rewrite <- app_assoc in H2.
  destruct (entry_stub_push E (d := 0) c fp ret s) as (Hok & Hi & Hsh);
    [by apply tls_ok_room, Hroom|done|].
  rewrite Hl2, Hl in Hsh. exists v, acts. split_and!; try done.
  - unfold s', entry_stub, save_probe_frame_c. by destruct (_ >=? _).
  - unfold s', entry_stub, save_probe_frame_c. destruct (_ >=? _); exact (eq_trans Hg2 Hg).
Qed.

(** exit_stub on a represented payload with a live frame. *)
Lemma exit_stub_logs E rc rfp base s log fs f :
  pl_rep base s log -> tls_ok (pl_tls s) -> shadow (pl_tls s) = fs ++ [f] -> fr_call_id f <> 0 ->
  let s' := snd (exit_stub E rc rfp s) in
  exists v, pl_rep base s' (log ++ [RReturn (mk_rec_header (fr_probe_id f) (fr_call_id f) v)
                              (gp_retval0 rc) (zt_fp_state_vec_low64 (Some rfp) 0)]) /\
    g_call_id_seq s' = g_call_id_seq s.
Proof.
  intros Hrep Hok Hs Hid. unfold exit_stub. rewrite (peek_probe_id_top s fs f Hok Hs).
  destruct (handle_return_logs E (ctx_with_func_id rc (fr_probe_id f)) (Some rfp) base s log Hrep)
    as [H1 H2]; rewrite (peek_call_id_top s fs f Hok Hs) in *; [done|].
  exists (fst (header_values E s)). unfold get_ret_addr_c. by case_match.
Qed.

(** [traces run d n]: from any represented state with [d] free frames, running
    appends a well-bracketed log of [n] calls numbered consecutively. *)
Definition traces (base : Z) (run : payload_t -> list Z * payload_t) (d n : Z) : Prop :=
  forall s log, pl_rep base s log -> room d s ->
    0 <= g_call_id_seq s -> g_call_id_seq s + n < 2 ^ 64 ->
    let s' := snd (run s) in
    exists l, pl_rep base s' (log ++ l) /\ bracketed l /\
      entry_ids l = seqZ (g_call_id_seq s + 1) n /\
      g_call_id_seq s' = g_call_id_seq s + n.

Lemma calls_pos t : 0 < calls t.
Proof.
  induction t as [c fp ret kids rc rfp IH] using ctree_ind'. cbn [calls].
  induction IH as [|t ts Ht _ IHts]; cbn in *; lia.
Qed.

Lemma calls_list_nonneg ts : 0 <= calls_list ts.
Proof.
  unfold calls_list. induction ts as [|t ts IH]; cbn in *; [lia|]. pose proof (calls_pos t). lia.
Qed.

Lemma room_weaken d d' s : room d s -> d' <= d -> room d' s.
Proof. intros [? ?] ?. split; [done|lia]. Qed.

Lemma traces_list E `{!Unprobed E} base ts :
  Forall (fun t => traces base (run_tree E t) (depth t) (calls t)) ts ->
  traces base (run_trees E ts) (depth_list ts) (calls_list ts).
Proof.
  induction 1 as [|t ts Ht _ IH]; intros s log Hrep Hroom H0 Hn; cbn [run_trees run_seq snd].
  - exists []. rewrite app_nil_r. unfold calls_list. cbn. split_and!; [done|constructor|done|lia].
  - unfold calls_list, depth_list in *. cbn in Hroom, Hn |- *.
    fold (calls_list ts) (depth_list ts) in *. fold (run_trees E ts).
    pose proof (calls_pos t). pose proof (calls_list_nonneg ts).
    assert (Hr1 : room (depth t) s) by (apply (room_weaken _ _ _ Hroom); lia).
    destruct (Ht s log Hrep Hr1) as (l1 & Hp1 & Hb1 & Hi1 & Hg1); [lia..|].
    pose proof (run_tree_returns E (d := 0) t s) as Hret.
    destruct Hr1 as [Hok1 Hd1]. specialize (Hret Hok1 ltac:(lia)).
    destruct (run_tree E t s) as [a1 s1]. destruct Hret as (_ & Hok & _ & Hidx). cbn [snd] in *.
    destruct (IH s1 _ Hp1) as (l2 & Hp2 & Hb2 & Hi2 & Hg2); [|lia..|].
    { split; [done|]. destruct Hroom as [_ Hroom]. lia. }
    destruct (run_trees E ts s1) as [a2 s2]. cbn [snd] in *.
    exists (l1 ++ l2). rewrite app_assoc. split_and!; [done|by apply bracketed_app| |lia].
    unfold entry_ids in *. rewrite omap_app, Hi1, Hi2, Hg1.
    rewrite (seqZ_app _ (calls t)) by lia. do 2 f_equal. lia.
Qed.

Lemma entry_ids_acts c id acts :
  (acts = [] \/ exists a r v, acts = [call_rec c a id r v]) ->
  entry_ids acts = [] /\ forall v, action_part (mk_rec_header (func_id c) id v) acts.
Proof.
  intros [->|(a & r & v & ->)]; [split; [done|by left]|].
  split; [done|]. intros v'. right. unfold call_rec. repeat eexists.
Qed.

Lemma run_tree_traces E `{!Unprobed E} base t : traces base (run_tree E t) (depth t) (calls t).
Proof.
  induction t as [c fp ret kids rc rfp IH] using ctree_ind'.
  intros s log Hrep Hroom H0 Hn. cbn [run_tree]. fold (run_trees E).
  cbn [depth calls] in *. fold (depth_list kids) (calls_list kids) in *.
  pose proof (calls_list_nonneg kids).
  assert (Hdk : 0 <= depth_list kids) by (clear; unfold depth_list; induction kids; cbn in *; lia).
  destruct (entry_stub_logs E c fp ret base s log Hrep) as (v & acts & H1 & Hacts & Hg1 & Hok1 & Hi1 & Hsh1);
    [apply (room_weaken _ _ _ Hroom); lia|].
  assert (Hid : g_call_id_seq s +64 1 = g_call_id_seq s + 1) by (apply u64_small; unfold is_u64; lia).
  rewrite Hid in *. set (s1 := entry_stub E c fp ret s) in *.
  assert (Hr1 : room (depth_list kids) s1) by (split; [done|destruct Hroom; lia]).
  destruct (traces_list E base kids IH s1 _ H1 Hr1) as (l & Hp2 & Hb2 & Hi2 & Hg2); [lia..|].
  assert (Hret : returns_to (run_trees E kids) (ret_addrs_list kids) (depth_list kids + 0))
    by (apply returns_to_list, Forall_forall; intros; by apply (run_tree_returns E (d := 0))).
  destruct Hr1 as [_ Hr1]. specialize (Hret s1 Hok1 ltac:(lia)).
  destruct (run_trees E kids s1) as [a2 s2]. destruct Hret as (_ & Hok2 & Hsh2 & _). cbn [snd] in *.
  rewrite Hsh1 in Hsh2.
  destruct (exit_stub_logs E rc rfp base s2 _ _ _ Hp2 Hok2 Hsh2) as (v2 & Hp3 & Hg3); [cbn; lia|].
  destruct (exit_stub E rc rfp s2) as [r s3]. cbn [snd fr_probe_id fr_call_id] in *.
  destruct (entry_ids_acts _ _ _ Hacts) as [Hids Hpart].
  rewrite <- !app_assoc in Hp3. cbn [app] in Hp3.
  eexists. split_and!; [exact Hp3| | |lia].
  - unfold entry_rec.
    apply (br_call _ _ _ acts l _ _ _ []); [apply Hpart|done|by split|constructor].
  - unfold entry_ids in *. cbn [omap list_omap entry_rec entry_id mk_rec_header rh_call_id].
    rewrite !omap_app, Hids, Hi2, Hg1, (seqZ_cons _ (1 + calls_list kids)) by lia.
    cbn. rewrite app_nil_r. f_equal. f_equal; lia.
Qed.

(** C17: the trace of a thread's probed calls is well bracketed, if the functions that call
    actions call are not probed themselves, the shadow stack has room for the nesting of
    the calls and the call ids do not wrap around.  Running a tree of calls through the
    stubs appends to the ring's log, for every call, an entry record, its action's call
    record if it has one, the records of the inner calls, and a return record with the
    entry's probe id and call id; the calls are numbered consecutively in the order they
    are entered.  A probed callee breaks the numbering of the call around it
    ([probed_callee_call_id]), a full stack loses its return (C13). *)
Theorem run_tree_trace E `{!Unprobed E} base t s log :
  pl_rep base s log -> room (depth t) s ->
  0 <= g_call_id_seq s -> g_call_id_seq s + calls t < 2 ^ 64 ->
  exists l, pl_rep base (snd (run_tree E t s)) (log ++ l) /\ bracketed l /\
    entry_ids l = seqZ (g_call_id_seq s + 1) (calls t).
Proof.
  intros Hrep Hroom H0 Hn.
  destruct (run_tree_traces E base t s log Hrep Hroom H0 Hn) as (l & ? & ? & ? & _). eauto.
Qed.

(** A configuration with a buffer of sufficient size. *)
Definition config_ok (c : zt_payload_config_t) : Prop :=
  shared_buffer_addr c <> 0 /\ sizeof_zt_trace_buffer_t <= shared_buffer_size c.

#[export] Instance config_ok_dec c : Decision (config_ok c).
Proof. unfold config_ok. apply _. Defined.

Lemma initial_rep b :
  buf_magic b = ZT_TRACE_BUFFER_MAGIC -> buf_write_seq b = 0 -> buf_events b = buf_events zero_buffer ->
  ring_rep b [].
Proof.
  intros Hm Hw He. split; rewrite ?He; try done.
  - apply Forall_replicate. by split.
  - intros i e _ Hl. cbn in Hl. apply lookup_replicate in Hl as [-> _]. done.
Qed.

Lemma init_rep c s :
  config_ok c -> pl_rep (shared_buffer_addr c) (snd (zt_payload_init (Some c) s)) [].
Proof.
  intros [Ha Hs]. unfold zt_payload_init.
  assert (Hg : forall g m k t, zt_get_trace_buffer (mk_payload c g m k t) = Some (shared_buffer_addr c)).
  { intros. unfold zt_get_trace_buffer. cbn.
    destruct (Z.eqb_spec (shared_buffer_addr c) 0); [done|].
    destruct (Z.ltb_spec (shared_buffer_size c) sizeof_zt_trace_buffer_t); [lia|done]. }
  rewrite Hg. split; [apply Hg|]. cbn [snd]. unfold buffer_at.
  cbn [store_buffer pl_mem]. rewrite lookup_insert_eq. by apply initial_rep.
Qed.

Lemma get_buffer_none c g m k t :
  ~ config_ok c -> zt_get_trace_buffer (mk_payload c g m k t) = None.
Proof.
  intros Hc. unfold zt_get_trace_buffer. cbn. unfold config_ok in Hc.
  destruct (Z.eqb_spec (shared_buffer_addr c) 0); [done|].
  destruct (Z.ltb_spec (shared_buffer_size c) sizeof_zt_trace_buffer_t); [done|]. lia.
Qed.

Lemma init_frame config s :
  fst (zt_payload_init config s) = 0 /\
  g_call_id_seq (snd (zt_payload_init config s)) = 0 /\
  pl_tls (snd (zt_payload_init config s)) = pl_tls s /\
  g_payload_config (snd (zt_payload_init config s)) = default (g_payload_config s) config.
Proof. unfold zt_payload_init. destruct config; destruct (zt_get_trace_buffer _); done. Qed.

(** Zt_payload_init with a configured buffer yields an empty log, whatever the
    mapped pages held; without one it leaves every buffer untouched.  It always
    returns 0 and restarts the call numbering. *)
Lemma zt_payload_init_log config s :
  let '(rc, s') := zt_payload_init config s in
  let c := default (g_payload_config s) config in
  rc = 0 /\ g_call_id_seq s' = 0 /\ pl_tls s' = pl_tls s /\ g_payload_config s' = c /\
  if bool_decide (config_ok c) then pl_rep (shared_buffer_addr c) s' [] else pl_mem s' = pl_mem s.
Proof.
  cbv zeta. pose proof (init_frame config s) as (Hrc & Hg & Ht & Hc).
  set (c := default (g_payload_config s) config) in *.
  assert (Heq : zt_payload_init config s = zt_payload_init (Some c) s)
    by (unfold c; destruct config; [done|]; by destruct s).
  case_bool_decide as Hok.
  - pose proof (init_rep c s Hok) as Hr. rewrite <- Heq in Hr.
    destruct (zt_payload_init config s). by split_and!.
  - assert (Hm : pl_mem (snd (zt_payload_init (Some c) s)) = pl_mem s).
    { unfold zt_payload_init. rewrite get_buffer_none by done. done. }
    rewrite <- Heq in Hm. destruct (zt_payload_init config s). by split_and!.
Qed.

(** ** Witnesses *)

Lemma sample_config_ok : config_ok sample_config.
Proof. split; [done|]. vm_compute. discriminate. Qed.

Lemma sample_rep : pl_rep 65536 sample_state [].
Proof. apply (init_rep sample_config). apply sample_config_ok. Qed.

#[export] Instance sample_env_unprobed : Unprobed sample_env.
Proof. done. Qed.

(** C15 at the first probe hit after initialisation. *)
Lemma zt_handle_entry_log_witness :
  exists v, pl_rep 65536 (zt_handle_entry sample_env (Some zero_ctx) None sample_state)
              [entry_rec zero_ctx None 1 v].
Proof.
  destruct (zt_handle_entry_log sample_env zero_ctx None 65536 sample_state [] sample_rep)
    as (v & tail & H & Ht).
  assert (Hnil : tail = []) by exact Ht. rewrite Hnil in H. exists v. exact H.
Defined.

(** C16 after one call was entered. *)
Lemma exit_stub_log_witness :
  let s := set_tls (fun t => tls_set_idx 1 (tls_set_frames
             (mk_frame 1000 7 3 :: replicate 255 zero_frame) t)) sample_state in
  exists v, pl_rep 65536 (snd (exit_stub sample_env zero_ctx [] s))
    [RReturn (mk_rec_header 7 3 v) 0 0].
Proof.
  intros s. pose proof (exit_stub_log sample_env zero_ctx [] 65536 s [] sample_rep) as H.
  assert (Hok : tls_ok (pl_tls s)) by (split; [reflexivity|split; discriminate]).
  specialize (H Hok). change (last (shadow (pl_tls s))) with (Some (mk_frame 1000 7 3)) in H.
  apply H. discriminate.
Defined.

(** C17 at nested calls from the initial state. *)
Lemma run_tree_trace_witness :
  let t := sample_call 1 1000 [sample_call 2 2000 [sample_call 1 3000 []]; sample_call 2 2004 []] in
  exists l, pl_rep 65536 (snd (run_tree sample_env t sample_state)) l /\ bracketed l /\
    entry_ids l = [1; 2; 3; 4].
Proof.
  intros t. apply (run_tree_trace sample_env 65536 t sample_state []).
  - apply sample_rep.
  - split; [split; [reflexivity|split; discriminate]|discriminate].
  - discriminate.
  - reflexivity.
Defined.
