(* ===== verification/CallAction.v ===== *)
(** * Call actions in the payload

    Which action zt_find_call_action selects, what the callee receives, and how a
    probed callee disturbs the call id of the return event. *)

From S2P Require Import Prelude CLib Types Payload ShadowStack Ring.

(** An action the payload may run for the probe. *)
Definition usable (probe_id : Z) (a : zt_probe_call_action_t) : Prop :=
  act_enabled a <> 0 /\ act_probe_id a = probe_id /\ act_callee_addr a <> 0 /\
  act_arg_count a <= ZT_CALL_ACTION_ARG_CAP.

Lemma copy_usable a probe_id :
  (zt_copy_call_action_if_match a probe_id = Some a /\ usable probe_id a) \/
  (zt_copy_call_action_if_match a probe_id = None /\ ~ usable probe_id a).
Proof.
  destruct a as [en id addr n args]. unfold zt_copy_call_action_if_match, usable, action_matches. cbn.
  rewrite Z.eqb_refl. cbn.
  destruct (Z.eqb_spec en 0); [right; split; [done|by intros []]|].
  destruct (Z.eqb_spec id probe_id); cbn; [|right; split; [done|tauto]].
  destruct (Z.eqb_spec addr 0); cbn; [right; split; [done|tauto]|].
  destruct (Z.gtb_spec n ZT_CALL_ACTION_ARG_CAP); cbn; [right; split; [done|lia]|].
  left. split; [done|lia].
Qed.

(** The scan returns the first usable slot other than the home slot. *)
Lemma find_loop_spec n i home b probe_id :
  match find_call_action_loop n i home b probe_id with
  | Some a => exists j, i <= j < i + Z.of_nat n /\ a = arr_get (buf_call_actions b) j /\ usable probe_id a
  | None => forall j, i <= j < i + Z.of_nat n -> j <> home ->
      ~ usable probe_id (arr_get (buf_call_actions b) j)
  end.
Proof.
  revert i. induction n as [|n IH]; intros i; cbn [find_call_action_loop]; [intros; lia|].
  specialize (IH (i + 1)). destruct (Z.eqb_spec i home) as [->|Hne].
  - destruct (find_call_action_loop n (home + 1) home b probe_id).
    + destruct IH as (j & ? & ?). exists j. split; [lia|done].
    + intros j Hj Hnh. apply IH; [lia|done].
  - destruct (copy_usable (arr_get (buf_call_actions b) i) probe_id) as [[-> Hu]|[-> Hu]].
    + exists i. split_and!; [lia|lia|done|done].
    + destruct (find_call_action_loop n (i + 1) home b probe_id).
      * destruct IH as (j & ? & ?). exists j. split; [lia|done].
      * intros j Hj Hnh. destruct (Z.eq_dec j i) as [->|]; [done|]. apply IH; [lia|done].
Qed.

(** C18: with an initialised buffer that has at least one action, the lookup for a
    probe returns a usable action of the table, the home slot's when that one is
    usable, and fails only if no slot of the 32 is usable for the probe. *)
Theorem zt_find_call_action_spec base s log probe_id :
  pl_rep base s log -> buf_call_action_count (buffer_at s base) <> 0 -> probe_id <> 0 ->
  let slot := arr_get (buf_call_actions (buffer_at s base)) in
  let home := slot (probe_id mod ZT_PAYLOAD_PROBE_ACTION_CAP) in
  match zt_find_call_action probe_id s with
  | Some a => usable probe_id a /\ (usable probe_id home -> a = home) /\
      exists i, 0 <= i < ZT_PAYLOAD_PROBE_ACTION_CAP /\ a = slot i
  | None => forall i, 0 <= i < ZT_PAYLOAD_PROBE_ACTION_CAP -> ~ usable probe_id (slot i)
  end.
Proof.
  intros [Ha Hr] Hc Hp slot home. unfold zt_find_call_action. rewrite Ha, (rep_magic _ _ Hr), Z.eqb_refl.
  destruct (Z.eqb_spec (buf_call_action_count (buffer_at s base)) 0); [done|].
  destruct (Z.eqb_spec probe_id 0); [done|]. cbn [negb orb]. fold slot home.
  assert (Hm : 0 <= probe_id mod ZT_PAYLOAD_PROBE_ACTION_CAP < ZT_PAYLOAD_PROBE_ACTION_CAP)
    by by apply Z.mod_pos_bound.
  destruct (copy_usable home probe_id) as [[-> Hu]|[-> Hu]]; [by eauto 10|].
  pose proof (find_loop_spec (Z.to_nat ZT_PAYLOAD_PROBE_ACTION_CAP) 0
    (probe_id mod ZT_PAYLOAD_PROBE_ACTION_CAP) (buffer_at s base) probe_id) as Hf.
  rewrite Z2Nat.id in Hf by done. destruct (find_call_action_loop _ _ _ _ _) as [a|].
  - destruct Hf as (j & Hj & -> & Huj). split_and!; [done|done|]. exists j. split; [lia|done].
  - intros i Hi. destruct (Z.eq_dec i (probe_id mod ZT_PAYLOAD_PROBE_ACTION_CAP)) as [->|Hne]; [done|].
    apply Hf; [lia|done].
Qed.

(** The sample payload with an action of probe 1 that passes entry argument 1 and
    a constant to the function at 4096. *)
Definition sample_action : zt_probe_call_action_t :=
  mk_call_action 1 1 4096 2
    (mk_call_arg ZT_CALL_ACTION_ARG_ENTRY_ARG 1 :: mk_call_arg ZT_CALL_ACTION_ARG_CONST 7
       :: replicate 4 zero_call_arg).

Definition action_state : payload_t :=
  let b := buffer_at sample_state 65536 in
  store_buffer 65536 (mk_buffer (buf_magic b) (buf_write_seq b) 1
    (arr_set (buf_call_actions b) 5 sample_action) (buf_events b)) sample_state.

Lemma action_state_rep : pl_rep 65536 action_state [].
Proof. split; [done|]. unfold action_state. rewrite buffer_at_store. by apply initial_rep. Qed.

(** C18 at an action of probe 1 that sits in slot 5, not its home slot 1. *)
Lemma zt_find_call_action_spec_witness :
  exists a, zt_find_call_action 1 action_state = Some a /\ usable 1 a.
Proof.
  pose proof (zt_find_call_action_spec 65536 action_state [] 1 action_state_rep) as H.
  assert (Hc : buf_call_action_count (buffer_at action_state 65536) <> 0) by (vm_compute; discriminate).
  specialize (H Hc ltac:(discriminate)). cbn zeta in H.
  assert (Hs : exists a, zt_find_call_action 1 action_state = Some a)
    by (eexists; vm_compute; reflexivity).
  destruct Hs as [a Ha]. rewrite Ha in H. exists a. split; [exact Ha|apply H].
Defined.

(** The callee of an action is invoked with exactly the configured number of
    arguments, each a constant, an integer argument of the probed call, or 0 for
    an unknown kind or an argument index past the sixth. *)
Lemma zt_call_action_invoke_args E a c addr s :
  length (act_args a) = 6%nat -> 0 <= act_arg_count a <= ZT_CALL_ACTION_ARG_CAP ->
  zt_call_action_invoke E addr (act_arg_count a) (zt_resolve_call_args a c) s =
  callee E addr (map (resolve_call_arg c) (take (Z.to_nat (act_arg_count a)) (act_args a))) s.
Proof.
  destruct a as [en id ad n l]. cbn [act_args act_arg_count]. intros Hl Hn.
  do 6 (destruct l as [|? l]; [done|]). destruct l; [|done].
  unfold ZT_CALL_ACTION_ARG_CAP, ZT_TRACE_GP_ARG_COUNT in Hn.
  assert (n = 0 \/ n = 1 \/ n = 2 \/ n = 3 \/ n = 4 \/ n = 5 \/ n = 6) as Hcases by lia.
  repeat destruct Hcases as [->|Hcases]; try reflexivity. by rewrite Hcases.
Qed.

(** The case at the sample action: the callee receives argument 1 of the call and 7. *)
Lemma zt_call_action_invoke_args_witness :
  let c := mk_ctx 0 0 0 0 0 0 0 0 10 11 0 12 13 0 0 0 0 1 in
  zt_call_action_invoke sample_env 4096 (act_arg_count sample_action)
    (zt_resolve_call_args sample_action c) sample_state =
  callee sample_env 4096 [11; 7] sample_state.
Proof.
  intros c. apply (zt_call_action_invoke_args sample_env sample_action c 4096 sample_state); [reflexivity|].
  split; discriminate.
Defined.

(** The kinds, probes and call ids of the first events of the ring. *)
Definition first_events (n : nat) (s : payload_t) : list (Z * Z * Z) :=
  map (fun e => (ev_event_type e, ev_probe_id e, ev_call_id e)) (take n (buf_events (buffer_at s 65536))).

(** A call action whose callee is probed itself breaks the pairing of entry
    and return.  The callee's own entry overwrites last_call_id before
    save_probe_frame_c stores the frame of the outer call, so the outer return
    event (probe 1) carries the call id 2 of the callee's call, not 1. *)
Lemma probed_callee_call_id :
  let s := snd (run_tree probed_env (sample_call 1 1000 []) action_state) in
  first_events 5 s =
    [(ZT_TRACE_EVENT_ENTRY, 1, 1); (ZT_TRACE_EVENT_ENTRY, 9, 2); (ZT_TRACE_EVENT_RETURN, 9, 2);
     (ZT_TRACE_EVENT_CALL, 1, 1); (ZT_TRACE_EVENT_RETURN, 1, 2)].
Proof. vm_compute. reflexivity. Qed.
