(* ===== verification/Reader.v ===== *)
(** * The tracer's ring reader (src/zt_trace_runner.c)

    zt_dump_trace_events_since and what it calls: the header read, the double read
    of committed_seq around the event copy, the status of a slot, the loop that
    dumps, waits or reports losses, and the entry cache that applies a probe's
    condition to the entry and the return of a call.

    Reads of the target's memory may fail and may see the ring at any moment; they
    are the operations of the interface [remote_t], indexed by the number of the
    read.  The log text of an event whose function has a configured signature is
    the parameter [sig_formats]. *)

From S2P Require Import Prelude CLib Types Filter.

(** ** Interface to the target's memory *)

(** [None] is a failed read.  The arguments are the read's number and the remote
    address: the header (magic and write_seq), a batch of 8-byte words, and a run
    of consecutive events. *)
Record remote_t := mk_remote {
  rm_header : nat -> Z -> option (Z * Z);
  rm_words : nat -> list Z -> option (list Z);
  rm_events : nat -> Z -> Z -> option (list zt_trace_event_t)
}.

(** ** State *)

Record zt_entry_cache_slot_t := mk_entry_slot {
  ecs_call_id : Z;
  ecs_event : zt_trace_event_t;
  ecs_suppressed : Z
}.

Definition zero_entry_slot : zt_entry_cache_slot_t := mk_entry_slot 0 zero_event 0.

#[export] Instance entry_slot_inhabited : Inhabited zt_entry_cache_slot_t := populate zero_entry_slot.

Inductive zt_trace_slot_status_t :=
| ZT_TRACE_SLOT_READY
| ZT_TRACE_SLOT_PENDING
| ZT_TRACE_SLOT_OVERWRITTEN
| ZT_TRACE_SLOT_READ_ERROR.

#[export] Instance slot_status_eq_dec : EqDecision zt_trace_slot_status_t.
Proof. solve_decision. Defined.

(** What a line of the log shows: a call record, an event formatted with its
    function's signature and its entry, a raw entry or return, an unknown kind, or
    a loss marker. *)
Inductive out_line :=
| OCall (e : zt_trace_event_t)
| OSig (e : zt_trace_event_t) (entry : option zt_trace_event_t)
| OEntry (e : zt_trace_event_t)
| OReturn (e : zt_trace_event_t)
| OEvent (e : zt_trace_event_t) (seq : Z)
| OLost (first_lost lost_count write_seq : Z)
| OBadMagic.

(** The static arrays of the reader, the log, and the number of reads so far. *)
Record reader_t := mk_reader {
  rd_time : nat;
  g_entry_cache : list zt_entry_cache_slot_t;
  g_event_snapshot : list zt_trace_event_t;
  g_commit_before : list Z;
  g_commit_after : list Z;
  rd_out : list out_line
}.

Definition rd_tick (s : reader_t) : reader_t :=
  mk_reader (S (rd_time s)) (g_entry_cache s) (g_event_snapshot s) (g_commit_before s)
    (g_commit_after s) (rd_out s).
Definition rd_set_cache c (s : reader_t) : reader_t :=
  mk_reader (rd_time s) c (g_event_snapshot s) (g_commit_before s) (g_commit_after s) (rd_out s).
Definition rd_set_snapshot x (s : reader_t) : reader_t :=
  mk_reader (rd_time s) (g_entry_cache s) x (g_commit_before s) (g_commit_after s) (rd_out s).
Definition rd_set_before x (s : reader_t) : reader_t :=
  mk_reader (rd_time s) (g_entry_cache s) (g_event_snapshot s) x (g_commit_after s) (rd_out s).
Definition rd_set_after x (s : reader_t) : reader_t :=
  mk_reader (rd_time s) (g_entry_cache s) (g_event_snapshot s) (g_commit_before s) x (rd_out s).
Definition rd_print l (s : reader_t) : reader_t :=
  mk_reader (rd_time s) (g_entry_cache s) (g_event_snapshot s) (g_commit_before s)
    (g_commit_after s) (rd_out s ++ [l]).

Definition zero_reader : reader_t :=
  let n := Z.to_nat ZT_TRACE_EVENT_CAPACITY in
  mk_reader 0 (replicate n zero_entry_slot) (replicate n zero_event) (replicate n 0) (replicate n 0) [].

(** The two commit arrays, as the argument [commits] of the snapshot function. *)
Inductive commit_array := CommitBefore | CommitAfter.

Definition get_commits (a : commit_array) (s : reader_t) : list Z :=
  match a with CommitBefore => g_commit_before s | CommitAfter => g_commit_after s end.

Definition set_commits (a : commit_array) (x : list Z) (s : reader_t) : reader_t :=
  match a with CommitBefore => rd_set_before x s | CommitAfter => rd_set_after x s end.

Definition ZT_TRACE_READ_IOV_MAX : Z := 256.

(** ** Probes and suppression *)

(** The first probe of the table with the id; 0 is no id. *)
Definition zt_probe_find_by_id (probes : list zt_probe_info_t) (probe_id : Z) : option zt_probe_info_t :=
  if probe_id =? 0 then None
  else List.find (fun p => pr_probe_id p =? probe_id) probes.

Definition zt_trace_event_is_suppressed (probe : option zt_probe_info_t) (event : zt_trace_event_t) : Z :=
  match probe with
  | None => 0
  | Some p =>
      if negb (ev_event_type event =? ZT_TRACE_EVENT_ENTRY) then 0
      else if negb (truthy (flt_enabled (pr_filter p))) then 0
      else b2z (negb (truthy (zt_probe_filter_eval (Some (pr_filter p)) (Some event))))
  end.

Section reader.
Context (R : remote_t).
(** Whether zt_format_trace_event_with_sig produces text for the event. *)
Context (sig_formats : zt_probe_info_t -> option zt_trace_event_t -> zt_trace_event_t -> bool).
Context (probes : list zt_probe_info_t).
(** [runtime->remote_trace_buffer_addr]. *)
Context (base : Z).

(** ** Formatting one event *)

(** The last part of zt_dump_one_trace_event: the line printed for an event that
    is not suppressed. *)
Definition dump_formatted (probe : option zt_probe_info_t) (matched_entry : option zt_trace_event_t)
    (event : zt_trace_event_t) (seq : Z) (s : reader_t) : reader_t :=
  let with_sig := match probe with Some p => sig_formats p matched_entry event | None => false end in
  if with_sig then rd_print (OSig event matched_entry) s
  else if ev_event_type event =? ZT_TRACE_EVENT_ENTRY then rd_print (OEntry event) s
  else if ev_event_type event =? ZT_TRACE_EVENT_RETURN then rd_print (OReturn event) s
  else rd_print (OEvent event seq) s.

Definition zt_dump_one_trace_event (event : zt_trace_event_t) (seq : Z) (s : reader_t) : reader_t :=
  let probe := zt_probe_find_by_id probes (ev_probe_id event) in
  let i := ev_call_id event mod ZT_TRACE_EVENT_CAPACITY in
  if ev_event_type event =? ZT_TRACE_EVENT_CALL then rd_print (OCall event) s
  else if (ev_event_type event =? ZT_TRACE_EVENT_ENTRY) && negb (ev_call_id event =? 0) then
    let suppressed := zt_trace_event_is_suppressed probe event in
    let s := rd_set_cache (arr_set (g_entry_cache s) i
               (mk_entry_slot (ev_call_id event) event suppressed)) s in
    if truthy suppressed then s else dump_formatted probe None event seq s
  else if (ev_event_type event =? ZT_TRACE_EVENT_RETURN) && negb (ev_call_id event =? 0) then
    let slot := arr_get (g_entry_cache s) i in
    if ecs_call_id slot =? ev_call_id event then
      let s := rd_set_cache (arr_set (g_entry_cache s) i (mk_entry_slot 0 (ecs_event slot) 0)) s in
      if truthy (ecs_suppressed slot) then s
      else dump_formatted probe (Some (ecs_event slot)) event seq s
    else dump_formatted probe None event seq s
  else dump_formatted probe None event seq s.

(** ** Remote reads *)

Definition zt_trace_event_slot_addr (seq : Z) : Z :=
  if seq =? 0 then 0
  else
    let slot := (seq -64 1) mod ZT_TRACE_EVENT_CAPACITY in
    base +64 offsetof_events +64 (slot *64 sizeof_zt_trace_event_t).

(** [None] is the result -1, otherwise the header's magic and write_seq. *)
Definition zt_trace_read_buffer_header (s : reader_t) : option (Z * Z) * reader_t :=
  if base =? 0 then (None, s)
  else (rm_header R (rd_time s) base, rd_tick s).

Definition zt_trace_log_lost_events (first_lost lost_count write_seq : Z) (s : reader_t) : reader_t :=
  if lost_count =? 0 then s else rd_print (OLost first_lost lost_count write_seq) s.

(** The slots of a batch and the words' addresses (committed_seq is the first
    field of an event). *)
Definition batch_seqs (start_seq offset batch_count : Z) : list Z :=
  map (fun i => start_seq +64 (offset + Z.of_nat i)) (seq 0 (Z.to_nat batch_count)).

Definition store_words (seqs words : list Z) (commits : list Z) : list Z :=
  foldl (fun c '(q, w) => arr_set c ((q -64 1) mod ZT_TRACE_EVENT_CAPACITY) w) commits (zip seqs words).

Fixpoint read_commit_loop (fuel : nat) (a : commit_array) (start_seq count offset : Z) (s : reader_t)
    : option Z * reader_t :=
  match fuel with
  | O => (None, s)
  | S fuel =>
      if offset <? count then
        let batch_count := Z.min (count - offset) ZT_TRACE_READ_IOV_MAX in
        let seqs := batch_seqs start_seq offset batch_count in
        match rm_words R (rd_time s) (map zt_trace_event_slot_addr seqs) with
        | None => (Some (-1), rd_tick s)
        | Some words =>
            let s := set_commits a (store_words seqs words (get_commits a s)) (rd_tick s) in
            read_commit_loop fuel a start_seq count (offset + ZT_TRACE_READ_IOV_MAX) s
        end
      else (Some 0, s)
  end.

(** At most 16 batches of 256, and one test to leave the loop. *)
Definition zt_trace_read_commit_snapshot (start_seq count : Z) (a : commit_array) (s : reader_t)
    : option Z * reader_t :=
  if (start_seq =? 0) || (count >? ZT_TRACE_EVENT_CAPACITY) then (Some (-1), s)
  else read_commit_loop 17 a start_seq count 0 s.

Definition store_events (slot : Z) (evs snapshot : list zt_trace_event_t) : list zt_trace_event_t :=
  take (Z.to_nat slot) snapshot ++ evs ++ drop (Z.to_nat slot + length evs) snapshot.

Fixpoint read_event_loop (fuel : nat) (seq remaining : Z) (s : reader_t) : option Z * reader_t :=
  match fuel with
  | O => (None, s)
  | S fuel =>
      if remaining >? 0 then
        let slot := (seq -64 1) mod ZT_TRACE_EVENT_CAPACITY in
        let run := Z.min (ZT_TRACE_EVENT_CAPACITY - slot) remaining in
        match rm_events R (rd_time s) (zt_trace_event_slot_addr seq) run with
        | None => (Some (-1), rd_tick s)
        | Some evs =>
            let s := rd_set_snapshot (store_events slot evs (g_event_snapshot s)) (rd_tick s) in
            read_event_loop fuel (seq +64 run) (remaining - run) s
        end
      else (Some 0, s)
  end.

(** At most two runs: up to the end of the array and from its start. *)
Definition zt_trace_read_event_snapshot (start_seq count : Z) (s : reader_t) : option Z * reader_t :=
  if (start_seq =? 0) || (count >? ZT_TRACE_EVENT_CAPACITY) then (Some (-1), s)
  else read_event_loop 3 start_seq count s.

Definition zt_trace_refresh_event_snapshots (start_seq count : Z) (s : reader_t) : option Z * reader_t :=
  if count =? 0 then (Some 0, s)
  else
    match zt_trace_read_commit_snapshot start_seq count CommitBefore s with
    | (Some 0, s) =>
        match zt_trace_read_event_snapshot start_seq count s with
        | (Some 0, s) => zt_trace_read_commit_snapshot start_seq count CommitAfter s
        | (Some _, s) => (Some (-1), s)
        | (None, s) => (None, s)
        end
    | (Some _, s) => (Some (-1), s)
    | (None, s) => (None, s)
    end.

(** ** Slot status *)

Definition zt_trace_snapshot_slot (seq : Z) (s : reader_t) : zt_trace_slot_status_t * zt_trace_event_t :=
  if seq =? 0 then (ZT_TRACE_SLOT_READ_ERROR, zero_event)
  else
    let slot := (seq -64 1) mod ZT_TRACE_EVENT_CAPACITY in
    let event := arr_get (g_event_snapshot s) slot in
    let before := arr_get (g_commit_before s) slot in
    let after := arr_get (g_commit_after s) slot in
    if (before =? seq) && (ev_committed_seq event =? seq) && (after =? seq)
    then (ZT_TRACE_SLOT_READY, event)
    else if (before >? seq) || (ev_committed_seq event >? seq) || (after >? seq)
    then (ZT_TRACE_SLOT_OVERWRITTEN, zero_event)
    else (ZT_TRACE_SLOT_PENDING, zero_event).

(** ** The poll *)

(** The while loop, with [seq] the next event and [last_seq] the caller's cursor.
    The result is the return code and the cursor; [None] if the fuel ran out. *)
Fixpoint dump_loop (fuel : nat) (seq write_seq last_seq : Z) (s : reader_t)
    : option (Z * Z) * reader_t :=
  match fuel with
  | O => (None, s)
  | S fuel =>
      if seq <=? write_seq then
        match zt_trace_snapshot_slot seq s with
        | (ZT_TRACE_SLOT_READY, event) =>
            dump_loop fuel (seq +64 1) write_seq seq (zt_dump_one_trace_event event seq s)
        | (ZT_TRACE_SLOT_PENDING, _) => (Some (0, last_seq), s)
        | (ZT_TRACE_SLOT_OVERWRITTEN, _) =>
            match zt_trace_read_buffer_header s with
            | (None, s) => (Some (-1, last_seq), s)
            | (Some (magic, fresh), s) =>
                if negb (magic =? ZT_TRACE_BUFFER_MAGIC) then (Some (-1, last_seq), s)
                else if (fresh >=? seq) && (fresh - seq >=? ZT_TRACE_EVENT_CAPACITY) then
                  let start_seq := fresh - ZT_TRACE_EVENT_CAPACITY + 1 in
                  let s := zt_trace_log_lost_events seq (start_seq - seq) fresh s in
                  match zt_trace_refresh_event_snapshots start_seq (fresh - start_seq + 1) s with
                  | (Some 0, s) => dump_loop fuel start_seq fresh (start_seq - 1) s
                  | (Some _, s) => (Some (-1, start_seq - 1), s)
                  | (None, s) => (None, s)
                  end
                else (Some (0, last_seq), s)
            end
        | (ZT_TRACE_SLOT_READ_ERROR, _) => (Some (-1, last_seq), s)
        end
      else (Some (0, last_seq), s)
  end.

Definition zt_dump_trace_events_since (fuel : nat) (last_seq : Z) (s : reader_t)
    : option (Z * Z) * reader_t :=
  match zt_trace_read_buffer_header s with
  | (None, s) => (Some (-1, last_seq), s)
  | (Some (magic, write_seq), s) =>
      if negb (magic =? ZT_TRACE_BUFFER_MAGIC) then (Some (-1, last_seq), rd_print OBadMagic s)
      else if (write_seq =? 0) || (write_seq <=? last_seq) then (Some (0, last_seq), s)
      else
        let seq := last_seq +64 1 in
        let '(seq, last_seq, s) :=
          if write_seq - last_seq >? ZT_TRACE_EVENT_CAPACITY then
            let start_seq := write_seq - ZT_TRACE_EVENT_CAPACITY + 1 in
            (start_seq, start_seq - 1,
             zt_trace_log_lost_events seq (start_seq - seq) write_seq s)
          else (seq, last_seq, s) in
        match zt_trace_refresh_event_snapshots seq (write_seq - seq + 1) s with
        | (Some 0, s) => dump_loop fuel seq write_seq last_seq s
        | (Some _, s) => (Some (-1, last_seq), s)
        | (None, s) => (None, s)
        end
  end.

End reader.
