(* ===== verification/ReaderSpec.v ===== *)
(** * Properties of the ring reader

    A stopped target's ring is read back completely; an entry and its return get
    the same filter decision.  What a poll of a running target prints is in
    ReaderAccount. *)

From S2P Require Import Prelude CLib Types Filter Payload Ring Reader.

(** ** The reads *)

(** The slot of a sequence number does not depend on the 64-bit wrap. *)
Lemma slot_mod x : u64 x mod ZT_TRACE_EVENT_CAPACITY = x mod ZT_TRACE_EVENT_CAPACITY.
Proof.
  unfold u64, ZT_TRACE_EVENT_CAPACITY. rewrite Z.mod_mod_divide; [done|]. by exists (2 ^ 52).
Qed.

Lemma u64_sub_l x y : u64 (u64 x - y) = u64 (x - y).
Proof. unfold u64. apply Zminus_mod_idemp_l. Qed.

Section reads.
Context (R : remote_t) (base : Z).

(** What the reads leave alone: the log and the cache. *)
Definition reads_only (s s' : reader_t) : Prop :=
  rd_out s' = rd_out s /\ g_entry_cache s' = g_entry_cache s.

#[export] Instance reads_only_preorder : PreOrder reads_only.
Proof.
  split; unfold reads_only; [done|]. intros s1 s2 s3 [H1 H2] [H3 H4]. by rewrite H3, H4.
Qed.

Lemma set_commits_reads a x s : reads_only s (set_commits a x s).
Proof. by destruct a. Qed.

Lemma read_commit_loop_total fuel a start count offset s :
  count - offset <= 256 * Z.of_nat fuel ->
  exists rc s', read_commit_loop R base (S fuel) a start count offset s = (Some rc, s') /\ reads_only s s'.
Proof.
  revert offset s. induction fuel as [|fuel IH]; intros offset s Hf; cbn [read_commit_loop].
  - destruct (Z.ltb_spec offset count); [lia|]. by exists 0, s.
  - destruct (Z.ltb_spec offset count); [|by exists 0, s].
    destruct (rm_words _ _ _) as [ws|]; [|by exists (-1), (rd_tick s)].
    match goal with |- context [if _ <? _ then _ else (_, ?x)] => set (s1 := x) end.
    destruct (IH (offset + ZT_TRACE_READ_IOV_MAX) s1) as (rc & s' & Heq & Hr);
      [unfold ZT_TRACE_READ_IOV_MAX; lia|].
    exists rc, s'. split; [exact Heq|]. etransitivity; [|exact Hr].
    transitivity (rd_tick s); [done|apply set_commits_reads].
Qed.

Lemma read_commit_total start count a s :
  exists rc s', zt_trace_read_commit_snapshot R base start count a s = (Some rc, s') /\ reads_only s s'.
Proof.
  unfold zt_trace_read_commit_snapshot. case_match; [by exists (-1), s|]. zbool.
  apply read_commit_loop_total. unfold ZT_TRACE_EVENT_CAPACITY in *. lia.
Qed.

(** The loop over runs needs two iterations: a run that does not exhaust the
    request ends at the end of the array, so the next one starts at slot 0. *)
Lemma read_event_total start count s :
  exists rc s', zt_trace_read_event_snapshot R base start count s = (Some rc, s') /\ reads_only s s'.
Proof.
  unfold zt_trace_read_event_snapshot. case_match; [by exists (-1), s|]. zbool. cbn [read_event_loop].
  destruct (Z.gtb_spec count 0); [|by exists 0, s].
  set (slot := (start -64 1) mod ZT_TRACE_EVENT_CAPACITY).
  assert (Hslot : 0 <= slot < ZT_TRACE_EVENT_CAPACITY) by by apply Z.mod_pos_bound.
  destruct (rm_events _ _ _ _) as [evs|]; [|by exists (-1), (rd_tick s)].
  set (run := Z.min (ZT_TRACE_EVENT_CAPACITY - slot) count).
  destruct (Z.gtb_spec (count - run) 0); [|eexists _, _; by split].
  assert (Hrun : run = ZT_TRACE_EVENT_CAPACITY - slot) by lia.
  destruct (rm_events _ _ _ _) as [evs'|]; [|eexists _, _; by split].
  assert (Hs : (start +64 run -64 1) mod ZT_TRACE_EVENT_CAPACITY = 0).
  { rewrite Hrun. unfold slot. rewrite u64_sub_l, !slot_mod.
    pose proof (Z.div_mod (start - 1) ZT_TRACE_EVENT_CAPACITY ltac:(done)) as Hd.
    replace (start + (ZT_TRACE_EVENT_CAPACITY - (start - 1) mod ZT_TRACE_EVENT_CAPACITY) - 1)
      with (0 + ((start - 1) / ZT_TRACE_EVENT_CAPACITY + 1) * ZT_TRACE_EVENT_CAPACITY) by lia.
    by rewrite Z_mod_plus_full. }
  rewrite Hs. destruct (Z.gtb_spec (count - run - Z.min (ZT_TRACE_EVENT_CAPACITY - 0) (count - run)) 0);
    [lia|]. eexists _, _; by split.
Qed.

Lemma refresh_total start count s :
  exists rc s', zt_trace_refresh_event_snapshots R base start count s = (Some rc, s') /\ reads_only s s'.
Proof.
  unfold zt_trace_refresh_event_snapshots. case_match; [by exists 0, s|].
  destruct (read_commit_total start count CommitBefore s) as (rc1 & s1 & -> & H1).
  destruct (Z.eq_dec rc1 0) as [->|Hne];
    [|destruct rc1; [done|..]; eexists _, _; by split].
  destruct (read_event_total start count s1) as (rc2 & s2 & -> & H2).
  assert (H12 : reads_only s s2) by by transitivity s1.
  destruct (Z.eq_dec rc2 0) as [->|Hne];
    [|destruct rc2; [done|..]; eexists _, _; by split].
  destruct (read_commit_total start count CommitAfter s2) as (rc3 & s3 & -> & H3).
  exists rc3, s3. split; [done|]. by transitivity s2.
Qed.

End reads.

(** ** Reading a stopped target's ring *)

(** The reads show the buffer [b] at [base]: what the reader relies on while the
    target does not run. *)
Class Serves (R : remote_t) (base : Z) (b : zt_trace_buffer_t) : Prop := {
  serve_base : 0 < base /\ base + sizeof_zt_trace_buffer_t < 2 ^ 64;
  serve_header t : rm_header R t base = Some (buf_magic b, buf_write_seq b);
  serve_words t idx : Forall (fun i => 0 <= i < ZT_TRACE_EVENT_CAPACITY) idx ->
    rm_words R t (map (fun i => base + offsetof_events + i * sizeof_zt_trace_event_t) idx) =
    Some (map (fun i => ev_committed_seq (arr_get (buf_events b) i)) idx);
  serve_events t i n : 0 <= i -> 0 <= n -> i + n <= ZT_TRACE_EVENT_CAPACITY ->
    rm_events R t (base + offsetof_events + i * sizeof_zt_trace_event_t) n =
    Some (take (Z.to_nat n) (drop (Z.to_nat i) (buf_events b)))
}.

Definition reader_ok (s : reader_t) : Prop :=
  length (g_event_snapshot s) = CAP /\ length (g_commit_before s) = CAP /\
  length (g_commit_after s) = CAP.

(** The slot of a sequence number. *)
Definition slot_of (q : Z) : Z := (q - 1) mod ZT_TRACE_EVENT_CAPACITY.

Lemma slot_of_range q : 0 <= slot_of q < ZT_TRACE_EVENT_CAPACITY.
Proof. by apply Z.mod_pos_bound. Qed.

(** Within a run that stays in the array, slots are consecutive. *)
Lemma slot_of_shift q q' :
  q <= q' -> slot_of q + (q' - q) < ZT_TRACE_EVENT_CAPACITY -> slot_of q' = slot_of q + (q' - q).
Proof.
  intros Hq Hlt. pose proof (slot_of_range q) as Hr. unfold slot_of in *.
  rewrite <- (Z.mod_small ((q - 1) mod _ + (q' - q)) ZT_TRACE_EVENT_CAPACITY) by lia.
  rewrite Zplus_mod_idemp_l. f_equal. lia.
Qed.

Lemma slot_of_u64 q : (q -64 1) mod ZT_TRACE_EVENT_CAPACITY = slot_of q.
Proof. apply slot_mod. Qed.

Lemma slot_addr_bounds base q : 0 < base -> base + sizeof_zt_trace_buffer_t < 2 ^ 64 -> q <> 0 ->
  zt_trace_event_slot_addr base q = base + offsetof_events + slot_of q * sizeof_zt_trace_event_t.
Proof.
  intros H0 Hb Hq. unfold zt_trace_event_slot_addr. destruct (Z.eqb_spec q 0); [done|].
  rewrite slot_of_u64. pose proof (slot_of_range q).
  unfold sizeof_zt_trace_buffer_t, sizeof_zt_trace_event_t, offsetof_events, offsetof_call_actions,
    ZT_PAYLOAD_PROBE_ACTION_CAP, sizeof_zt_probe_call_action_t, ZT_TRACE_EVENT_CAPACITY in *.
  rewrite (u64_small (slot_of q * _)), (u64_small (base + _)), u64_small; unfold is_u64; lia.
Qed.

(** The other arrays are as before. *)
Definition same_but (a : commit_array) (s s' : reader_t) : Prop :=
  reads_only s s' /\ g_event_snapshot s' = g_event_snapshot s /\
  match a with
  | CommitBefore => g_commit_after s' = g_commit_after s
  | CommitAfter => g_commit_before s' = g_commit_before s
  end.

Lemma same_but_refl a s : same_but a s s.
Proof. by destruct a. Qed.

Lemma same_but_set a x s : same_but a s (set_commits a x (rd_tick s)).
Proof. by destruct a. Qed.

Lemma same_but_trans a s1 s2 s3 : same_but a s1 s2 -> same_but a s2 s3 -> same_but a s1 s3.
Proof.
  unfold same_but, reads_only. intros ((H1 & H2) & H3 & H4) ((H5 & H6) & H7 & H8).
  rewrite H5, H6, H7. destruct a; split_and!; congruence.
Qed.

Lemma get_set_commits a x s : get_commits a (set_commits a x s) = x.
Proof. by destruct a. Qed.

Lemma batch_seqs_eq start offset n :
  0 < start -> 0 <= offset -> start + offset + n <= 2 ^ 64 ->
  batch_seqs start offset n = map (fun k => start + offset + Z.of_nat k) (seq 0 (Z.to_nat n)).
Proof.
  intros. unfold batch_seqs. apply map_ext_in. intros k Hk. apply in_seq in Hk.
  rewrite u64_small; [lia|]. unfold is_u64. lia.
Qed.

Section serving.
Context (R : remote_t) (base : Z) (b : zt_trace_buffer_t) `{!Serves R base b}.
Context (Hlen : length (buf_events b) = CAP).

Lemma slot_addr_eq q : q <> 0 ->
  zt_trace_event_slot_addr base q = base + offsetof_events + slot_of q * sizeof_zt_trace_event_t.
Proof. apply slot_addr_bounds; apply (serve_base (R := R) (b := b)). Qed.

(** [agree c]: the array holds the committed_seq of the slot. *)
Definition agree (c : list Z) (i : Z) : Prop := arr_get c i = ev_committed_seq (arr_get (buf_events b) i).

Lemma store_words_agree qs c i :
  length c = CAP -> 0 <= i < ZT_TRACE_EVENT_CAPACITY ->
  let c' := store_words qs (map (fun q => ev_committed_seq (arr_get (buf_events b) (slot_of q))) qs) c in
  length c' = CAP /\ (agree c i -> agree c' i) /\ (i ∈ map slot_of qs -> agree c' i).
Proof.
  unfold store_words. revert c. induction qs as [|q qs IH]; intros c Hc Hi; cbn.
  - split_and!; [done|done|]. by intros ?%not_elem_of_nil.
  - rewrite slot_of_u64.
    set (c1 := arr_set c (slot_of q) (ev_committed_seq (arr_get (buf_events b) (slot_of q)))).
    destruct (IH c1) as (H1 & H2 & H3); [unfold c1; by rewrite length_arr_set|done|].
    assert (Hq : agree c1 (slot_of q)).
    { unfold agree, c1. rewrite arr_get_set_eq; [done|]. rewrite Hc, length_cap. apply slot_of_range. }
    split_and!; [done| |].
    + intros Ha. apply H2. destruct (Z.eq_dec i (slot_of q)) as [->|Hne]; [done|].
      unfold agree, c1. rewrite arr_get_set_ne; [done|apply slot_of_range|lia|done].
    + intros [->|Hin]%elem_of_cons; [by apply H2|by apply H3].
Qed.

Lemma read_commit_serves fuel a start count offset s :
  0 < start -> 0 <= offset -> start + count <= 2 ^ 64 -> count - offset <= 256 * Z.of_nat fuel ->
  length (get_commits a s) = CAP ->
  exists s', read_commit_loop R base (S fuel) a start count offset s = (Some 0, s') /\ same_but a s s' /\
    length (get_commits a s') = CAP /\
    forall i, 0 <= i < ZT_TRACE_EVENT_CAPACITY -> agree (get_commits a s) i \/
        (exists q, start + offset <= q < start + count /\ i = slot_of q) ->
      agree (get_commits a s') i.
Proof.
  revert offset s. induction fuel as [|fuel IH]; intros offset s Hst Hof Hb Hf Hl; cbn [read_commit_loop].
  - destruct (Z.ltb_spec offset count); [lia|]. exists s. split_and!; [done|apply same_but_refl|done|].
    intros i Hi [Ha|(q & ? & _)]; [done|lia].
  - destruct (Z.ltb_spec offset count) as [Hlt|].
    2:{ exists s. split_and!; [done|apply same_but_refl|done|]. intros i Hi [Ha|(q & ? & _)]; [done|lia]. }
    set (n := Z.min (count - offset) ZT_TRACE_READ_IOV_MAX).
    assert (Hn : 0 < n <= 256 /\ n <= count - offset) by (unfold n, ZT_TRACE_READ_IOV_MAX; lia).
    rewrite batch_seqs_eq by lia. set (qs := map _ (seq 0 _)).
    assert (Hqs : forall q, q ∈ qs <-> start + offset <= q < start + offset + n).
    { intros q. unfold qs. rewrite list_elem_of_fmap. setoid_rewrite elem_of_seq. split.
      - intros (k & -> & ?). lia.
      - intros ?. exists (Z.to_nat (q - start - offset)). lia. }
    rewrite (map_ext_in _ (fun q => base + offsetof_events + slot_of q * sizeof_zt_trace_event_t)).
    2:{ intros q Hq%list_elem_of_In%Hqs. apply slot_addr_eq. lia. }
    rewrite <- (map_map slot_of (fun i => base + offsetof_events + i * sizeof_zt_trace_event_t)).
    rewrite serve_words by (apply Forall_forall; intros x (q & -> & _)%list_elem_of_fmap; apply slot_of_range).
    rewrite map_map. cbv zeta.
    set (c1 := store_words _ _ _). set (s1 := set_commits a c1 (rd_tick s)).
    pose proof (fun i => store_words_agree qs (get_commits a s) i Hl) as Hw.
    destruct (IH (offset + ZT_TRACE_READ_IOV_MAX) s1) as (s' & Heq & Hsame & Hl' & Hag);
      [unfold ZT_TRACE_READ_IOV_MAX in *; lia..| |].
    { unfold s1. rewrite get_set_commits. by apply (Hw 0). }
    exists s'. split_and!; [exact Heq|by eapply same_but_trans; [apply same_but_set|]|done|].
    intros i Hi Hor. apply Hag; [done|]. unfold s1. rewrite get_set_commits.
    destruct (Hw i Hi) as (_ & Hkeep & Hnew). destruct Hor as [Ha|(q & Hq & ->)]; [left; by apply Hkeep|].
    destruct (Z.lt_ge_cases q (start + offset + n)).
    + left. apply Hnew, list_elem_of_fmap. exists q. split; [done|]. apply Hqs. lia.
    + right. exists q. unfold n, ZT_TRACE_READ_IOV_MAX in *. split; [lia|done].
Qed.

(** The snapshot of a slot is the buffer's event. *)
Definition ev_agree (l : list zt_trace_event_t) (i : Z) : Prop :=
  arr_get l i = arr_get (buf_events b) i.

Lemma store_events_agree slot n l i :
  length l = CAP -> 0 <= slot -> 0 <= n -> slot + n <= ZT_TRACE_EVENT_CAPACITY ->
  0 <= i < ZT_TRACE_EVENT_CAPACITY ->
  let l' := store_events slot (take (Z.to_nat n) (drop (Z.to_nat slot) (buf_events b))) l in
  length l' = CAP /\ (ev_agree l i -> ev_agree l' i) /\ (slot <= i < slot + n -> ev_agree l' i).
Proof.
  intros Hl Hs Hn Hsn Hi l'. rewrite <- length_cap in *.
  set (evs := take (Z.to_nat n) (drop (Z.to_nat slot) (buf_events b))) in *.
  assert (Hevs : length evs = Z.to_nat n)
    by (unfold evs; rewrite length_take, length_drop, Hlen; lia).
  assert (Hl' : length l' = CAP).
  { unfold l', store_events. rewrite !length_app, length_take, length_drop, Hevs, Hl. lia. }
  assert (Hin : slot <= i < slot + n -> ev_agree l' i).
  { intros Hr. unfold ev_agree, arr_get, l', store_events.
    rewrite !list_lookup_total_alt, lookup_app_r; rewrite length_take, Hl; [|lia].
    rewrite lookup_app_l by lia. unfold evs. rewrite lookup_take_lt, lookup_drop by lia.
    do 2 f_equal. lia. }
  split_and!; [done| |done]. intros Ha.
  destruct (decide (slot <= i < slot + n)) as [Hr|Hr]; [by apply Hin|].
  unfold ev_agree in *. rewrite <- Ha. unfold arr_get, l', store_events.
  rewrite !list_lookup_total_alt. f_equal.
  destruct (Z.lt_ge_cases i slot).
  - rewrite lookup_app_l, lookup_take_lt; [done|lia|rewrite length_take, Hl; lia].
  - rewrite lookup_app_r, lookup_app_r; rewrite length_take, Hl, ?Hevs; [|lia..].
    rewrite lookup_drop. f_equal. lia.
Qed.

Lemma read_event_serves fuel q rem s rc s' :
  0 < q -> q + rem <= 2 ^ 64 -> length (g_event_snapshot s) = CAP ->
  read_event_loop R base fuel q rem s = (Some rc, s') ->
  rc = 0 /\ reads_only s s' /\ g_commit_before s' = g_commit_before s /\
  g_commit_after s' = g_commit_after s /\ length (g_event_snapshot s') = CAP /\
  forall i, 0 <= i < ZT_TRACE_EVENT_CAPACITY -> ev_agree (g_event_snapshot s) i \/
      (exists q', q <= q' < q + rem /\ i = slot_of q') ->
    ev_agree (g_event_snapshot s') i.
Proof.
  revert q rem s. induction fuel as [|fuel IH]; intros q rem s Hq Hb Hl; cbn [read_event_loop]; [done|].
  destruct (Z.gtb_spec rem 0) as [Hr|Hr].
  2:{ intros [= <- <-]. split_and!; try done. intros i Hi [Ha|(q' & ? & _)]; [done|lia]. }
  rewrite slot_of_u64, slot_addr_eq by lia. pose proof (slot_of_range q) as Hslot.
  set (run := Z.min (ZT_TRACE_EVENT_CAPACITY - slot_of q) rem).
  assert (Hrun : 0 < run <= rem /\ slot_of q + run <= ZT_TRACE_EVENT_CAPACITY) by lia.
  rewrite serve_events by lia. cbv zeta. intros Heq.
  pose proof (fun i => store_events_agree (slot_of q) run (g_event_snapshot s) i Hl
    ltac:(lia) ltac:(lia) ltac:(lia)) as Hst.
  set (l1 := store_events _ _ _) in *.
  destruct (Z.eq_dec run rem) as [Hall|Hmore].
  - destruct fuel as [|fuel]; [done|]. cbn [read_event_loop] in Heq.
    destruct (Z.gtb_spec (rem - run) 0); [lia|]. injection Heq as <- <-.
    split_and!; try done; [by apply (Hst 0)|]. intros i Hi Hor. destruct (Hst i Hi) as (_ & Hk & Hn).
    destruct Hor as [Ha|(q' & Hq' & ->)]; [by apply Hk|]. apply Hn.
    rewrite (slot_of_shift q q') by lia. lia.
  - rewrite u64_small in Heq by (unfold is_u64; lia).
    apply IH in Heq as (-> & Hro & Hcb & Hca & Hl' & Hag); [|lia|lia|by apply (Hst 0)].
    split_and!; try done. intros i Hi Hor. apply Hag; [done|]. cbn.
    destruct (Hst i Hi) as (_ & Hk & Hn). destruct Hor as [Ha|(q' & Hq' & ->)]; [left; by apply Hk|].
    destruct (Z.lt_ge_cases q' (q + run)); [|right; exists q'; split; [lia|done]].
    left. apply Hn. rewrite (slot_of_shift q q') by lia. lia.
Qed.

(** After a refresh the three arrays show the buffer, for every number of the range. *)
Lemma refresh_serves start count s :
  0 < start -> 0 < count <= ZT_TRACE_EVENT_CAPACITY -> start + count <= 2 ^ 64 -> reader_ok s ->
  exists s', zt_trace_refresh_event_snapshots R base start count s = (Some 0, s') /\
    reads_only s s' /\ reader_ok s' /\
    forall q, start <= q < start + count -> let i := slot_of q in
      agree (g_commit_before s') i /\ ev_agree (g_event_snapshot s') i /\ agree (g_commit_after s') i.
Proof.
  intros Hst Hc Hb (Hl1 & Hl2 & Hl3). unfold zt_trace_refresh_event_snapshots.
  destruct (Z.eqb_spec count 0); [lia|].
  assert (Hg : (start =? 0) || (count >? ZT_TRACE_EVENT_CAPACITY) = false).
  { destruct (Z.eqb_spec start 0); [lia|]. destruct (Z.gtb_spec count ZT_TRACE_EVENT_CAPACITY); [lia|done]. }
  unfold zt_trace_read_commit_snapshot. rewrite Hg.
  destruct (read_commit_serves 16 CommitBefore start count 0 s) as (s1 & -> & Hs1 & Hb1 & Ha1);
    [unfold ZT_TRACE_EVENT_CAPACITY in *; lia..|done|].
  destruct Hs1 as (Hr1 & Hsn1 & Hca1). cbn [get_commits] in *.
  destruct (read_event_total R base start count s1) as (rc & s2 & Heq & _). rewrite Heq.
  unfold zt_trace_read_event_snapshot in Heq. rewrite Hg in Heq.
  apply read_event_serves in Heq as (-> & Hr2 & Hcb2 & Hca2 & Hl2' & Ha2); [|lia|lia|congruence].
  destruct (read_commit_serves 16 CommitAfter start count 0 s2) as (s3 & -> & Hs3 & Hb3 & Ha3);
    [unfold ZT_TRACE_EVENT_CAPACITY in *; lia..|cbn; congruence|].
  destruct Hs3 as (Hr3 & Hsn3 & Hcb3). cbn [get_commits] in *.
  exists s3. split_and!; [done| |split_and!; congruence|].
  - destruct Hr1 as [? ?], Hr2 as [? ?], Hr3 as [? ?]. split; congruence.
  - intros q Hq. cbv zeta. set (i := slot_of q). pose proof (slot_of_range q : 0 <= i < _) as Hi.
    assert (Hex : exists q', start + 0 <= q' < start + count /\ i = slot_of q') by (exists q; split; [lia|done]).
    split_and!.
    + rewrite Hcb3, Hcb2. apply Ha1; eauto.
    + rewrite Hsn3. apply Ha2; [done|]. right. exists q. split; [lia|done].
    + apply Ha3; eauto.
Qed.
End serving.

(** ** The whole ring *)

(** Dumps events with consecutive numbers, the first being [q]. *)
Fixpoint dump_all sig_formats probes (q : Z) (evs : list zt_trace_event_t) (s : reader_t) : reader_t :=
  match evs with
  | [] => s
  | e :: evs => dump_all sig_formats probes (q + 1) evs (zt_dump_one_trace_event sig_formats probes e q s)
  end.

(** The events of [n] consecutive numbers from [q] on, in the buffer. *)
Definition ring_events (b : zt_trace_buffer_t) (q : Z) (n : nat) : list zt_trace_event_t :=
  map (fun k => arr_get (buf_events b) (slot_of (q + Z.of_nat k))) (seq 0 n).

Lemma ring_events_S b q n :
  ring_events b q (S n) = arr_get (buf_events b) (slot_of q) :: ring_events b (q + 1) n.
Proof.
  unfold ring_events. cbn [seq map]. rewrite Z.add_0_r. f_equal. rewrite <- seq_shift, map_map.
  apply map_ext. intros k. do 2 f_equal. lia.
Qed.

(** Dumping does not touch the snapshots. *)
Lemma dump_one_snapshots sig_formats probes e q s :
  let s' := zt_dump_one_trace_event sig_formats probes e q s in
  g_event_snapshot s' = g_event_snapshot s /\ g_commit_before s' = g_commit_before s /\
  g_commit_after s' = g_commit_after s.
Proof. unfold zt_dump_one_trace_event, dump_formatted. repeat case_match; done. Qed.

Lemma dump_loop_ready R sig_formats probes base b n fuel q w last s :
  (n < fuel)%nat -> w = q + Z.of_nat n - 1 -> 0 < q -> w < 2 ^ 64 - 1 -> last = q - 1 ->
  (forall q', q <= q' <= w -> let i := slot_of q' in
    agree b (g_commit_before s) i /\ ev_agree b (g_event_snapshot s) i /\ agree b (g_commit_after s) i /\
    ev_committed_seq (arr_get (buf_events b) i) = q') ->
  dump_loop R sig_formats probes base fuel q w last s =
    (Some (0, w), dump_all sig_formats probes q (ring_events b q n) s).
Proof.
  revert fuel q last s. induction n as [|n IH]; intros fuel q last s Hf Hw Hq Hb Hlast Hready.
  - destruct fuel as [|fuel]; [lia|]. cbn [dump_loop]. destruct (Z.leb_spec q w); [lia|].
    cbn. do 3 f_equal. lia.
  - destruct fuel as [|fuel]; [lia|]. cbn [dump_loop]. destruct (Z.leb_spec q w); [|lia].
    destruct (Hready q ltac:(lia)) as (H1 & H2 & H3 & H4).
    assert (Hs : zt_trace_snapshot_slot q s = (ZT_TRACE_SLOT_READY, arr_get (buf_events b) (slot_of q))).
    { unfold zt_trace_snapshot_slot. destruct (Z.eqb_spec q 0); [lia|]. rewrite slot_of_u64.
      unfold agree, ev_agree in *. rewrite H1, H2, H3, H4, Z.eqb_refl. done. }
    rewrite Hs, ring_events_S, u64_small by (unfold is_u64; lia). cbn [dump_all].
    apply IH; [lia|lia|lia|lia|lia|]. intros q' Hq'.
    destruct (dump_one_snapshots sig_formats probes (arr_get (buf_events b) (slot_of q)) q s) as (-> & -> & ->).
    apply Hready. lia.
Qed.

(** The events of the ring's window are the log's last records. *)
Lemma ring_events_log b log k :
  ring_rep b log -> Z.of_nat (length log) < 2 ^ 64 -> (k <= length log)%nat -> (length log <= k + CAP)%nat ->
  map ev_view (ring_events b (Z.of_nat k + 1) (length log - k)) = map Some (drop k log) /\
  forall q, Z.of_nat k + 1 <= q <= Z.of_nat (length log) ->
    ev_committed_seq (arr_get (buf_events b) (slot_of q)) = q.
Proof.
  intros Hrep Hmax Hk Hwin.
  assert (Hslot : forall j r, log !! j = Some r -> (k <= j)%nat ->
    ev_view (arr_get (buf_events b) (slot_of (Z.of_nat j + 1))) = Some r /\
    ev_committed_seq (arr_get (buf_events b) (slot_of (Z.of_nat j + 1))) = Z.of_nat j + 1).
  { intros j r Hj Hkj. destruct (rep_slots _ _ Hrep j r Hj) as (e & He & Hc & Hv); [lia|].
    apply lookup_lt_Some in Hj. rewrite u64_small in Hc by (unfold is_u64; lia).
    assert (Hi : Z.to_nat (slot_of (Z.of_nat j + 1)) = (j mod CAP)%nat).
    { unfold slot_of. replace (Z.of_nat j + 1 - 1) with (Z.of_nat j) by lia.
      rewrite <- slot_mod. apply slot_index. }
    unfold arr_get. rewrite Hi, (list_lookup_total_correct _ _ _ He). done. }
  split.
  - apply list_eq. intros i. unfold ring_events.
    rewrite map_map, !list_lookup_fmap, lookup_drop.
    destruct (log !! (k + i)%nat) as [r|] eqn:Hl.
    + apply lookup_lt_Some in Hl as Hlt. rewrite lookup_seq_lt by lia. cbn.
      destruct (Hslot _ _ Hl ltac:(lia)) as [Hv _]. rewrite <- Hv. do 3 f_equal. f_equal. lia.
    + apply lookup_ge_None in Hl. rewrite lookup_seq_ge by lia. done.
  - intros q Hq. destruct (lookup_lt_is_Some_2 log (Z.to_nat (q - 1)) ltac:(lia)) as [r Hr].
    destruct (Hslot _ _ Hr ltac:(lia)) as [_ Hc].
    replace (Z.of_nat (Z.to_nat (q - 1)) + 1) with q in Hc by lia. done.
Qed.

(** C20: a poll while the target is stopped reads the payload's log back.  If the
    ring represents a log of [N] records of which the reader has dumped the first
    [last], the poll succeeds, moves the cursor to [N], reports as lost exactly
    the records that left the window of 4096, and dumps the others in order, each
    event carrying the record the payload logged. *)
Theorem zt_dump_trace_events_since_complete R sig_formats probes base b log fuel last s :
  Serves R base b -> ring_rep b log -> reader_ok s ->
  let N := Z.of_nat (length log) in
  N < 2 ^ 64 - 1 -> 0 <= last <= N -> (CAP < fuel)%nat ->
  let k := Z.max last (N - ZT_TRACE_EVENT_CAPACITY) in
  exists evs s0,
    zt_dump_trace_events_since R sig_formats probes base fuel last s =
      (Some (0, N), dump_all sig_formats probes (k + 1) evs s0) /\
    map ev_view evs = map Some (drop (Z.to_nat k) log) /\
    g_entry_cache s0 = g_entry_cache s /\
    rd_out s0 = rd_out s ++ (if last <? k then [OLost (last + 1) (k - last) N] else []).
Proof.
  intros Hserve Hrep Hok N Hmax Hlast Hfuel k. pose proof length_cap as Hcap.
  destruct (ring_events_log b log (Z.to_nat k) Hrep) as [Hview Hseq]; [lia..|].
  replace (Z.of_nat (Z.to_nat k)) with k in * by lia.
  unfold zt_dump_trace_events_since, zt_trace_read_buffer_header.
  destruct (Z.eqb_spec base 0) as [H0|_]; [destruct (serve_base (R := R) (base := base) (b := b)); lia|].
  rewrite serve_header, (rep_magic _ _ Hrep), Z.eqb_refl, (rep_write_seq _ _ Hrep).
  rewrite (u64_small (Z.of_nat (length log))) by (unfold is_u64; lia). fold N. cbn [negb].
  destruct ((N =? 0) || (N <=? last)) eqn:Hg.
  { assert (Hn : N = last) by (destruct (Z.eqb_spec N 0), (Z.leb_spec N last); try done; lia).
    exists [], (rd_tick s). destruct (Z.ltb_spec last k); [lia|].
    rewrite drop_ge by lia. rewrite app_nil_r. split_and!; try done. by rewrite Hn. }
  zbool. rewrite (u64_small (last + 1)) by (unfold is_u64; lia).
  assert (Hkn : k < N) by (unfold k, ZT_TRACE_EVENT_CAPACITY; lia).
  set (s1 := if last <? k then rd_print (OLost (last + 1) (k - last) N) (rd_tick s) else rd_tick s).
  assert (Hpre : (if N - last >? ZT_TRACE_EVENT_CAPACITY
    then (N - ZT_TRACE_EVENT_CAPACITY + 1, N - ZT_TRACE_EVENT_CAPACITY + 1 - 1,
          zt_trace_log_lost_events (last + 1) (N - ZT_TRACE_EVENT_CAPACITY + 1 - (last + 1)) N (rd_tick s))
    else (last + 1, last, rd_tick s)) = (k + 1, k, s1)).
  { unfold s1, zt_trace_log_lost_events. destruct (Z.gtb_spec (N - last) ZT_TRACE_EVENT_CAPACITY).
    - replace (N - ZT_TRACE_EVENT_CAPACITY + 1 - (last + 1)) with (k - last) by lia.
      destruct (Z.eqb_spec (k - last) 0), (Z.ltb_spec last k); try lia. f_equal; f_equal; lia.
    - destruct (Z.ltb_spec last k); [lia|]. f_equal. f_equal; lia. }
  rewrite Hpre. clear Hpre.
  destruct (refresh_serves R base b (rep_length _ _ Hrep) (k + 1) (N - (k + 1) + 1) s1)
    as (s2 & -> & Hro & Hok2 & Hag); [lia|lia|lia|unfold s1; by destruct (last <? k)|].
  rewrite (dump_loop_ready R sig_formats probes base b (length log - Z.to_nat k)); [|lia..|].
  - eexists _, s2. split_and!; [done|done| |].
    + destruct Hro as [_ ->]. unfold s1. by destruct (last <? k).
    + destruct Hro as [-> _]. unfold s1. destruct (last <? k); [done|]. by rewrite app_nil_r.
  - intros q Hq i. destruct (Hag q ltac:(lia)) as (? & ? & ?). split_and!; try done. apply Hseq. lia.
Qed.

(** The reads of a stopped target whose buffer is [b]. *)
Definition still_index (base addr : Z) : Z := (addr - base - offsetof_events) / sizeof_zt_trace_event_t.

Definition still (base : Z) (b : zt_trace_buffer_t) : remote_t :=
  mk_remote
    (fun _ a => if a =? base then Some (buf_magic b, buf_write_seq b) else None)
    (fun _ addrs => Some (map (fun a => ev_committed_seq (arr_get (buf_events b) (still_index base a))) addrs))
    (fun _ a n => Some (take (Z.to_nat n) (drop (Z.to_nat (still_index base a)) (buf_events b)))).

Lemma still_index_addr base i :
  still_index base (base + offsetof_events + i * sizeof_zt_trace_event_t) = i.
Proof.
  unfold still_index.
  replace (base + offsetof_events + i * sizeof_zt_trace_event_t - base - offsetof_events)
    with (i * sizeof_zt_trace_event_t) by lia.
  by apply Z.div_mul.
Qed.

Lemma still_serves base b :
  0 < base -> base + sizeof_zt_trace_buffer_t < 2 ^ 64 -> Serves (still base b) base b.
Proof.
  intros. split; [done|..]; intros; cbn.
  - by rewrite Z.eqb_refl.
  - rewrite map_map. f_equal. apply map_ext. intros. by rewrite still_index_addr.
  - by rewrite still_index_addr.
Qed.

(** ** Entries and returns *)

Section pairing.
Context (sig_formats : zt_probe_info_t -> option zt_trace_event_t -> zt_trace_event_t -> bool).
Context (probes : list zt_probe_info_t).

(** The entry event does not satisfy its probe's condition. *)
Definition filtered_out (e : zt_trace_event_t) : bool :=
  truthy (zt_trace_event_is_suppressed (zt_probe_find_by_id probes (ev_probe_id e)) e).

Definition cache_index (e : zt_trace_event_t) : Z := ev_call_id e mod ZT_TRACE_EVENT_CAPACITY.

(** The event leaves the cache slot of a call id alone. *)
Definition keeps_slot (i : Z) (e : zt_trace_event_t) : Prop :=
  ev_event_type e = ZT_TRACE_EVENT_CALL \/ cache_index e <> i.

Lemma dump_formatted_cache probe m e q s :
  g_entry_cache (dump_formatted sig_formats probe m e q s) = g_entry_cache s.
Proof. unfold dump_formatted. repeat case_match; done. Qed.

Lemma cache_index_range e : 0 <= cache_index e < ZT_TRACE_EVENT_CAPACITY.
Proof. by apply Z.mod_pos_bound. Qed.

Lemma dump_one_keeps i e q s :
  0 <= i -> keeps_slot i e ->
  let s' := zt_dump_one_trace_event sig_formats probes e q s in
  length (g_entry_cache s') = length (g_entry_cache s) /\
  arr_get (g_entry_cache s') i = arr_get (g_entry_cache s) i.
Proof.
  intros Hi Hk. unfold zt_dump_one_trace_event. fold (cache_index e). pose proof (cache_index_range e).
  destruct (Z.eqb_spec (ev_event_type e) ZT_TRACE_EVENT_CALL) as [|Hc]; [done|].
  destruct Hk as [?|Hk]; [done|].
  repeat case_match; rewrite ?dump_formatted_cache; cbn; rewrite ?length_arr_set, ?arr_get_set_ne by lia; done.
Qed.

Lemma dump_all_keeps i evs q s :
  0 <= i -> Forall (keeps_slot i) evs ->
  let s' := dump_all sig_formats probes q evs s in
  length (g_entry_cache s') = length (g_entry_cache s) /\
  arr_get (g_entry_cache s') i = arr_get (g_entry_cache s) i.
Proof.
  intros Hi H. revert q s. induction H as [|e evs He _ IH]; intros q s; cbn [dump_all]; [done|].
  destruct (IH (q + 1) (zt_dump_one_trace_event sig_formats probes e q s)) as [-> ->].
  by apply dump_one_keeps.
Qed.

Lemma dump_entry_cache e q s :
  ev_event_type e = ZT_TRACE_EVENT_ENTRY -> ev_call_id e <> 0 -> length (g_entry_cache s) = CAP ->
  let s' := zt_dump_one_trace_event sig_formats probes e q s in
  length (g_entry_cache s') = CAP /\
  arr_get (g_entry_cache s') (cache_index e) = mk_entry_slot (ev_call_id e) e
    (zt_trace_event_is_suppressed (zt_probe_find_by_id probes (ev_probe_id e)) e) /\
  rd_out s' = rd_out s ++
    if filtered_out e then [] else
      [if match zt_probe_find_by_id probes (ev_probe_id e) with Some p => sig_formats p None e | None => false end
       then OSig e None else OEntry e].
Proof.
  intros Ht Hid Hlen. unfold zt_dump_one_trace_event, filtered_out. fold (cache_index e).
  pose proof (cache_index_range e) as Hr. rewrite <- length_cap, <- Hlen in Hr.
  rewrite Ht. destruct (Z.eqb_spec (ev_call_id e) 0); [done|]. cbn [Z.eqb ZT_TRACE_EVENT_CALL andb negb ZT_TRACE_EVENT_ENTRY].
  destruct (truthy _).
  - cbn. rewrite length_arr_set, arr_get_set_eq, app_nil_r by done. done.
  - rewrite dump_formatted_cache. cbn. rewrite length_arr_set, arr_get_set_eq by done.
    split_and!; [done|done|]. unfold dump_formatted. rewrite Ht.
    destruct (zt_probe_find_by_id _ _) as [p|]; [by destruct (sig_formats p None e)|done].
Qed.

(** C21: a probe's condition decides entry and return together.  After the entry of
    a call was dumped, and as long as no entry or return of another call with the
    same cache slot (call ids 4096 apart) comes in between, the return event of
    the call is printed exactly when the entry was, and then, with a configured
    signature, formatted together with that entry. *)
Theorem zt_dump_entry_return_pairing entry mid ret q q' s :
  ev_event_type entry = ZT_TRACE_EVENT_ENTRY -> ev_event_type ret = ZT_TRACE_EVENT_RETURN ->
  ev_call_id entry <> 0 -> ev_call_id ret = ev_call_id entry ->
  Forall (keeps_slot (cache_index entry)) mid -> length (g_entry_cache s) = CAP ->
  let s1 := zt_dump_one_trace_event sig_formats probes entry q s in
  let s2 := dump_all sig_formats probes (q + 1) mid s1 in
  let s3 := zt_dump_one_trace_event sig_formats probes ret q' s2 in
  let probe := zt_probe_find_by_id probes (ev_probe_id ret) in
  (rd_out s1 = rd_out s <-> filtered_out entry = true) /\
  rd_out s3 = rd_out s2 ++
    if filtered_out entry then [] else
      [if match probe with Some p => sig_formats p (Some entry) ret | None => false end
       then OSig ret (Some entry) else OReturn ret].
Proof.
  intros Hte Htr Hid Hids Hmid Hlen s1 s2 s3 probe.
  destruct (dump_entry_cache entry q s Hte Hid Hlen) as (Hl1 & Hc1 & Ho1). fold s1 in Hl1, Hc1, Ho1.
  pose proof (cache_index_range entry) as Hr.
  destruct (dump_all_keeps (cache_index entry) mid (q + 1) s1) as [_ Hc2]; [lia|done|].
  fold s2 in Hc2. rewrite Hc1 in Hc2. split.
  - rewrite Ho1. destruct (filtered_out entry); [by rewrite app_nil_r|]. split; [|done].
    intros H. apply (f_equal length) in H. rewrite length_app in H. cbn in H. lia.
  - unfold s3, zt_dump_one_trace_event. rewrite Htr, Hids. fold (cache_index entry).
    destruct (Z.eqb_spec (ev_call_id entry) 0); [done|]. cbn [Z.eqb ZT_TRACE_EVENT_CALL andb negb
      ZT_TRACE_EVENT_ENTRY ZT_TRACE_EVENT_RETURN Pos.eqb].
    rewrite Hc2. cbn [ecs_call_id ecs_suppressed ecs_event]. rewrite Z.eqb_refl. unfold filtered_out.
    destruct (truthy _); [cbn; by rewrite app_nil_r|].
    unfold dump_formatted. rewrite Htr. fold probe.
    destruct probe as [p|]; [by destruct (sig_formats p (Some entry) ret)|done].
Qed.
End pairing.

(** ** Witnesses *)

Definition no_sig (p : zt_probe_info_t) (m : option zt_trace_event_t) (e : zt_trace_event_t) : bool := false.

(** A probe with the condition `arg0 > 1`. *)
Definition sample_probe : zt_probe_info_t :=
  mk_probe 1 zero_target 0 0 [] 0 ZT_PROBE_INSTALLED
    (snd (zt_probe_filter_compile (Some (lit "arg0 > 1")) zero_filter)) zero_call_action 0 [].

Definition sample_event (type call_id : Z) (args : list Z) : zt_trace_event_t :=
  mk_event 0 1 type call_id 0 0 0 args (replicate 8 0).

(** C20 at a ring with one entry event. *)
Lemma zt_dump_trace_events_since_complete_witness :
  let e := sample_event ZT_TRACE_EVENT_ENTRY 7 [0; 1; 2; 3; 4; 5] in
  let b := pushed (mk_buffer ZT_TRACE_BUFFER_MAGIC 0 0 [] (buf_events zero_buffer)) e in
  exists evs s0, zt_dump_trace_events_since (still 65536 b) no_sig [] 65536 5000 0 zero_reader =
      (Some (0, 1), dump_all no_sig [] 1 evs s0) /\ map ev_view evs = [ev_view e] /\ rd_out s0 = [].
Proof.
  intros e b.
  destruct (zt_dump_trace_events_since_complete (still 65536 b) no_sig [] 65536 b
    [REntry (ev_header e) [0; 1; 2; 3; 4; 5] (replicate 8 0)] 5000 0 zero_reader)
    as (evs & s0 & H1 & H2 & _ & H4).
  - apply still_serves; reflexivity.
  - apply (ring_rep_push _ [] e); [apply initial_rep; reflexivity|split; reflexivity|reflexivity].
  - split; [|split]; reflexivity.
  - reflexivity.
  - split; discriminate.
  - apply Nat.ltb_lt. vm_compute. reflexivity.
  - exists evs, s0. split; [exact H1|]. split; [exact H2|exact H4].
Defined.

(** C21 at a call with argument 0, which the condition filters out: neither its
    entry nor its return is printed. *)
Lemma zt_dump_entry_return_pairing_witness :
  let entry := sample_event ZT_TRACE_EVENT_ENTRY 7 [0; 0; 0; 0; 0; 0] in
  let ret := sample_event ZT_TRACE_EVENT_RETURN 7 [5; 0; 0; 0; 0; 0] in
  let s1 := zt_dump_one_trace_event no_sig [sample_probe] entry 1 zero_reader in
  rd_out (zt_dump_one_trace_event no_sig [sample_probe] ret 2 s1) = [].
Proof.
  intros entry ret s1.
  destruct (zt_dump_entry_return_pairing no_sig [sample_probe] entry [] ret 1 2 zero_reader) as [H1 H2].
  - reflexivity.
  - reflexivity.
  - discriminate.
  - reflexivity.
  - constructor.
  - reflexivity.
  - assert (Hf : filtered_out [sample_probe] entry = true) by (vm_compute; reflexivity).
    rewrite Hf in H2. fold s1 in H1, H2. cbn [dump_all] in H2. rewrite H2.
    rewrite app_nil_r. apply H1. exact Hf.
Defined.
