(* ===== verification/ReaderAccount.v ===== *)
(** * What a poll of a running target prints

    The account of a poll (zt_dump_trace_events_since): every sequence number
    between the old and the new cursor is either in a loss marker, justified by a
    write position the reader saw, or its event was read stable and produced
    exactly the lines its kind, its probe's condition and the entry cache
    prescribe.  The specification of those lines is a relation of its own. *)

From S2P Require Import Prelude CLib Types Filter Payload Ring Reader ReaderSpec.

(** ** The lines an event produces *)

Section lines.
Context (sig_formats : zt_probe_info_t -> option zt_trace_event_t -> zt_trace_event_t -> bool).
Context (probes : list zt_probe_info_t).

(** The probe an event belongs to: the first one of the table with its id. *)
Definition probe_of (e : zt_trace_event_t) (p : zt_probe_info_t) : Prop :=
  exists i, probes !! i = Some p /\ pr_probe_id p = ev_probe_id e /\ ev_probe_id e <> 0 /\
    forall j p', (j < i)%nat -> probes !! j = Some p' -> pr_probe_id p' <> ev_probe_id e.

(** The entry's probe has a condition and the entry does not satisfy it. *)
Definition hidden (e : zt_trace_event_t) : Prop :=
  exists p, probe_of e p /\ flt_enabled (pr_filter p) <> 0 /\
    zt_probe_filter_eval (Some (pr_filter p)) (Some e) = 0.

(** The line of an event that is shown: the signature's text if the function has
    one, given the entry [m] the reader remembers, and otherwise the line of its
    kind. *)
Inductive shown (m : option zt_trace_event_t) (q : Z) (e : zt_trace_event_t) : out_line -> Prop :=
| shown_sig p : probe_of e p -> sig_formats p m e = true -> shown m q e (OSig e m)
| shown_raw : (forall p, probe_of e p -> sig_formats p m e = false) ->
    shown m q e (if decide (ev_event_type e = ZT_TRACE_EVENT_ENTRY) then OEntry e
                 else if decide (ev_event_type e = ZT_TRACE_EVENT_RETURN) then OReturn e
                 else OEvent e q).

(** What the reader remembers of entries: per call id modulo the capacity, the
    last entry, and whether its condition hid it. *)
Abbreviation memo := (list zt_entry_cache_slot_t).

Definition memo_slot (e : zt_trace_event_t) : nat := Z.to_nat (ev_call_id e mod ZT_TRACE_EVENT_CAPACITY).

Definition remembers (c : memo) (e entry : zt_trace_event_t) (hid : Z) : Prop :=
  c !! memo_slot e = Some (mk_entry_slot (ev_call_id e) entry hid).

(** [event_lines c q e ls c']: with the memory [c], the event [e] under number [q]
    produces the lines [ls] and leaves the memory [c']. *)
Inductive event_lines (c : memo) (q : Z) (e : zt_trace_event_t) : list out_line -> memo -> Prop :=
| el_call : ev_event_type e = ZT_TRACE_EVENT_CALL -> event_lines c q e [OCall e] c
| el_entry_hidden : ev_event_type e = ZT_TRACE_EVENT_ENTRY -> ev_call_id e <> 0 -> hidden e ->
    event_lines c q e [] (<[memo_slot e := mk_entry_slot (ev_call_id e) e 1]> c)
| el_entry l : ev_event_type e = ZT_TRACE_EVENT_ENTRY -> ev_call_id e <> 0 -> ~ hidden e ->
    shown None q e l ->
    event_lines c q e [l] (<[memo_slot e := mk_entry_slot (ev_call_id e) e 0]> c)
| el_return_hidden entry hid : ev_event_type e = ZT_TRACE_EVENT_RETURN -> ev_call_id e <> 0 ->
    remembers c e entry hid -> hid <> 0 ->
    event_lines c q e [] (<[memo_slot e := mk_entry_slot 0 entry 0]> c)
| el_return entry l : ev_event_type e = ZT_TRACE_EVENT_RETURN -> ev_call_id e <> 0 ->
    remembers c e entry 0 -> shown (Some entry) q e l ->
    event_lines c q e [l] (<[memo_slot e := mk_entry_slot 0 entry 0]> c)
| el_return_alone l : ev_event_type e = ZT_TRACE_EVENT_RETURN -> ev_call_id e <> 0 ->
    (forall entry hid, ~ remembers c e entry hid) -> shown None q e l -> event_lines c q e [l] c
| el_plain l : ev_event_type e <> ZT_TRACE_EVENT_CALL ->
    ev_call_id e = 0 \/ (ev_event_type e <> ZT_TRACE_EVENT_ENTRY /\ ev_event_type e <> ZT_TRACE_EVENT_RETURN) ->
    shown None q e l -> event_lines c q e [l] c.

Lemma probe_of_find e p : zt_probe_find_by_id probes (ev_probe_id e) = Some p <-> probe_of e p.
Proof.
  unfold zt_probe_find_by_id, probe_of. destruct (Z.eqb_spec (ev_probe_id e) 0) as [H0|H0].
  { split; [done|]. by intros (i & _ & _ & ? & _). }
  induction probes as [|x xs IH]; cbn [List.find].
  { split; [done|]. intros (i & ? & _). done. }
  destruct (Z.eqb_spec (pr_probe_id x) (ev_probe_id e)) as [He|He].
  - split.
    + intros [= <-]. exists 0%nat. split_and!; try done. intros; lia.
    + intros ([|i] & Hi & Hp & _ & Hmin); [done|]. by destruct (Hmin 0%nat x ltac:(lia) eq_refl).
  - rewrite IH. split.
    + intros (i & Hi & Hp & _ & Hmin). exists (S i). split_and!; try done.
      intros [|j] p' Hj; cbn; [by intros [= <-]|]. apply Hmin. lia.
    + intros ([|i] & Hi & Hp & _ & Hmin); [by injection Hi as ->|]. exists i. split_and!; try done.
      intros j p' Hj. apply (Hmin (S j)). lia.
Qed.

Lemma suppressed_hidden e :
  ev_event_type e = ZT_TRACE_EVENT_ENTRY ->
  let v := zt_trace_event_is_suppressed (zt_probe_find_by_id probes (ev_probe_id e)) e in
  (v = 1 /\ hidden e) \/ (v = 0 /\ ~ hidden e).
Proof.
  intros Ht v. unfold v, zt_trace_event_is_suppressed, hidden.
  destruct (zt_probe_find_by_id _ _) as [p|] eqn:Hp.
  - rewrite Ht. cbn [Z.eqb ZT_TRACE_EVENT_ENTRY negb Pos.eqb]. apply probe_of_find in Hp as Hof.
    assert (Huniq : forall p', probe_of e p' -> p' = p) by (intros p' ?%probe_of_find; congruence).
    unfold truthy. destruct (Z.eqb_spec (flt_enabled (pr_filter p)) 0) as [Hen|Hen]; cbn [negb].
    + right. split; [done|]. by intros (p' & ->%Huniq & ? & _).
    + destruct (Z.eqb_spec (zt_probe_filter_eval (Some (pr_filter p)) (Some e)) 0) as [Hv|Hv]; cbn.
      * left. eauto 10.
      * right. split; [done|]. by intros (p' & ->%Huniq & _ & ?).
  - right. split; [done|]. intros (p & Hof%probe_of_find & _). congruence.
Qed.

Lemma dump_formatted_shown m e q s :
  exists l, dump_formatted sig_formats (zt_probe_find_by_id probes (ev_probe_id e)) m e q s = rd_print l s /\
    shown m q e l.
Proof.
  assert (Hraw : (forall p, probe_of e p -> sig_formats p m e = false) ->
    exists l, (if ev_event_type e =? ZT_TRACE_EVENT_ENTRY then rd_print (OEntry e) s
      else if ev_event_type e =? ZT_TRACE_EVENT_RETURN then rd_print (OReturn e) s
      else rd_print (OEvent e q) s) = rd_print l s /\ shown m q e l).
  { intros Hno. eexists. split; [|by apply shown_raw].
    destruct (Z.eqb_spec (ev_event_type e) ZT_TRACE_EVENT_ENTRY); [by rewrite decide_True|].
    rewrite decide_False by done.
    destruct (Z.eqb_spec (ev_event_type e) ZT_TRACE_EVENT_RETURN); [by rewrite decide_True|].
    by rewrite decide_False. }
  unfold dump_formatted. destruct (zt_probe_find_by_id _ _) as [p|] eqn:Hp.
  - apply probe_of_find in Hp as Hof. destruct (sig_formats p m e) eqn:Hs.
    { eexists. split; [done|]. by eapply shown_sig. }
    apply Hraw. intros p' ?%probe_of_find. congruence.
  - apply Hraw. intros p' ?%probe_of_find. congruence.
Qed.

(** Dumping an event prints its lines. *)
Lemma dump_one_lines e q s :
  length (g_entry_cache s) = CAP ->
  let s' := zt_dump_one_trace_event sig_formats probes e q s in
  exists ls, rd_out s' = rd_out s ++ ls /\ event_lines (g_entry_cache s) q e ls (g_entry_cache s').
Proof.
  intros Hlen s'. unfold s', zt_dump_one_trace_event, arr_set, arr_get. fold (memo_slot e).
  assert (Hslot : (memo_slot e < length (g_entry_cache s))%nat).
  { rewrite Hlen. unfold memo_slot. pose proof length_cap.
    pose proof (Z.mod_pos_bound (ev_call_id e) ZT_TRACE_EVENT_CAPACITY ltac:(done)). lia. }
  destruct (Z.eqb_spec (ev_event_type e) ZT_TRACE_EVENT_CALL) as [Hc|Hc].
  { exists [OCall e]. split; [done|by apply el_call]. }
  destruct (Z.eqb_spec (ev_event_type e) ZT_TRACE_EVENT_ENTRY) as [He|He];
    destruct (Z.eqb_spec (ev_call_id e) 0) as [H0|H0]; cbn [andb negb].
  2:{ destruct (suppressed_hidden e He) as [[-> Hh]|[-> Hh]]; cbn [truthy Z.eqb negb].
      - exists []. cbn. rewrite app_nil_r. split; [done|by apply el_entry_hidden].
      - destruct (dump_formatted_shown None e q (rd_set_cache
          (<[memo_slot e:=mk_entry_slot (ev_call_id e) e 0]> (g_entry_cache s)) s)) as (l & -> & Hl).
        exists [l]. split; [done|by apply el_entry]. }
  3:{ destruct (Z.eqb_spec (ev_event_type e) ZT_TRACE_EVENT_RETURN) as [Hr|Hr]; cbn [andb].
      2:{ destruct (dump_formatted_shown None e q s) as (l & -> & Hl). exists [l].
          split; [done|apply el_plain; auto]. }
      destruct (lookup_lt_is_Some_2 _ _ Hslot) as [[id ent hid] Hsl].
      rewrite (list_lookup_total_correct _ _ _ Hsl). cbn [ecs_call_id ecs_event ecs_suppressed].
      destruct (Z.eqb_spec id (ev_call_id e)) as [->|Hid].
      - unfold truthy. destruct (Z.eqb_spec hid 0) as [->|Hh]; cbn [negb].
        + match goal with |- context [dump_formatted _ _ (Some ent) e q ?x] =>
            destruct (dump_formatted_shown (Some ent) e q x) as (l & -> & Hl) end.
          exists [l]. split; [done|by apply el_return].
        + exists []. cbn. rewrite app_nil_r. split; [done|by eapply el_return_hidden].
      - destruct (dump_formatted_shown None e q s) as (l & -> & Hl). exists [l].
        split; [done|apply el_return_alone; try done]. unfold remembers.
        cbn [g_entry_cache rd_print]. intros ? ? Hrm. rewrite Hsl in Hrm. by injection Hrm. }
  all: rewrite ?andb_false_r; destruct (dump_formatted_shown None e q s) as (l & -> & Hl);
    exists [l]; split; [done|apply el_plain; auto].
Qed.
End lines.

(** ** Stable reads *)

(** A read of the target's memory that succeeds is whole. *)
Class WholeReads (R : remote_t) : Prop := {
  whole_words t addrs ws : rm_words R t addrs = Some ws -> length ws = length addrs;
  whole_events t a n evs : rm_events R t a n = Some evs -> length evs = Z.to_nat n
}.

Section stable.
Context (R : remote_t) (base : Z) `{!WholeReads R}.
Context (Hbase : 0 < base) (Hend : base + sizeof_zt_trace_buffer_t < 2 ^ 64).

Definition slot_address (i : Z) : Z := base + offsetof_events + i * sizeof_zt_trace_event_t.

(** Read number [t] returned the word [w] for address [a], or the event [e]. *)
Definition word_at (t : nat) (a w : Z) : Prop :=
  exists addrs ws k, rm_words R t addrs = Some ws /\ addrs !! k = Some a /\ ws !! k = Some w.

Definition event_at (t : nat) (a : Z) (e : zt_trace_event_t) : Prop :=
  exists a0 n evs k, rm_events R t a0 n = Some evs /\ evs !! k = Some e /\
    a = a0 + Z.of_nat k * sizeof_zt_trace_event_t.

(** The event of number [q] was read with its stamp in it, between two reads of the
    stamp. *)
Definition stable (q : Z) (e : zt_trace_event_t) : Prop :=
  exists t1 t2 t3, (t1 < t2 < t3)%nat /\ ev_committed_seq e = q /\
    word_at t1 (slot_address (slot_of q)) q /\ event_at t2 (slot_address (slot_of q)) e /\
    word_at t3 (slot_address (slot_of q)) q.

(** One of the reads of number [q]'s slot showed another stamp. *)
Definition unstable (q : Z) : Prop :=
  exists t x, x <> q /\ (word_at t (slot_address (slot_of q)) x \/
    exists e, event_at t (slot_address (slot_of q)) e /\ ev_committed_seq e = x).

(** A read failed. *)
Definition read_failed : Prop :=
  exists t, rm_header R t base = None \/ (exists addrs, rm_words R t addrs = None) \/
    (exists a n, rm_events R t a n = None).

Definition word_seen (T T' : nat) (i w : Z) : Prop :=
  exists t, (T <= t < T')%nat /\ word_at t (slot_address i) w.

Definition event_seen (T T' : nat) (i : Z) (e : zt_trace_event_t) : Prop :=
  exists t, (T <= t < T')%nat /\ event_at t (slot_address i) e.

Lemma word_seen_mono T T1 T2 i w : (T1 <= T2)%nat -> word_seen T T1 i w -> word_seen T T2 i w.
Proof. intros ? (t & ? & ?). exists t. split; [lia|done]. Qed.

Lemma event_seen_mono T T1 T2 i e : (T1 <= T2)%nat -> event_seen T T1 i e -> event_seen T T2 i e.
Proof. intros ? (t & ? & ?). exists t. split; [lia|done]. Qed.

(** Storing a batch: a slot of the batch gets one of its words, another one keeps
    its word. *)
Lemma store_words_get qs ws c i :
  length ws = length qs -> length c = CAP -> 0 <= i < ZT_TRACE_EVENT_CAPACITY ->
  length (store_words qs ws c) = CAP /\
  ((exists k q, qs !! k = Some q /\ i = slot_of q /\ ws !! k = Some (arr_get (store_words qs ws c) i)) \/
   ((forall q, q ∈ qs -> i <> slot_of q) /\ arr_get (store_words qs ws c) i = arr_get c i)).
Proof.
  unfold store_words. revert ws c. induction qs as [|q qs IH]; intros [|w ws] c Hl Hc Hi; try done; cbn.
  { split; [done|]. right. split; [|done]. by intros q ?%not_elem_of_nil. }
  rewrite slot_of_u64. set (c1 := arr_set c (slot_of q) w).
  destruct (IH ws c1) as (H1 & H2); [by injection Hl|unfold c1; by rewrite length_arr_set|done|].
  split; [done|]. destruct H2 as [(k & q' & Hk & Hi' & Hw)|[Hno Hw]].
  { left. by exists (S k), q'. }
  destruct (Z.eq_dec i (slot_of q)) as [->|Hne].
  - left. exists 0%nat, q. split_and!; [done..|]. rewrite Hw. unfold c1.
    rewrite arr_get_set_eq; [done|]. rewrite Hc, length_cap. done.
  - right. split; [by intros q' [->|?]%elem_of_cons; [|apply Hno]|]. rewrite Hw. unfold c1.
    apply arr_get_set_ne; [apply slot_of_range|lia|done].
Qed.

Lemma read_commit_seen fuel a start count offset s rc s' :
  0 < start -> 0 <= offset -> start + count <= 2 ^ 64 -> length (get_commits a s) = CAP ->
  read_commit_loop R base fuel a start count offset s = (Some rc, s') ->
  same_but a s s' /\ length (get_commits a s') = CAP /\ (rd_time s <= rd_time s')%nat /\
  (rc = -1 /\ read_failed \/ rc = 0 /\
   forall T i, (T <= rd_time s)%nat -> 0 <= i < ZT_TRACE_EVENT_CAPACITY ->
     word_seen T (rd_time s) i (arr_get (get_commits a s) i) \/
       (exists q, start + offset <= q < start + count /\ i = slot_of q) ->
     word_seen T (rd_time s') i (arr_get (get_commits a s') i)).
Proof.
  revert offset s. induction fuel as [|fuel IH]; intros offset s Hst Hof Hb Hl; cbn [read_commit_loop]; [done|].
  destruct (Z.ltb_spec offset count) as [Hlt|].
  2:{ intros [= <- <-]. split_and!; [apply same_but_refl|done|done|right]. split; [done|].
      intros T i HT Hi [Ha|(q & ? & _)]; [done|lia]. }
  set (n := Z.min (count - offset) ZT_TRACE_READ_IOV_MAX).
  assert (Hn : 0 < n <= 256 /\ n <= count - offset) by (unfold n, ZT_TRACE_READ_IOV_MAX; lia).
  rewrite batch_seqs_eq by lia. set (qs := map _ (seq 0 _)).
  assert (Hqs : forall q, q ∈ qs <-> start + offset <= q < start + offset + n).
  { intros q. unfold qs. rewrite list_elem_of_fmap. setoid_rewrite elem_of_seq. split.
    - intros (k & -> & ?). lia.
    - intros ?. exists (Z.to_nat (q - start - offset)). lia. }
  destruct (rm_words R (rd_time s) _) as [ws|] eqn:Hw.
  2:{ intros [= <- <-]. split_and!; [by destruct a|by destruct a|cbn; lia|left].
      split; [done|]. exists (rd_time s). right. left. by eexists. }
  pose proof (whole_words _ _ _ Hw) as Hlw. rewrite length_map in Hlw. cbv zeta.
  pose proof (store_words_get qs ws (get_commits a s)) as Hst'.
  set (c1 := store_words qs ws (get_commits a s)) in *. set (s1 := set_commits a c1 (rd_tick s)).
  assert (Ht1 : rd_time s1 = S (rd_time s)) by by destruct a.
  intros Heq. apply IH in Heq as (Hsame & Hl' & Hle & Hres);
    [|done|unfold ZT_TRACE_READ_IOV_MAX; lia|done|unfold s1; rewrite get_set_commits;
      by apply (Hst' 0 Hlw Hl ltac:(done))].
  split_and!; [by eapply same_but_trans; [apply same_but_set|]|done|lia|].
  destruct Hres as [?|[-> Hres]]; [by left|]. right. split; [done|]. intros T i HT Hi Hor.
  apply Hres; [lia|done|]. rewrite Ht1. unfold s1 at 1. rewrite get_set_commits.
  destruct (Hst' i Hlw Hl Hi) as [_ [(k & q & Hk & -> & Hwk)|[Hno ->]]].
  - left. exists (rd_time s). split; [lia|]. eexists _, ws, k. split_and!; [exact Hw| |done].
    rewrite list_lookup_fmap, Hk. cbn. f_equal. apply slot_addr_bounds; [done..|].
    assert (q ∈ qs) as ?%Hqs by (by eapply list_elem_of_lookup_2). lia.
  - destruct Hor as [Hs|(q & Hq & ->)]; [left; eapply word_seen_mono; [|exact Hs]; lia|].
    right. exists q. split; [|done]. destruct (Z.lt_ge_cases q (start + offset + n)) as [Hin|].
    + by destruct (Hno q); [apply Hqs; lia|].
    + unfold n, ZT_TRACE_READ_IOV_MAX in *. lia.
Qed.

Lemma store_events_get slot evs l i :
  length l = CAP -> 0 <= slot -> slot + Z.of_nat (length evs) <= ZT_TRACE_EVENT_CAPACITY ->
  0 <= i < ZT_TRACE_EVENT_CAPACITY ->
  length (store_events slot evs l) = CAP /\
  (slot <= i < slot + Z.of_nat (length evs) ->
    evs !! Z.to_nat (i - slot) = Some (arr_get (store_events slot evs l) i)) /\
  (~ slot <= i < slot + Z.of_nat (length evs) -> arr_get (store_events slot evs l) i = arr_get l i).
Proof.
  intros Hl Hs Hsn Hi. rewrite <- length_cap in *. split_and!.
  - unfold store_events. rewrite !length_app, length_take, length_drop, Hl. lia.
  - intros Hr. destruct (lookup_lt_is_Some_2 evs (Z.to_nat (i - slot)) ltac:(lia)) as [e He].
    rewrite He. f_equal. unfold arr_get, store_events. rewrite list_lookup_total_alt.
    rewrite lookup_app_r; rewrite length_take, Hl; [|lia]. rewrite lookup_app_l by lia.
    replace (Z.to_nat i - Z.to_nat slot `min` CAP)%nat with (Z.to_nat (i - slot)) by lia. by rewrite He.
  - intros Hr. unfold arr_get, store_events. rewrite !list_lookup_total_alt. f_equal.
    destruct (Z.lt_ge_cases i slot).
    + rewrite lookup_app_l, lookup_take_lt; [done|lia|rewrite length_take, Hl; lia].
    + rewrite lookup_app_r, lookup_app_r; rewrite length_take, Hl; [|lia..].
      rewrite lookup_drop. f_equal. lia.
Qed.

Lemma read_event_seen fuel q rem s rc s' :
  0 < q -> 0 <= rem -> q + rem <= 2 ^ 64 -> length (g_event_snapshot s) = CAP ->
  read_event_loop R base fuel q rem s = (Some rc, s') ->
  reads_only s s' /\ g_commit_before s' = g_commit_before s /\ g_commit_after s' = g_commit_after s /\
  length (g_event_snapshot s') = CAP /\ (rd_time s <= rd_time s')%nat /\
  (rc = -1 /\ read_failed \/ rc = 0 /\
   forall T i, (T <= rd_time s)%nat -> 0 <= i < ZT_TRACE_EVENT_CAPACITY ->
     event_seen T (rd_time s) i (arr_get (g_event_snapshot s) i) \/
       (exists q', q <= q' < q + rem /\ i = slot_of q') ->
     event_seen T (rd_time s') i (arr_get (g_event_snapshot s') i)).
Proof.
  revert q rem s. induction fuel as [|fuel IH]; intros q rem s Hq H0 Hb Hl; cbn [read_event_loop]; [done|].
  destruct (Z.gtb_spec rem 0) as [Hr|Hr].
  2:{ intros [= <- <-]. split_and!; try done. right. split; [done|].
      intros T i HT Hi [Ha|(q' & ? & _)]; [done|lia]. }
  rewrite slot_of_u64, slot_addr_bounds by lia. pose proof (slot_of_range q) as Hslot.
  set (run := Z.min (ZT_TRACE_EVENT_CAPACITY - slot_of q) rem).
  assert (Hrun : 0 < run <= rem /\ slot_of q + run <= ZT_TRACE_EVENT_CAPACITY) by lia.
  destruct (rm_events _ _ _ _) as [evs|] eqn:He.
  2:{ intros [= <- <-]. split_and!; try done; [cbn; lia|left]. split; [done|].
      exists (rd_time s). right. right. by eexists _, _. }
  pose proof (whole_events _ _ _ _ He) as Hle. cbv zeta.
  set (s1 := rd_set_snapshot _ _). intros Heq.
  pose proof (fun i => store_events_get (slot_of q) evs (g_event_snapshot s) i Hl
    ltac:(lia) ltac:(lia)) as Hst.
  assert (Hor : forall T i, (T <= rd_time s)%nat -> 0 <= i < ZT_TRACE_EVENT_CAPACITY ->
    event_seen T (rd_time s) i (arr_get (g_event_snapshot s) i) \/
      (exists q', q <= q' < q + rem /\ i = slot_of q') ->
    event_seen T (rd_time s1) i (arr_get (g_event_snapshot s1) i) \/
      (exists q', q + run <= q' < q + rem /\ i = slot_of q')).
  { intros T i HT Hi Hor. destruct (Hst i Hi) as (_ & Hin & Hout). cbn [s1 rd_set_snapshot g_event_snapshot rd_time rd_tick].
    destruct (decide (slot_of q <= i < slot_of q + Z.of_nat (length evs))) as [Hd|Hd].
    - left. exists (rd_time s). split; [lia|]. eexists _, _, evs, _. split_and!; [exact He|by apply Hin|].
      unfold slot_address. rewrite Z2Nat.id by lia. ring.
    - destruct Hor as [Ha|(q' & Hq' & ->)].
      + left. rewrite (Hout Hd). eapply event_seen_mono; [|exact Ha]. lia.
      + right. exists q'. split; [|done]. destruct (Z.lt_ge_cases q' (q + run)) as [Hlt|]; [|lia].
        destruct Hd. rewrite (slot_of_shift q q') by lia. lia. }
  destruct (Z.eq_dec run rem) as [Hall|Hmore].
  - destruct fuel as [|fuel]; [done|]. cbn [read_event_loop] in Heq.
    destruct (Z.gtb_spec (rem - run) 0); [lia|]. injection Heq as <- <-.
    split_and!; try done; [by apply (Hst 0)|cbn; lia|]. right. split; [done|]. intros T i HT Hi Ha.
    destruct (Hor T i HT Hi Ha) as [?|(q' & ? & _)]; [done|lia].
  - rewrite u64_small in Heq by (unfold is_u64; lia).
    apply IH in Heq as (Hro & Hcb & Hca & Hl' & Ht & Hag); [|lia|lia|lia|by apply (Hst 0)].
    cbn in Ht. split_and!; try done; [lia|]. destruct Hag as [?|[-> Hag]]; [by left|].
    right. split; [done|]. intros T i HT Hi Ha. apply Hag; [cbn; lia|done|].
    destruct (Hor T i HT Hi Ha) as [?|(q' & Hq' & ?)]; [by left|]. right. exists q'. split; [lia|done].
Qed.

(** What the three arrays hold for a number: words and an event that were read in
    this order. *)
Definition fresh (s : reader_t) (q : Z) : Prop :=
  exists t1 t2 t3, (t1 < t2 < t3)%nat /\
    word_at t1 (slot_address (slot_of q)) (arr_get (g_commit_before s) (slot_of q)) /\
    event_at t2 (slot_address (slot_of q)) (arr_get (g_event_snapshot s) (slot_of q)) /\
    word_at t3 (slot_address (slot_of q)) (arr_get (g_commit_after s) (slot_of q)).

Lemma refresh_fresh start count s :
  0 < start -> 0 < count <= ZT_TRACE_EVENT_CAPACITY -> start + count <= 2 ^ 64 -> reader_ok s ->
  exists rc s', zt_trace_refresh_event_snapshots R base start count s = (Some rc, s') /\
    reads_only s s' /\ reader_ok s' /\
    (rc = -1 /\ read_failed \/ rc = 0 /\ forall q, start <= q < start + count -> fresh s' q).
Proof.
  intros Hst Hc Hb (Hl1 & Hl2 & Hl3).
  destruct (refresh_total R base start count s) as (rc & s' & Heq & Hro). exists rc, s'.
  split; [exact Heq|]. split; [done|]. revert Heq. unfold zt_trace_refresh_event_snapshots.
  destruct (Z.eqb_spec count 0); [lia|].
  unfold zt_trace_read_commit_snapshot, zt_trace_read_event_snapshot.
  assert (Hg : (start =? 0) || (count >? ZT_TRACE_EVENT_CAPACITY) = false).
  { destruct (Z.eqb_spec start 0); [lia|]. destruct (Z.gtb_spec count ZT_TRACE_EVENT_CAPACITY); [lia|done]. }
  rewrite Hg. destruct (read_commit_loop R base 17 CommitBefore start count 0 s) as [[rc1|] s1] eqn:H1; [|done].
  apply read_commit_seen in H1 as ((_ & Hsn1 & Hca1) & Hb1 & Ht1 & Hr1); [|done..|lia|done].
  cbn [get_commits] in *. destruct Hr1 as [[-> Hf]|[-> Hr1]].
  { intros [= <- <-]. split; [split_and!; congruence|by left]. }
  destruct (read_event_loop R base 3 start count s1) as [[rc2|] s2] eqn:H2; [|done].
  apply read_event_seen in H2 as (_ & Hcb2 & Hca2 & Hl2' & Ht2 & Hr2); [|lia|lia|lia|congruence].
  destruct Hr2 as [[-> Hf]|[-> Hr2]].
  { intros [= <- <-]. split; [split_and!; congruence|by left]. }
  intros H3. apply read_commit_seen in H3 as ((_ & Hsn3 & Hcb3) & Hb3 & Ht3 & Hr3); [|done..|lia|cbn; congruence].
  cbn [get_commits] in *. split; [split_and!; congruence|].
  destruct Hr3 as [?|[-> Hr3]]; [by left|right]. split; [done|]. intros q Hq.
  pose proof (slot_of_range q) as Hi.
  assert (Hex : exists q', start + 0 <= q' < start + count /\ slot_of q = slot_of q') by (exists q; split; [lia|done]).
  assert (Hex' : exists q', start <= q' < start + count /\ slot_of q = slot_of q') by (exists q; split; [lia|done]).
  destruct (Hr1 (rd_time s) _ ltac:(lia) Hi (or_intror Hex)) as (t1 & ? & W1).
  destruct (Hr2 (rd_time s1) _ ltac:(lia) Hi (or_intror Hex')) as (t2 & ? & W2).
  destruct (Hr3 (rd_time s2) _ ltac:(lia) Hi (or_intror Hex)) as (t3 & ? & W3).
  exists t1, t2, t3. rewrite Hcb3, Hcb2, Hsn3. split_and!; [lia..|done|done|done].
Qed.

(** ** The account of a poll *)

Context (sig_formats : zt_probe_info_t -> option zt_trace_event_t -> zt_trace_event_t -> bool).
Context (probes : list zt_probe_info_t).

(** The reader saw the write position [w]. *)
Definition announced (w : Z) : Prop := exists t, rm_header R t base = Some (ZT_TRACE_BUFFER_MAGIC, w).

(** [account c a b ls c']: the lines [ls] account for the numbers after [a] up to
    [b], in order.  A number is accounted for by the lines of its event, read
    stable and not beyond an announced write position, or as one of the numbers of
    a loss marker, which names exactly the numbers that the announced write
    position has pushed out of the ring. *)
Inductive account : list zt_entry_cache_slot_t -> Z -> Z -> list out_line -> list zt_entry_cache_slot_t -> Prop :=
| acc_nil c a : account c a a [] c
| acc_event c c1 c2 a b e w ls rest :
    announced w -> a + 1 <= w -> stable (a + 1) e ->
    event_lines sig_formats probes c (a + 1) e ls c1 ->
    account c1 (a + 1) b rest c2 -> account c a b (ls ++ rest) c2
| acc_lost c c' a b w rest :
    announced w -> a < w - ZT_TRACE_EVENT_CAPACITY ->
    account c (w - ZT_TRACE_EVENT_CAPACITY) b rest c' ->
    account c a b (OLost (a + 1) (w - ZT_TRACE_EVENT_CAPACITY - a) w :: rest) c'.

(** Why a poll stops: it has reached a write position, or the slot of the next
    number is not stable, or a read failed or the buffer is not a trace buffer. *)
Definition stops (rc last' : Z) : Prop :=
  (rc = 0 /\ ((exists w, announced w /\ w <= last') \/ unstable (last' + 1))) \/
  (rc = -1 /\ (read_failed \/ exists t magic w, rm_header R t base = Some (magic, w) /\ magic <> ZT_TRACE_BUFFER_MAGIC)).

Definition accounted (s : reader_t) (last : Z) (r : option (Z * Z) * reader_t) : Prop :=
  exists rc last' ls, fst r = Some (rc, last') /\ stops rc last' /\
    rd_out (snd r) = rd_out s ++ ls /\ account (g_entry_cache s) last last' ls (g_entry_cache (snd r)).

Lemma accounted_stop s s' last rc :
  stops rc last -> reads_only s s' -> accounted s last (Some (rc, last), s').
Proof.
  intros Hrc [Ho Hc]. exists rc, last, []. cbn. rewrite app_nil_r, Hc. split_and!; try done. constructor.
Qed.

Lemma accounted_event s s1 last r e w ls :
  announced w -> last + 1 <= w -> stable (last + 1) e -> rd_out s1 = rd_out s ++ ls ->
  event_lines sig_formats probes (g_entry_cache s) (last + 1) e ls (g_entry_cache s1) ->
  accounted s1 (last + 1) r -> accounted s last r.
Proof.
  intros Ha Hw Hs Ho Hl (rc & last' & ls' & Hr & Hrc & Ho' & Hc). exists rc, last', (ls ++ ls').
  split_and!; [done|done|by rewrite Ho', Ho, app_assoc|by eapply acc_event].
Qed.

Lemma accounted_lost s last r w :
  announced w -> last < w - ZT_TRACE_EVENT_CAPACITY ->
  accounted (rd_print (OLost (last + 1) (w - ZT_TRACE_EVENT_CAPACITY - last) w) s) (w - ZT_TRACE_EVENT_CAPACITY) r ->
  accounted s last r.
Proof.
  intros Ha Hw (rc & last' & ls' & Hr & Hrc & Ho' & Hc).
  eexists rc, last', (_ :: ls'). split_and!; [done|done|by rewrite Ho'; cbn; rewrite <- app_assoc|].
  by apply acc_lost.
Qed.

Lemma accounted_reads s s' last r : reads_only s s' -> accounted s' last r -> accounted s last r.
Proof. intros [Ho Hc] (rc & last' & ls & H). exists rc, last', ls. by rewrite Ho, Hc in H. Qed.

Lemma snapshot_slot_cases q s :
  q <> 0 -> fresh s q ->
  match zt_trace_snapshot_slot q s with
  | (ZT_TRACE_SLOT_READY, e) => stable q e
  | (ZT_TRACE_SLOT_READ_ERROR, _) => False
  | _ => unstable q
  end.
Proof.
  intros Hq (t1 & t2 & t3 & Ht & W1 & W2 & W3). unfold zt_trace_snapshot_slot.
  destruct (Z.eqb_spec q 0); [done|]. rewrite slot_of_u64.
  set (b1 := arr_get (g_commit_before s) _) in *. set (b2 := arr_get (g_event_snapshot s) _) in *.
  set (b3 := arr_get (g_commit_after s) _) in *.
  destruct (Z.eqb_spec b1 q) as [E1|E1]; [destruct (Z.eqb_spec (ev_committed_seq b2) q) as [E2|E2];
    [destruct (Z.eqb_spec b3 q) as [E3|E3]|]|]; cbn [andb].
  - rewrite E1 in W1. rewrite E3 in W3. exists t1, t2, t3. done.
  - assert (unstable q) by (exists t3, b3; auto). by destruct (_ || _).
  - assert (unstable q) by (exists t2, (ev_committed_seq b2); eauto). by destruct (_ || _).
  - assert (unstable q) by (exists t1, b1; auto). by destruct (_ || _).
Qed.

(** The arrays and the cache have their sizes. *)
Definition sized (s : reader_t) : Prop := reader_ok s /\ length (g_entry_cache s) = CAP.

Lemma sized_reads s s' : sized s -> reads_only s s' -> reader_ok s' -> sized s'.
Proof. intros [_ Hc] [_ He] Hok. split; [done|]. by rewrite He. Qed.

Lemma event_lines_length c q e ls c' : event_lines sig_formats probes c q e ls c' -> length c' = length c.
Proof. destruct 1; by rewrite ?length_insert. Qed.

Lemma fresh_same s s' q :
  g_event_snapshot s' = g_event_snapshot s -> g_commit_before s' = g_commit_before s ->
  g_commit_after s' = g_commit_after s -> fresh s q -> fresh s' q.
Proof. unfold fresh. by intros -> -> ->. Qed.

(** A refresh, and what follows it. *)
Lemma refresh_accounted s last start count k :
  0 < start -> 0 < count <= ZT_TRACE_EVENT_CAPACITY -> start + count <= 2 ^ 64 -> sized s ->
  (forall s', sized s' -> (forall q, start <= q < start + count -> fresh s' q) -> accounted s' last (k s')) ->
  accounted s last
    match zt_trace_refresh_event_snapshots R base start count s with
    | (Some 0, s) => k s
    | (Some _, s) => (Some (-1, last), s)
    | (None, s) => (None, s)
    end.
Proof.
  intros Hst Hc Hb Hs Hk. destruct (refresh_fresh start count s Hst Hc Hb) as (rc & s' & -> & Hr & Hok & Hcase);
    [apply Hs|]. destruct Hcase as [[-> Hf]|[-> Hfr]].
  - apply accounted_stop; [|done]. right. auto.
  - apply (accounted_reads s s'); [done|]. apply Hk; [by eapply sized_reads|done].
Qed.

(** The headers read show write positions up to [m]. *)
Definition headers_upto (m : Z) : Prop :=
  forall t magic w, rm_header R t base = Some (magic, w) -> 0 <= w <= m.

Lemma dump_loop_accounted m fuel q w last s :
  headers_upto m -> m < 2 ^ 64 - 1 -> announced w -> q = last + 1 -> 0 < q ->
  m + 2 - q <= Z.of_nat fuel -> q <= m + 1 -> sized s -> (forall q', q <= q' <= w -> fresh s q') ->
  accounted s last (dump_loop R sig_formats probes base fuel q w last s).
Proof.
  intros Hh Hm. revert q w last s. induction fuel as [|fuel IH]; intros q w last s Hw Hq H0 Hf Hqm Hs Hfr; [lia|].
  assert (Hwm : 0 <= w <= m) by (destruct Hw as [? ?]; eauto).
  cbn [dump_loop]. destruct (Z.leb_spec q w) as [Hle|].
  2:{ apply accounted_stop; [|done]. left. split; [done|]. left. exists w. split; [done|lia]. }
  pose proof (snapshot_slot_cases q s ltac:(lia) (Hfr q ltac:(lia))) as Hcase.
  destruct (zt_trace_snapshot_slot q s) as [st e] eqn:Hss. destruct st; [| | |done].
  - subst q. destruct (dump_one_lines sig_formats probes e (last + 1) s (proj2 Hs)) as (ls & Ho & Hl).
    destruct (dump_one_snapshots sig_formats probes e (last + 1) s) as (Hd1 & Hd2 & Hd3).
    eapply (accounted_event s _ last _ e w ls); [done|lia|done|exact Ho|exact Hl|].
    rewrite u64_small by (unfold is_u64; lia). apply IH; try done; try lia.
    + destruct Hs as [(? & ? & ?) Hc]. split; [split_and!; congruence|].
      by rewrite (event_lines_length _ _ _ _ _ Hl).
    + intros q' Hq'. apply (fresh_same s); try done. apply Hfr. lia.
  - apply accounted_stop; [|done]. left. split; [done|]. right. by rewrite <- Hq.
  - assert (Hun : stops 0 last) by (left; split; [done|]; right; by rewrite <- Hq).
    unfold zt_trace_read_buffer_header. destruct (Z.eqb_spec base 0); [lia|].
    destruct (rm_header R (rd_time s) base) as [[magic fw]|] eqn:Hhd.
    2:{ apply accounted_stop; [|done]. right. split; [done|]. left. exists (rd_time s). by left. }
    pose proof (Hh _ _ _ Hhd) as Hfw. destruct (Z.eqb_spec magic ZT_TRACE_BUFFER_MAGIC) as [->|Hmag]; cbn [negb].
    2:{ apply accounted_stop; [|done]. right. split; [done|]. right. by eexists _, _, _. }
    destruct ((fw >=? q) && _) eqn:Hc; [|by apply accounted_stop]. zbool.
    assert (Han : announced fw) by by exists (rd_time s).
    unfold zt_trace_log_lost_events. destruct (Z.eqb_spec (fw - ZT_TRACE_EVENT_CAPACITY + 1 - q) 0); [lia|].
    apply (accounted_reads s (rd_tick s)); [done|]. apply (accounted_lost _ last _ fw); [done|lia|].
    replace (fw - ZT_TRACE_EVENT_CAPACITY + 1 - q) with (fw - ZT_TRACE_EVENT_CAPACITY - last) by lia. subst q.
    replace (fw - ZT_TRACE_EVENT_CAPACITY + 1 - 1) with (fw - ZT_TRACE_EVENT_CAPACITY) by lia.
    unfold ZT_TRACE_EVENT_CAPACITY in *.
    apply refresh_accounted; [lia|unfold ZT_TRACE_EVENT_CAPACITY; lia|lia|done|].
    intros s' Hs' Hfr'. apply IH; try done; try lia. intros q' Hq'. apply Hfr'. lia.
Qed.

(** C19: a poll of the ring always returns, and its lines account for the events
    exactly.  Whatever the reads of the target's memory return, as long as a read
    that succeeds is whole, each number between the old and the new cursor either
    has its event, read with its stamp between two reads of the same stamp and not
    beyond a write position that was read, printed by exactly the lines its kind,
    its probe's condition and the remembered entry prescribe (none only for an
    entry that does not satisfy its condition and for the return of such an
    entry), or is one of the numbers of a loss marker that counts exactly what a
    write position that was read has pushed out of the ring; in order, without gap
    or repetition.  The poll stops early only at a slot that is not stable or at a
    failed read.  The loop runs at most once per number up to the largest write
    position read, [m]. *)
Theorem zt_dump_trace_events_since_accounts m fuel last s :
  headers_upto m -> m < 2 ^ 64 - 1 -> 0 <= last -> m + 2 <= Z.of_nat fuel -> sized s ->
  exists rc last' ls s',
    zt_dump_trace_events_since R sig_formats probes base fuel last s = (Some (rc, last'), s') /\
    stops rc last' /\ rd_out s' = rd_out s ++ ls /\
    (account (g_entry_cache s) last last' ls (g_entry_cache s') \/
     rc = -1 /\ last' = last /\ ls = [OBadMagic] /\ g_entry_cache s' = g_entry_cache s).
Proof.
  intros Hh Hm H0 Hf Hs.
  enough (accounted s last (zt_dump_trace_events_since R sig_formats probes base fuel last s) \/
    exists s', zt_dump_trace_events_since R sig_formats probes base fuel last s = (Some (-1, last), s') /\
      stops (-1) last /\ rd_out s' = rd_out s ++ [OBadMagic] /\ g_entry_cache s' = g_entry_cache s)
    as [(rc & last' & ls & Hr & Hrc & Ho & Hc)|(s' & -> & Hst & Ho & Hc)].
  { destruct (zt_dump_trace_events_since _ _ _ _ _ _ _) as [r s']. cbn in Hr. subst r. eauto 10. }
  { exists (-1), last, [OBadMagic], s'. eauto 10. }
  unfold zt_dump_trace_events_since, zt_trace_read_buffer_header.
  destruct (Z.eqb_spec base 0); [lia|].
  destruct (rm_header R (rd_time s) base) as [[magic w]|] eqn:Hhd.
  2:{ left. apply accounted_stop; [|done]. right. split; [done|]. left. exists (rd_time s). by left. }
  pose proof (Hh _ _ _ Hhd) as Hw. destruct (Z.eqb_spec magic ZT_TRACE_BUFFER_MAGIC) as [->|Hmag]; cbn [negb].
  2:{ right. eexists. split_and!; try done. right. split; [done|]. right. by eexists _, _, _. }
  left. assert (Han : announced w) by by exists (rd_time s).
  apply (accounted_reads s (rd_tick s)); [done|].
  destruct ((w =? 0) || (w <=? last)) eqn:Hc.
  { apply accounted_stop; [|done]. left. split; [done|]. left. exists w. split; [done|].
    apply orb_true_iff in Hc as [?%Z.eqb_eq|?%Z.leb_le]; lia. }
  zbool. rewrite u64_small by (unfold is_u64; lia).
  destruct (Z.gtb_spec (w - last) ZT_TRACE_EVENT_CAPACITY).
  - unfold zt_trace_log_lost_events. destruct (Z.eqb_spec (w - ZT_TRACE_EVENT_CAPACITY + 1 - (last + 1)) 0); [lia|].
    apply (accounted_lost _ last _ w); [done|lia|].
    replace (w - ZT_TRACE_EVENT_CAPACITY + 1 - (last + 1)) with (w - ZT_TRACE_EVENT_CAPACITY - last) by lia.
    replace (w - ZT_TRACE_EVENT_CAPACITY + 1 - 1) with (w - ZT_TRACE_EVENT_CAPACITY) by lia.
    unfold ZT_TRACE_EVENT_CAPACITY in *.
    apply refresh_accounted; [lia|unfold ZT_TRACE_EVENT_CAPACITY; lia|lia|done|].
    intros s' Hs' Hfr. apply (dump_loop_accounted m); try done; try lia. intros q' Hq'. apply Hfr. lia.
  - apply refresh_accounted; [lia|lia|lia|done|].
    intros s' Hs' Hfr. apply (dump_loop_accounted m); try done; try lia. intros q' Hq'. apply Hfr. lia.
Qed.
End stable.

(** ** Witness *)

(** Reads of a stopped target; a run beyond the array is filled up. *)
Definition still_whole (base : Z) (b : zt_trace_buffer_t) : remote_t :=
  mk_remote (rm_header (still base b)) (rm_words (still base b))
    (fun _ a n => Some (take (Z.to_nat n)
      (drop (Z.to_nat (still_index base a)) (buf_events b) ++ replicate (Z.to_nat n) zero_event))).

#[export] Instance still_whole_reads base b : WholeReads (still_whole base b).
Proof.
  split; cbn; intros.
  - simplify_eq. by rewrite length_map.
  - simplify_eq. rewrite length_take, length_app, length_replicate. lia.
Qed.

(** A ring with one call's entry and return. *)
Definition call_events : list zt_trace_event_t :=
  [mk_event 1 1 ZT_TRACE_EVENT_ENTRY 7 0 0 0 [0; 1; 2; 3; 4; 5] (replicate 8 0);
   mk_event 2 1 ZT_TRACE_EVENT_RETURN 7 0 0 0 [9; 0; 0; 0; 0; 0] (replicate 8 0)].

Definition call_ring : zt_trace_buffer_t := mk_buffer ZT_TRACE_BUFFER_MAGIC 2 1 [] call_events.

Lemma call_ring_poll :
  let r := zt_dump_trace_events_since (still_whole 65536 call_ring) no_sig [] 65536 4 0 zero_reader in
  fst r = Some (0, 2) /\
  rd_out (snd r) = match call_events with [e; r] => [OEntry e; OReturn r] | _ => [] end.
Proof. vm_compute. split; reflexivity. Qed.

(** C19 at this ring: two lines. *)
Lemma zt_dump_trace_events_since_accounts_witness :
  let R := still_whole 65536 call_ring in
  stops R 65536 0 2 /\
  exists c, account R 65536 no_sig [] (g_entry_cache zero_reader) 0 2
    match call_events with [e; r] => [OEntry e; OReturn r] | _ => [] end c.
Proof.
  intros R.
  destruct (zt_dump_trace_events_since_accounts R 65536 ltac:(lia) ltac:(reflexivity) no_sig [] 2 4 0 zero_reader)
    as (rc & last' & ls & s' & Hr & Hst & Ho & Hacc).
  - intros t magic w. cbn. intros H. injection H as _ <-. split; discriminate.
  - reflexivity.
  - discriminate.
  - discriminate.
  - split; [split; [|split]|]; reflexivity.
  - destruct call_ring_poll as [H1 H2]. fold R in H1, H2. rewrite Hr in H1, H2. cbn [fst snd] in H1, H2.
    injection H1 as -> ->. rewrite Ho in H2. cbn [rd_out zero_reader app] in H2. rewrite <- H2.
    split; [exact Hst|]. destruct Hacc as [Hacc|(Hrc & _)]; [|discriminate Hrc].
    exists (g_entry_cache s'). exact Hacc.
Defined.
