(* ===== verification/Seqlock.v ===== *)
(** * Publication by a stamp word

    The protocol shared by the ring's slots (src/zt_payload.c writes, the tracer
    reads: committed_seq is the stamp) and the call-action table (the tracer
    writes, the payload reads: enabled is the stamp).  A writer clears the stamp,
    stores the data word by word and then stores its own stamp; a reader loads the
    stamp, copies the words one by one in any order, and loads the stamp again.
    The steps of writers and reader interleave freely on a sequentially consistent
    memory.

    [exclusive] says that a writer starts only when no other one is active on the
    slot.  It always holds for the call actions, which only the tracer's single
    thread writes; on the ring it means that no producer is 4096 events behind
    another. *)

From stdpp Require Import relations.
From S2P Require Import Prelude CLib Types Payload Reader.
#[local] Open Scope Z_scope.

(** ** State *)

(** A store: the index of the word and its value. *)
Definition store : Type := nat * Z.

Definition apply_stores (l : list store) (ws : list Z) : list Z :=
  foldl (fun ws '(j, v) => <[j := v]> ws) ws l.

(** A writer before it clears the stamp, and while it stores: what it has stored
    and what is left. *)
Inductive wphase :=
| WStart (todo : list store)
| WWriting (done todo : list store).

Record slot_t := mk_slot_t {
  sl_stamp : Z;
  sl_words : list Z;
  sl_next : Z;                                  (* stamps from here on are unused *)
  sl_writers : gmap Z wphase;                   (* active writers by stamp *)
  sl_hist : list (Z * list store * list Z)      (* what was published, with the stores *)
}.

(** The reader: its first load of the stamp, the words copied, its second load. *)
Inductive rphase :=
| RIdle
| RCopying (before : Z) (copy : gmap nat Z)
| RDone (before : Z) (copy : gmap nat Z) (after : Z).

Definition system : Type := slot_t * rphase.

Definition initial (ws : list Z) : system := (mk_slot_t 0 ws 1 ∅ [], RIdle).

(** ** Steps *)

Inductive step (exclusive : bool) : system -> system -> Prop :=
| st_begin s r q todo :
    sl_next s <= q -> (exclusive = true -> sl_writers s = ∅) ->
    step exclusive (s, r)
      (mk_slot_t (sl_stamp s) (sl_words s) (q + 1) (<[q := WStart todo]> (sl_writers s)) (sl_hist s), r)
| st_clear s r q todo :
    sl_writers s !! q = Some (WStart todo) ->
    step exclusive (s, r)
      (mk_slot_t 0 (sl_words s) (sl_next s) (<[q := WWriting [] todo]> (sl_writers s)) (sl_hist s), r)
| st_store s r q d j v todo :
    sl_writers s !! q = Some (WWriting d ((j, v) :: todo)) ->
    step exclusive (s, r)
      (mk_slot_t (sl_stamp s) (<[j := v]> (sl_words s)) (sl_next s)
         (<[q := WWriting (d ++ [(j, v)]) todo]> (sl_writers s)) (sl_hist s), r)
| st_commit s r q d :
    sl_writers s !! q = Some (WWriting d []) ->
    step exclusive (s, r)
      (mk_slot_t q (sl_words s) (sl_next s) (delete q (sl_writers s))
         (sl_hist s ++ [(q, d, sl_words s)]), r)
| st_abandon s r q ph :
    sl_writers s !! q = Some ph ->
    step exclusive (s, r)
      (mk_slot_t (sl_stamp s) (sl_words s) (sl_next s) (delete q (sl_writers s)) (sl_hist s), r)
| st_before s :
    step exclusive (s, RIdle) (s, RCopying (sl_stamp s) ∅)
| st_copy s b copy j w :
    sl_words s !! j = Some w ->
    step exclusive (s, RCopying b copy) (s, RCopying b (<[j := w]> copy))
| st_after s b copy :
    step exclusive (s, RCopying b copy) (s, RDone b copy (sl_stamp s))
| st_again s b copy a :
    step exclusive (s, RDone b copy a) (s, RIdle).

Definition reachable (exclusive : bool) (ws : list Z) (x : system) : Prop :=
  rtc (step exclusive) (initial ws) x.

(** ** Invariant of exclusive runs *)

Definition hist_stamps (s : slot_t) : list Z := map (fun h => h.1.1) (sl_hist s).

(** Published entries hold their writer's stores; stamps only grow; while a
    published stamp stands its words stand and no writer is past the clear. *)
Record slot_inv (s : slot_t) : Prop := {
  inv_next : 0 < sl_next s;
  inv_hist : Forall (fun '(q, d, ws) => 0 < q < sl_next s /\ exists ws0, ws = apply_stores d ws0) (sl_hist s);
  inv_nodup : NoDup (hist_stamps s);
  inv_writers : forall q ph, sl_writers s !! q = Some ph -> sl_writers s = {[ q := ph ]} /\
    0 < q < sl_next s /\ Forall (fun q' => q' < q) (hist_stamps s) /\
    forall d todo, ph = WWriting d todo -> sl_stamp s = 0 /\ exists ws0, sl_words s = apply_stores d ws0;
  inv_stamp : sl_stamp s <> 0 -> exists d h, sl_hist s = h ++ [(sl_stamp s, d, sl_words s)]
}.

(** The words copied so far are those published under the first stamp, or that
    stamp is gone for good. *)
Definition copied_from (s : slot_t) (b : Z) (copy : gmap nat Z) : Prop :=
  exists d ws, (b, d, ws) ∈ sl_hist s /\ forall j w, copy !! j = Some w -> ws !! j = Some w.

Definition reader_inv (s : slot_t) (r : rphase) : Prop :=
  match r with
  | RIdle => True
  | RCopying b copy => b <> 0 ->
      (sl_stamp s = b /\ forall j w, copy !! j = Some w -> sl_words s !! j = Some w) \/
      (b <> sl_stamp s /\ b < sl_next s /\ (forall q ph, sl_writers s !! q = Some ph -> b < q))
  | RDone b copy a => b <> 0 -> b = a -> copied_from s b copy
  end.

Definition inv (x : system) : Prop := slot_inv x.1 /\ reader_inv x.1 x.2.

Lemma initial_inv ws : inv (initial ws).
Proof.
  split; [split|]; cbn; try done. constructor.
Qed.

Lemma apply_stores_snoc d j v ws : apply_stores (d ++ [(j, v)]) ws = <[j := v]> (apply_stores d ws).
Proof. unfold apply_stores. by rewrite foldl_app. Qed.

(** Stamps of the history are below every unused or active stamp. *)
Lemma hist_below s q : slot_inv s -> q ∈ hist_stamps s -> 0 < q < sl_next s.
Proof.
  intros Hi Hq. apply list_elem_of_fmap in Hq as ([[q' d] ws] & -> & Hin).
  pose proof (inv_hist _ Hi) as Hh. rewrite Forall_forall in Hh. by apply (Hh _ Hin).
Qed.

Lemma copied_from_app s s' b copy h :
  sl_hist s' = sl_hist s ++ h -> copied_from s b copy -> copied_from s' b copy.
Proof. intros Heq (d & ws & Hin & Hc). exists d, ws. rewrite Heq, elem_of_app. auto. Qed.

(** The slot part of the invariant, writer step by writer step. *)
Lemma begin_inv s q todo :
  slot_inv s -> sl_next s <= q -> sl_writers s = ∅ ->
  slot_inv (mk_slot_t (sl_stamp s) (sl_words s) (q + 1) (<[q := WStart todo]> (sl_writers s)) (sl_hist s)).
Proof.
  intros Hi Hq Hw. pose proof (inv_next _ Hi). split; cbn.
  - lia.
  - eapply Forall_impl; [apply (inv_hist _ Hi)|]. intros [[q' d] ws] [? ?]. split; [lia|done].
  - apply (inv_nodup _ Hi).
  - rewrite Hw. intros q' ph Hl. rewrite insert_empty in *. apply lookup_singleton_Some in Hl as [<- <-].
    split_and!; [done|lia|lia| |done]. apply Forall_forall. intros q' Hin%(hist_below s); [lia|done].
  - apply (inv_stamp _ Hi).
Qed.

Lemma clear_inv s q todo :
  slot_inv s -> sl_writers s !! q = Some (WStart todo) ->
  slot_inv (mk_slot_t 0 (sl_words s) (sl_next s) (<[q := WWriting [] todo]> (sl_writers s)) (sl_hist s)).
Proof.
  intros Hi Hl. destruct (inv_writers _ Hi _ _ Hl) as (Hw & Hq & Hlt & _). split; cbn.
  - apply (inv_next _ Hi).
  - apply (inv_hist _ Hi).
  - apply (inv_nodup _ Hi).
  - rewrite Hw, insert_singleton_eq. intros q' ph Hl'. apply lookup_singleton_Some in Hl' as [<- <-].
    split_and!; [done|lia|lia|done|]. intros d t [= <- <-]. split; [done|]. by exists (sl_words s).
  - done.
Qed.

Lemma store_inv s q d j v todo :
  slot_inv s -> sl_writers s !! q = Some (WWriting d ((j, v) :: todo)) ->
  slot_inv (mk_slot_t (sl_stamp s) (<[j := v]> (sl_words s)) (sl_next s)
    (<[q := WWriting (d ++ [(j, v)]) todo]> (sl_writers s)) (sl_hist s)).
Proof.
  intros Hi Hl. destruct (inv_writers _ Hi _ _ Hl) as (Hw & Hq & Hlt & Hwr).
  destruct (Hwr _ _ eq_refl) as [H0 [ws0 Hws]]. split; cbn.
  - apply (inv_next _ Hi).
  - apply (inv_hist _ Hi).
  - apply (inv_nodup _ Hi).
  - rewrite Hw, insert_singleton_eq. intros q' ph Hl'. apply lookup_singleton_Some in Hl' as [<- <-].
    split_and!; [done|lia|lia|done|]. intros d' t [= <- <-]. split; [done|]. exists ws0.
    by rewrite apply_stores_snoc, Hws.
  - done.
Qed.

Lemma commit_inv s q d :
  slot_inv s -> sl_writers s !! q = Some (WWriting d []) ->
  slot_inv (mk_slot_t q (sl_words s) (sl_next s) (delete q (sl_writers s))
    (sl_hist s ++ [(q, d, sl_words s)])).
Proof.
  intros Hi Hl. destruct (inv_writers _ Hi _ _ Hl) as (Hw & Hq & Hlt & Hwr).
  destruct (Hwr _ _ eq_refl) as [H0 [ws0 Hws]]. split; cbn.
  - apply (inv_next _ Hi).
  - apply Forall_app. split; [apply (inv_hist _ Hi)|]. constructor; [|constructor]. split; [done|by exists ws0].
  - unfold hist_stamps. cbn. rewrite map_app. apply NoDup_app. split_and!.
    + apply (inv_nodup _ Hi).
    + intros q' Hin Hq'. cbn in Hq'. apply list_elem_of_singleton in Hq' as ->.
      rewrite Forall_forall in Hlt. specialize (Hlt _ Hin). lia.
    + apply NoDup_singleton.
  - rewrite Hw, delete_singleton_eq. intros q' ph Hl'. by rewrite lookup_empty in Hl'.
  - intros _. by exists d, (sl_hist s).
Qed.

Lemma abandon_inv s q ph :
  slot_inv s -> sl_writers s !! q = Some ph ->
  slot_inv (mk_slot_t (sl_stamp s) (sl_words s) (sl_next s) (delete q (sl_writers s)) (sl_hist s)).
Proof.
  intros Hi Hl. destruct (inv_writers _ Hi _ _ Hl) as (Hw & _). split; cbn; try apply Hi.
  rewrite Hw, delete_singleton_eq. intros q' ph' Hl'. by rewrite lookup_empty in Hl'.
Qed.

Lemma stamp_in_hist s : slot_inv s -> sl_stamp s <> 0 -> sl_stamp s ∈ hist_stamps s.
Proof.
  intros Hi Hs. destruct (inv_stamp _ Hi Hs) as (d & h & Heq). unfold hist_stamps.
  rewrite Heq, map_app. apply elem_of_app. right. cbn. set_solver.
Qed.

(** A writer step does not disturb the reader: its stamp stands with its words, or
    is gone. *)
Lemma reader_inv_writer s s' r :
  slot_inv s -> (exists h, sl_hist s' = sl_hist s ++ h) ->
  (forall b copy, b <> 0 -> reader_inv s (RCopying b copy) -> reader_inv s' (RCopying b copy)) ->
  reader_inv s r -> reader_inv s' r.
Proof.
  intros Hi [h Hh] Hcopy Hr. destruct r as [|b copy|b copy a]; [done|..].
  - intros Hb. by apply Hcopy.
  - intros Hb Hba. eapply copied_from_app; [exact Hh|]. by apply Hr.
Qed.

(** Writers keep the slot's invariant; readers do not change the slot. *)
Lemma step_slot_inv x y : step true x y -> inv x -> slot_inv y.1.
Proof.
  destruct 1 as [s r q todo Hq Hex|s r q todo Hl|s r q d j v todo Hl|s r q d Hl|s r q ph Hl|s|s b copy j w Hw|s b copy|s b copy a];
    intros [Hi Hr]; cbn [fst snd] in *.
  - by apply begin_inv; auto.
  - by eapply clear_inv.
  - by eapply store_inv.
  - by eapply commit_inv.
  - by eapply abandon_inv.
  - done.
  - done.
  - done.
  - done.
Qed.

(** A writer's step keeps what a reader that is copying relies on, and a reader's
    own steps establish it. *)
Lemma step_reader_inv x y : step true x y -> inv x -> reader_inv y.1 y.2.
Proof.
  destruct 1 as [s r q todo Hq Hex|s r q todo Hl|s r q d j v todo Hl|s r q d Hl|s r q ph Hl|s|s b copy j w Hw|s b copy|s b copy a];
    intros [Hi Hr]; cbn [fst snd] in *.
  - apply (reader_inv_writer s); [done|exists []; by rewrite app_nil_r| |done].
    intros b copy Hb H Hb'. destruct (H Hb) as [[? ?]|(? & ? & Hw)]; [left; done|right; cbn].
    split_and!; [done|lia|]. intros q' ph [[<- <-]|[? Hl]]%lookup_insert_Some; [lia|by eapply Hw].
  - apply (reader_inv_writer s); [done|exists []; by rewrite app_nil_r| |done].
    intros b copy Hb H Hb'. destruct (inv_writers _ Hi _ _ Hl) as (Hw & Hq & Hlt & _). right. cbn.
    rewrite Hw, insert_singleton_eq. destruct (H Hb) as [[Hs ?]|(? & ? & Hwr)].
    + assert (Hin : b ∈ hist_stamps s) by (rewrite <- Hs; apply stamp_in_hist; [done|congruence]).
      pose proof (hist_below _ _ Hi Hin). split_and!; [done|lia|].
      intros q' ph [<- <-]%lookup_singleton_Some. rewrite Forall_forall in Hlt. by apply Hlt.
    + split_and!; [done|lia|]. intros q' ph [<- <-]%lookup_singleton_Some. by eapply Hwr.
  - apply (reader_inv_writer s); [done|exists []; by rewrite app_nil_r| |done].
    intros b copy Hb H Hb'. destruct (inv_writers _ Hi _ _ Hl) as (Hw & Hq & Hlt & Hwr).
    destruct (Hwr _ _ eq_refl) as [H0 _]. destruct (H Hb) as [[Hs ?]|(? & ? & Hwrs)]; [congruence|].
    right. cbn. split_and!; [done|lia|].
    intros q' ph [[<- <-]|[? Hl']]%lookup_insert_Some; by eapply Hwrs.
  - apply (reader_inv_writer s); [done|by eexists| |done].
    intros b copy Hb H Hb'. destruct (inv_writers _ Hi _ _ Hl) as (Hw & Hq & Hlt & Hwr).
    destruct (Hwr _ _ eq_refl) as [H0 _]. destruct (H Hb) as [[Hs ?]|(? & ? & Hwrs)]; [congruence|].
    right. cbn. pose proof (Hwrs _ _ Hl). split_and!; [lia|lia|].
    intros q' ph [? Hl']%lookup_delete_Some. by eapply Hwrs.
  - apply (reader_inv_writer s); [done|exists []; by rewrite app_nil_r| |done].
    intros b copy Hb H Hb'. destruct (H Hb) as [[? ?]|(? & ? & Hw)]; [left; done|right; cbn].
    split_and!; [done|lia|]. intros q' ph' [? Hl']%lookup_delete_Some. by eapply Hw.
  - intros Hb. left. split; [done|]. intros j w Hj. by rewrite lookup_empty in Hj.
  - intros Hb. specialize (Hr Hb). destruct Hr as [[Hs Hc]|Hg]; [left|by right]. split; [done|].
    intros j' w' [[<- <-]|[? Hj]]%lookup_insert_Some; [done|by apply Hc].
  - intros Hb Hba. destruct (Hr Hb) as [[Hs Hc]|(Hne & _)]; [|done].
    destruct (inv_stamp _ Hi) as (d & h & Heq); [congruence|]. exists d, (sl_words s).
    rewrite Heq, Hs. split; [|done]. apply elem_of_app. right. by apply list_elem_of_singleton.
  - done.
Qed.

Lemma step_inv x y : step true x y -> inv x -> inv y.
Proof. intros Hs Hi. split; [by eapply step_slot_inv|by eapply step_reader_inv]. Qed.

Lemma reachable_inv ws x : reachable true ws x -> inv x.
Proof.
  intros Hr. pose proof (initial_inv ws) as Hi. revert Hi. unfold reachable in Hr.
  induction Hr as [|x y z Hs _ IH]; [done|]. intros Hi. apply IH. by eapply step_inv.
Qed.

(** The snapshot property: a read whose two stamps agree copied words that were
    published together, under that stamp, by one writer. *)
Lemma snapshot_consistent ws s b copy :
  reachable true ws (s, RDone b copy b) -> b <> 0 ->
  exists d pub, (b, d, pub) ∈ sl_hist s /\ (exists ws0, pub = apply_stores d ws0) /\
    (forall d' pub', (b, d', pub') ∈ sl_hist s -> d' = d /\ pub' = pub) /\
    forall j w, copy !! j = Some w -> pub !! j = Some w.
Proof.
  intros Hreach Hb. destruct (reachable_inv _ _ Hreach) as [Hi Hr]. destruct (Hr Hb eq_refl) as (d & pub & Hin & Hc). cbn in *.
  exists d, pub. pose proof (inv_hist _ Hi) as Hh. rewrite Forall_forall in Hh.
  split_and!; [done|by apply (Hh _ Hin)| |done]. intros d' pub' Hin'.
  apply list_elem_of_lookup in Hin as [i Hx], Hin' as [i' Hx'].
  assert (i = i') as <-; [|by simplify_eq].
  eapply (NoDup_lookup _ _ _ _ (inv_nodup _ Hi)); unfold hist_stamps; rewrite list_lookup_fmap;
    [by rewrite Hx|by rewrite Hx'].
Qed.

(** ** The ring's slots *)

(** The words of an event after committed_seq. *)
Definition event_words (e : zt_trace_event_t) : list Z :=
  [ev_probe_id e; ev_event_type e; ev_call_id e; ev_timestamp_ns e; ev_tid e; ev_cpu_id e]
    ++ ev_args e ++ ev_fp_args e.

(** The reader's arrays hold, for the slot of [q], what the run read. *)
Definition slot_read (q : Z) (s : reader_t) (b : Z) (copy : gmap nat Z) (a : Z) : Prop :=
  let i := (q -64 1) mod ZT_TRACE_EVENT_CAPACITY in
  arr_get (g_commit_before s) i = b /\ arr_get (g_commit_after s) i = a /\
  forall j w, event_words (arr_get (g_event_snapshot s) i) !! j = Some w -> copy !! j = Some w.

(** C22: the reader never dumps a torn event.  When no two producers are active on
    the same slot, a slot the reader finds READY for number [q] holds, word for
    word, what the producer that committed [q] published: its own stores over the
    slot's previous contents. *)
Theorem ring_snapshot_consistent ws sl b copy a q s e :
  reachable true ws (sl, RDone b copy a) -> slot_read q s b copy a ->
  zt_trace_snapshot_slot q s = (ZT_TRACE_SLOT_READY, e) ->
  exists d pub, (q, d, pub) ∈ sl_hist sl /\ (exists ws0, pub = apply_stores d ws0) /\
    forall j w, event_words e !! j = Some w -> pub !! j = Some w.
Proof.
  intros Hreach (Hb & Ha & Hc) Hs. unfold zt_trace_snapshot_slot in Hs.
  destruct (Z.eqb_spec q 0) as [|Hq]; [done|]. rewrite Hb, Ha in Hs.
  destruct ((b =? q) && _ && _) eqn:Hr; [|by repeat case_match]. zbool.
  assert (Hbq : b = q) by lia. assert (Haq : a = q) by lia. rewrite Hbq, Haq in Hreach. injection Hs as <-.
  destruct (snapshot_consistent ws sl q copy Hreach Hq) as (d & pub & Hin & Hst & _ & Hcopy).
  exists d, pub. split_and!; [done|done|]. intros j w Hj. by apply Hcopy, Hc.
Qed.

(** ** The call actions *)

(** The words of an action after [enabled]. *)
Definition action_words (a : zt_probe_call_action_t) : list Z :=
  [act_probe_id a; act_callee_addr a; act_arg_count a]
    ++ concat (map (fun x => [ca_kind x; ca_value x]) (act_args a)).

(** C23: the payload never runs a call action with mixed fields.  A snapshot the
    payload accepts for execution (first load of enabled non-zero, the check of
    zt_copy_call_action_if_match passed) consists of words that the tracer
    published together in one update. *)
Theorem call_action_snapshot_consistent ws sl enabled copy snapshot probe_id :
  reachable true ws (sl, RDone enabled copy (act_enabled snapshot)) ->
  (forall j w, action_words snapshot !! j = Some w -> copy !! j = Some w) ->
  enabled <> 0 -> action_matches snapshot enabled probe_id = true ->
  exists d pub, (enabled, d, pub) ∈ sl_hist sl /\ (exists ws0, pub = apply_stores d ws0) /\
    forall j w, action_words snapshot !! j = Some w -> pub !! j = Some w.
Proof.
  intros Hreach Hc He Hm. unfold action_matches in Hm. zbool.
  assert (Hee : act_enabled snapshot = enabled) by lia. rewrite Hee in Hreach.
  destruct (snapshot_consistent ws sl enabled copy Hreach He) as (d & pub & Hin & Hst & _ & Hcopy).
  exists d, pub. split_and!; [done|done|]. intros j w Hj. by apply Hcopy, Hc.
Qed.

(** ** Runs *)

Lemma reachable_step ex ws x y : reachable ex ws x -> step ex x y -> reachable ex ws y.
Proof. unfold reachable. apply rtc_r. Qed.

(** Extends a run by a step. *)
Ltac next H tac := eapply reachable_step in H; [|tac].

Lemma reachable_stores ex ws s r q d todo :
  reachable ex ws (s, r) -> sl_writers s !! q = Some (WWriting d todo) ->
  reachable ex ws (mk_slot_t (sl_stamp s) (apply_stores todo (sl_words s)) (sl_next s)
    (<[q := WWriting (d ++ todo) []]> (sl_writers s)) (sl_hist s), r).
Proof.
  revert s d. induction todo as [|[j v] todo IH]; intros s d Hr Hw.
  - rewrite app_nil_r, insert_id by done. by destruct s.
  - pose proof (reachable_step _ _ _ _ Hr (st_store ex s r q d j v todo Hw)) as H.
    apply (IH _ (d ++ [(j, v)])) in H; [|cbn; by rewrite lookup_insert_eq].
    cbn in H. by rewrite insert_insert_eq, <- app_assoc in H.
Qed.

Lemma reachable_copy ex ws s b n :
  reachable ex ws (s, RCopying b ∅) -> (n <= length (sl_words s))%nat ->
  reachable ex ws (s, RCopying b (map_seq 0 (take n (sl_words s)))).
Proof.
  intros Hr. induction n as [|n IH]; intros Hn; [done|].
  destruct (lookup_lt_is_Some_2 (sl_words s) n Hn) as [w Hw].
  pose proof (reachable_step _ _ _ _ (IH ltac:(lia)) (st_copy ex s b _ n w Hw)) as H.
  rewrite (take_S_r _ _ _ Hw), map_seq_snoc. by rewrite length_take_le by lia.
Qed.

(** A complete update followed by a complete read. *)
Lemma publish_read_run ex ws q todo :
  0 < q -> let pub := apply_stores todo ws in
  reachable ex ws (mk_slot_t q pub (q + 1) ∅ [(q, todo, pub)], RDone q (map_seq 0 pub) q).
Proof.
  intros Hq pub. assert (H : reachable ex ws (initial ws)) by constructor. unfold initial in H.
  next H ltac:(apply (st_begin ex _ _ q todo); [cbn; lia|done]).
  next H ltac:(apply (st_clear ex _ _ q todo); apply lookup_insert_eq).
  cbn in H. rewrite insert_insert_eq in H.
  apply (reachable_stores _ _ _ _ q [] todo) in H; [|apply lookup_insert_eq].
  cbn in H. rewrite insert_insert_eq, insert_empty in H.
  next H ltac:(apply (st_commit ex _ _ q todo); apply lookup_singleton_eq).
  cbn in H. rewrite delete_singleton_eq in H. fold pub in H.
  next H ltac:(apply st_before).
  apply (reachable_copy _ _ _ _ (length pub)) in H; [|done]. cbn in H. rewrite take_ge in H by done.
  next H ltac:(apply st_after). exact H.
Qed.

(** C22 at a published entry event of number 1. *)
Lemma ring_snapshot_consistent_witness :
  let todo := zip (seq 0 20) (event_words (mk_event 1 9 0 3 4 5 6 [1; 2; 3; 4; 5; 6] (replicate 8 0))) in
  let e := mk_event 1 9 0 3 4 5 6 [1; 2; 3; 4; 5; 6] (replicate 8 0) in
  let s := rd_set_snapshot (arr_set (g_event_snapshot zero_reader) 0 e)
    (rd_set_before (arr_set (g_commit_before zero_reader) 0 1)
      (rd_set_after (arr_set (g_commit_after zero_reader) 0 1) zero_reader)) in
  exists d pub, (1, d, pub) ∈ [(1, todo, event_words e)] /\
    forall j w, event_words e !! j = Some w -> pub !! j = Some w.
Proof.
  intros todo e s.
  pose proof (publish_read_run true (replicate 20 0) 1 todo eq_refl) as Hrun.
  assert (Hpub : apply_stores todo (replicate 20 0) = event_words e) by (vm_compute; reflexivity).
  cbv zeta in Hrun. rewrite Hpub in Hrun.
  destruct (ring_snapshot_consistent (replicate 20 0) _ _ _ _ 1 s e Hrun) as (d & pub & H1 & _ & H3).
  - split; [vm_compute; reflexivity|]. split; [vm_compute; reflexivity|].
    intros j w Hj. apply lookup_map_seq_Some. split; [lia|]. rewrite Nat.sub_0_r. exact Hj.
  - vm_compute. reflexivity.
  - exists d, pub. split; [exact H1|exact H3].
Defined.

(** C23 at an action of probe 1 published with epoch 5. *)
Lemma call_action_snapshot_consistent_witness :
  let a := mk_call_action 5 1 4096 0 (replicate 6 zero_call_arg) in
  let todo := zip (seq 0 15) (action_words a) in
  exists d pub, (5, d, pub) ∈ [(5, todo, action_words a)] /\
    forall j w, action_words a !! j = Some w -> pub !! j = Some w.
Proof.
  intros a todo. pose proof (publish_read_run true (replicate 15 0) 5 todo eq_refl) as Hrun.
  assert (Hpub : apply_stores todo (replicate 15 0) = action_words a) by (vm_compute; reflexivity).
  cbv zeta in Hrun. rewrite Hpub in Hrun.
  destruct (call_action_snapshot_consistent (replicate 15 0) _ 5 _ a 1 Hrun) as (d & pub & H1 & _ & H3).
  - intros j w Hj. apply lookup_map_seq_Some. split; [lia|]. rewrite Nat.sub_0_r. exact Hj.
  - discriminate.
  - reflexivity.
  - exists d, pub. split; [exact H1|exact H3].
Defined.

(** The run in which the producer of [p] stores a word after that of [q] committed. *)
Lemma lapped_run p q :
  0 < p -> p < q ->
  exists s copy, reachable false [0; 0] (s, RDone q copy q) /\
    copy = <[1%nat := 11]> (<[0%nat := 20]> ∅) /\
    sl_hist s = [(q, [(0%nat, 20); (1%nat, 21)], [20; 21])].
Proof.
  intros Hp Hpq. assert (Hne : q <> p) by lia.
  assert (H : reachable false [0; 0] (initial [0; 0])) by constructor. unfold initial in H.
  next H ltac:(apply (st_begin false _ _ p [(0%nat, 10); (1%nat, 11)]); [cbn; lia|discriminate]).
  next H ltac:(apply (st_clear false _ _ p [(0%nat, 10); (1%nat, 11)]); apply lookup_insert_eq).
  next H ltac:(apply (st_store false _ _ p [] 0 10 [(1%nat, 11)]); apply lookup_insert_eq).
  cbn in H. rewrite !insert_insert_eq in H.
  next H ltac:(apply (st_begin false _ _ q [(0%nat, 20); (1%nat, 21)]); [cbn; lia|discriminate]).
  next H ltac:(apply (st_clear false _ _ q [(0%nat, 20); (1%nat, 21)]); apply lookup_insert_eq).
  next H ltac:(apply (st_store false _ _ q [] 0 20 [(1%nat, 21)]); apply lookup_insert_eq).
  next H ltac:(apply (st_store false _ _ q [(0%nat, 20)] 1 21 []); apply lookup_insert_eq).
  cbn in H. rewrite !insert_insert_eq in H.
  next H ltac:(apply (st_commit false _ _ q [(0%nat, 20); (1%nat, 21)]); apply lookup_insert_eq).
  cbn in H. next H ltac:(apply st_before). cbn in H.
  next H ltac:(apply (st_store false _ _ p [(0%nat, 10)] 1 11 []); cbn;
    by rewrite lookup_delete_ne, lookup_insert_ne, lookup_insert_eq by done).
  cbn in H. next H ltac:(apply (st_copy false _ _ _ 0 20); reflexivity).
  next H ltac:(apply (st_copy false _ _ _ 1 11); reflexivity).
  next H ltac:(apply st_after). cbn in H. eexists _, _. by split; [exact H|].
Qed.

(** Without exclusivity the double check of committed_seq is not enough.  If a
    producer stalls while 4096 more events are recorded, its late stores land in a
    slot already committed by another one, and a reader can find the slot READY
    under number 4097 with a mixture of both events that nobody published. *)
Lemma lapped_producer_torn_read :
  exists s copy, reachable false [0; 0] (s, RDone 4097 copy 4097) /\
    copy !! 0%nat = Some 20 /\ copy !! 1%nat = Some 11 /\
    sl_hist s = [(4097, [(0%nat, 20); (1%nat, 21)], [20; 21])].
Proof.
  destruct (lapped_run 1 4097) as (s & copy & H1 & -> & H3); [lia..|].
  exists s. eexists. split; [exact H1|]. by rewrite lookup_insert_ne, !lookup_insert_eq by done.
Qed.
