(* ===== verification/Pool.v ===== *)
(** * The trampoline pool (src/zt_trampoline_pool.c)

    One executable mapping in the target, split into 32 slots of 512 bytes that are
    handed to probes and taken back.  The results of the remote mmap and munmap
    calls an operation makes are its argument [pool_env]. *)

From stdpp Require Import relations.
From S2P Require Import Prelude CLib Types.
#[local] Open Scope Z_scope.

Definition ZT_TRAMPOLINE_MAX_SIZE : Z := 512.
Definition ZT_TRAMPOLINE_POOL_SLOTS : Z := ZT_PROBES_CAPACITY.
Definition ZT_TRAMPOLINE_POOL_SLOT_SIZE : Z := ZT_TRAMPOLINE_MAX_SIZE.
Definition ZT_TRAMPOLINE_POOL_SIZE : Z := ZT_TRAMPOLINE_POOL_SLOTS * ZT_TRAMPOLINE_POOL_SLOT_SIZE.

(** ** State *)

Record zt_trampoline_pool_t := mk_pool {
  pool_remote_addr : Z;
  pool_remote_size : Z;
  pool_slot_used : list Z
}.

Definition zero_pool : zt_trampoline_pool_t :=
  mk_pool 0 0 (replicate (Z.to_nat ZT_TRAMPOLINE_POOL_SLOTS) 0).

(** The address a remote mmap returns ([None]: it fails), and whether a remote
    munmap succeeds. *)
Record pool_env := mk_pool_env { pe_mmap : option Z; pe_munmap_ok : bool }.

(** ** Operations *)

Definition zt_trampoline_pool_slot_valid (slot : Z) : bool :=
  (slot >=? 0) && (slot <? ZT_TRAMPOLINE_POOL_SLOTS).

Definition zt_trampoline_pool_all_free (pool : zt_trampoline_pool_t) : bool :=
  forallb (fun u => u =? 0) (pool_slot_used pool).

Definition zt_trampoline_pool_slot_addr (pool : zt_trampoline_pool_t) (slot : Z) : Z :=
  if (pool_remote_addr pool =? 0) || negb (zt_trampoline_pool_slot_valid slot) then 0
  else pool_remote_addr pool +64 (slot *64 ZT_TRAMPOLINE_POOL_SLOT_SIZE).

Definition zt_trampoline_pool_slot_belongs_to_probe (pool : zt_trampoline_pool_t)
    (probe : zt_probe_info_t) (slot : Z) : bool :=
  if negb (zt_trampoline_pool_slot_valid slot) then false
  else
    let addr := zt_trampoline_pool_slot_addr pool slot in
    negb (addr =? 0) && (pr_trampoline_addr probe =? addr).

Definition set_probe_slot (slot addr : Z) (p : zt_probe_info_t) : zt_probe_info_t :=
  mk_probe (pr_probe_id p) (pr_target p) addr slot (pr_orig_code p) (pr_orig_len p) (pr_state p)
    (pr_filter p) (pr_call_action p) (pr_call_action_slot p) (pr_call_symbol p).

Definition set_slot_used (slot x : Z) (pool : zt_trampoline_pool_t) : zt_trampoline_pool_t :=
  mk_pool (pool_remote_addr pool) (pool_remote_size pool) (arr_set (pool_slot_used pool) slot x).

(** The result is [None] for -1, otherwise [*trampoline_addr_out]. *)
Definition zt_trampoline_pool_assign_slot (pool : zt_trampoline_pool_t) (probe : zt_probe_info_t)
    (slot : Z) : option Z * zt_trampoline_pool_t * zt_probe_info_t :=
  if negb (zt_trampoline_pool_slot_valid slot) then (None, pool, probe)
  else
    let addr := zt_trampoline_pool_slot_addr pool slot in
    if addr =? 0 then (None, pool, probe)
    else (Some addr, set_slot_used slot 1 pool, set_probe_slot slot addr probe).

Definition zt_trampoline_pool_clear_probe_slot (probe : zt_probe_info_t) : zt_probe_info_t :=
  set_probe_slot (-1) 0 probe.

Definition zt_trampoline_pool_ensure (E : pool_env) (pool : zt_trampoline_pool_t)
    : Z * zt_trampoline_pool_t :=
  if negb (pool_remote_addr pool =? 0) then (0, pool)
  else
    match pe_mmap E with
    | None => (-1, pool)
    | Some addr =>
        (0, mk_pool addr ZT_TRAMPOLINE_POOL_SIZE (replicate (Z.to_nat ZT_TRAMPOLINE_POOL_SLOTS) 0))
    end.

Definition zt_trampoline_pool_reset (pool : zt_trampoline_pool_t) : zt_trampoline_pool_t := zero_pool.

(** The scan for a free slot, from [slot] on with [n] slots left. *)
Fixpoint alloc_loop (n : nat) (slot : Z) (pool : zt_trampoline_pool_t) (probe : zt_probe_info_t)
    : option Z * zt_trampoline_pool_t * zt_probe_info_t :=
  match n with
  | O => (None, pool, probe)
  | S n' =>
      if truthy (arr_get (pool_slot_used pool) slot) then alloc_loop n' (slot + 1) pool probe
      else zt_trampoline_pool_assign_slot pool probe slot
  end.

Definition zt_trampoline_pool_alloc (E : pool_env) (pool : zt_trampoline_pool_t)
    (probe : zt_probe_info_t) : option Z * zt_trampoline_pool_t * zt_probe_info_t :=
  let slot := pr_trampoline_slot probe in
  if zt_trampoline_pool_slot_valid slot && negb (pool_remote_addr pool =? 0) then
    if truthy (arr_get (pool_slot_used pool) slot)
       && negb (zt_trampoline_pool_slot_belongs_to_probe pool probe slot)
    then (None, pool, probe)
    else zt_trampoline_pool_assign_slot pool probe slot
  else
    let '(rc, pool) := zt_trampoline_pool_ensure E pool in
    if negb (rc =? 0) then (None, pool, probe)
    else alloc_loop (Z.to_nat ZT_TRAMPOLINE_POOL_SLOTS) 0 pool probe.

Definition zt_trampoline_pool_release (E : pool_env) (pool : zt_trampoline_pool_t)
    (probe : zt_probe_info_t) : zt_trampoline_pool_t * zt_probe_info_t :=
  let slot := pr_trampoline_slot probe in
  if negb (zt_trampoline_pool_slot_valid slot) then (pool, probe)
  else if negb (pool_remote_addr pool =? 0) && truthy (arr_get (pool_slot_used pool) slot)
          && negb (zt_trampoline_pool_slot_belongs_to_probe pool probe slot)
  then (pool, probe)
  else
    let pool := set_slot_used slot 0 pool in
    let probe := zt_trampoline_pool_clear_probe_slot probe in
    if negb (pool_remote_addr pool =? 0) && zt_trampoline_pool_all_free pool then
      if pe_munmap_ok E then (zt_trampoline_pool_reset pool, probe) else (pool, probe)
    else (pool, probe).

(** ** The pool and the probe table together *)

Definition pool_state : Type := zt_trampoline_pool_t * list zt_probe_info_t.

Inductive pool_step : pool_state -> pool_state -> Prop :=
| ps_alloc E pool ps i p r pool' p' :
    ps !! i = Some p -> (forall a, pe_mmap E = Some a -> 0 < a /\ a + ZT_TRAMPOLINE_POOL_SIZE <= 2 ^ 64) ->
    zt_trampoline_pool_alloc E pool p = (r, pool', p') -> pool_step (pool, ps) (pool', <[i := p']> ps)
| ps_release E pool ps i p pool' p' :
    ps !! i = Some p -> zt_trampoline_pool_release E pool p = (pool', p') ->
    pool_step (pool, ps) (pool', <[i := p']> ps).

(** Probe [p] owns the slot: it is where its trampoline lives. *)
Definition holds (pool : zt_trampoline_pool_t) (p : zt_probe_info_t) (slot : Z) : Prop :=
  0 <= slot < ZT_TRAMPOLINE_POOL_SLOTS /\ pool_remote_addr pool <> 0 /\
  pr_trampoline_slot p = slot /\
  pr_trampoline_addr p = pool_remote_addr pool + slot * ZT_TRAMPOLINE_POOL_SLOT_SIZE.

(** A probe with an address owns a slot; used slots and owners correspond. *)
Record pool_inv (x : pool_state) : Prop := {
  pi_length : length (pool_slot_used x.1) = Z.to_nat ZT_TRAMPOLINE_POOL_SLOTS;
  pi_mapped : pool_remote_addr x.1 <> 0 ->
    0 < pool_remote_addr x.1 /\ pool_remote_addr x.1 + ZT_TRAMPOLINE_POOL_SIZE <= 2 ^ 64;
  pi_probe : forall i p, x.2 !! i = Some p -> pr_trampoline_addr p <> 0 ->
    exists slot, holds x.1 p slot /\ arr_get (pool_slot_used x.1) slot = 1;
  pi_owner : forall slot, 0 <= slot < ZT_TRAMPOLINE_POOL_SLOTS -> arr_get (pool_slot_used x.1) slot <> 0 ->
    exists i p, x.2 !! i = Some p /\ holds x.1 p slot;
  pi_unique : forall i j p q slot, x.2 !! i = Some p -> x.2 !! j = Some q ->
    holds x.1 p slot -> holds x.1 q slot -> i = j
}.

Lemma slot_validP slot : zt_trampoline_pool_slot_valid slot = true <-> 0 <= slot < ZT_TRAMPOLINE_POOL_SLOTS.
Proof. unfold zt_trampoline_pool_slot_valid. rewrite andb_true_iff, Z.geb_le, Z.ltb_lt. lia. Qed.

Section invariant.
Context (pool : zt_trampoline_pool_t) (ps : list zt_probe_info_t) (Hinv : pool_inv (pool, ps)).

Lemma inv_slot_addr slot :
  pool_remote_addr pool <> 0 -> 0 <= slot < ZT_TRAMPOLINE_POOL_SLOTS ->
  zt_trampoline_pool_slot_addr pool slot = pool_remote_addr pool + slot * ZT_TRAMPOLINE_POOL_SLOT_SIZE /\
  0 < zt_trampoline_pool_slot_addr pool slot.
Proof.
  intros Hm Hs. destruct (pi_mapped _ Hinv Hm) as [Hpos Hmax]. cbn in *.
  unfold zt_trampoline_pool_slot_addr. apply slot_validP in Hs as Hv. rewrite Hv.
  destruct (Z.eqb_spec (pool_remote_addr pool) 0); [done|]. cbn [negb orb].
  unfold ZT_TRAMPOLINE_POOL_SIZE, ZT_TRAMPOLINE_POOL_SLOTS, ZT_TRAMPOLINE_POOL_SLOT_SIZE, ZT_PROBES_CAPACITY,
    ZT_TRAMPOLINE_MAX_SIZE in *.
  rewrite (u64_small (slot * 512)), u64_small; unfold is_u64; lia.
Qed.

(** A probe with a trampoline address owns its trampoline_slot. *)
Lemma inv_holds i p :
  ps !! i = Some p -> pr_trampoline_addr p <> 0 ->
  holds pool p (pr_trampoline_slot p) /\ arr_get (pool_slot_used pool) (pr_trampoline_slot p) = 1.
Proof.
  intros Hi Ha. destruct (pi_probe _ Hinv i p Hi Ha) as (slot & Hh & Hu). cbn in *.
  pose proof Hh as (_ & _ & -> & _). done.
Qed.

Lemma holds_addr p slot : holds pool p slot -> pr_trampoline_addr p <> 0.
Proof.
  intros (Hr & Hm & _ & ->). destruct (pi_mapped _ Hinv Hm) as [Hpos _]. cbn in *.
  unfold ZT_TRAMPOLINE_POOL_SLOT_SIZE, ZT_TRAMPOLINE_MAX_SIZE. lia.
Qed.

Lemma belongs_holds p :
  zt_trampoline_pool_slot_belongs_to_probe pool p (pr_trampoline_slot p) = true ->
  holds pool p (pr_trampoline_slot p).
Proof.
  unfold zt_trampoline_pool_slot_belongs_to_probe.
  destruct (zt_trampoline_pool_slot_valid (pr_trampoline_slot p)) eqn:Hv; [|done]. cbn [negb].
  apply slot_validP in Hv. intros H. zbool.
  assert (Hm : pool_remote_addr pool <> 0).
  { intros Hm. unfold zt_trampoline_pool_slot_addr in *. rewrite Hm in *. done. }
  destruct (inv_slot_addr _ Hm Hv) as [Ha _]. split_and!; [lia|lia|done|done|lia].
Qed.

(** The probe's entry after an update of probe [i]. *)
Lemma lookup_updated i j (p q : zt_probe_info_t) :
  <[i := p]> ps !! j = Some q -> (j = i /\ q = p) \/ (j <> i /\ ps !! j = Some q).
Proof. intros [(-> & -> & _)|[Hne Hl]]%list_lookup_insert_Some; auto. Qed.

Lemma used_bound slot :
  0 <= slot < ZT_TRAMPOLINE_POOL_SLOTS -> 0 <= slot < Z.of_nat (length (pool_slot_used pool)).
Proof. intros H. pose proof (pi_length _ Hinv) as Hl. cbn in Hl. rewrite Hl. lia. Qed.

(** Assigning a slot nobody else owns to a probe that owns no other one. *)
Lemma assign_inv i p slot :
  ps !! i = Some p -> pool_remote_addr pool <> 0 -> 0 <= slot < ZT_TRAMPOLINE_POOL_SLOTS ->
  (arr_get (pool_slot_used pool) slot = 0 /\ pr_trampoline_addr p = 0) \/ holds pool p slot ->
  exists addr pool' p', zt_trampoline_pool_assign_slot pool p slot = (Some addr, pool', p') /\
    addr = pr_trampoline_addr p' /\ holds pool' p' slot /\ pool_inv (pool', <[i := p']> ps).
Proof.
  intros Hi Hm Hs Hown. destruct (inv_slot_addr slot Hm Hs) as [Ha Hpos]. apply slot_validP in Hs as Hv.
  unfold zt_trampoline_pool_assign_slot. rewrite Hv. cbn [negb].
  destruct (Z.eqb_spec (zt_trampoline_pool_slot_addr pool slot) 0); [lia|].
  eexists _, _, _. split; [done|]. rewrite Ha. split; [done|].
  assert (Hh : holds (set_slot_used slot 1 pool)
    (set_probe_slot slot (pool_remote_addr pool + slot * ZT_TRAMPOLINE_POOL_SLOT_SIZE) p) slot)
    by by split_and!; try lia.
  split; [done|]. split; cbn [fst snd].
  - cbn. rewrite length_arr_set. apply (pi_length _ Hinv).
  - apply (pi_mapped _ Hinv).
  - intros j q Hj Haq. destruct (lookup_updated _ _ _ _ Hj) as [[-> ->]|[Hne Hq]].
    + exists slot. split; [done|]. cbn. apply arr_get_set_eq. by apply used_bound.
    + destruct (inv_holds j q Hq Haq) as [Hhq Hu]. exists (pr_trampoline_slot q). split; [done|]. cbn.
      destruct (Z.eq_dec slot (pr_trampoline_slot q)) as [->|Hne'].
      * apply arr_get_set_eq. apply used_bound, Hhq.
      * rewrite arr_get_set_ne; [done|lia|apply Hhq|done].
  - intros slot' Hs' Hu. cbn in Hu. destruct (Z.eq_dec slot slot') as [<-|Hne'].
    { eexists i, _. split; [apply list_lookup_insert_eq; by eapply lookup_lt_Some|exact Hh]. }
    rewrite arr_get_set_ne in Hu by lia. destruct (pi_owner _ Hinv slot' Hs' Hu) as (j & q & Hj & Hhq).
    exists j, q. split; [|exact Hhq]. rewrite list_lookup_insert_ne; [done|]. intros ->. cbn in *.
    assert (q = p) as -> by congruence. pose proof (holds_addr _ _ Hhq) as Hnz.
    destruct Hown as [[_ ?]|(_ & _ & Hsl & _)]; [done|]. destruct Hhq as (_ & _ & Hsl' & _). lia.
  - assert (Hfree : forall j q, j <> i -> ps !! j = Some q -> ~ holds pool q slot).
    { intros j q Hne Hq Hhq. destruct Hown as [[Hu _]|Hhp].
      - destruct (inv_holds j q Hq (holds_addr _ _ Hhq)) as [_ Hu'].
        destruct Hhq as (_ & _ & Hsl & _). rewrite Hsl in Hu'. lia.
      - apply Hne. by eapply (pi_unique _ Hinv). }
    intros j k q r slot' Hj Hk Hhq Hhr.
    destruct (lookup_updated _ _ _ _ Hj) as [[-> ->]|[Hnj Hq]],
      (lookup_updated _ _ _ _ Hk) as [[-> ->]|[Hnk Hr]]; [done|..].
    + destruct Hhq as (_ & _ & Hsl & _). cbn in Hsl. subst slot'. by destruct (Hfree k r Hnk Hr).
    + destruct Hhr as (_ & _ & Hsl & _). cbn in Hsl. subst slot'. by destruct (Hfree j q Hnj Hq).
    + by eapply (pi_unique _ Hinv).
Qed.

(** The scan finds the first free slot, or all slots are used. *)
Lemma alloc_loop_spec n slot p :
  match arr_get (pool_slot_used pool) with
  | u => (exists s, slot <= s < slot + Z.of_nat n /\ u s = 0 /\
           alloc_loop n slot pool p = zt_trampoline_pool_assign_slot pool p s) \/
         (alloc_loop n slot pool p = (None, pool, p) /\ forall s, slot <= s < slot + Z.of_nat n -> u s <> 0)
  end.
Proof.
  revert slot. induction n as [|n IH]; intros slot; cbn [alloc_loop]; [right; split; [done|lia]|].
  unfold truthy. destruct (Z.eqb_spec (arr_get (pool_slot_used pool) slot) 0) as [H0|H0]; cbn [negb].
  - left. exists slot. split_and!; [lia|lia|done|done].
  - destruct (IH (slot + 1)) as [(s & Hs & Hu & Heq)|[Heq Hall]].
    + left. exists s. split_and!; [lia|lia|done|done].
    + right. split; [done|]. intros s Hs. destruct (Z.eq_dec s slot) as [->|]; [done|]. apply Hall. lia.
Qed.
End invariant.

(** Without a mapping no probe has an address and no slot is used. *)
Lemma unmapped_free pool ps :
  pool_inv (pool, ps) -> pool_remote_addr pool = 0 ->
  (forall i p, ps !! i = Some p -> pr_trampoline_addr p = 0) /\
  (forall s, 0 <= s < ZT_TRAMPOLINE_POOL_SLOTS -> arr_get (pool_slot_used pool) s = 0).
Proof.
  intros Hinv Hm. split.
  - intros i p Hi. destruct (Z.eq_dec (pr_trampoline_addr p) 0) as [|Ha]; [done|].
    by destruct (inv_holds _ _ Hinv _ _ Hi Ha) as [(_ & ? & _) _].
  - intros s Hs. destruct (Z.eq_dec (arr_get (pool_slot_used pool) s) 0) as [|Hu]; [done|].
    by destruct (pi_owner _ Hinv s Hs Hu) as (i & p & _ & (_ & ? & _)).
Qed.

(** A pool with nothing used and no probe with an address. *)
Lemma fresh_inv addr size used ps :
  length used = Z.to_nat ZT_TRAMPOLINE_POOL_SLOTS ->
  (addr <> 0 -> 0 < addr /\ addr + ZT_TRAMPOLINE_POOL_SIZE <= 2 ^ 64) ->
  (forall s, 0 <= s < ZT_TRAMPOLINE_POOL_SLOTS -> arr_get used s = 0) ->
  (forall i p, ps !! i = Some p -> pr_trampoline_addr p = 0) ->
  pool_inv (mk_pool addr size used, ps).
Proof.
  intros Hl Ha Hu Hp. split; cbn; [done|done|..].
  - intros i p Hi Hnz. by destruct Hnz; apply (Hp i).
  - intros s Hs Hnz. by destruct Hnz; apply Hu.
  - intros i j p q s Hi _ (Hs & Hm & _ & Heq) _. specialize (Hp _ _ Hi). destruct (Ha Hm). cbn in *.
    unfold ZT_TRAMPOLINE_POOL_SLOT_SIZE, ZT_TRAMPOLINE_MAX_SIZE in *. lia.
Qed.

Lemma zeros_free s : 0 <= s < ZT_TRAMPOLINE_POOL_SLOTS ->
  arr_get (replicate (Z.to_nat ZT_TRAMPOLINE_POOL_SLOTS) 0) s = 0.
Proof.
  intros. unfold arr_get. rewrite list_lookup_total_alt, lookup_replicate_2; [done|]. lia.
Qed.

Definition mmap_ok (E : pool_env) : Prop :=
  forall a, pe_mmap E = Some a -> 0 < a /\ a + ZT_TRAMPOLINE_POOL_SIZE <= 2 ^ 64.

Lemma ensure_inv E pool ps :
  pool_inv (pool, ps) -> mmap_ok E ->
  let '(rc, pool') := zt_trampoline_pool_ensure E pool in
  pool_inv (pool', ps) /\
  (rc = 0 /\ pool_remote_addr pool' <> 0 \/
   rc = -1 /\ pool' = pool /\ pool_remote_addr pool = 0 /\ pe_mmap E = None).
Proof.
  intros Hinv HE. unfold zt_trampoline_pool_ensure.
  destruct (Z.eqb_spec (pool_remote_addr pool) 0) as [H0|H0]; cbn [negb]; [|auto].
  destruct (pe_mmap E) as [a|] eqn:Ha; [|split; [done|by right]]. destruct (HE a Ha). cbn. split; [|left; lia].
  apply fresh_inv; [done|done|apply zeros_free|]. by destruct (unmapped_free pool ps Hinv H0).
Qed.

(** Allocation keeps the invariant; it succeeds with a slot of its own for the
    probe, or fails because mmap failed, every slot is taken, or the probe names a
    slot it lost to another probe. *)
Lemma alloc_spec E pool ps i p :
  pool_inv (pool, ps) -> mmap_ok E -> ps !! i = Some p ->
  let '(r, pool', p') := zt_trampoline_pool_alloc E pool p in
  pool_inv (pool', <[i := p']> ps) /\
  match r with
  | Some addr => exists slot, holds pool' p' slot /\ addr = pr_trampoline_addr p'
  | None => p' = p /\ (pool_remote_addr pool = 0 /\ pe_mmap E = None \/
      (exists j q, j <> i /\ ps !! j = Some q /\ holds pool q (pr_trampoline_slot p)) \/
      forall s, 0 <= s < ZT_TRAMPOLINE_POOL_SLOTS -> exists j q, ps !! j = Some q /\ holds pool' q s)
  end.
Proof.
  intros Hinv HE Hi. unfold zt_trampoline_pool_alloc.
  destruct (zt_trampoline_pool_slot_valid (pr_trampoline_slot p)
            && negb (pool_remote_addr pool =? 0)) eqn:Hg.
  - apply andb_true_iff in Hg as [Hv Hm]. apply slot_validP in Hv. zbool.
    destruct (truthy _ && negb _) eqn:Hc.
    + zbool. split; [by rewrite list_insert_id|]. split; [done|]. right; left.
      unfold truthy in *. zbool. destruct (pi_owner _ Hinv _ Hv) as (j & q & Hj & Hh); [done|].
      exists j, q. split_and!; [|done|done]. intros ->. cbn in Hj. assert (q = p) as -> by congruence.
      revert H0. unfold zt_trampoline_pool_slot_belongs_to_probe.
      pose proof (proj2 (slot_validP _) Hv) as ->. cbn [negb].
      destruct (inv_slot_addr _ _ Hinv _ Hm Hv) as [-> ?]. destruct Hh as (_ & _ & _ & ->).
      rewrite Z.eqb_refl, andb_true_r. intros. zbool. lia.
    + destruct (assign_inv _ _ Hinv i p (pr_trampoline_slot p) Hi Hm Hv) as (addr & pool' & p' & -> & Hae & Hh & Hi').
      * unfold truthy in Hc. destruct (Z.eqb_spec (arr_get (pool_slot_used pool) (pr_trampoline_slot p)) 0) as [Hu|Hu].
        -- left. split; [done|]. destruct (Z.eq_dec (pr_trampoline_addr p) 0) as [|Hnz]; [done|].
           destruct (inv_holds _ _ Hinv _ _ Hi Hnz). lia.
        -- right. cbn [negb andb] in Hc. zbool. by apply (belongs_holds _ _ Hinv).
      * eauto.
  - assert (Ha : pr_trampoline_addr p = 0).
    { destruct (Z.eq_dec (pr_trampoline_addr p) 0) as [|Hnz]; [done|].
      destruct (inv_holds _ _ Hinv _ _ Hi Hnz) as [(Hv & Hm & _) _]. apply slot_validP in Hv.
      rewrite Hv in Hg. destruct (Z.eqb_spec (pool_remote_addr pool) 0); done. }
    pose proof (ensure_inv E pool ps Hinv HE) as He.
    destruct (zt_trampoline_pool_ensure E pool) as [rc pool1].
    destruct He as [Hinv1 [[-> Hm]|(-> & -> & H0 & Hmm)]]; cbn [Z.eqb negb].
    + destruct (alloc_loop_spec pool1 (Z.to_nat ZT_TRAMPOLINE_POOL_SLOTS) 0 p)
        as [(s & Hs & Hu & ->)|[-> Hall]]; rewrite Z2Nat.id, Z.add_0_l in * by done.
      * destruct (assign_inv _ _ Hinv1 i p s Hi Hm Hs) as (addr & pool' & p' & -> & Hae & Hh & Hi'); [by left|eauto].
      * split; [by rewrite list_insert_id|]. split; [done|]. right; right. intros s Hs.
        by apply (pi_owner _ Hinv1); [|apply Hall].
    + split; [by rewrite list_insert_id|]. auto.
Qed.

Lemma all_free_spec pool s :
  length (pool_slot_used pool) = Z.to_nat ZT_TRAMPOLINE_POOL_SLOTS ->
  zt_trampoline_pool_all_free pool = true -> 0 <= s < ZT_TRAMPOLINE_POOL_SLOTS ->
  arr_get (pool_slot_used pool) s = 0.
Proof.
  intros Hl Hf Hs. unfold zt_trampoline_pool_all_free in Hf. rewrite forallb_forall in Hf.
  apply Z.eqb_eq, Hf, list_elem_of_In. unfold arr_get. apply list_elem_of_lookup_total_2. lia.
Qed.

(** Taking back the slot of a probe, before the pool itself may be unmapped. *)
Lemma free_inv pool ps i p :
  pool_inv (pool, ps) -> ps !! i = Some p ->
  0 <= pr_trampoline_slot p < ZT_TRAMPOLINE_POOL_SLOTS ->
  holds pool p (pr_trampoline_slot p) \/
    (arr_get (pool_slot_used pool) (pr_trampoline_slot p) = 0 /\ pr_trampoline_addr p = 0) ->
  pool_inv (set_slot_used (pr_trampoline_slot p) 0 pool,
            <[i := zt_trampoline_pool_clear_probe_slot p]> ps).
Proof.
  intros Hinv Hi Hv Hown. set (slot := pr_trampoline_slot p) in *.
  assert (Hother : forall j q, j <> i -> ps !! j = Some q -> pr_trampoline_addr q <> 0 ->
    pr_trampoline_slot q <> slot).
  { intros j q Hne Hq Hnz Heq. destruct (inv_holds _ _ Hinv _ _ Hq Hnz) as [Hh Hu]. rewrite Heq in *.
    destruct Hown as [Hp|[Hu0 _]]; [|lia]. apply Hne. by eapply (pi_unique _ Hinv). }
  split; cbn [fst snd].
  - cbn. rewrite length_arr_set. apply (pi_length _ Hinv).
  - apply (pi_mapped _ Hinv).
  - intros j q Hj Hnz. destruct (lookup_updated _ _ _ _ _ Hj) as [[-> ->]|[Hne Hq]]; [done|].
    destruct (inv_holds _ _ Hinv _ _ Hq Hnz) as [Hh Hu]. exists (pr_trampoline_slot q).
    split; [done|]. cbn. rewrite arr_get_set_ne; [done|lia|apply Hh|]. intros Heq. by eapply Hother.
  - intros s Hs Hu. cbn in Hu. destruct (Z.eq_dec slot s) as [<-|Hne].
    { rewrite arr_get_set_eq in Hu; [done|]. by eapply used_bound. }
    rewrite arr_get_set_ne in Hu by lia. destruct (pi_owner _ Hinv s Hs Hu) as (j & q & Hj & Hh).
    exists j, q. split; [|done]. rewrite list_lookup_insert_ne; [done|]. intros ->. cbn in *.
    assert (q = p) as -> by congruence. destruct Hh as (_ & _ & Hsl & _). done.
  - intros j k q r s Hj Hk Hhq Hhr.
    assert (Hnc : ~ holds (set_slot_used slot 0 pool) (zt_trampoline_pool_clear_probe_slot p) s).
    { intros (Hs & _ & Hsl & _). cbn in Hsl. lia. }
    destruct (lookup_updated _ _ _ _ _ Hj) as [[-> ->]|[Hnj Hq]]; [done|].
    destruct (lookup_updated _ _ _ _ _ Hk) as [[-> ->]|[Hnk Hr]]; [done|].
    by eapply (pi_unique _ Hinv).
Qed.

(** Release keeps the invariant; the pool is unmapped only when no probe owns a
    slot any more. *)
Lemma release_spec E pool ps i p :
  pool_inv (pool, ps) -> ps !! i = Some p ->
  let '(pool', p') := zt_trampoline_pool_release E pool p in
  pool_inv (pool', <[i := p']> ps) /\ pr_trampoline_addr p' = 0 \/
  (pool', p') = (pool, p) /\ pr_trampoline_addr p = 0.
Proof.
  intros Hinv Hi. unfold zt_trampoline_pool_release.
  destruct (zt_trampoline_pool_slot_valid (pr_trampoline_slot p)) eqn:Hv; cbn [negb].
  2:{ right. split; [done|]. destruct (Z.eq_dec (pr_trampoline_addr p) 0) as [|Hnz]; [done|].
      destruct (inv_holds _ _ Hinv _ _ Hi Hnz) as [(Hs & _) _]. apply slot_validP in Hs. congruence. }
  apply slot_validP in Hv. destruct (negb _ && truthy _ && negb _) eqn:Hc.
  { right. split; [done|]. zbool. destruct (Z.eq_dec (pr_trampoline_addr p) 0) as [|Hnz]; [done|].
    destruct (inv_holds _ _ Hinv _ _ Hi Hnz) as [(Hs & Hm & _ & Ha) _].
    revert H0. unfold zt_trampoline_pool_slot_belongs_to_probe.
    pose proof (proj2 (slot_validP _) Hs) as ->. cbn [negb].
    destruct (inv_slot_addr _ _ Hinv _ Hm Hs) as [-> ?]. rewrite Ha, Z.eqb_refl, andb_true_r.
    intros. zbool. lia. }
  assert (Hown : holds pool p (pr_trampoline_slot p) \/
    (arr_get (pool_slot_used pool) (pr_trampoline_slot p) = 0 /\ pr_trampoline_addr p = 0)).
  { destruct (Z.eq_dec (pr_trampoline_addr p) 0) as [Hz|Hnz].
    - right. split; [|done]. destruct (Z.eq_dec (pool_remote_addr pool) 0) as [Hm|Hm].
      { by apply (unmapped_free pool ps). }
      destruct (Z.eq_dec (arr_get (pool_slot_used pool) (pr_trampoline_slot p)) 0) as [|Hu]; [done|].
      destruct (zt_trampoline_pool_slot_belongs_to_probe pool p (pr_trampoline_slot p)) eqn:Hb.
      + apply (belongs_holds _ _ Hinv) in Hb. by apply (holds_addr _ _ Hinv) in Hb.
      + unfold truthy in Hc. destruct (Z.eqb_spec (pool_remote_addr pool) 0),
          (Z.eqb_spec (arr_get (pool_slot_used pool) (pr_trampoline_slot p)) 0); done.
    - left. by apply (inv_holds _ _ Hinv i). }
  pose proof (free_inv _ _ _ _ Hinv Hi Hv Hown) as Hf.
  set (pool1 := set_slot_used (pr_trampoline_slot p) 0 pool) in *.
  destruct (negb (pool_remote_addr pool1 =? 0) && zt_trampoline_pool_all_free pool1) eqn:Hall; [|by left].
  destruct (pe_munmap_ok E); [|by left]. left. split; [|done]. zbool.
  assert (Hz : forall s, 0 <= s < ZT_TRAMPOLINE_POOL_SLOTS -> arr_get (pool_slot_used pool1) s = 0)
    by (intros; apply all_free_spec; [apply (pi_length _ Hf)|done|done]).
  apply fresh_inv; [done|done|apply zeros_free|]. intros j q Hj.
  destruct (Z.eq_dec (pr_trampoline_addr q) 0) as [|Hnz]; [done|].
  destruct (inv_holds _ _ Hf _ _ Hj Hnz) as [(Hs & _) Hu]. rewrite Hz in Hu; [done|exact Hs].
Qed.

Lemma pool_step_inv x y : pool_step x y -> pool_inv x -> pool_inv y.
Proof.
  destruct 1 as [E pool ps i p r pool' p' Hi HE Ha|E pool ps i p pool' p' Hi Hr]; intros Hinv.
  - pose proof (alloc_spec E pool ps i p Hinv HE Hi) as H. rewrite Ha in H. by destruct H.
  - pose proof (release_spec E pool ps i p Hinv Hi) as H. rewrite Hr in H.
    destruct H as [[? _]|[[= -> ->] _]]; [done|]. by rewrite list_insert_id.
Qed.

(** Any number of pool operations. *)
Definition pool_steps : pool_state -> pool_state -> Prop := rtc pool_step.

Lemma pool_steps_inv x y : pool_steps x y -> pool_inv x -> pool_inv y.
Proof. induction 1 as [|x y z Hs _ IH]; [done|]. intros Hx. apply IH. by eapply pool_step_inv. Qed.

(** The bytes of a trampoline slot. *)
Definition in_slot (p : zt_probe_info_t) (a : Z) : Prop :=
  pr_trampoline_addr p <= a < pr_trampoline_addr p + ZT_TRAMPOLINE_POOL_SLOT_SIZE.

(** C24: trampolines never overlap.  After any sequence of allocations and releases
    starting from an empty pool, the 512-byte areas of two probes with a
    trampoline are disjoint and lie inside the mapped pool; in particular the
    pool is never unmapped under a probe. *)
Theorem trampolines_disjoint ps pool ps' i j p q a :
  Forall (fun p => pr_trampoline_addr p = 0) ps ->
  pool_steps (zero_pool, ps) (pool, ps') ->
  ps' !! i = Some p -> ps' !! j = Some q -> i <> j ->
  pr_trampoline_addr p <> 0 -> pr_trampoline_addr q <> 0 -> in_slot p a ->
  ~ in_slot q a /\
  pool_remote_addr pool <= a < pool_remote_addr pool + ZT_TRAMPOLINE_POOL_SIZE /\
  pool_remote_addr pool <> 0.
Proof.
  intros H0 Hsteps Hi Hj Hne Hp Hq Ha. apply pool_steps_inv in Hsteps as Hinv.
  2:{ apply fresh_inv; [done|done|apply zeros_free|]. rewrite Forall_forall in H0.
      intros k r Hk. apply H0. by eapply list_elem_of_lookup_2. }
  destruct (inv_holds _ _ Hinv _ _ Hi Hp) as [Hhp _], (inv_holds _ _ Hinv _ _ Hj Hq) as [Hhq _].
  assert (Hdiff : pr_trampoline_slot p <> pr_trampoline_slot q).
  { intros Heq. rewrite <- Heq in Hhq. apply Hne. by eapply (pi_unique _ Hinv). }
  unfold in_slot in *. destruct Hhp as (Hs & Hm & _ & Hap), Hhq as (Hs' & _ & _ & Haq).
  unfold ZT_TRAMPOLINE_POOL_SIZE, ZT_TRAMPOLINE_POOL_SLOTS, ZT_TRAMPOLINE_POOL_SLOT_SIZE,
    ZT_PROBES_CAPACITY, ZT_TRAMPOLINE_MAX_SIZE in *. cbn in *.
  rewrite Hap in Ha. rewrite Haq. split_and!; [|lia|lia|done].
  destruct (Z.lt_total (pr_trampoline_slot p) (pr_trampoline_slot q)) as [?|[?|?]]; [lia|done|lia].
Qed.

(** Allocation fails only for a reason.  In a consistent pool it either gives
    the probe a slot of its own, or leaves the probe unchanged because the remote
    mmap failed, because another probe owns the slot this one still names, or
    because all 32 slots are owned. *)
Lemma zt_trampoline_pool_alloc_spec E pool ps i p :
  pool_inv (pool, ps) -> mmap_ok E -> ps !! i = Some p ->
  let '(r, pool', p') := zt_trampoline_pool_alloc E pool p in
  match r with
  | Some addr => exists slot, holds pool' p' slot /\ addr = pr_trampoline_addr p'
  | None => p' = p /\ (pool_remote_addr pool = 0 /\ pe_mmap E = None \/
      (exists j q, j <> i /\ ps !! j = Some q /\ holds pool q (pr_trampoline_slot p)) \/
      forall s, 0 <= s < ZT_TRAMPOLINE_POOL_SLOTS -> exists j q, ps !! j = Some q /\ holds pool' q s)
  end.
Proof.
  intros Hinv HE Hi. pose proof (alloc_spec E pool ps i p Hinv HE Hi) as H.
  destruct (zt_trampoline_pool_alloc E pool p) as [[r pool'] p']. apply H.
Qed.

(** ** Witnesses *)

Definition pool_probe : zt_probe_info_t := set_probe_slot (-1) 0 zero_probe.
Definition env_65536 : pool_env := mk_pool_env (Some 65536) true.

(** C24 at two probes allocated one after the other. *)
Lemma trampolines_disjoint_witness :
  let p := set_probe_slot 0 65536 zero_probe in
  let q := set_probe_slot 1 66048 zero_probe in
  ~ in_slot q 66000.
Proof.
  intros p q.
  apply (trampolines_disjoint [pool_probe; pool_probe]
    (mk_pool 65536 16384 (1 :: 1 :: replicate 30 0)) [p; q] 0 1 p q 66000).
  - repeat constructor.
  - apply (rtc_l _ _ (mk_pool 65536 16384 (1 :: replicate 31 0), [p; pool_probe])).
    + apply (ps_alloc env_65536 zero_pool [pool_probe; pool_probe] 0 pool_probe (Some 65536) _ p); [reflexivity| |vm_compute; reflexivity].
      intros a [= <-]. split; [reflexivity|discriminate].
    + apply rtc_once.
      apply (ps_alloc env_65536 (mk_pool 65536 16384 (1 :: replicate 31 0)) [p; pool_probe] 1 pool_probe
        (Some 66048) _ q); [reflexivity| |vm_compute; reflexivity].
      intros a [= <-]. split; [reflexivity|discriminate].
  - reflexivity.
  - reflexivity.
  - discriminate.
  - discriminate.
  - discriminate.
  - split; [discriminate|reflexivity].
Defined.

(** At the first allocation. *)
Lemma zt_trampoline_pool_alloc_spec_witness :
  exists slot, holds (mk_pool 65536 16384 (1 :: replicate 31 0)) (set_probe_slot 0 65536 zero_probe) slot.
Proof.
  pose proof (zt_trampoline_pool_alloc_spec env_65536 zero_pool [pool_probe] 0 pool_probe) as H.
  change (zt_trampoline_pool_alloc env_65536 zero_pool pool_probe) with
    (Some 65536, mk_pool 65536 16384 (1 :: replicate 31 0), set_probe_slot 0 65536 zero_probe) in H.
  destruct H as (slot & Hs & _).
  - apply fresh_inv; [reflexivity|intros Hn; destruct (Hn eq_refl)|apply zeros_free|].
    intros [|i] p; [intros [= <-]; reflexivity|discriminate].
  - intros a [= <-]. split; [reflexivity|discriminate].
  - reflexivity.
  - exists slot. exact Hs.
Defined.
