(* ===== verification/Emit.v ===== *)
(** * Emitting code into a buffer

    zt_emit_bytes, which both trampoline builders (src/isa/*/trampoline_manager.c)
    have a copy of, and the algebra of emissions.  A buffer is a byte list whose
    length is the buffer size. *)

From S2P Require Import Prelude CLib Types.

(** [None] is -1; otherwise the buffer and the advanced offset. *)
Definition zt_emit_bytes (buf : list Z) (offset : Z) (src : list Z) : option (list Z * Z) :=
  let size := Z.of_nat (length src) in
  if offset + size >? Z.of_nat (length buf) then None
  else Some (memcpy_at (Z.to_nat offset) src buf, offset + size).

(** The chain of [zt_emit_bytes(...) != 0 || ...]: stops at the first failure. *)
Fixpoint emit_all (buf : list Z) (offset : Z) (parts : list (list Z)) : option (list Z * Z) :=
  match parts with
  | [] => Some (buf, offset)
  | src :: parts =>
      match zt_emit_bytes buf offset src with
      | None => None
      | Some (buf, offset) => emit_all buf offset parts
      end
  end.

(** ** Buffers *)

Lemma memcpy_at_nil off buf : memcpy_at off [] buf = buf.
Proof. unfold memcpy_at. cbn. rewrite Nat.add_0_r. apply take_drop. Qed.

Lemma memcpy_at_skip n k src a c : n = (length a + k)%nat -> memcpy_at n src (a ++ c) = a ++ memcpy_at k src c.
Proof.
  intros ->. unfold memcpy_at. rewrite take_app_add, <- Nat.add_assoc, drop_app_add, <- app_assoc. done.
Qed.

(** Writing right behind, and writing inside, what was just written. *)
Lemma memcpy_at_behind off a b buf :
  (off + length a <= length buf)%nat ->
  memcpy_at (off + length a) b (memcpy_at off a buf) = memcpy_at off (a ++ b) buf.
Proof.
  intros Hl. unfold memcpy_at at 2 3. rewrite app_assoc.
  rewrite (memcpy_at_skip _ 0) by (rewrite length_app, length_take; lia).
  unfold memcpy_at. rewrite take_0, drop_drop, length_app, <- !app_assoc. cbn [app].
  do 3 f_equal. f_equal. lia.
Qed.

Lemma memcpy_at_inside off k src a buf :
  (off <= length buf)%nat -> (k + length src <= length a)%nat ->
  memcpy_at (off + k) src (memcpy_at off a buf) = memcpy_at off (memcpy_at k src a) buf.
Proof.
  intros Hl Hk. unfold memcpy_at at 2 3.
  rewrite (memcpy_at_skip _ k) by (rewrite length_take; lia). f_equal.
  rewrite length_memcpy_at by lia. unfold memcpy_at.
  rewrite take_app_le, drop_app_le by lia. by rewrite <- !app_assoc.
Qed.

(** ** Emission *)

Definition fits (buf : list Z) (offset : Z) (bs : list Z) : bool :=
  offset + Z.of_nat (length bs) <=? Z.of_nat (length buf).

(** The result of emitting bytes that may or may not fit. *)
Definition emitted (buf : list Z) (offset : Z) (bs : list Z) : option (list Z * Z) :=
  if fits buf offset bs
  then Some (memcpy_at (Z.to_nat offset) bs buf, offset + Z.of_nat (length bs)) else None.

Lemma emit_bytes_eq buf offset src : zt_emit_bytes buf offset src = emitted buf offset src.
Proof.
  unfold zt_emit_bytes, emitted, fits. rewrite Z.gtb_ltb, Z.ltb_antisym.
  by destruct (offset + Z.of_nat (length src) <=? Z.of_nat (length buf)).
Qed.

(** Emitting twice is emitting the concatenation. *)
Lemma emitted_app buf offset a b :
  0 <= offset ->
  match emitted buf offset a with
  | None => None
  | Some (buf', offset') => emitted buf' offset' b
  end = emitted buf offset (a ++ b).
Proof.
  intros H0. unfold emitted at 1 3, fits. rewrite length_app.
  destruct (Z.leb_spec (offset + Z.of_nat (length a)) (Z.of_nat (length buf))) as [Hf|Hf].
  - unfold emitted, fits. rewrite length_memcpy_at by lia.
    rewrite <- Z.add_assoc, <- Nat2Z.inj_add. destruct (_ <=? _); [|done].
    rewrite Z2Nat.inj_add, Nat2Z.id, memcpy_at_behind by lia. done.
  - destruct (Z.leb_spec (offset + Z.of_nat (length a + length b)) (Z.of_nat (length buf))); [lia|done].
Qed.

Lemma emitted_bind buf offset a b k :
  0 <= offset ->
  (forall buf' offset', length buf' = length buf -> 0 <= offset' <= Z.of_nat (length buf') ->
    offset' = offset + Z.of_nat (length a) -> k buf' offset' = emitted buf' offset' b) ->
  match emitted buf offset a with
  | None => None
  | Some (buf', offset') => k buf' offset'
  end = emitted buf offset (a ++ b).
Proof.
  intros H0 Hk. rewrite <- emitted_app by done. unfold emitted at 1 2, fits.
  destruct (Z.leb_spec (offset + Z.of_nat (length a)) (Z.of_nat (length buf))); [|done].
  apply Hk; rewrite ?length_memcpy_at by lia; lia.
Qed.

Lemma emit_all_eq buf offset parts :
  0 <= offset <= Z.of_nat (length buf) -> emit_all buf offset parts = emitted buf offset (concat parts).
Proof.
  revert buf offset. induction parts as [|src parts IH]; intros buf offset H0; cbn [emit_all concat].
  - unfold emitted, fits. cbn. rewrite Z.add_0_r, memcpy_at_nil.
    destruct (Z.leb_spec offset (Z.of_nat (length buf))); [done|lia].
  - rewrite emit_bytes_eq. apply emitted_bind; [lia|]. intros. by apply IH.
Qed.

(** ** Code in memory, for the processor models *)

(** The little-endian word of [n] bytes at [a]. *)
Definition load (m : Z -> Z) (a : Z) (n : nat) : Z :=
  le_word (map (fun i => m (a + Z.of_nat i)) (seq 0 n)).

(** The bytes [bs] are in memory from [a] on. *)
Definition code_at (m : Z -> Z) (a : Z) (bs : list Z) : Prop :=
  forall i b, bs !! i = Some b -> m (a + Z.of_nat i) = b.

Lemma code_at_app m a bs bs' :
  code_at m a (bs ++ bs') <-> code_at m a bs /\ code_at m (a + Z.of_nat (length bs)) bs'.
Proof.
  split.
  - intros H. split; intros i b Hi.
    + apply H. by apply lookup_app_l_Some.
    + rewrite <- Z.add_assoc, <- Nat2Z.inj_add. apply H. rewrite lookup_app_r by lia.
      by replace (length bs + i - length bs)%nat with i by lia.
  - intros [H1 H2] i b [Hi|[Hle Hi]]%lookup_app_Some; [by apply H1|].
    specialize (H2 _ _ Hi). by replace (a + Z.of_nat (length bs) + Z.of_nat (i - length bs))
      with (a + Z.of_nat i) in H2 by lia.
Qed.

Lemma code_at_shift m a a' bs : a = a' -> code_at m a bs -> code_at m a' bs.
Proof. by intros ->. Qed.

Lemma code_at_load m a bs : code_at m a bs -> load m a (length bs) = le_word bs.
Proof.
  intros H. unfold load. f_equal. apply list_eq. intros i. rewrite list_lookup_fmap.
  destruct (bs !! i) as [b|] eqn:Hi.
  - apply lookup_lt_Some in Hi as Hl. rewrite lookup_seq_lt by done. cbn. f_equal. by apply H.
  - apply lookup_ge_None in Hi. by rewrite lookup_seq_ge by done.
Qed.

Lemma byte_at m a bs i b : code_at m a bs -> 0 <= i -> bs !! Z.to_nat i = Some b -> m (a + i) = b.
Proof. intros H Hi Hb. specialize (H _ _ Hb). by rewrite Z2Nat.id in H. Qed.
