(* ===== verification/StubFrame.v ===== *)
(** * What the stubs of both instruction sets share

    Stores of words to a memory of bytes, the structures the stubs build on the
    stack (ctx_t and the area of vector registers), and the calls of the payload's
    functions with what they take from the registers and the stack. *)

From S2P Require Import Prelude CLib Types Payload Emit.

(** ** Words in memory *)

Definition mstore (n : nat) (m : Z -> Z) (a v : Z) : Z -> Z :=
  fun x => if (a <=? x) && (x <? a + Z.of_nat n) then arr_get (le_bytes n v) (x - a) else m x.

Lemma mstore_out n m a v x : x < a \/ a + Z.of_nat n <= x -> mstore n m a v x = m x.
Proof. intros H. unfold mstore. destruct (Z.leb_spec a x), (Z.ltb_spec x (a + Z.of_nat n)); cbn; try done; lia. Qed.

Lemma mstore_code n m a v : code_at (mstore n m a v) a (le_bytes n v).
Proof.
  intros i b Hi. apply lookup_lt_Some in Hi as Hl. rewrite length_le_bytes in Hl. unfold mstore.
  destruct (Z.leb_spec a (a + Z.of_nat i)), (Z.ltb_spec (a + Z.of_nat i) (a + Z.of_nat n)); try lia.
  cbn [andb]. unfold arr_get. replace (Z.to_nat (a + Z.of_nat i - a)) with i by lia. by apply list_lookup_total_correct.
Qed.

Lemma load_code n m a v : code_at m a (le_bytes n v) -> load m a n = v mod 256 ^ Z.of_nat n.
Proof. intros H. apply code_at_load in H. by rewrite length_le_bytes, le_word_le_bytes in H. Qed.

Lemma code_at_ext m m' a bs :
  (forall x, a <= x < a + Z.of_nat (length bs) -> m' x = m x) -> code_at m a bs -> code_at m' a bs.
Proof. intros He H i b Hi. apply lookup_lt_Some in Hi as Hl. rewrite He by lia. by apply H. Qed.

Lemma load_ext m m' a n : (forall x, a <= x < a + Z.of_nat n -> m' x = m x) -> load m' a n = load m a n.
Proof.
  intros He. unfold load. f_equal. apply map_ext_in. intros i Hi%in_seq. apply He. lia.
Qed.

Lemma mstore_load_out n k m a v b : b + Z.of_nat k <= a \/ a + Z.of_nat n <= b -> load (mstore n m a v) b k = load m b k.
Proof. intros H. apply load_ext. intros x Hx. apply mstore_out. lia. Qed.

(** A field of 8 bytes that holds a 64-bit value. *)
Definition slot (m : Z -> Z) (a v : Z) : Prop := code_at m a (le_bytes 8 v).

Lemma slot_store m a v : slot (mstore 8 m a v) a v.
Proof. apply mstore_code. Qed.

Lemma slot_load m a v : is_u64 v -> slot m a v -> load m a 8 = v.
Proof. intros Hv H. rewrite (load_code 8 m a v H). by apply u64_small. Qed.

Lemma slot_ext m m' a v : (forall x, a <= x < a + 8 -> m' x = m x) -> slot m a v -> slot m' a v.
Proof. intros He. apply code_at_ext. rewrite length_le_bytes. exact He. Qed.

Lemma slot_keep m a v b w : b + 8 <= a \/ a + 8 <= b -> slot m a v -> slot (mstore 8 m b w) a v.
Proof. intros Hb. apply slot_ext. intros x Hx. apply mstore_out. lia. Qed.

(** ** The structures on the stack *)

(** The ctx_t a pointer leads to. *)
Definition ctx_of (m : Z -> Z) (p : Z) : ctx_t :=
  let f i := load m (p + 8 * i) 8 in
  mk_ctx (f 0) (f 1) (f 2) (f 3) (f 4) (f 5) (f 6) (f 7) (f 8) (f 9) (f 10) (f 11) (f 12) (f 13) (f 14) (f 15) (f 16) (f 17).

(** The bytes of the vector registers. *)
Definition area (m : Z -> Z) (p : Z) (n : nat) : list Z := map (fun i => m (p + Z.of_nat i)) (seq 0 n).

Definition vec_bytes (v : Z -> Z) : list Z := concat (map (fun i => le_bytes 16 (v i)) (seqZ 0 8)).

Lemma area_code m p bs : code_at m p bs -> area m p (length bs) = bs.
Proof.
  intros H. unfold area. apply list_eq. intros i. rewrite list_lookup_fmap. destruct (bs !! i) as [b|] eqn:Hi.
  - apply lookup_lt_Some in Hi as Hl. rewrite lookup_seq_lt by done. cbn. f_equal. by apply H.
  - apply lookup_ge_None in Hi. by rewrite lookup_seq_ge by done.
Qed.

(** ** Register files *)

Definition upd (f : Z -> Z) (r v : Z) : Z -> Z := fun x => if x =? r then v else f x.

Lemma upd_same f r v : upd f r v r = v.
Proof. unfold upd. by rewrite Z.eqb_refl. Qed.

Lemma upd_other f r v q : q <> r -> upd f r v q = f q.
Proof. intros H. unfold upd. by rewrite (proj2 (Z.eqb_neq q r) H). Qed.

(** ** Storing and loading the vector registers *)

Definition vstores (m : Z -> Z) (a : Z) (v : Z -> Z) (l : list Z) : Z -> Z :=
  foldl (fun m i => mstore 16 m (a + 16 * i) (v i)) m l.

Lemma vstores_spec a v n k m :
  let m' := vstores m a v (seqZ k (Z.of_nat n)) in
  (forall x, x < a + 16 * k \/ a + 16 * (k + Z.of_nat n) <= x -> m' x = m x) /\
  code_at m' (a + 16 * k) (concat (map (fun i => le_bytes 16 (v i)) (seqZ k (Z.of_nat n)))).
Proof.
  revert k m. induction n as [|n IH]; intros k m; [done|].
  rewrite seqZ_cons by lia. replace (Z.pred (Z.of_nat (S n))) with (Z.of_nat n) by lia. cbn [map concat vstores foldl].
  set (m1 := mstore 16 m (a + 16 * k) (v k)). destruct (IH (Z.succ k) m1) as [H1 H2].
  change (foldl _ m1 ?l) with (vstores m1 a v l). split.
  - intros x Hx. rewrite H1 by lia. apply mstore_out. lia.
  - rewrite code_at_app, length_le_bytes. split.
    + eapply code_at_ext; [|apply mstore_code]. rewrite length_le_bytes. intros x Hx. apply H1. lia.
    + by replace (a + 16 * k + Z.of_nat 16) with (a + 16 * Z.succ k) by lia.
Qed.

Lemma vec_area m a v :
  code_at (vstores m a v (seqZ 0 8)) a (vec_bytes v) /\
  forall x, x < a \/ a + 128 <= x -> vstores m a v (seqZ 0 8) x = m x.
Proof.
  destruct (vstores_spec a v 8 0 m) as [H1 H2]. change (Z.of_nat 8) with 8 in *. split.
  - by replace (a + 16 * 0) with a in H2 by lia.
  - intros x Hx. apply H1. lia.
Qed.

Lemma vec_load_from a v n k m :
  code_at m (a + 16 * k) (concat (map (fun i => le_bytes 16 (v i)) (seqZ k (Z.of_nat n)))) ->
  forall i, k <= i < k + Z.of_nat n -> load m (a + 16 * i) 16 = v i mod 256 ^ 16.
Proof.
  revert k. induction n as [|n IH]; intros k Hc i Hi; [lia|]. revert Hc.
  rewrite seqZ_cons by lia. replace (Z.pred (Z.of_nat (S n))) with (Z.of_nat n) by lia. cbn [map concat].
  rewrite code_at_app, length_le_bytes. intros [Hc1 Hc2]. destruct (Z.eq_dec i k) as [->|]; [exact (load_code 16 _ _ _ Hc1)|].
  apply (IH (Z.succ k)); [|lia]. by replace (a + 16 * Z.succ k) with (a + 16 * k + Z.of_nat 16) by lia.
Qed.

Lemma vec_load m a v i : code_at m a (vec_bytes v) -> 0 <= i < 8 -> 0 <= v i < 256 ^ 16 -> load m (a + 16 * i) 16 = v i.
Proof.
  intros Hc Hi Hv. rewrite (vec_load_from a v 8 0 m); [by apply Z.mod_small| |exact Hi]. by replace (a + 16 * 0) with a by lia.
Qed.

(** ** Storing words of a frame *)

Definition mstores (m : Z -> Z) (a : Z) (l : list (Z * Z)) : Z -> Z :=
  foldl (fun m '(off, v) => mstore 8 m (a + off) v) m l.

(** Offsets within [lo, hi), and fields that do not overlap. *)
Definition within (lo hi : Z) (l : list Z) : bool := forallb (fun off => (lo <=? off) && (off + 8 <=? hi)) l.

Fixpoint apart (l : list Z) : bool :=
  match l with
  | [] => true
  | off :: l => forallb (fun o => (o + 8 <=? off) || (off + 8 <=? o)) l && apart l
  end.

Lemma apart_app l1 l2 :
  apart (l1 ++ l2) = true ->
  apart l1 = true /\ apart l2 = true /\ forall o1 o2, o1 ∈ l1 -> o2 ∈ l2 -> o2 + 8 <= o1 \/ o1 + 8 <= o2.
Proof.
  induction l1 as [|o l1 IH]; cbn [app apart].
  - intros H. split_and!; [done|done|]. by intros o1 o2 ?%not_elem_of_nil.
  - rewrite forallb_app. intros [[H1 H2]%andb_prop (A1 & A2 & A3)%IH]%andb_prop. rewrite H1. split_and!; [done|done|].
    intros o1 o2 [->|H]%elem_of_cons Ho2; [|by apply A3]. rewrite forallb_forall in H2. apply list_elem_of_In in Ho2.
    specialize (H2 _ Ho2). apply orb_prop in H2 as [?%Z.leb_le|?%Z.leb_le]; lia.
Qed.

Lemma within_elem lo hi l off : within lo hi l = true -> off ∈ l -> lo <= off /\ off + 8 <= hi.
Proof.
  unfold within. rewrite forallb_forall. intros H Ho%list_elem_of_In. specialize (H _ Ho).
  by apply andb_prop in H as [?%Z.leb_le ?%Z.leb_le].
Qed.

Lemma mstores_far m a l x :
  (forall off, off ∈ map fst l -> x < a + off \/ a + off + 8 <= x) -> mstores m a l x = m x.
Proof.
  revert m. induction l as [|[off v] l IH]; intros m H; [done|].
  change (mstores m a ((off, v) :: l)) with (mstores (mstore 8 m (a + off) v) a l).
  rewrite IH by (intros o Ho; apply H; by right). apply mstore_out. apply H. by left.
Qed.

Lemma mstores_out lo hi m a l x :
  within lo hi (map fst l) = true -> x < a + lo \/ a + hi <= x -> mstores m a l x = m x.
Proof.
  intros Hw Hx. apply mstores_far. intros off Ho. pose proof (within_elem _ _ _ _ Hw Ho). lia.
Qed.

Lemma mstores_slot m a l off v : apart (map fst l) = true -> (off, v) ∈ l -> slot (mstores m a l) (a + off) v.
Proof.
  revert m. induction l as [|[o w] l IH]; intros m; [by intros _ ?%not_elem_of_nil|]. cbn [map fst apart]. intros [H1 H2]%andb_prop Hin.
  change (mstores m a ((o, w) :: l)) with (mstores (mstore 8 m (a + o) w) a l).
  apply elem_of_cons in Hin as [[= -> ->]|Hin]; [|by apply IH]. apply slot_ext with (mstore 8 m (a + o) w); [|apply slot_store].
  intros x Hx. apply mstores_far. intros o' Ho'. rewrite forallb_forall in H1. apply list_elem_of_In in Ho'.
  specialize (H1 _ Ho'). apply orb_prop in H1 as [?%Z.leb_le|?%Z.leb_le]; lia.
Qed.

(** ** Calls of the payload *)

Inductive payload_fn := PF_handle_entry | PF_save_probe_frame | PF_peek_probe_id | PF_handle_return | PF_get_ret_addr.

Section calls.
Context (E : env_t).

Definition context_at (m : Z -> Z) (p : Z) : option ctx_t := if p =? 0 then None else Some (ctx_of m p).
Definition fp_area_at (m : Z -> Z) (p : Z) : option (list Z) := if p =? 0 then None else Some (area m p 128).

(** The function's result, if it has one, and the payload afterwards; [a0] and [a1] are
    the first two arguments. *)
Definition payload_call (f : payload_fn) (a0 a1 : Z) (m : Z -> Z) (p : payload_t) : option Z * payload_t :=
  match f with
  | PF_handle_entry => (None, zt_handle_entry E (context_at m a0) (fp_area_at m a1) p)
  | PF_save_probe_frame => let '(r, p) := save_probe_frame_c a0 a1 p in (Some r, p)
  | PF_peek_probe_id => (Some (peek_probe_id_c p), p)
  | PF_handle_return => (None, zt_handle_return E (context_at m a0) (fp_area_at m a1) p)
  | PF_get_ret_addr => let '(r, p) := get_ret_addr_c p in (Some r, p)
  end.
End calls.
