(* ===== verification/StubX86.v ===== *)
(** * The x86_64 stubs (src/isa/x86_64/stub.S)

    entry_stub and exit_stub instruction by instruction, on a processor with all
    general registers, the flags, the vector registers and memory.  A call of the
    payload has the effect of Payload's definition on the payload's state and leaves
    the rest to an arbitrary function that obeys the calling convention.  The stack is
    away from both ends of the address space, so that address arithmetic is exact. *)

From S2P Require Import Prelude CLib Types Payload Emit StubFrame.

(** ** The machine *)

(** Registers by their encoding. *)
Definition RAX : Z := 0.
Definition RCX : Z := 1.
Definition RDX : Z := 2.
Definition RBX : Z := 3.
Definition RSP : Z := 4.
Definition RBP : Z := 5.
Definition RSI : Z := 6.
Definition RDI : Z := 7.
Definition R8 : Z := 8.
Definition R9 : Z := 9.
Definition R10 : Z := 10.
Definition R11 : Z := 11.
Definition R12 : Z := 12.
Definition R13 : Z := 13.
Definition R14 : Z := 14.
Definition R15 : Z := 15.

Record xs := mk_xs { gp : Z -> Z; flags : Z; xmm : Z -> Z; smem : Z -> Z; pl : payload_t }.

Definition set_gp (r v : Z) (s : xs) : xs := mk_xs (upd (gp s) r v) (flags s) (xmm s) (smem s) (pl s).
Definition set_flags (v : Z) (s : xs) : xs := mk_xs (gp s) v (xmm s) (smem s) (pl s).
Definition set_xmm (r v : Z) (s : xs) : xs := mk_xs (gp s) (flags s) (upd (xmm s) r v) (smem s) (pl s).
Definition set_mem (m : Z -> Z) (s : xs) : xs := mk_xs (gp s) (flags s) (xmm s) m (pl s).

(** What push and pop move. *)
Inductive operand := G (r : Z) | FLAGS.

#[export] Instance operand_eq_dec : EqDecision operand.
Proof. solve_decision. Defined.

Definition value (s : xs) (o : operand) : Z := match o with G r => gp s r | FLAGS => flags s end.
Definition set_value (o : operand) (v : Z) (s : xs) : xs := match o with G r => set_gp r v s | FLAGS => set_flags v s end.

Inductive instr :=
| PUSH (o : operand)
| PUSHI (v : Z)
| POP (o : operand)
| MOV (d s : Z)
| LOAD (d b off : Z)
| STORE (b off s : Z)
| SUBI (r n : Z)
| ANDI (r n : Z)
| LEA (d b off : Z)
| LEA_exit_stub (d : Z)
| MOVDQU_store (off i : Z)
| MOVDQU_load (i off : Z)
| CALL (f : payload_fn).

(** Where exit_stub is, the flags arithmetic leaves, and what a payload function does
    to the machine. *)
Record stub_env := mk_stub_env { se_exit : Z; se_flags : Z -> Z; se_clobber : payload_fn -> xs -> xs }.

Section machine.
Context (E : env_t) (V : stub_env).

Definition push (v : Z) (s : xs) : xs :=
  set_gp RSP (gp s RSP - 8) (set_mem (mstore 8 (smem s) (gp s RSP - 8) v) s).

Definition call (f : payload_fn) (s : xs) : xs :=
  let c := se_clobber V f s in
  let '(r, p) := payload_call E f (gp s RDI) (gp s RSI) (smem s) (pl s) in
  mk_xs (match r with Some v => upd (gp c) RAX v | None => gp c end) (flags c) (xmm c) (smem c) p.

Definition exec (i : instr) (s : xs) : xs :=
  match i with
  | PUSH o => push (value s o) s
  | PUSHI v => push v s
  | POP o => set_gp RSP (gp s RSP + 8) (set_value o (load (smem s) (gp s RSP) 8) s)
  | MOV d r => set_gp d (gp s r) s
  | LOAD d b off => set_gp d (load (smem s) (gp s b + off) 8) s
  | STORE b off r => set_mem (mstore 8 (smem s) (gp s b + off) (gp s r)) s
  | SUBI r n => set_flags (se_flags V (gp s r - n)) (set_gp r (gp s r - n) s)
  | ANDI r n => set_flags (se_flags V (Z.land (gp s r) n)) (set_gp r (Z.land (gp s r) n) s)
  | LEA d b off => set_gp d (gp s b + off) s
  | LEA_exit_stub d => set_gp d (se_exit V) s
  | MOVDQU_store off i => set_mem (mstore 16 (smem s) (gp s RSP + off) (xmm s i)) s
  | MOVDQU_load i off => set_xmm i (load (smem s) (gp s RSP + off) 16) s
  | CALL f => call f s
  end.

Definition run (code : list instr) (s : xs) : xs := foldl (fun s i => exec i s) s code.

(** The final ret: where it goes, and the state there. *)
Definition run_ret (code : list instr) (s : xs) : Z * xs :=
  let s := run code s in (load (smem s) (gp s RSP) 8, set_gp RSP (gp s RSP + 8) s).
End machine.

(** ** The code *)

Definition saved_operands : list operand :=
  [FLAGS; G RAX; G RBX; G RCX; G RDX; G RBP; G RSI; G RDI; G R8; G R9; G R10; G R11; G R12; G R13; G R14; G R15].

Definition PUSH_ALL : list instr := map PUSH saved_operands.
Definition POP_ALL : list instr := map POP (reverse saved_operands).

Definition SAVE_FP : list instr := [SUBI RSP 143; ANDI RSP (-16)] ++ map (fun i => MOVDQU_store (16 * i) i) (seqZ 0 8).
Definition RESTORE_FP : list instr := map (fun i => MOVDQU_load i (16 * i)) (seqZ 0 8).

Definition x86_entry_stub : list instr :=
  PUSH_ALL ++ [MOV R12 RSP] ++ SAVE_FP ++
  [MOV RDI R12; MOV RSI RSP; CALL PF_handle_entry;
   LOAD RDI R12 0x90; LOAD RSI R12 0x88; CALL PF_save_probe_frame;
   LEA_exit_stub RAX; STORE R12 0x90 RAX] ++
  RESTORE_FP ++ [MOV RSP R12] ++ POP_ALL.

Definition x86_exit_stub : list instr :=
  [PUSHI 0; PUSHI 0] ++ PUSH_ALL ++ [MOV R12 RSP] ++ SAVE_FP ++
  [CALL PF_peek_probe_id; STORE R12 0x88 RAX;
   MOV RDI R12; MOV RSI RSP; CALL PF_handle_return;
   CALL PF_get_ret_addr; STORE R12 0x88 RAX] ++
  RESTORE_FP ++ [MOV RSP R12] ++ POP_ALL ++ [LEA RSP RSP 8].

(** ** The calling convention *)

Definition callee_saved : list Z := [RBX; RSP; RBP; R12; R13; R14; R15].

(** A payload function called with an aligned stack keeps the callee-saved registers, the
    stack above it, which ends at [top], and the program's [code]. *)
Record abi (V : stub_env) (top : Z) (code : Z -> Prop) : Prop := {
  abi_saved : forall f s r, gp s RSP mod 16 = 0 -> r ∈ callee_saved -> gp (se_clobber V f s) r = gp s r;
  abi_stack : forall f s x, gp s RSP mod 16 = 0 -> gp s RSP <= x < top -> smem (se_clobber V f s) x = smem s x;
  abi_code : forall f s x, code x -> smem (se_clobber V f s) x = smem s x
}.

(** Registers hold values of their width. *)
Record machine_ok (s : xs) : Prop := {
  mo_gp : forall r, is_u64 (gp s r);
  mo_flags : is_u64 (flags s);
  mo_xmm : forall i, 0 <= xmm s i < 256 ^ 16
}.

Lemma value_u64 s o : machine_ok s -> is_u64 (value s o).
Proof. intros [H1 H2 _]. destruct o; [apply H1|exact H2]. Qed.

Section frame.
Context (E : env_t) (V : stub_env).
#[local] Abbreviation run := (run E V).

Lemma run_app c1 c2 s : run (c1 ++ c2) s = run c2 (run c1 s).
Proof. apply foldl_app. Qed.

(** *** Pushing and popping registers *)

Record pushed (ops : list operand) (s s' : xs) : Prop := {
  pd_rsp : gp s' RSP = gp s RSP - 8 * Z.of_nat (length ops);
  pd_value : forall o, o <> G RSP -> value s' o = value s o;
  pd_xmm : xmm s' = xmm s;
  pd_pl : pl s' = pl s;
  pd_out : forall x, x < gp s RSP - 8 * Z.of_nat (length ops) \/ gp s RSP <= x -> smem s' x = smem s x;
  pd_slot : forall i o, ops !! i = Some o -> slot (smem s') (gp s RSP - 8 * Z.of_nat (S i)) (value s o)
}.

Lemma push_list ops s : G RSP ∉ ops -> pushed ops s (run (map PUSH ops) s).
Proof.
  revert s. induction ops as [|o ops IH]; intros s Hn.
  - constructor; cbn; try done. lia.
  - apply not_elem_of_cons in Hn as [Ho Hn]. set (s1 := exec E V (PUSH o) s).
    assert (H1 : gp s1 RSP = gp s RSP - 8) by done.
    assert (Hv : forall o', o' <> G RSP -> value s1 o' = value s o').
    { intros [r|] Hr; [|done]. cbn. unfold upd. destruct (Z.eqb_spec r RSP); congruence. }
    destruct (IH s1 Hn) as [P1 P2 P3 P4 P5 P6]. change (run (map PUSH (o :: ops)) s) with (run (map PUSH ops) s1).
    constructor; cbn [length].
    + rewrite P1, H1. lia.
    + intros o' Ho'. rewrite P2, Hv by done. done.
    + by rewrite P3.
    + by rewrite P4.
    + cbn [length] in *. intros x Hx. rewrite P5 by lia. apply mstore_out. lia.
    + intros [|i] o' Hi; cbn in Hi.
      * injection Hi as <-. eapply slot_ext; [|apply slot_store]. intros x Hx. rewrite P5 by lia. done.
      * specialize (P6 i o' Hi). rewrite H1 in P6. rewrite <- (Hv o') by (intros ->; apply Hn; by eapply list_elem_of_lookup_2).
        by replace (gp s RSP - 8 * Z.of_nat (S (S i))) with (gp s RSP - 8 - 8 * Z.of_nat (S i)) by lia.
Qed.

Record popped (ops : list operand) (s s' : xs) : Prop := {
  pp_rsp : gp s' RSP = gp s RSP + 8 * Z.of_nat (length ops);
  pp_value : forall i o, ops !! i = Some o -> value s' o = load (smem s) (gp s RSP + 8 * Z.of_nat i) 8;
  pp_other : forall o, o <> G RSP -> o ∉ ops -> value s' o = value s o;
  pp_xmm : xmm s' = xmm s;
  pp_pl : pl s' = pl s;
  pp_mem : smem s' = smem s
}.

Lemma pop_list ops s : G RSP ∉ ops -> NoDup ops -> popped ops s (run (map POP ops) s).
Proof.
  revert s. induction ops as [|o ops IH]; intros s Hn Hd.
  - constructor; cbn; try done. lia.
  - apply not_elem_of_cons in Hn as [Ho Hn]. apply NoDup_cons in Hd as [Hni Hd]. set (s1 := exec E V (POP o) s).
    assert (H1 : gp s1 RSP = gp s RSP + 8) by done.
    assert (Hm : smem s1 = smem s) by (by destruct o).
    assert (Hv : value s1 o = load (smem s) (gp s RSP) 8).
    { destruct o as [r|]; [|done]. cbn. unfold upd. rewrite Z.eqb_refl. destruct (Z.eqb_spec r RSP); congruence. }
    assert (Hother : forall o', o' <> G RSP -> o' <> o -> value s1 o' = value s o').
    { intros [r|] Hr Hro; destruct o as [r'|]; cbn; unfold upd; try done.
      - destruct (Z.eqb_spec r RSP), (Z.eqb_spec r r'); congruence.
      - destruct (Z.eqb_spec r RSP); congruence. }
    destruct (IH s1 Hn Hd) as [P1 P2 P3 P4 P5 P6]. change (run (map POP (o :: ops)) s) with (run (map POP ops) s1).
    constructor; cbn [length].
    + rewrite P1, H1. lia.
    + intros [|i] o' Hi; cbn in Hi.
      * injection Hi as <-. rewrite P3, Hv by done. f_equal. lia.
      * rewrite (P2 i o' Hi), Hm, H1. f_equal. lia.
    + intros o' Hr [Hne Hni']%not_elem_of_cons. rewrite P3, Hother by done. done.
    + rewrite P4. by destruct o.
    + rewrite P5. by destruct o.
    + by rewrite P6.
Qed.

(** *** The vector registers *)

Lemma store_vecs l s :
  run (map (fun i => MOVDQU_store (16 * i) i) l) s = set_mem (vstores (smem s) (gp s RSP) (xmm s) l) s.
Proof.
  revert s. induction l as [|i l IH]; intros s; [by destruct s|].
  change (run (map ?f (i :: l)) s) with (run (map f l) (exec E V (MOVDQU_store (16 * i) i) s)). by rewrite IH.
Qed.

Lemma load_vecs l s :
  let s' := run (map (fun i => MOVDQU_load i (16 * i)) l) s in
  gp s' = gp s /\ flags s' = flags s /\ smem s' = smem s /\ pl s' = pl s /\
  forall i, xmm s' i = if bool_decide (i ∈ l) then load (smem s) (gp s RSP + 16 * i) 16 else xmm s i.
Proof.
  revert s. induction l as [|k l IH]; intros s; [done|].
  change (run (map ?f (k :: l)) s) with (run (map f l) (exec E V (MOVDQU_load k (16 * k)) s)).
  destruct (IH (exec E V (MOVDQU_load k (16 * k)) s)) as (H1 & H2 & H3 & H4 & H5). split_and!; [done..|].
  intros i. rewrite H5. change (xmm (exec E V (MOVDQU_load k (16 * k)) s)) with (upd (xmm s) k (load (smem s) (gp s RSP + 16 * k) 16)).
  destruct (Z.eq_dec i k) as [->|Hne].
  - rewrite upd_same, (bool_decide_eq_true_2 (k ∈ k :: l)) by (by left). by case_bool_decide.
  - rewrite upd_other by done. by rewrite (bool_decide_ext (i ∈ k :: l) (i ∈ l)) by (rewrite elem_of_cons; split; [by intros [?|]|by right]).
Qed.

Lemma land_align x : Z.land x (-16) = x - x mod 16.
Proof.
  change (-16) with (Z.lnot 15). rewrite <- Z.ldiff_land. change 15 with (Z.ones 4). rewrite Z.ldiff_ones_r by lia.
  rewrite Z.shiftr_div_pow2, Z.shiftl_mul_pow2 by lia. change (2 ^ 4) with 16. pose proof (Z.div_mod x 16). lia.
Qed.

(** An aligned area below the stack pointer with the registers in it. *)
Record fp_saved (s s' : xs) : Prop := {
  fs_align : gp s' RSP mod 16 = 0;
  fs_room : gp s RSP - 160 <= gp s' RSP /\ gp s' RSP + 128 <= gp s RSP;
  fs_gp : forall r, r <> RSP -> gp s' r = gp s r;
  fs_xmm : xmm s' = xmm s;
  fs_pl : pl s' = pl s;
  fs_out : forall x, x < gp s RSP - 160 \/ gp s RSP <= x -> smem s' x = smem s x;
  fs_area : code_at (smem s') (gp s' RSP) (vec_bytes (xmm s))
}.

Lemma save_fp s : fp_saved s (run SAVE_FP s).
Proof.
  unfold SAVE_FP. rewrite run_app. set (s1 := run [SUBI RSP 143; ANDI RSP (-16)] s).
  assert (Hr : gp s1 RSP = (gp s RSP - 143) - (gp s RSP - 143) mod 16) by apply land_align.
  pose proof (Z.mod_pos_bound (gp s RSP - 143) 16 ltac:(lia)).
  assert (Hg : forall r, r <> RSP -> gp s1 r = gp s r)
    by (intros r Hne; cbn; unfold upd; by rewrite !(proj2 (Z.eqb_neq r RSP) Hne)).
  rewrite store_vecs. destruct (vec_area (smem s1) (gp s1 RSP) (xmm s1)) as [H5 H6]. constructor.
  - change (gp s1 RSP mod 16 = 0). rewrite Hr, Zminus_mod_idemp_r, Z.sub_diag. done.
  - change (gp (set_mem _ s1)) with (gp s1). lia.
  - exact Hg.
  - done.
  - done.
  - intros x Hx. cbn [smem set_mem]. rewrite H6 by lia. done.
  - exact H5.
Qed.

(** *** Calls *)

Context (top : Z) (code : Z -> Prop) (ABI : abi V top code).

(** A call on an aligned stack. *)
Lemma call_keeps f s :
  gp s RSP mod 16 = 0 ->
  let s' := exec E V (CALL f) s in
  (forall r, r ∈ callee_saved -> gp s' r = gp s r) /\ (forall x, gp s RSP <= x < top \/ code x -> smem s' x = smem s x) /\
  pl s' = snd (payload_call E f (gp s RDI) (gp s RSI) (smem s) (pl s)) /\
  forall v, fst (payload_call E f (gp s RDI) (gp s RSI) (smem s) (pl s)) = Some v -> gp s' RAX = v.
Proof.
  intros Ha. cbn [exec]. unfold call. destruct (payload_call E f _ _ _ _) as [r p]. cbn [fst snd pl gp smem].
  split_and!; [|intros x [Hx|Hx]; [by apply (abi_stack _ _ _ ABI)|by apply (abi_code _ _ _ ABI)]|done|by intros v ->].
  intros q Hq. rewrite <- (abi_saved _ _ _ ABI f s q Ha Hq). destruct r as [v|]; [|done]. unfold upd.
  destruct (Z.eqb_spec q RAX) as [->|]; [|done]. by apply (bool_decide_eq_false_1 (RAX ∈ callee_saved)) in Hq.
Qed.
End frame.
