(* ===== verification/StubX86Spec.v ===== *)
(** * What the x86_64 stubs do

    entry_stub and exit_stub build the ctx_t and the vector area the payload reads,
    run the payload's handlers, and give the thread back as it was, with the return
    address diverted and restored. *)

From S2P Require Import Prelude CLib Types Payload ShadowStack Emit StubFrame StubX86.

(** The context of registers [s] with the two words above them. *)
Definition x86_ctx (s : xs) (trampoline_ret id : Z) : ctx_t :=
  mk_ctx (gp s R15) (gp s R14) (gp s R13) (gp s R12) (gp s R11) (gp s R10) (gp s R9) (gp s R8)
    (gp s RDI) (gp s RSI) (gp s RBP) (gp s RDX) (gp s RCX) (gp s RBX) (gp s RAX) (flags s) trampoline_ret id.

(** A thread gets its registers back: all but the stack pointer, the flags and the
    argument and return vectors. *)
Record same_registers (s s' : xs) : Prop := {
  sr_gp : forall r, 0 <= r < 16 -> r <> RSP -> gp s' r = gp s r;
  sr_flags : flags s' = flags s;
  sr_xmm : forall i, 0 <= i < 8 -> xmm s' i = xmm s i
}.

Lemma same_registers_trans s1 s2 s3 : same_registers s1 s2 -> same_registers s2 s3 -> same_registers s1 s3.
Proof. intros [A1 A2 A3] [B1 B2 B3]. constructor; [intros; by rewrite B1, A1|congruence|intros; by rewrite B3, A3]. Qed.

Lemma rsp_registers v s s' : same_registers s s' -> same_registers s (set_gp RSP v s').
Proof.
  intros [H1 H2 H3]. constructor; [|done..]. intros r Hr Hne. cbn. unfold upd.
  rewrite (proj2 (Z.eqb_neq r RSP) Hne). by apply H1.
Qed.

Lemma saved_no_rsp : G RSP ∉ saved_operands.
Proof. by apply (bool_decide_eq_true_1 _). Qed.

Lemma saved_nodup : NoDup saved_operands.
Proof. by apply (bool_decide_eq_true_1 _). Qed.

Lemma saved_register r : 0 <= r < 16 -> r <> RSP -> G r ∈ saved_operands.
Proof.
  intros Hr Hne. assert (Forall (fun r => r <> RSP -> G r ∈ saved_operands) (seqZ 0 16)) as HF by (by apply (bool_decide_eq_true_1 _)).
  rewrite Forall_forall in HF. apply HF; [apply elem_of_seqZ; lia|done].
Qed.

(** ** The parts of the code *)

Definition frame_code : list instr := PUSH_ALL ++ [MOV R12 RSP] ++ SAVE_FP.
Definition unframe_code : list instr := RESTORE_FP ++ [MOV RSP R12] ++ POP_ALL.
Definition entry_body : list instr :=
  [MOV RDI R12; MOV RSI RSP; CALL PF_handle_entry;
   LOAD RDI R12 0x90; LOAD RSI R12 0x88; CALL PF_save_probe_frame;
   LEA_exit_stub RAX; STORE R12 0x90 RAX].
Definition exit_body : list instr :=
  [CALL PF_peek_probe_id; STORE R12 0x88 RAX;
   MOV RDI R12; MOV RSI RSP; CALL PF_handle_return;
   CALL PF_get_ret_addr; STORE R12 0x88 RAX].

Lemma entry_stub_parts : x86_entry_stub = frame_code ++ entry_body ++ unframe_code.
Proof. reflexivity. Qed.

Lemma exit_stub_parts : x86_exit_stub = [PUSHI 0; PUSHI 0] ++ frame_code ++ exit_body ++ unframe_code ++ [LEA RSP RSP 8].
Proof. reflexivity. Qed.

Section spec.
Context (E : env_t) (V : stub_env) (top : Z) (code : Z -> Prop) (ABI : abi V top code).
#[local] Abbreviation run := (run E V).

(** ** The frame *)

(** The frame of [s]'s registers is on the stack of [s'] with its vector area at
    the stack pointer. *)
Record framed (s s' : xs) : Prop := {
  fd_r12 : gp s' R12 = gp s RSP - 128;
  fd_align : gp s' RSP mod 16 = 0;
  fd_room : gp s RSP - 288 <= gp s' RSP /\ gp s' RSP + 128 <= gp s' R12;
  fd_slot : forall i o, saved_operands !! i = Some o -> slot (smem s') (gp s RSP - 8 * Z.of_nat (S i)) (value s o);
  fd_area : code_at (smem s') (gp s' RSP) (vec_bytes (xmm s))
}.

Lemma mov_effect d r s :
  let s' := run [MOV d r] s in
  gp s' d = gp s r /\ (forall q, q <> d -> gp s' q = gp s q) /\ flags s' = flags s /\ smem s' = smem s /\ xmm s' = xmm s /\ pl s' = pl s.
Proof.
  split_and!; try done; cbn; unfold upd; [by rewrite Z.eqb_refl|]. intros q Hq. by destruct (Z.eqb_spec q d).
Qed.

Lemma frame_built s :
  let s' := run frame_code s in
  framed s s' /\ pl s' = pl s /\ forall x, x < gp s RSP - 288 \/ gp s RSP <= x -> smem s' x = smem s x.
Proof.
  cbv zeta. unfold frame_code, PUSH_ALL. rewrite !run_app. generalize (push_list E V saved_operands s saved_no_rsp).
  generalize (run (map PUSH saved_operands) s). intros s1 [P1 _ P3 P4 P5 P6]. change (Z.of_nat (length saved_operands)) with 16 in P1, P5.
  generalize (mov_effect R12 RSP s1). generalize (run [MOV R12 RSP] s1). intros s2 (M1 & M2 & _ & M3 & M4 & M5).
  specialize (M2 RSP ltac:(done)). generalize (save_fp E V s2). generalize (run SAVE_FP s2). intros s3 [F1 F2 F3 F4 F5 F6 F7].
  rewrite ?M2, ?M3, ?M4, ?M5, ?P3 in *.
  assert (H12 : gp s3 R12 = gp s RSP - 128) by (rewrite F3 by done; lia).
  split_and!; [constructor|rewrite F5; exact P4|].
  - done.
  - done.
  - lia.
  - intros i o Hi. eapply slot_ext; [|by apply P6]. intros x Hx. apply F6. apply lookup_lt_Some in Hi. change (length saved_operands) with 16%nat in Hi. lia.
  - done.
  - intros x Hx. rewrite F6, P5 by lia. done.
Qed.

(** What the code between frame and unframe may not touch. *)
Record keeps (hi : Z) (s s' : xs) : Prop := {
  kp_r12 : gp s' R12 = gp s R12;
  kp_rsp : gp s' RSP = gp s RSP;
  kp_mem : forall x, gp s RSP <= x < hi \/ code x -> smem s' x = smem s x
}.

Lemma frame_keeps_trans hi s1 s2 s3 : keeps hi s1 s2 -> keeps hi s2 s3 -> keeps hi s1 s3.
Proof. intros [A1 A2 A3] [B1 B2 B3]. constructor; [congruence..|]. intros x Hx. rewrite B3, A3 by (rewrite ?A2; done). done. Qed.

Lemma framed_same s s1 s2 :
  framed s s1 -> gp s2 R12 = gp s1 R12 -> gp s2 RSP = gp s1 RSP ->
  (forall x, gp s1 RSP <= x < gp s RSP -> smem s2 x = smem s1 x) -> framed s s2.
Proof.
  intros [F1 F2 F3 F4 F5] K1 K2 K3. constructor; rewrite ?K1, ?K2; try done.
  - intros i o Hi. eapply slot_ext; [|by apply F4]. intros x Hx. apply K3.
    apply lookup_lt_Some in Hi. change (length saved_operands) with 16%nat in Hi. lia.
  - eapply code_at_ext; [|exact F5]. change (length (vec_bytes (xmm s))) with 128%nat. intros x Hx. apply K3. lia.
Qed.

Lemma framed_keeps hi s s1 s2 : gp s RSP <= hi -> framed s s1 -> keeps hi s1 s2 -> framed s s2.
Proof. intros Hhi F [K1 K2 K3]. apply (framed_same s s1); [done..|]. intros x Hx. apply K3. lia. Qed.

Lemma unframe s s2 :
  machine_ok s -> framed s s2 ->
  let s' := run unframe_code s2 in
  same_registers s s' /\ gp s' RSP = gp s RSP /\ pl s' = pl s2 /\ smem s' = smem s2.
Proof.
  intros Hok F. cbv zeta. unfold unframe_code. rewrite !run_app.
  generalize (load_vecs E V (seqZ 0 8) s2). unfold RESTORE_FP. generalize (run (map (fun i => MOVDQU_load i (16 * i)) (seqZ 0 8)) s2).
  cbv zeta. intros s3 (L1 & L2 & L3 & L4 & L5).
  generalize (mov_effect RSP R12 s3). generalize (run [MOV RSP R12] s3). intros s4 (M1 & _ & _ & M2 & M3 & M4).
  assert (H4 : gp s4 RSP = gp s RSP - 128) by (rewrite M1, L1; apply F).
  pose proof saved_no_rsp as Hn. rewrite <- elem_of_reverse in Hn. pose proof saved_nodup as Hd. rewrite <- reverse_Permutation in Hd.
  unfold POP_ALL. generalize (pop_list E V (reverse saved_operands) s4 Hn Hd). generalize (run (map POP (reverse saved_operands)) s4).
  intros s5 [Q1 Q2 Q3 Q4 Q5 Q6]. change (Z.of_nat (length (reverse saved_operands))) with 16 in Q1.
  assert (Hv : forall o, o ∈ saved_operands -> value s5 o = value s o).
  { intros o (i & Hi)%list_elem_of_lookup. apply lookup_lt_Some in Hi as Hl. change (length saved_operands) with 16%nat in Hl.
    assert (Hr : reverse saved_operands !! (16 - S i)%nat = Some o).
    { rewrite reverse_lookup by (change (length saved_operands) with 16%nat; lia). rewrite <- Hi. f_equal.
      change (length saved_operands) with 16%nat. lia. }
    rewrite (Q2 _ _ Hr), H4, M2, L3. apply slot_load; [by apply value_u64|].
    replace (gp s RSP - 128 + 8 * Z.of_nat (16 - S i)) with (gp s RSP - 8 * Z.of_nat (S i)) by lia. by apply F. }
  split_and!; [constructor|rewrite Q1, H4; lia|congruence|congruence].
  - intros r Hr Hne. apply (Hv (G r)). by apply saved_register.
  - apply (Hv FLAGS). by left.
  - intros i Hi. rewrite Q4, M3, L5, bool_decide_eq_true_2 by (apply elem_of_seqZ; lia).
    apply vec_load; [apply F|done|apply Hok].
Qed.

(** What the frame holds, as the payload's structures. *)
Lemma framed_area s s' : framed s s' -> 0 < gp s' RSP -> fp_area_at (smem s') (gp s' RSP) = Some (vec_bytes (xmm s)).
Proof.
  intros F Hp. unfold fp_area_at. destruct (Z.eqb_spec (gp s' RSP) 0); [lia|]. f_equal.
  exact (area_code _ _ _ (fd_area _ _ F)).
Qed.

Lemma framed_ctx s s' :
  machine_ok s -> framed s s' -> 128 < gp s RSP ->
  context_at (smem s') (gp s RSP - 128) =
  Some (x86_ctx s (load (smem s') (gp s RSP) 8) (load (smem s') (gp s RSP + 8) 8)).
Proof.
  intros Hok F Hp. unfold context_at. destruct (Z.eqb_spec (gp s RSP - 128) 0); [lia|]. f_equal.
  assert (Hf : forall i o, saved_operands !! i = Some o -> load (smem s') (gp s RSP - 128 + 8 * (15 - Z.of_nat i)) 8 = value s o).
  { intros i o Hi. apply slot_load; [by apply value_u64|].
    replace (gp s RSP - 128 + 8 * (15 - Z.of_nat i)) with (gp s RSP - 8 * Z.of_nat (S i)) by lia. by apply F. }
  unfold ctx_of, x86_ctx.
  f_equal; [apply (Hf 15%nat (G R15))|apply (Hf 14%nat (G R14))|apply (Hf 13%nat (G R13))|apply (Hf 12%nat (G R12))
    |apply (Hf 11%nat (G R11))|apply (Hf 10%nat (G R10))|apply (Hf 9%nat (G R9))|apply (Hf 8%nat (G R8))|apply (Hf 7%nat (G RDI))
    |apply (Hf 6%nat (G RSI))|apply (Hf 5%nat (G RBP))|apply (Hf 4%nat (G RDX))|apply (Hf 3%nat (G RCX))|apply (Hf 2%nat (G RBX))
    |apply (Hf 1%nat (G RAX))|apply (Hf 0%nat FLAGS)|f_equal; lia|f_equal; lia]; reflexivity.
Qed.

(** A payload call between frame and unframe. *)
Lemma call_framed f s s1 :
  framed s s1 -> gp s RSP <= top ->
  let s' := exec E V (CALL f) s1 in
  keeps top s1 s' /\ framed s s' /\
  pl s' = snd (payload_call E f (gp s1 RDI) (gp s1 RSI) (smem s1) (pl s1)) /\
  forall v, fst (payload_call E f (gp s1 RDI) (gp s1 RSI) (smem s1) (pl s1)) = Some v -> gp s' RAX = v.
Proof.
  intros F Ht. destruct (call_keeps E V top code ABI f s1 (fd_align _ _ F)) as (C1 & C2 & C3 & C4). cbv zeta in *.
  set (s' := exec E V (CALL f) s1) in *.
  assert (K : keeps top s1 s') by (constructor; [apply C1; by apply (bool_decide_eq_true_1 _)..|exact C2]).
  split_and!; [done|by eapply framed_keeps|done|done].
Qed.

(** ** entry_stub *)

Lemma reg_keeps hi d v s : d <> R12 -> d <> RSP -> keeps hi s (set_gp d v s).
Proof. intros. constructor; [| |done]; cbn [gp set_gp]; unfold upd; by rewrite (proj2 (Z.eqb_neq _ _)) by congruence. Qed.

(** A payload call with its arguments put in the registers. *)
Lemma call2_framed f v0 v1 s s1 :
  framed s s1 -> gp s RSP <= top ->
  let s' := exec E V (CALL f) (set_gp RSI v1 (set_gp RDI v0 s1)) in
  keeps top s1 s' /\ framed s s' /\ pl s' = snd (payload_call E f v0 v1 (smem s1) (pl s1)).
Proof.
  intros F Ht. cbv zeta. set (s2 := set_gp RSI v1 (set_gp RDI v0 s1)).
  assert (K : forall hi, keeps hi s1 s2) by (intros hi; eapply frame_keeps_trans; by apply reg_keeps).
  assert (F2 : framed s s2) by (by apply (framed_keeps top s s1)).
  destruct (call_framed f s s2 F2 Ht) as (K3 & F3 & Hp3 & _). split_and!; [by eapply frame_keeps_trans|done|exact Hp3].
Qed.

(** A word stored above the frame. *)
Lemma store_framed off v r s s1 :
  framed s s1 -> 0x80 <= off -> gp s1 r = v -> 
  let s' := run [STORE R12 off r] s1 in
  framed s s' /\ gp s' = gp s1 /\ smem s' = mstore 8 (smem s1) (gp s RSP - 128 + off) v /\ pl s' = pl s1.
Proof.
  intros F Ho Hv. cbv zeta. set (s' := run _ s1).
  assert (Hm : smem s' = mstore 8 (smem s1) (gp s RSP - 128 + off) v) by (rewrite <- (fd_r12 _ _ F), <- Hv; done).
  split_and!; [|done..]. apply (framed_same s s1); [done..|].
  intros x Hx. rewrite Hm. apply mstore_out. lia.
Qed.

Lemma entry_body_effect s s1 :
  machine_ok s -> framed s s1 -> 1024 <= gp s RSP -> gp s RSP + 24 <= top ->
  let S := gp s RSP in
  let s' := run entry_body s1 in
  framed s s' /\ slot (smem s') (S + 16) (se_exit V) /\
  (forall x, S <= x < top \/ code x -> x < S + 16 \/ S + 24 <= x -> smem s' x = smem s1 x) /\
  pl s' = entry_stub E (x86_ctx s (load (smem s1) S 8) (load (smem s1) (S + 8) 8)) (vec_bytes (xmm s)) (load (smem s1) (S + 16) 8) (pl s1).
Proof.
  intros Hok F Hlo Ht S. cbv zeta. pose proof (fd_room _ _ F) as Rm. pose proof (fd_r12 _ _ F) as R1.
  change (run entry_body s1) with (run [LOAD RDI R12 0x90; LOAD RSI R12 0x88; CALL PF_save_probe_frame; LEA_exit_stub RAX; STORE R12 0x90 RAX]
    (exec E V (CALL PF_handle_entry) (set_gp RSI (gp s1 RSP) (set_gp RDI (gp s1 R12) s1)))).
  generalize (call2_framed PF_handle_entry (gp s1 R12) (gp s1 RSP) s s1 F ltac:(lia)).
  generalize (exec E V (CALL PF_handle_entry) (set_gp RSI (gp s1 RSP) (set_gp RDI (gp s1 R12) s1))). cbv zeta.
  intros s2 ([K1 K2 K3] & F2 & Hp2). cbn [payload_call snd] in Hp2. rewrite R1 in K1.
  rewrite R1, (framed_area s s1 F), (framed_ctx s s1 Hok F) in Hp2 by lia. fold S in Hp2, K1, Rm.
  set (id := load (smem s2) (gp s2 R12 + 0x88) 8). set (ret := load (smem s2) (gp s2 R12 + 0x90) 8).
  change (run _ s2) with (run [LEA_exit_stub RAX; STORE R12 0x90 RAX] (exec E V (CALL PF_save_probe_frame) (set_gp RSI id (set_gp RDI ret s2)))).
  generalize (call2_framed PF_save_probe_frame ret id s s2 F2 ltac:(lia)).
  generalize (exec E V (CALL PF_save_probe_frame) (set_gp RSI id (set_gp RDI ret s2))). cbv zeta.
  intros s3 ([L1 L2 L3] & F3 & Hp3).
  set (s4 := set_gp RAX (se_exit V) s3). change (run _ s3) with (run [STORE R12 0x90 RAX] s4).
  assert (F4 : framed s s4) by (apply (framed_keeps top s s3); [lia|exact F3|by apply reg_keeps]).
  destruct (store_framed 0x90 (se_exit V) RAX s s4 F4) as (F5 & _ & Hm & Hp5); [lia|done|].
  replace (gp s RSP - 128 + 0x90) with (S + 16) in Hm by lia. change (smem s4) with (smem s3) in Hm. split_and!.
  - done.
  - rewrite Hm. apply slot_store.
  - intros x Hx Hx'. rewrite Hm, mstore_out, L3, K3 by (rewrite ?K2; intuition lia). done.
  - rewrite Hp5. change (pl s4) with (pl s3). rewrite Hp3, Hp2. unfold entry_stub, id, ret. cbn [func_id x86_ctx payload_call].
    rewrite !(load_ext (smem s1) (smem s2)) by (intros x Hx; apply K3; lia).
    replace (gp s2 R12 + 0x90) with (S + 16) by lia. replace (gp s2 R12 + 0x88) with (S + 8) by lia.
    by destruct (save_probe_frame_c _ _ _).
Qed.

(** No code is where the stubs' frame goes. *)
Definition code_apart (S : Z) : Prop := forall x, code x -> x < S - 288 \/ S + 24 <= x.

(** entry_stub, called by the trampoline with the return address of the call, the
    probe's id and the trampoline's return address on the stack: the payload has
    recorded the entry and the frame; the stub returns to the trampoline with every register,
    the flags and the argument vectors as they were and the stack as it was but for
    the return address of the call, which is exit_stub. *)
Lemma x86_entry_stub_spec s :
  let S := gp s RSP in
  let ctx := x86_ctx s (load (smem s) S 8) (load (smem s) (S + 8) 8) in
  machine_ok s -> 1024 <= S -> S + 24 <= top -> code_apart S ->
  exists s', run_ret E V x86_entry_stub s = (load (smem s) S 8, s') /\
  gp s' RSP = S + 8 /\ same_registers s s' /\
  slot (smem s') (S + 16) (se_exit V) /\
  (forall x, S <= x < top \/ code x -> x < S + 16 \/ S + 24 <= x -> smem s' x = smem s x) /\
  pl s' = entry_stub E ctx (vec_bytes (xmm s)) (load (smem s) (S + 16) 8) (pl s).
Proof.
  cbv zeta. unfold run_ret. intros Hok Hlo Ht Hap. rewrite entry_stub_parts, !run_app.
  generalize (frame_built s). generalize (run frame_code s). cbv zeta. intros s1 (F1 & P1 & M1).
  generalize (entry_body_effect s s1 Hok F1 Hlo Ht). generalize (run entry_body s1). cbv zeta. intros s2 (F2 & X2 & M2 & P2).
  generalize (unframe s s2 Hok F2). generalize (run unframe_code s2). cbv zeta. intros s3 (R3 & S3 & P3 & M3).
  exists (set_gp RSP (gp s3 RSP + 8) s3). rewrite S3, M3. split_and!.
  - f_equal. apply load_ext. intros x Hx. rewrite M2, M1 by lia. done.
  - done.
  - by apply rsp_registers.
  - cbn. by rewrite M3.
  - intros x Hx Hx'. cbn. rewrite M3, M2, M1; [done| |done|done]. destruct Hx as [Hx|Hx%Hap]; lia.
  - cbn. rewrite P3, P2, P1, !(load_ext (smem s) (smem s1)); [done|intros x Hx; apply M1; lia..].
Qed.

(** ** exit_stub *)

Lemma exit_body_effect s s1 :
  machine_ok s -> framed s s1 -> 1024 <= gp s RSP -> gp s RSP + 16 <= top -> is_u64 (peek_probe_id_c (pl s1)) ->
  let S := gp s RSP in
  let s' := run exit_body s1 in
  let r := exit_stub E (x86_ctx s (load (smem s1) S 8) 0) (vec_bytes (xmm s)) (pl s1) in
  framed s s' /\ slot (smem s') (S + 8) (fst r) /\ (forall x, S + 16 <= x < top \/ code x /\ (x < S + 8 \/ S + 16 <= x) -> smem s' x = smem s1 x) /\ pl s' = snd r.
Proof.
  intros Hok F Hlo Ht Hid S. cbv zeta. pose proof (fd_room _ _ F) as Rm. pose proof (fd_r12 _ _ F) as R1.
  change (run exit_body s1) with (run [MOV RDI R12; MOV RSI RSP; CALL PF_handle_return; CALL PF_get_ret_addr; STORE R12 0x88 RAX]
    (run [STORE R12 0x88 RAX] (exec E V (CALL PF_peek_probe_id) s1))).
  generalize (call_framed PF_peek_probe_id s s1 F ltac:(lia)). generalize (exec E V (CALL PF_peek_probe_id) s1). cbv zeta.
  intros s2 ([K1 K2 K3] & F2 & Hp2 & Hr2). specialize (Hr2 _ eq_refl).
  generalize (store_framed 0x88 _ RAX s s2 F2 ltac:(lia) Hr2). generalize (run [STORE R12 0x88 RAX] s2). cbv zeta.
  intros s3 (F3 & G3 & M3 & Hp3). cbn [payload_call snd] in *. replace (gp s RSP - 128 + 0x88) with (S + 8) in M3 by lia.
  change (run [_; _; _; _; _] s3) with (run [CALL PF_get_ret_addr; STORE R12 0x88 RAX]
    (exec E V (CALL PF_handle_return) (set_gp RSI (gp s3 RSP) (set_gp RDI (gp s3 R12) s3)))).
  generalize (call2_framed PF_handle_return (gp s3 R12) (gp s3 RSP) s s3 F3 ltac:(lia)).
  generalize (exec E V (CALL PF_handle_return) (set_gp RSI (gp s3 RSP) (set_gp RDI (gp s3 R12) s3))). cbv zeta.
  intros s4 ([L1 L2 L3] & F4 & Hp4). cbn [payload_call snd] in Hp4. pose proof (fd_room _ _ F3) as Rm3.
  rewrite (fd_r12 _ _ F3), (framed_area s s3 F3), (framed_ctx s s3 Hok F3) in Hp4 by lia. fold S in Hp4.
  change (run [_; _] s4) with (run [STORE R12 0x88 RAX] (exec E V (CALL PF_get_ret_addr) s4)).
  generalize (call_framed PF_get_ret_addr s s4 F4 ltac:(lia)). generalize (exec E V (CALL PF_get_ret_addr) s4). cbv zeta.
  intros s5 ([N1 N2 N3] & F5 & Hp5 & Hr5). cbn [payload_call] in Hp5, Hr5. rewrite Hp4, Hp3, Hp2 in Hp5, Hr5.
  assert (Hc : x86_ctx s (load (smem s3) S 8) (load (smem s3) (S + 8) 8) = ctx_with_func_id (x86_ctx s (load (smem s1) S 8) 0) (peek_probe_id_c (pl s1))).
  { change (ctx_with_func_id (x86_ctx s ?a 0) ?b) with (x86_ctx s a b). rewrite M3, (slot_load _ _ _ Hid (slot_store _ _ _)), mstore_load_out by lia.
    f_equal. apply load_ext. intros x Hx. apply K3. lia. }
  rewrite Hc in Hp5, Hr5. unfold exit_stub. destruct (get_ret_addr_c _) as [ret p6]. cbn [fst snd] in *. specialize (Hr5 _ eq_refl).
  destruct (store_framed 0x88 ret RAX s s5 F5 ltac:(lia) Hr5) as (F6 & _ & M6 & Hp6). replace (gp s RSP - 128 + 0x88) with (S + 8) in M6 by lia.
  split_and!; [done|rewrite M6; apply slot_store| |congruence].
  intros x Hx. rewrite M6, mstore_out, N3, L3, M3, mstore_out, K3 by (rewrite ?L2, ?G3, ?K2 in *; intuition lia). done.
Qed.

(** The two words exit_stub reserves. *)
Lemma reserve_effect s :
  let s' := run [PUSHI 0; PUSHI 0] s in
  gp s' RSP = gp s RSP - 16 /\ same_registers s s' /\ xmm s' = xmm s /\ pl s' = pl s /\
  (forall r, r <> RSP -> gp s' r = gp s r) /\
  load (smem s') (gp s' RSP) 8 = 0 /\ (forall x, x < gp s RSP - 16 \/ gp s RSP <= x -> smem s' x = smem s x) /\ forall a b, x86_ctx s' a b = x86_ctx s a b.
Proof.
  cbv zeta. set (s' := run _ s).
  assert (Hr : gp s' RSP = gp s RSP - 16) by (change (gp s RSP - 8 - 8 = gp s RSP - 16); lia).
  assert (Hm : smem s' = mstore 8 (mstore 8 (smem s) (gp s RSP - 8) 0) (gp s RSP - 8 - 8) 0) by done.
  assert (Hg : forall r, r <> RSP -> gp s' r = gp s r).
  { intros r Hne. change (gp s' r) with (upd (upd (gp s) RSP (gp s RSP - 8)) RSP (gp s RSP - 8 - 8) r). unfold upd.
    by rewrite (proj2 (Z.eqb_neq r RSP) Hne). }
  split_and!; [done|constructor; [by intros; apply Hg|done..]|done|done|done| | |done].
  - rewrite Hm, Hr. replace (gp s RSP - 8 - 8) with (gp s RSP - 16) by lia. apply (slot_load _ _ 0); [done|apply slot_store].
  - intros x Hx. rewrite Hm, !mstore_out by lia. done.
Qed.

Lemma unreserve_effect s :
  let s' := run [LEA RSP RSP 8] s in
  gp s' RSP = gp s RSP + 8 /\ (forall s0, same_registers s0 s -> same_registers s0 s') /\ smem s' = smem s /\ pl s' = pl s.
Proof. cbv zeta. split_and!; [done| |done|done]. intros s0. apply rsp_registers. Qed.

(** exit_stub, where the function returned to: the payload has recorded the return and
    popped the call's frame; the stub goes on at the return address the frame held with
    the stack pointer, every register, the flags, the return vectors and the stack above
    as the function left them. *)
Lemma x86_exit_stub_spec s :
  let R := gp s RSP in
  let r := exit_stub E (x86_ctx s 0 0) (vec_bytes (xmm s)) (pl s) in
  machine_ok s -> 1040 <= R -> R <= top -> code_apart (R - 16) -> is_u64 (peek_probe_id_c (pl s)) ->
  exists s', run_ret E V x86_exit_stub s = (u64 (fst r), s') /\
  gp s' RSP = R /\ same_registers s s' /\ (forall x, R <= x < top \/ code x -> smem s' x = smem s x) /\ pl s' = snd r.
Proof.
  cbv zeta. unfold run_ret. intros Hok Hlo Ht Hap Hid. rewrite exit_stub_parts, !run_app.
  generalize (reserve_effect s). generalize (run [PUSHI 0; PUSHI 0] s). cbv zeta. intros s0 (S0 & R0 & X0 & P0 & G0 & Z0 & M0 & C0).
  assert (Hok0 : machine_ok s0).
  { destruct Hok as [O1 O2 O3]. constructor; [|by rewrite (sr_flags _ _ R0)|by rewrite X0].
    intros r. destruct (Z.eq_dec r RSP) as [->|]; [|by rewrite G0]. specialize (O1 RSP). unfold is_u64 in *. lia. }
  generalize (frame_built s0). generalize (run frame_code s0). cbv zeta. intros s1 (F1 & P1 & M1).
  generalize (exit_body_effect s0 s1 Hok0 F1 ltac:(lia) ltac:(lia) ltac:(by rewrite P1, P0)). generalize (run exit_body s1). cbv zeta.
  rewrite C0, X0, P1, P0, (load_ext (smem s0) (smem s1)), Z0 by (intros x Hx; apply M1; lia). intros s2 (F2 & X2 & M2 & P2).
  generalize (unframe s0 s2 Hok0 F2). generalize (run unframe_code s2). cbv zeta. intros s3 (R3 & S3 & P3 & M3).
  generalize (unreserve_effect s3). generalize (run [LEA RSP RSP 8] s3). cbv zeta. intros s4 (S4 & R4 & M4 & P4).
  assert (H4 : gp s4 RSP = gp s0 RSP + 8) by lia.
  exists (set_gp RSP (gp s4 RSP + 8) s4). split_and!.
  - f_equal. rewrite H4, M4, M3. exact (load_code 8 _ _ _ X2).
  - change (gp s4 RSP + 8 = gp s RSP). lia.
  - apply rsp_registers, R4. by eapply same_registers_trans.
  - intros x Hx. assert (Hx' : x < gp s RSP - 304 \/ gp s RSP <= x) by (destruct Hx as [Hx|Hx%Hap]; lia).
    cbn. rewrite M4, M3, M2, M1, M0; [done|lia|lia|]. destruct Hx as [Hx|Hx]; [left; lia|right; split; [done|lia]].
  - cbn. by rewrite P4, P3, P2.
Qed.

(** ** A probed call *)

(** A call of a probed function through both stubs.  The trampoline calls
    entry_stub with its own return address, the probe's id and the caller's return
    address [ret] on the stack.  entry_stub returns to the trampoline with every
    register, the flags and the argument vectors as they were; of the stack only the
    caller's return address changed, to exit_stub; the payload recorded the entry with the
    context of the registers.  Whatever the function does, when it returns to
    exit_stub with its inner calls' frames popped, exit_stub records the return and goes on at [ret] with
    the function's registers, flags, return vectors and stack, and the shadow stack is that of
    before the call. *)
Lemma x86_probed_call `{!CalleeBalanced E d} s id ret :
  let S := gp s RSP in
  let ctx := x86_ctx s (load (smem s) S 8) id in
  machine_ok s -> 1024 <= S -> S + 24 <= top -> code_apart S -> room d (pl s) -> room 1 (pl s) ->
  load (smem s) (S + 8) 8 = id -> is_u64 id -> load (smem s) (S + 16) 8 = ret -> is_u64 ret ->
  exists s1, run_ret E V x86_entry_stub s = (load (smem s) S 8, s1) /\
  gp s1 RSP = S + 8 /\ same_registers s s1 /\ slot (smem s1) (S + 16) (se_exit V) /\
  (forall x, S <= x < top \/ code x -> x < S + 16 \/ S + 24 <= x -> smem s1 x = smem s x) /\
  pl s1 = entry_stub E ctx (vec_bytes (xmm s)) ret (pl s) /\
  forall s2, machine_ok s2 -> gp s2 RSP = S + 24 -> code_apart (S + 8) -> same_stack (pl s1) (pl s2) ->
  exists s3, run_ret E V x86_exit_stub s2 = (ret, s3) /\
  gp s3 RSP = S + 24 /\ same_registers s2 s3 /\ (forall x, S + 24 <= x < top \/ code x -> smem s3 x = smem s2 x) /\
  pl s3 = snd (exit_stub E (x86_ctx s2 0 0) (vec_bytes (xmm s2)) (pl s2)) /\
  shadow (pl_tls (pl s3)) = shadow (pl_tls (pl s)).
Proof.
  cbv zeta. intros Hok Hlo Ht Hap Hd H1 Hid Uid Hret Uret.
  destruct (x86_entry_stub_spec s Hok Hlo Ht Hap) as (s1 & R1 & S1 & G1 & X1 & M1 & P1).
  rewrite Hid, Hret in P1.
  exists s1. split_and!; [done..|]. intros s2 Hok2 S2 Hap2 Hsame.
  destruct (entry_stub_push E (x86_ctx s (load (smem s) (gp s RSP) 8) id) (vec_bytes (xmm s)) ret (pl s) Hd H1) as (T1 & _ & Hsh).
  rewrite <- P1 in T1, Hsh. pose proof (same_stack_ok _ _ Hsame T1) as T2. rewrite <- (same_stack_shadow _ _ Hsame) in Hsh.
  destruct (x86_exit_stub_spec s2 Hok2) as (s3 & R3 & S3 & G3 & M3 & P3); [lia|lia|by replace (gp s2 RSP - 16) with (gp s RSP + 8) by lia|by rewrite (peek_probe_id_top _ _ _ T2 Hsh)|].
  pose proof (exit_stub_pop E (x86_ctx s2 0 0) (vec_bytes (xmm s2)) (pl s2) _ _ T2 Hsh) as Hpop.
  exists s3. rewrite S2 in *. split_and!; [|done..|].
  - rewrite R3. destruct (exit_stub E _ _ (pl s2)) as [r p]. destruct Hpop as (-> & _). cbn [fst fr_ret_addr]. by rewrite u64_small.
  - rewrite P3. destruct (exit_stub E _ _ (pl s2)) as [r p]. cbn [snd]. by destruct Hpop as (_ & _ & -> & _).
Qed.
End spec.

(** ** Samples *)

(** Payload code that overwrites everything the convention lets it. *)
Definition sample_clobber (code : Z -> bool) (f : payload_fn) (s : xs) : xs :=
  mk_xs (fun r => if bool_decide (r ∈ callee_saved) then gp s r else 0) 0 (fun _ => 0)
    (fun x => if (gp s RSP <=? x) || code x then smem s x else 0xcc) (pl s).

Definition sample_stubs (code : Z -> bool) : stub_env := mk_stub_env 0x600100 (fun _ => 0x246) (sample_clobber code).

Lemma sample_abi code top : abi (sample_stubs code) top (fun x => code x = true).
Proof.
  constructor.
  - intros f s r _ Hr. cbn. by rewrite bool_decide_eq_true_2.
  - intros f s x _ Hx. cbn. by destruct (Z.leb_spec (gp s RSP) x); [|lia].
  - intros f s x Hx. cbn. by rewrite Hx, orb_true_r.
Qed.

Definition sample_thread (rsp : Z) (m : Z -> Z) (p : payload_t) : xs :=
  mk_xs (upd (fun r => 100 + r mod 16) RSP rsp) 0x246 (fun i => i mod 256) m p.

Lemma sample_thread_ok rsp m p : is_u64 rsp -> machine_ok (sample_thread rsp m p).
Proof.
  intros Hr. constructor; cbn.
  - intros r. unfold upd. destruct (r =? RSP); [done|]. pose proof (Z.mod_pos_bound r 16 ltac:(lia)). unfold is_u64. lia.
  - done.
  - intros i. pose proof (Z.mod_pos_bound i 256 ltac:(lia)). lia.
Qed.
