(* ===== verification/StubA64.v ===== *)
(** * The AArch64 stubs (src/isa/aarch64/stub.S)

    entry_stub and exit_stub instruction by instruction, as StubX86 for x86_64: the
    stubs reserve one frame of 640 bytes with the saved registers, the ctx_t and the
    vector area at fixed offsets. *)

From S2P Require Import Prelude CLib Types Payload Emit StubFrame.

(** ** The machine *)

(** Registers by number, the stack pointer as 31. *)
Definition SP : Z := 31.

(** System registers, as mrs reads them. *)
Inductive sysreg := NZCV | FPCR | FPSR.

Record as_t := mk_as { gx : Z -> Z; sysr : sysreg -> Z; qv : Z -> Z; amem : Z -> Z; apl : payload_t }.

Definition set_x (r v : Z) (s : as_t) : as_t := mk_as (upd (gx s) r v) (sysr s) (qv s) (amem s) (apl s).
Definition set_q (r v : Z) (s : as_t) : as_t := mk_as (gx s) (sysr s) (upd (qv s) r v) (amem s) (apl s).
Definition set_m (m : Z -> Z) (s : as_t) : as_t := mk_as (gx s) (sysr s) (qv s) m (apl s).

#[export] Instance sysreg_eq_dec : EqDecision sysreg.
Proof. solve_decision. Defined.

Definition set_sys (r : sysreg) (v : Z) (s : as_t) : as_t :=
  mk_as (gx s) (fun q => if decide (q = r) then v else sysr s q) (qv s) (amem s) (apl s).

Inductive instr :=
| STP (a b base off : Z)
| LDP (a b base off : Z)
| STR (r base off : Z)
| LDR (r base off : Z)
| STPQ (a b base off : Z)
| LDPQ (a b base off : Z)
| MRS (r : Z) (y : sysreg)
| MSR (y : sysreg) (r : Z)
| ADD (d r n : Z)
| SUB (d r n : Z)
| MOV (d r : Z)
| ADRP_exit_stub (d : Z)
| ADD_lo12_exit_stub (d r : Z)
| BL (f : payload_fn).

(** Where exit_stub is, and what a payload function does to the machine. *)
Record stub_env := mk_stub_env { se_exit : Z; se_clobber : payload_fn -> as_t -> as_t }.

Section machine.
Context (E : env_t) (V : stub_env).

Definition call (f : payload_fn) (s : as_t) : as_t :=
  let c := se_clobber V f s in
  let '(r, p) := payload_call E f (gx s 0) (gx s 1) (amem s) (apl s) in
  mk_as (match r with Some v => upd (gx c) 0 v | None => gx c end) (sysr c) (qv c) (amem c) p.

Definition exec (i : instr) (s : as_t) : as_t :=
  match i with
  | STP a b base off => set_m (mstore 8 (mstore 8 (amem s) (gx s base + off) (gx s a)) (gx s base + (off + 8)) (gx s b)) s
  | LDP a b base off =>
      set_x b (load (amem s) (gx s base + (off + 8)) 8) (set_x a (load (amem s) (gx s base + off) 8) s)
  | STR r base off => set_m (mstore 8 (amem s) (gx s base + off) (gx s r)) s
  | LDR r base off => set_x r (load (amem s) (gx s base + off) 8) s
  | STPQ a b base off => set_m (mstore 16 (mstore 16 (amem s) (gx s base + off) (qv s a)) (gx s base + (off + 16)) (qv s b)) s
  | LDPQ a b base off =>
      set_q b (load (amem s) (gx s base + (off + 16)) 16) (set_q a (load (amem s) (gx s base + off) 16) s)
  | MRS r y => set_x r (sysr s y) s
  | MSR y r => set_sys y (gx s r) s
  | ADD d r n => set_x d (gx s r + n) s
  | SUB d r n => set_x d (gx s r - n) s
  | MOV d r => set_x d (gx s r) s
  | ADRP_exit_stub d => set_x d (se_exit V - se_exit V mod 4096) s
  | ADD_lo12_exit_stub d r => set_x d (gx s r + se_exit V mod 4096) s
  | BL f => call f s
  end.

Definition run (code : list instr) (s : as_t) : as_t := foldl (fun s i => exec i s) s code.

(** The final ret. *)
Definition run_ret (code : list instr) (s : as_t) : Z * as_t := let s := run code s in (gx s 30, s).
End machine.

(** ** The code *)

Definition ZT_CTX_GP_ARG5_OFF : Z := 48.
Definition ZT_CTX_GP_ARG4_OFF : Z := 56.
Definition ZT_CTX_GP_ARG0_OFF : Z := 64.
Definition ZT_CTX_GP_ARG1_OFF : Z := 72.
Definition ZT_CTX_GP_ARG2_OFF : Z := 88.
Definition ZT_CTX_GP_ARG3_OFF : Z := 96.
Definition ZT_CTX_GP_RETVAL0_OFF : Z := 112.
Definition ZT_CTX_STATUS_FLAGS_OFF : Z := 120.
Definition ZT_CTX_SAVED_RET_OFF : Z := 128.
Definition ZT_CTX_FUNC_ID_OFF : Z := 136.

Definition ZT_FRAME_REGS_OFF : Z := 0.
Definition ZT_FRAME_RETADDR_OFF : Z := 240.
Definition ZT_FRAME_CTX_OFF : Z := 256.
Definition ZT_FRAME_FPCR_OFF : Z := 448.
Definition ZT_FRAME_FPSR_OFF : Z := 456.
Definition ZT_FRAME_FP_OFF : Z := 512.
Definition ZT_FRAME_SIZE : Z := 640.

Definition SAVE_ENTRY_GPRS : list instr :=
  [STP 6 7 SP (ZT_FRAME_REGS_OFF + 0); STP 8 18 SP (ZT_FRAME_REGS_OFF + 16);
   STP 19 20 SP (ZT_FRAME_REGS_OFF + 32); STP 29 30 SP (ZT_FRAME_REGS_OFF + 48)].

Definition RESTORE_ENTRY_GPRS : list instr :=
  [LDR 0 19 ZT_CTX_GP_ARG0_OFF; LDR 1 19 ZT_CTX_GP_ARG1_OFF; LDR 2 19 ZT_CTX_GP_ARG2_OFF;
   LDR 3 19 ZT_CTX_GP_ARG3_OFF; LDR 4 19 ZT_CTX_GP_ARG4_OFF; LDR 5 19 ZT_CTX_GP_ARG5_OFF;
   LDP 6 7 SP (ZT_FRAME_REGS_OFF + 0); LDP 8 18 SP (ZT_FRAME_REGS_OFF + 16);
   LDP 19 20 SP (ZT_FRAME_REGS_OFF + 32); LDP 29 30 SP (ZT_FRAME_REGS_OFF + 48)].

Definition SAVE_RETURN_GPRS : list instr :=
  [STP 0 1 SP (ZT_FRAME_REGS_OFF + 0); STP 2 3 SP (ZT_FRAME_REGS_OFF + 16);
   STP 4 5 SP (ZT_FRAME_REGS_OFF + 32); STP 6 7 SP (ZT_FRAME_REGS_OFF + 48);
   STP 8 18 SP (ZT_FRAME_REGS_OFF + 64); STP 19 20 SP (ZT_FRAME_REGS_OFF + 80);
   STP 29 30 SP (ZT_FRAME_REGS_OFF + 96)].

Definition RESTORE_RETURN_GPRS : list instr :=
  [LDP 0 1 SP (ZT_FRAME_REGS_OFF + 0); LDP 2 3 SP (ZT_FRAME_REGS_OFF + 16);
   LDP 4 5 SP (ZT_FRAME_REGS_OFF + 32); LDP 6 7 SP (ZT_FRAME_REGS_OFF + 48);
   LDP 8 18 SP (ZT_FRAME_REGS_OFF + 64); LDP 19 20 SP (ZT_FRAME_REGS_OFF + 80);
   LDP 29 30 SP (ZT_FRAME_REGS_OFF + 96)].

Definition SAVE_FP_SNAPSHOT : list instr :=
  [MRS 20 FPCR; STR 20 SP ZT_FRAME_FPCR_OFF; MRS 20 FPSR; STR 20 SP ZT_FRAME_FPSR_OFF;
   STPQ 0 1 SP (ZT_FRAME_FP_OFF + ZT_FP_STATE_VEC_OFFSET + 0); STPQ 2 3 SP (ZT_FRAME_FP_OFF + ZT_FP_STATE_VEC_OFFSET + 32);
   STPQ 4 5 SP (ZT_FRAME_FP_OFF + ZT_FP_STATE_VEC_OFFSET + 64); STPQ 6 7 SP (ZT_FRAME_FP_OFF + ZT_FP_STATE_VEC_OFFSET + 96)].

Definition RESTORE_FP_SNAPSHOT : list instr :=
  [LDPQ 0 1 SP (ZT_FRAME_FP_OFF + ZT_FP_STATE_VEC_OFFSET + 0); LDPQ 2 3 SP (ZT_FRAME_FP_OFF + ZT_FP_STATE_VEC_OFFSET + 32);
   LDPQ 4 5 SP (ZT_FRAME_FP_OFF + ZT_FP_STATE_VEC_OFFSET + 64); LDPQ 6 7 SP (ZT_FRAME_FP_OFF + ZT_FP_STATE_VEC_OFFSET + 96);
   LDR 20 SP ZT_FRAME_FPCR_OFF; MSR FPCR 20; LDR 20 SP ZT_FRAME_FPSR_OFF; MSR FPSR 20].

Definition a64_entry_stub : list instr :=
  [SUB SP SP ZT_FRAME_SIZE] ++ SAVE_ENTRY_GPRS ++ SAVE_FP_SNAPSHOT ++
  [ADD 19 SP ZT_FRAME_CTX_OFF; MRS 20 NZCV;
   STR 0 19 ZT_CTX_GP_ARG0_OFF; STR 1 19 ZT_CTX_GP_ARG1_OFF; STR 2 19 ZT_CTX_GP_ARG2_OFF;
   STR 3 19 ZT_CTX_GP_ARG3_OFF; STR 4 19 ZT_CTX_GP_ARG4_OFF; STR 5 19 ZT_CTX_GP_ARG5_OFF;
   STR 20 19 ZT_CTX_STATUS_FLAGS_OFF; STR 15 19 ZT_CTX_SAVED_RET_OFF; STR 17 19 ZT_CTX_FUNC_ID_OFF;
   MOV 0 19; ADD 1 SP ZT_FRAME_FP_OFF; BL PF_handle_entry;
   LDR 0 19 ZT_CTX_SAVED_RET_OFF; LDR 1 19 ZT_CTX_FUNC_ID_OFF; BL PF_save_probe_frame] ++
  RESTORE_FP_SNAPSHOT ++ [LDR 20 19 ZT_CTX_STATUS_FLAGS_OFF; MSR NZCV 20] ++ RESTORE_ENTRY_GPRS ++
  [ADRP_exit_stub 15; ADD_lo12_exit_stub 15 15; ADD SP SP ZT_FRAME_SIZE].

Definition a64_exit_stub : list instr :=
  [SUB SP SP ZT_FRAME_SIZE] ++ SAVE_RETURN_GPRS ++ SAVE_FP_SNAPSHOT ++
  [ADD 19 SP ZT_FRAME_CTX_OFF; MRS 20 NZCV;
   STR 0 19 ZT_CTX_GP_RETVAL0_OFF; STR 20 19 ZT_CTX_STATUS_FLAGS_OFF;
   BL PF_peek_probe_id; STR 0 19 ZT_CTX_FUNC_ID_OFF;
   MOV 0 19; ADD 1 SP ZT_FRAME_FP_OFF; BL PF_handle_return;
   BL PF_get_ret_addr; STR 0 SP ZT_FRAME_RETADDR_OFF] ++
  RESTORE_FP_SNAPSHOT ++ [LDR 20 19 ZT_CTX_STATUS_FLAGS_OFF; MSR NZCV 20] ++ RESTORE_RETURN_GPRS ++
  [LDR 30 SP ZT_FRAME_RETADDR_OFF; ADD SP SP ZT_FRAME_SIZE].

(** ** The calling convention *)

Definition callee_saved : list Z := seqZ 19 11 ++ [SP].

(** As on x86_64: what payload functions keep. *)
Record abi (V : stub_env) (top : Z) (code : Z -> Prop) : Prop := {
  abi_saved : forall f s r, gx s SP mod 16 = 0 -> r ∈ callee_saved -> gx (se_clobber V f s) r = gx s r;
  abi_stack : forall f s x, gx s SP mod 16 = 0 -> gx s SP <= x < top -> amem (se_clobber V f s) x = amem s x;
  abi_code : forall f s x, code x -> amem (se_clobber V f s) x = amem s x
}.

(** Registers hold values of their width; x16, which the stubs do not use, does not matter. *)
Record machine_ok (s : as_t) : Prop := {
  mo_gx : forall r, r <> 16 -> is_u64 (gx s r);
  mo_sys : forall y, is_u64 (sysr s y);
  mo_qv : forall i, 0 <= qv s i < 256 ^ 16
}.

Section frame.
Context (E : env_t) (V : stub_env).
#[local] Abbreviation run := (run E V).

Lemma a64_run_app c1 c2 s : run (c1 ++ c2) s = run c2 (run c1 s).
Proof. apply foldl_app. Qed.

Context (top : Z) (code : Z -> Prop) (ABI : abi V top code).

Lemma a64_call_keeps f s :
  gx s SP mod 16 = 0 ->
  let s' := exec E V (BL f) s in
  (forall r, r ∈ callee_saved -> gx s' r = gx s r) /\ (forall x, gx s SP <= x < top \/ code x -> amem s' x = amem s x) /\
  apl s' = snd (payload_call E f (gx s 0) (gx s 1) (amem s) (apl s)) /\
  forall v, fst (payload_call E f (gx s 0) (gx s 1) (amem s) (apl s)) = Some v -> gx s' 0 = v.
Proof.
  intros Ha. cbn [exec]. unfold call. destruct (payload_call E f _ _ _ _) as [r p]. cbn [fst snd apl gx amem].
  split_and!; [|intros x [Hx|Hx]; [by apply (abi_stack _ _ _ ABI)|by apply (abi_code _ _ _ ABI)]|done|by intros v ->].
  intros q Hq. rewrite <- (abi_saved _ _ _ ABI f s q Ha Hq). destruct r as [v|]; [|done]. apply upd_other.
  intros ->. by apply (bool_decide_eq_false_1 (0 ∈ callee_saved)) in Hq.
Qed.
End frame.
