(* ===== verification/StubA64Spec.v ===== *)
(** * What the AArch64 stubs do

    As StubX86Spec: the stubs hand the payload the registers of the call, and give
    the thread back as it was, with the link register diverted and restored. *)

From S2P Require Import Prelude CLib Types Payload ShadowStack Emit StubFrame StubA64.

(** A thread gets back the registers [regs], the system registers and the argument and
    return vectors. *)
Record same_registers (regs : list Z) (s s' : as_t) : Prop := {
  sr_gx : forall r, r ∈ regs -> gx s' r = gx s r;
  sr_sys : forall y, sysr s' y = sysr s y;
  sr_qv : forall i, 0 <= i < 8 -> qv s' i = qv s i
}.

Definition entry_regs : list Z := seqZ 0 9 ++ seqZ 18 14.
Definition exit_regs : list Z := seqZ 0 9 ++ seqZ 18 12 ++ [SP].

(** The frame's words by offset: what entry_stub and exit_stub save, and the ctx_t. *)
Definition fp_words (s : as_t) : list (Z * Z) := [(448, sysr s FPCR); (456, sysr s FPSR)].
Definition entry_words (s : as_t) : list (Z * Z) :=
  [(0, gx s 6); (8, gx s 7); (16, gx s 8); (24, gx s 18); (32, gx s 19); (40, gx s 20); (48, gx s 29); (56, gx s 30)] ++ fp_words s.
Definition entry_ctx_words (s : as_t) : list (Z * Z) :=
  [(320, gx s 0); (328, gx s 1); (344, gx s 2); (352, gx s 3); (312, gx s 4); (304, gx s 5); (376, sysr s NZCV); (384, gx s 15); (392, gx s 17)].
Definition exit_words (s : as_t) : list (Z * Z) :=
  [(0, gx s 0); (8, gx s 1); (16, gx s 2); (24, gx s 3); (32, gx s 4); (40, gx s 5); (48, gx s 6); (56, gx s 7);
   (64, gx s 8); (72, gx s 18); (80, gx s 19); (88, gx s 20); (96, gx s 29); (104, gx s 30)] ++ fp_words s.
Definition exit_ctx_words (s : as_t) : list (Z * Z) := [(368, gx s 0); (376, sysr s NZCV)].

Definition entry_frame (s : as_t) : list (Z * Z) := entry_words s ++ entry_ctx_words s.
Definition exit_frame (s : as_t) : list (Z * Z) := exit_words s ++ exit_ctx_words s.

(** ** The parts of the code *)

Definition fp_close : list instr := RESTORE_FP_SNAPSHOT ++ [LDR 20 19 ZT_CTX_STATUS_FLAGS_OFF; MSR NZCV 20].

Definition entry_open : list instr :=
  [SUB SP SP ZT_FRAME_SIZE] ++ SAVE_ENTRY_GPRS ++ SAVE_FP_SNAPSHOT ++
  [ADD 19 SP ZT_FRAME_CTX_OFF; MRS 20 NZCV;
   STR 0 19 ZT_CTX_GP_ARG0_OFF; STR 1 19 ZT_CTX_GP_ARG1_OFF; STR 2 19 ZT_CTX_GP_ARG2_OFF;
   STR 3 19 ZT_CTX_GP_ARG3_OFF; STR 4 19 ZT_CTX_GP_ARG4_OFF; STR 5 19 ZT_CTX_GP_ARG5_OFF;
   STR 20 19 ZT_CTX_STATUS_FLAGS_OFF; STR 15 19 ZT_CTX_SAVED_RET_OFF; STR 17 19 ZT_CTX_FUNC_ID_OFF].
Definition entry_body : list instr :=
  [MOV 0 19; ADD 1 SP ZT_FRAME_FP_OFF; BL PF_handle_entry;
   LDR 0 19 ZT_CTX_SAVED_RET_OFF; LDR 1 19 ZT_CTX_FUNC_ID_OFF; BL PF_save_probe_frame].
Definition entry_tail : list instr := RESTORE_ENTRY_GPRS ++ [ADRP_exit_stub 15; ADD_lo12_exit_stub 15 15; ADD SP SP ZT_FRAME_SIZE].
Definition entry_close : list instr := fp_close ++ entry_tail.

Definition exit_open : list instr :=
  [SUB SP SP ZT_FRAME_SIZE] ++ SAVE_RETURN_GPRS ++ SAVE_FP_SNAPSHOT ++
  [ADD 19 SP ZT_FRAME_CTX_OFF; MRS 20 NZCV; STR 0 19 ZT_CTX_GP_RETVAL0_OFF; STR 20 19 ZT_CTX_STATUS_FLAGS_OFF].
Definition exit_body : list instr :=
  [BL PF_peek_probe_id; STR 0 19 ZT_CTX_FUNC_ID_OFF;
   MOV 0 19; ADD 1 SP ZT_FRAME_FP_OFF; BL PF_handle_return;
   BL PF_get_ret_addr; STR 0 SP ZT_FRAME_RETADDR_OFF].
Definition exit_tail : list instr := RESTORE_RETURN_GPRS ++ [LDR 30 SP ZT_FRAME_RETADDR_OFF; ADD SP SP ZT_FRAME_SIZE].
Definition exit_close : list instr := fp_close ++ exit_tail.

Lemma a64_entry_stub_parts : a64_entry_stub = entry_open ++ entry_body ++ entry_close.
Proof. reflexivity. Qed.

Lemma a64_exit_stub_parts : a64_exit_stub = exit_open ++ exit_body ++ exit_close.
Proof. reflexivity. Qed.

Lemma exit_body_parts :
  exit_body = [BL PF_peek_probe_id] ++ [STR 0 19 136] ++ [MOV 0 19; ADD 1 SP 512] ++ [BL PF_handle_return] ++ [BL PF_get_ret_addr] ++ [STR 0 SP 240].
Proof. reflexivity. Qed.

Lemma mstores_shift m a k l : mstores m (a + k) l = mstores m a (map (fun '(o, v) => (k + o, v)) l).
Proof.
  revert m. induction l as [|[o v] l IH]; intros m; [done|]. cbn [map].
  change (mstores m ?a ((?o, v) :: ?l)) with (mstores (mstore 8 m (a + o) v) a l). rewrite IH. f_equal. f_equal. lia.
Qed.

(** ** The frame *)

(** The vectors at the addresses of the instructions. *)
Definition vec_chain (m : Z -> Z) (B : Z) (v : Z -> Z) : Z -> Z :=
  foldl (fun m i => mstore 16 m (B + (512 + 16 * i)) (v i)) m (seqZ 0 8).

Lemma vec_chain_vstores m B v : vec_chain m B v = vstores m (B + 512) v (seqZ 0 8).
Proof.
  unfold vec_chain, vstores. generalize (seqZ 0 8). intros l. revert m. induction l as [|i l IH]; intros m; [done|]. cbn [foldl].
  rewrite IH. by replace (B + (512 + 16 * i)) with (B + 512 + 16 * i) by lia.
Qed.

(** The memory a stub has built: words, vectors, words. *)
Definition frame_mem (m : Z -> Z) (B : Z) (v : Z -> Z) (l1 l2 : list (Z * Z)) : Z -> Z :=
  mstores (vstores (mstores m B l1) (B + 512) v (seqZ 0 8)) B l2.

Lemma frame_mem_spec m B v l1 l2 :
  apart (map fst (l1 ++ l2)) = true -> within 0 512 (map fst (l1 ++ l2)) = true ->
  let m' := frame_mem m B v l1 l2 in
  (forall off w, (off, w) ∈ l1 ++ l2 -> slot m' (B + off) w) /\ code_at m' (B + 512) (vec_bytes v) /\
  forall x, x < B \/ B + 640 <= x -> m' x = m x.
Proof.
  intros Ha Hw. cbv zeta. set (m2 := vstores (mstores m B l1) (B + 512) v (seqZ 0 8)).
  destruct (vec_area (mstores m B l1) (B + 512) v) as [V1 V2]. fold m2 in V1, V2.
  unfold within in Hw. rewrite map_app, forallb_app in Hw. apply andb_prop in Hw as [Hw1 Hw2].
  assert (Hm : frame_mem m B v l1 l2 = mstores m2 B l2) by done. rewrite Hm. clearbody m2. split_and!.
  - intros off w Hin. rewrite map_app in Ha. apply apart_app in Ha as (A1 & A2 & A3).
    apply elem_of_app in Hin as [Hin|Hin]; [|by apply mstores_slot].
    assert (Ho : off ∈ map fst l1) by exact (list_elem_of_fmap_2 fst l1 (off, w) Hin).
    pose proof (within_elem _ _ _ _ Hw1 Ho). apply slot_ext with (mstores m B l1); [|by apply mstores_slot].
    intros x Hx. rewrite mstores_far by (intros o Hi; specialize (A3 off o Ho Hi); lia). apply V2. lia.
  - eapply code_at_ext; [|exact V1]. intros x Hx. apply (mstores_out 0 512); [done|lia].
  - intros x Hx. rewrite (mstores_out 0 512), V2, (mstores_out 0 512) by (done || lia). done.
Qed.

Section spec.
Context (E : env_t) (V : stub_env) (top : Z) (code : Z -> Prop) (ABI : abi V top code).
#[local] Abbreviation run := (run E V).

(** The frame of [s] with the words [l] is on the stack of [s']. *)
Record framed (l : list (Z * Z)) (s s' : as_t) : Prop := {
  fd_sp : gx s' SP = gx s SP - 640;
  fd_x19 : gx s' 19 = gx s' SP + 256;
  fd_saved : forall r, 21 <= r <= 28 -> gx s' r = gx s r;
  fd_slot : forall off v, (off, v) ∈ l -> slot (amem s') (gx s' SP + off) v;
  fd_area : code_at (amem s') (gx s' SP + 512) (vec_bytes (qv s))
}.

Definition open_regs (s : as_t) : Z -> Z :=
  upd (upd (upd (upd (upd (gx s) SP (gx s SP - 640)) 20 (sysr s FPCR)) 20 (sysr s FPSR)) 19 (gx s SP - 640 + 256)) 20 (sysr s NZCV).

Definition unshift (l : list (Z * Z)) : list (Z * Z) := map (fun '(o, v) => (o - 256, v)) l.

Lemma entry_open_run s :
  run entry_open s =
  mk_as (open_regs s) (sysr s) (qv s) (frame_mem (amem s) (gx s SP - 640) (qv s) (entry_words s) (entry_ctx_words s)) (apl s).
Proof.
  transitivity (mk_as (open_regs s) (sysr s) (qv s)
    (mstores (vec_chain (mstores (amem s) (gx s SP - 640) (entry_words s)) (gx s SP - 640) (qv s)) (gx s SP - 640 + 256) (unshift (entry_ctx_words s))) (apl s));
    [reflexivity|]. by rewrite vec_chain_vstores, mstores_shift.
Qed.

Lemma exit_open_run s :
  run exit_open s =
  mk_as (open_regs s) (sysr s) (qv s) (frame_mem (amem s) (gx s SP - 640) (qv s) (exit_words s) (exit_ctx_words s)) (apl s).
Proof.
  transitivity (mk_as (open_regs s) (sysr s) (qv s)
    (mstores (vec_chain (mstores (amem s) (gx s SP - 640) (exit_words s)) (gx s SP - 640) (qv s)) (gx s SP - 640 + 256) (unshift (exit_ctx_words s))) (apl s));
    [reflexivity|]. by rewrite vec_chain_vstores, mstores_shift.
Qed.

(** What both prologues leave. *)
Definition opened (l : list (Z * Z)) (s s' : as_t) : Prop :=
  framed l s s' /\ apl s' = apl s /\ forall x, x < gx s SP - 640 \/ gx s SP <= x -> amem s' x = amem s x.

Lemma open_framed l1 l2 s :
  apart (map fst (l1 ++ l2)) = true -> within 0 512 (map fst (l1 ++ l2)) = true ->
  opened (l1 ++ l2) s (mk_as (open_regs s) (sysr s) (qv s) (frame_mem (amem s) (gx s SP - 640) (qv s) l1 l2) (apl s)).
Proof.
  intros Ha Hw. destruct (frame_mem_spec (amem s) (gx s SP - 640) (qv s) l1 l2 Ha Hw) as (H1 & H2 & H3).
  split_and!; [constructor; [done|done| |exact H1|exact H2]|done|].
  - intros r Hr. unfold open_regs, gx at 1. rewrite !upd_other by (unfold SP; lia). done.
  - intros x Hx. apply H3. lia.
Qed.

Lemma entry_opened s : opened (entry_frame s) s (run entry_open s).
Proof. rewrite entry_open_run. by apply (open_framed (entry_words s) (entry_ctx_words s)). Qed.

Lemma exit_opened s : opened (exit_frame s) s (run exit_open s).
Proof. rewrite exit_open_run. by apply (open_framed (exit_words s) (exit_ctx_words s)). Qed.

(** ** Calls *)

(** What the code between the prologue and the epilogue may not touch. *)
Record keeps (s s' : as_t) : Prop := {
  kp_reg : forall r, r ∈ callee_saved -> gx s' r = gx s r;
  kp_mem : forall x, gx s SP <= x < top \/ code x -> amem s' x = amem s x
}.

Lemma sp_saved : SP ∈ callee_saved.
Proof. by apply (bool_decide_eq_true_1 _). Qed.

Lemma x19_saved : 19 ∈ callee_saved.
Proof. by apply (bool_decide_eq_true_1 _). Qed.

Lemma callee_saved_range r : 21 <= r <= 28 -> r ∈ callee_saved.
Proof. intros H. apply elem_of_app. left. apply elem_of_seqZ. lia. Qed.

Lemma a64_framed_keeps l s s1 s2 :
  gx s SP <= top -> within 0 512 (map fst l) = true -> framed l s s1 -> keeps s1 s2 -> framed l s s2.
Proof.
  intros Ht Hw [F1 F2 F3 F4 F5] [K1 K2]. pose proof (K1 _ sp_saved) as Ks. constructor; rewrite ?Ks, ?(K1 _ x19_saved); try done.
  - intros r Hr. rewrite K1, F3 by (done || by apply callee_saved_range). done.
  - intros off v Hin. eapply slot_ext; [|by apply F4].
    assert (Ho : off ∈ map fst l) by exact (list_elem_of_fmap_2 fst l (off, v) Hin). pose proof (within_elem _ _ _ _ Hw Ho).
    intros x Hx. apply K2. lia.
  - eapply code_at_ext; [|exact F5]. change (length (vec_bytes (qv s))) with 128%nat. intros x Hx. apply K2. lia.
Qed.

Lemma a64_call_framed f l s s1 :
  gx s SP mod 16 = 0 -> gx s SP <= top -> within 0 512 (map fst l) = true -> framed l s s1 ->
  let s' := exec E V (BL f) s1 in
  framed l s s' /\ keeps s1 s' /\
  apl s' = snd (payload_call E f (gx s1 0) (gx s1 1) (amem s1) (apl s1)) /\
  forall v, fst (payload_call E f (gx s1 0) (gx s1 1) (amem s1) (apl s1)) = Some v -> gx s' 0 = v.
Proof.
  intros Ha Ht Hw F. destruct (a64_call_keeps E V top code ABI f s1) as (C1 & C2 & C3 & C4).
  { rewrite (fd_sp _ _ _ F), Zminus_mod, Ha. done. }
  assert (K : keeps s1 (exec E V (BL f) s1)) by (by constructor). split_and!; [by eapply a64_framed_keeps|done..].
Qed.

(** Arguments put in x0 and x1 before a call. *)
Definition with_args (v0 v1 : Z) (s : as_t) : as_t := set_x 1 v1 (set_x 0 v0 s).

Lemma args_framed l v0 v1 s s1 : framed l s s1 -> framed l s (with_args v0 v1 s1).
Proof.
  intros [F1 F2 F3 F4 F5]. constructor; try done. intros r Hr. unfold with_args, set_x. cbn [gx]. rewrite !upd_other by lia. by apply F3.
Qed.

Lemma framed_fp l s s' : framed l s s' -> 640 < gx s SP -> fp_area_at (amem s') (gx s' SP + 512) = Some (vec_bytes (qv s)).
Proof.
  intros F Hp. unfold fp_area_at. pose proof (fd_sp _ _ _ F). destruct (Z.eqb_spec (gx s' SP + 512) 0); [lia|]. f_equal.
  exact (area_code _ _ _ (fd_area _ _ _ F)).
Qed.

Lemma framed_context l s s' : framed l s s' -> 640 < gx s SP -> context_at (amem s') (gx s' 19) = Some (ctx_of (amem s') (gx s' 19)).
Proof.
  intros F Hp. unfold context_at. pose proof (fd_sp _ _ _ F). pose proof (fd_x19 _ _ _ F).
  destruct (Z.eqb_spec (gx s' 19) 0); [lia|done].
Qed.

(** A word of the frame, read through the stack pointer or the context. *)
Lemma framed_load l s s' off v : framed l s s' -> is_u64 v -> (off, v) ∈ l -> load (amem s') (gx s' SP + off) 8 = v.
Proof. intros F Hv Hin. apply slot_load; [done|]. by apply F. Qed.

Lemma framed_ctx_load l s s' off v : framed l s s' -> is_u64 v -> (256 + off, v) ∈ l -> load (amem s') (gx s' 19 + off) 8 = v.
Proof.
  intros F Hv Hin. rewrite (fd_x19 _ _ _ F). replace (gx s' SP + 256 + off) with (gx s' SP + (256 + off)) by lia.
  by eapply framed_load.
Qed.

Lemma framed_vec l s s' i :
  framed l s s' -> machine_ok s -> 0 <= i < 8 -> load (amem s') (gx s' SP + (512 + 16 * i)) 16 = qv s i.
Proof.
  intros F Hok Hi. rewrite Z.add_assoc. apply vec_load; [apply F|done|apply Hok].
Qed.

(** ** entry_stub *)

(** The fields of the context the payload reads at an entry. *)
Record entry_ctx (s : as_t) (c : ctx_t) : Prop := {
  ec_arg0 : gp_arg0 c = gx s 0; ec_arg1 : gp_arg1 c = gx s 1; ec_arg2 : gp_arg2 c = gx s 2;
  ec_arg3 : gp_arg3 c = gx s 3; ec_arg4 : gp_arg4 c = gx s 4; ec_arg5 : gp_arg5 c = gx s 5;
  ec_flags : status_flags c = sysr s NZCV; ec_ret : trampoline_ret_addr c = gx s 15; ec_id : func_id c = gx s 17
}.

Ltac in_frame := repeat first [by left | right].

Lemma framed_entry_ctx s s' :
  machine_ok s -> framed (entry_frame s) s s' -> entry_ctx s (ctx_of (amem s') (gx s' 19)).
Proof.
  intros Hok F.
  assert (H : forall off v, is_u64 v -> (256 + off, v) ∈ entry_frame s -> load (amem s') (gx s' 19 + off) 8 = v)
    by (intros off v; by apply (framed_ctx_load _ s)).
  constructor; (apply H; [by apply Hok|in_frame]).
Qed.

Lemma a64_entry_body_effect s s1 :
  machine_ok s -> gx s SP mod 16 = 0 -> 1024 <= gx s SP -> gx s SP <= top -> framed (entry_frame s) s s1 ->
  let s' := run entry_body s1 in
  framed (entry_frame s) s s' /\ (forall x, gx s SP <= x < top \/ code x -> amem s' x = amem s1 x) /\
  exists c, entry_ctx s c /\ apl s' = entry_stub E c (vec_bytes (qv s)) (gx s 15) (apl s1).
Proof.
  intros Hok Ha Hlo Ht F. cbv zeta.
  change (run entry_body s1) with (exec E V (BL PF_save_probe_frame) (run [LDR 0 19 ZT_CTX_SAVED_RET_OFF; LDR 1 19 ZT_CTX_FUNC_ID_OFF]
    (exec E V (BL PF_handle_entry) (with_args (gx s1 19) (gx s1 SP + 512) s1)))).
  pose proof (args_framed _ (gx s1 19) (gx s1 SP + 512) s s1 F) as F2.
  generalize (a64_call_framed PF_handle_entry (entry_frame s) s _ Ha Ht eq_refl F2).
  generalize (exec E V (BL PF_handle_entry) (with_args (gx s1 19) (gx s1 SP + 512) s1)). cbv zeta.
  intros s3 (F3 & [_ K3] & P3 & _). change (gx (with_args ?a ?b s1) SP) with (gx s1 SP) in K3. change (amem (with_args ?a ?b s1)) with (amem s1) in K3.
  assert (P3' : apl s3 = zt_handle_entry E (context_at (amem s1) (gx s1 19)) (fp_area_at (amem s1) (gx s1 SP + 512)) (apl s1)) by exact P3.
  rewrite (framed_context _ _ _ F), (framed_fp _ _ _ F) in P3' by lia. clear P3.
  change (run [_; _] s3) with (with_args (load (amem s3) (gx s3 19 + 128) 8) (load (amem s3) (gx s3 19 + 136) 8) s3).
  rewrite (framed_ctx_load _ _ _ 128 (gx s 15) F3), (framed_ctx_load _ _ _ 136 (gx s 17) F3) by (by apply Hok || in_frame).
  pose proof (args_framed _ (gx s 15) (gx s 17) s s3 F3) as F4.
  generalize (a64_call_framed PF_save_probe_frame (entry_frame s) s _ Ha Ht eq_refl F4).
  generalize (exec E V (BL PF_save_probe_frame) (with_args (gx s 15) (gx s 17) s3)). cbv zeta.
  intros s5 (F5 & [_ K5] & P5 & _). change (gx (with_args ?a ?b s3) SP) with (gx s3 SP) in K5. change (amem (with_args ?a ?b s3)) with (amem s3) in K5.
  split_and!; [done| |].
  - intros x Hx. rewrite K5, K3 by (rewrite ?(fd_sp _ _ _ F3), ?(fd_sp _ _ _ F); intuition lia). done.
  - exists (ctx_of (amem s1) (gx s1 19)). pose proof (framed_entry_ctx s s1 Hok F) as Hc. split; [done|].
    change (apl s5 = snd (payload_call E PF_save_probe_frame (gx s 15) (gx s 17) (amem s3) (apl s3))) in P5.
    rewrite P5, P3'. cbn [payload_call]. unfold entry_stub. rewrite (ec_id _ _ Hc). by destruct (save_probe_frame_c _ _ _).
Qed.

(** The words of a frame read back: [Hc] and [Hs] give a register saved in the
    context and below it, [F] a register left to the calling convention. *)
Ltac from_ctx Hc off r := exact (Hc off r ltac:(lia) ltac:(in_frame)).
Ltac from_frame Hs off r := exact (Hs off r ltac:(lia) ltac:(in_frame)).
Ltac from_callee F := match goal with |- gx _ ?r = _ => exact (fd_saved _ _ _ F r ltac:(lia)) end.

Lemma entry_close_regs s s2 :
  machine_ok s -> framed (entry_frame s) s s2 -> Forall (fun r => gx (run entry_close s2) r = gx s r) entry_regs.
Proof.
  intros Hok F. pose proof (mo_gx _ Hok) as U.
  assert (Hc : forall off r, r <> 16 -> (256 + off, gx s r) ∈ entry_frame s -> load (amem s2) (gx s2 19 + off) 8 = gx s r)
    by (intros off r Hr; apply (framed_ctx_load _ s); [done|by apply U]).
  assert (Hs : forall off r, r <> 16 -> (off, gx s r) ∈ entry_frame s -> load (amem s2) (gx s2 SP + off) 8 = gx s r)
    by (intros off r Hr; apply (framed_load _ s); [done|by apply U]).
  assert (Hsp : gx s2 SP + 640 = gx s SP) by (rewrite (fd_sp _ _ _ F); lia).
  repeat constructor;
    [from_ctx Hc 64 0|from_ctx Hc 72 1|from_ctx Hc 88 2|from_ctx Hc 96 3|from_ctx Hc 56 4|from_ctx Hc 48 5
    |from_frame Hs 0 6|from_frame Hs 8 7|from_frame Hs 16 8|from_frame Hs 24 18|from_frame Hs 32 19|from_frame Hs 40 20
    |from_callee F..|from_frame Hs 48 29|from_frame Hs 56 30|exact Hsp].
Qed.

(** The system and vector registers, restored by the same code in both stubs. *)
Lemma close_fp l s s2 :
  machine_ok s -> framed l s s2 -> (448, sysr s FPCR) ∈ l -> (456, sysr s FPSR) ∈ l -> (376, sysr s NZCV) ∈ l ->
  let s' := run fp_close s2 in
  (forall y, sysr s' y = sysr s y) /\ forall i, 0 <= i < 8 -> qv s' i = qv s i.
Proof.
  intros Hok F H1 H2 H3. cbv zeta. split.
  - intros [| |]; [exact (framed_ctx_load l s s2 120 _ F (mo_sys _ Hok _) H3)|exact (framed_load l s s2 448 _ F (mo_sys _ Hok _) H1)
      |exact (framed_load l s s2 456 _ F (mo_sys _ Hok _) H2)].
  - intros i Hi. assert (Hv : forall i, 0 <= i < 8 -> load (amem s2) (gx s2 SP + (512 + 16 * i)) 16 = qv s i) by (intros; by eapply framed_vec).
    assert (HF : Forall (fun i => qv (run fp_close s2) i = qv s i) (seqZ 0 8)).
    { repeat constructor; [exact (Hv 0 ltac:(lia))|exact (Hv 1 ltac:(lia))|exact (Hv 2 ltac:(lia))|exact (Hv 3 ltac:(lia))
        |exact (Hv 4 ltac:(lia))|exact (Hv 5 ltac:(lia))|exact (Hv 6 ltac:(lia))|exact (Hv 7 ltac:(lia))]. }
    rewrite Forall_forall in HF. apply HF. apply elem_of_seqZ. lia.
Qed.

Lemma entry_close_rest s :
  let s' := run entry_close s in
  sysr s' = sysr (run fp_close s) /\ qv s' = qv (run fp_close s) /\ amem s' = amem s /\ apl s' = apl s /\
  gx s' 15 = se_exit V - se_exit V mod 4096 + se_exit V mod 4096.
Proof.
  cbv zeta. unfold entry_close. rewrite a64_run_app. change (amem s) with (amem (run fp_close s)). change (apl s) with (apl (run fp_close s)).
  generalize (run fp_close s). by intros s1.
Qed.

(** No code is where the stubs' frame goes. *)
Definition code_apart (S : Z) : Prop := forall x, code x -> x < S - 640 \/ S <= x.

(** entry_stub, called by the trampoline with the return address of the call in x15
    and the probe's id in x17: the payload has recorded the entry and the frame; the stub
    returns to the trampoline with x0-x8, x18-x30, the stack pointer, the flags, the floating-point
    control and status and the argument vectors as they were, the stack as it was, and
    exit_stub in x15. *)
Lemma a64_entry_stub_spec s :
  machine_ok s -> gx s SP mod 16 = 0 -> 1024 <= gx s SP -> gx s SP <= top -> code_apart (gx s SP) ->
  exists s' ctx, run_ret E V a64_entry_stub s = (gx s 30, s') /\ same_registers entry_regs s s' /\ gx s' 15 = se_exit V /\
  (forall x, gx s SP <= x < top \/ code x -> amem s' x = amem s x) /\
  entry_ctx s ctx /\ apl s' = entry_stub E ctx (vec_bytes (qv s)) (gx s 15) (apl s).
Proof.
  intros Hok Ha Hlo Ht Hap. unfold run_ret. rewrite a64_entry_stub_parts, !a64_run_app.
  generalize (entry_opened s). generalize (run entry_open s). intros s1 (F1 & P1 & M1).
  generalize (a64_entry_body_effect s s1 Hok Ha Hlo Ht F1). generalize (run entry_body s1). cbv zeta. intros s2 (F2 & M2 & c & Hc & P2).
  pose proof (entry_close_regs s s2 Hok F2) as Hr. rewrite Forall_forall in Hr.
  destruct (entry_close_rest s2) as (C1 & C2 & C3 & C4 & C5). destruct (close_fp _ s s2 Hok F2) as [Hy Hq]; [in_frame..|].
  exists (run entry_close s2), c. split_and!.
  - f_equal. apply Hr. by apply (bool_decide_eq_true_1 _).
  - constructor; [exact Hr|by rewrite C1|by rewrite C2].
  - rewrite C5. lia.
  - intros x Hx. rewrite C3, M2, M1; [done|destruct Hx as [Hx|Hx%Hap]; lia|done].
  - done.
  - by rewrite C4, P2, P1.
Qed.

(** ** exit_stub *)

(** A word stored in the frame beside the words [l]. *)
Lemma a64_store_framed l base off k r s s1 :
  apart (k :: map fst l) = true -> within 0 512 [k] = true -> framed l s s1 -> gx s1 base + off = gx s1 SP + k ->
  let s' := run [STR r base off] s1 in
  framed l s s' /\ gx s' = gx s1 /\ apl s' = apl s1 /\ amem s' = mstore 8 (amem s1) (gx s1 SP + k) (gx s1 r).
Proof.
  intros [Ha _]%andb_prop Hw [F1 F2 F3 F4 F5] Hk. cbv zeta. set (s' := run _ s1).
  assert (Hm : amem s' = mstore 8 (amem s1) (gx s1 SP + k) (gx s1 r)) by (rewrite <- Hk; done).
  pose proof (within_elem _ _ _ k Hw ltac:(by left)) as Hk2.
  split_and!; [constructor; [done|done|done| |]|done|done|done].
  - intros o v Hin. rewrite Hm. apply slot_keep; [|by apply F4]. change (gx s' SP) with (gx s1 SP).
    pose proof (list_elem_of_fmap_2 fst l (o, v) Hin) as Ho. rewrite forallb_forall in Ha. apply list_elem_of_In in Ho.
    specialize (Ha _ Ho). cbn [fst] in Ha. apply orb_prop in Ha as [?%Z.leb_le|?%Z.leb_le]; lia.
  - rewrite Hm. eapply code_at_ext; [|exact F5]. intros x Hx. change (gx s' SP) with (gx s1 SP) in Hx. apply mstore_out. lia.
Qed.

(** The fields of the context the payload reads at a return. *)
Record exit_ctx (s : as_t) (c : ctx_t) : Prop := {
  xc_ret : gp_retval0 c = gx s 0;
  xc_flags : status_flags c = sysr s NZCV
}.

Lemma framed_exit_ctx s s' :
  machine_ok s -> framed (exit_frame s) s s' -> exit_ctx s (ctx_of (amem s') (gx s' 19)).
Proof.
  intros Hok F. constructor;
    [apply (framed_ctx_load (exit_frame s) s s' 112)|apply (framed_ctx_load (exit_frame s) s s' 120)]; (done || by apply Hok || in_frame).
Qed.

Lemma ctx_same_id c id : func_id c = id -> ctx_with_func_id c id = c.
Proof. destruct c. cbn. by intros ->. Qed.

Lemma a64_exit_body_effect s s1 :
  machine_ok s -> gx s SP mod 16 = 0 -> 1024 <= gx s SP -> gx s SP <= top -> is_u64 (peek_probe_id_c (apl s1)) ->
  framed (exit_frame s) s s1 ->
  let s' := run exit_body s1 in
  exists c, let r := exit_stub E c (vec_bytes (qv s)) (apl s1) in
  framed (exit_frame s) s s' /\ (forall x, gx s SP <= x < top \/ code x /\ (x < gx s SP - 640 \/ gx s SP <= x) -> amem s' x = amem s1 x) /\
  exit_ctx s c /\ slot (amem s') (gx s' SP + 240) (fst r) /\ apl s' = snd r.
Proof.
  intros Hok Ha Hlo Ht Hid F. cbv zeta.
  rewrite exit_body_parts, !a64_run_app. change (run [BL ?f] s1) with (exec E V (BL f) s1).
  generalize (a64_call_framed PF_peek_probe_id (exit_frame s) s s1 Ha Ht eq_refl F). generalize (exec E V (BL PF_peek_probe_id) s1). cbv zeta.
  intros s2 (F2 & [_ K2] & P2 & X2). specialize (X2 _ eq_refl). cbn [payload_call snd] in P2.
  generalize (a64_store_framed (exit_frame s) 19 136 392 0 s s2 eq_refl eq_refl F2 ltac:(rewrite (fd_x19 _ _ _ F2); lia)).
  generalize (run [STR 0 19 136] s2). cbv zeta. intros s3 (F3 & G3 & P3 & M3). rewrite X2 in M3.
  change (run [MOV 0 19; ADD 1 SP 512] s3) with (with_args (gx s3 19) (gx s3 SP + 512) s3).
  pose proof (args_framed _ (gx s3 19) (gx s3 SP + 512) s s3 F3) as F4. change (run [BL ?f] (with_args ?a ?b s3)) with (exec E V (BL f) (with_args a b s3)).
  generalize (a64_call_framed PF_handle_return (exit_frame s) s _ Ha Ht eq_refl F4).
  generalize (exec E V (BL PF_handle_return) (with_args (gx s3 19) (gx s3 SP + 512) s3)). cbv zeta.
  intros s5 (F5 & [_ K5] & P5 & _). change (gx (with_args ?a ?b s3) SP) with (gx s3 SP) in K5. change (amem (with_args ?a ?b s3)) with (amem s3) in K5.
  assert (P5' : apl s5 = zt_handle_return E (context_at (amem s3) (gx s3 19)) (fp_area_at (amem s3) (gx s3 SP + 512)) (apl s3)) by exact P5.
  rewrite (framed_context _ _ _ F3), (framed_fp _ _ _ F3), P3, P2 in P5' by lia. clear P5.
  set (c := ctx_of (amem s3) (gx s3 19)) in *.
  assert (Hc : ctx_with_func_id c (peek_probe_id_c (apl s1)) = c).
  { apply ctx_same_id. change (load (amem s3) (gx s3 19 + 136) 8 = peek_probe_id_c (apl s1)). rewrite M3, G3, (fd_x19 _ _ _ F2).
    replace (gx s2 SP + 256 + 136) with (gx s2 SP + 392) by lia. apply slot_load; [done|apply slot_store]. }
  change (run [BL ?f] s5) with (exec E V (BL f) s5).
  generalize (a64_call_framed PF_get_ret_addr (exit_frame s) s s5 Ha Ht eq_refl F5). generalize (exec E V (BL PF_get_ret_addr) s5). cbv zeta.
  intros s6 (F6 & [_ K6] & P6 & X6). cbn [payload_call] in P6, X6. rewrite P5' in P6, X6.
  exists c. unfold exit_stub. rewrite Hc. destruct (get_ret_addr_c _) as [ret p6]. cbn [fst snd] in *. specialize (X6 _ eq_refl).
  destruct (a64_store_framed (exit_frame s) SP 240 240 0 s s6 eq_refl eq_refl F6 eq_refl) as (F7 & G7 & P7 & M7).
  pose proof (fd_sp _ _ _ F6) as S6. pose proof (fd_sp _ _ _ F2) as S2. pose proof (fd_sp _ _ _ F5) as S5.
  split_and!; [done| |by apply framed_exit_ctx|rewrite M7, G7, X6; apply slot_store|congruence].
  intros x Hx. rewrite M7, mstore_out, K6, K5, M3, mstore_out, K2 by (rewrite ?G3, ?(fd_sp _ _ _ F); intuition lia). done.
Qed.

Lemma exit_close_regs s s2 :
  machine_ok s -> framed (exit_frame s) s s2 -> Forall (fun r => gx (run exit_close s2) r = gx s r) exit_regs.
Proof.
  intros Hok F. pose proof (mo_gx _ Hok) as U.
  assert (Hs : forall off r, r <> 16 -> (off, gx s r) ∈ exit_frame s -> load (amem s2) (gx s2 SP + off) 8 = gx s r)
    by (intros off r Hr; apply (framed_load _ s); [done|by apply U]).
  assert (Hsp : gx s2 SP + 640 = gx s SP) by (rewrite (fd_sp _ _ _ F); lia).
  repeat constructor;
    [from_frame Hs 0 0|from_frame Hs 8 1|from_frame Hs 16 2|from_frame Hs 24 3|from_frame Hs 32 4|from_frame Hs 40 5
    |from_frame Hs 48 6|from_frame Hs 56 7|from_frame Hs 64 8|from_frame Hs 72 18|from_frame Hs 80 19|from_frame Hs 88 20
    |from_callee F..|from_frame Hs 96 29|exact Hsp].
Qed.

Lemma exit_close_rest s :
  let s' := run exit_close s in
  sysr s' = sysr (run fp_close s) /\ qv s' = qv (run fp_close s) /\ amem s' = amem s /\ apl s' = apl s /\
  gx s' 30 = load (amem s) (gx s SP + 240) 8.
Proof.
  cbv zeta. unfold exit_close. rewrite a64_run_app. change (amem s) with (amem (run fp_close s)). change (apl s) with (apl (run fp_close s)).
  change (gx s SP) with (gx (run fp_close s) SP). generalize (run fp_close s). by intros s1.
Qed.

(** exit_stub, where the function returned to: the payload has recorded the return and
    popped the call's frame; the stub goes on at the return address the frame held, also in
    the link register, with x0-x8, x18-x29, the stack pointer, the flags, the
    floating-point control and status, the return vectors and the stack as the function
    left them. *)
Lemma a64_exit_stub_spec s :
  machine_ok s -> gx s SP mod 16 = 0 -> 1024 <= gx s SP -> gx s SP <= top -> code_apart (gx s SP) -> is_u64 (peek_probe_id_c (apl s)) ->
  exists s' ctx, let r := exit_stub E ctx (vec_bytes (qv s)) (apl s) in
  run_ret E V a64_exit_stub s = (u64 (fst r), s') /\ same_registers exit_regs s s' /\
  (forall x, gx s SP <= x < top \/ code x -> amem s' x = amem s x) /\ exit_ctx s ctx /\ apl s' = snd r.
Proof.
  intros Hok Ha Hlo Ht Hap Hid. unfold run_ret. rewrite a64_exit_stub_parts, !a64_run_app.
  generalize (exit_opened s). generalize (run exit_open s). intros s1 (F1 & P1 & M1).
  generalize (a64_exit_body_effect s s1 Hok Ha Hlo Ht ltac:(by rewrite P1) F1). generalize (run exit_body s1). cbv zeta.
  rewrite P1. intros s2 (c & F2 & M2 & Hc & X2 & P2).
  pose proof (exit_close_regs s s2 Hok F2) as Hr. rewrite Forall_forall in Hr.
  destruct (exit_close_rest s2) as (C1 & C2 & C3 & C4 & C5). destruct (close_fp _ s s2 Hok F2) as [Hy Hq]; [in_frame..|].
  exists (run exit_close s2), c. split_and!.
  - f_equal. rewrite C5. exact (load_code 8 _ _ _ X2).
  - constructor; [exact Hr|by rewrite C1|by rewrite C2].
  - intros x Hx. rewrite C3, M2, M1; [done|destruct Hx as [Hx|Hx%Hap]; lia|destruct Hx as [Hx|Hx]; [by left|right; split; [done|by apply Hap]]].
  - done.
  - by rewrite C4, P2.
Qed.

(** ** A probed call *)

(** The same on AArch64, where the trampoline passes the return address of
    the call in x15 and the probe's id in x17 and afterwards moves x15 to the link
    register: entry_stub returns to the trampoline with x0-x8, x18-x30, the stack pointer, the
    flags, the floating-point control and status, the argument vectors and the stack as they were and
    exit_stub in x15; the payload recorded the entry with the argument registers.  When
    the function returns to exit_stub with its inner calls' frames popped, exit_stub
    records the returned x0 and goes on at the return address of the call with the
    function's registers and stack, and the shadow stack is that of before the call. *)
Lemma a64_probed_call `{!CalleeBalanced E d} s :
  machine_ok s -> gx s SP mod 16 = 0 -> 1024 <= gx s SP -> gx s SP <= top -> code_apart (gx s SP) -> room d (apl s) -> room 1 (apl s) ->
  exists s1 ctx, run_ret E V a64_entry_stub s = (gx s 30, s1) /\ same_registers entry_regs s s1 /\ gx s1 15 = se_exit V /\
  (forall x, gx s SP <= x < top \/ code x -> amem s1 x = amem s x) /\
  entry_ctx s ctx /\ apl s1 = entry_stub E ctx (vec_bytes (qv s)) (gx s 15) (apl s) /\
  forall s2, machine_ok s2 -> gx s2 SP = gx s SP -> same_stack (apl s1) (apl s2) ->
  exists s3 ctx2, run_ret E V a64_exit_stub s2 = (gx s 15, s3) /\ same_registers exit_regs s2 s3 /\
  (forall x, gx s SP <= x < top \/ code x -> amem s3 x = amem s2 x) /\
  exit_ctx s2 ctx2 /\ apl s3 = snd (exit_stub E ctx2 (vec_bytes (qv s2)) (apl s2)) /\
  shadow (pl_tls (apl s3)) = shadow (pl_tls (apl s)).
Proof.
  intros Hok Ha Hlo Ht Hap Hd H1. destruct (a64_entry_stub_spec s Hok Ha Hlo Ht Hap) as (s1 & c & R1 & G1 & X1 & M1 & C1 & P1).
  exists s1, c. split_and!; [done..|]. intros s2 Hok2 S2 Hsame.
  destruct (entry_stub_push E c (vec_bytes (qv s)) (gx s 15) (apl s) Hd H1) as (T1 & _ & Hsh).
  rewrite <- P1 in T1, Hsh. pose proof (same_stack_ok _ _ Hsame T1) as T2. rewrite <- (same_stack_shadow _ _ Hsame) in Hsh.
  destruct (a64_exit_stub_spec s2 Hok2) as (s3 & c2 & R3 & G3 & M3 & C3 & P3); [by rewrite S2|lia|lia|by rewrite S2| |].
  { rewrite (peek_probe_id_top _ _ _ T2 Hsh). cbn [fr_probe_id]. rewrite (ec_id _ _ C1). by apply Hok. }
  pose proof (exit_stub_pop E c2 (vec_bytes (qv s2)) (apl s2) _ _ T2 Hsh) as Hpop.
  exists s3, c2. rewrite S2 in *. split_and!; [|done..|].
  - rewrite R3. destruct (exit_stub E _ _ (apl s2)) as [r p]. destruct Hpop as (-> & _). cbn [fst fr_ret_addr]. rewrite u64_small; [done|by apply Hok].
  - rewrite P3. destruct (exit_stub E _ _ (apl s2)) as [r p]. cbn [snd]. by destruct Hpop as (_ & _ & -> & _).
Qed.
End spec.

(** ** Samples *)

(** Payload code that overwrites everything the convention lets it. *)
Definition sample_clobber (code : Z -> bool) (f : payload_fn) (s : as_t) : as_t :=
  mk_as (fun r => if bool_decide (r ∈ callee_saved) then gx s r else 0) (fun _ => 0) (fun _ => 0)
    (fun x => if (gx s SP <=? x) || code x then amem s x else 0xcc) (apl s).

Definition sample_stubs (code : Z -> bool) : stub_env := mk_stub_env 0x600100 (sample_clobber code).

Lemma a64_sample_abi code top : abi (sample_stubs code) top (fun x => code x = true).
Proof.
  constructor.
  - intros f s r _ Hr. cbn. by rewrite bool_decide_eq_true_2.
  - intros f s x _ Hx. cbn. by destruct (Z.leb_spec (gx s SP) x); [|lia].
  - intros f s x Hx. cbn. by rewrite Hx, orb_true_r.
Qed.

Definition sample_thread (m : Z -> Z) (p : payload_t) : as_t :=
  mk_as (upd (fun r => 100 + r mod 32) SP 0x300000) (fun _ => 0x60000000) (fun i => i mod 256) m p.

Lemma a64_sample_thread_ok m p : machine_ok (sample_thread m p).
Proof.
  constructor; cbn.
  - intros r _. unfold upd. destruct (r =? SP); [done|]. pose proof (Z.mod_pos_bound r 32 ltac:(lia)). unfold is_u64. lia.
  - done.
  - intros i. pose proof (Z.mod_pos_bound i 256 ltac:(lia)). lia.
Qed.
