(* ===== verification/X86Trampoline.v ===== *)
(** * The x86_64 trampoline builder (src/isa/x86_64/trampoline_manager.c)

    A trampoline pushes the probe id, calls entry_stub, drops the id, replays the
    instructions the patch overwrote, and jumps behind the patch.  Buffers are byte
    lists whose length is the buffer size.  The disassembler (capstone) is the
    parameter [cs_disasm] of the operations that use it. *)

From S2P Require Import Prelude CLib Types Emit.

(** ** Instructions as capstone reports them *)

Inductive x86_insn_id :=
| X86_INS_CALL | X86_INS_JMP
| X86_INS_JAE | X86_INS_JA | X86_INS_JBE | X86_INS_JB | X86_INS_JCXZ | X86_INS_JECXZ | X86_INS_JE
| X86_INS_JGE | X86_INS_JG | X86_INS_JLE | X86_INS_JL | X86_INS_JNE | X86_INS_JNO | X86_INS_JNP
| X86_INS_JNS | X86_INS_JO | X86_INS_JP | X86_INS_JRCXZ | X86_INS_JS
| X86_INS_OTHER (n : Z).

#[export] Instance x86_insn_id_eq_dec : EqDecision x86_insn_id.
Proof. solve_decision. Defined.

(** An operand: a register, an immediate, or memory with its base register (true
    for rip). *)
Inductive x86_operand :=
| X86_OP_REG
| X86_OP_IMM (imm : Z)
| X86_OP_MEM (base_is_rip : bool).

Record cs_insn := mk_insn {
  insn_id : x86_insn_id;
  insn_address : Z;
  insn_size : Z;
  insn_bytes : list Z;
  x86_operands : list x86_operand;
  x86_disp : Z;
  x86_disp_offset : Z;
  x86_disp_size : Z
}.

(** ** Templates *)

Definition ZT_TRAMPOLINE_TEMPLATE_PREFIX : list Z :=
  [0x68; 0x00; 0x00; 0x00; 0x00;
   0xFF; 0x15; 0x00; 0x00; 0x00; 0x00;
   0x48; 0x8D; 0x64; 0x24; 0x08].

Definition ZT_TRAMPOLINE_TEMPLATE_SUFFIX : list Z :=
  [0xFF; 0x25; 0x00; 0x00; 0x00; 0x00] ++ replicate 8 0x00 ++ replicate 8 0x00.

Definition sizeof_prefix : Z := 16.
Definition sizeof_suffix : Z := 22.

(** ** Emission *)

Definition INT32_MIN : Z := - 2 ^ 31.
Definition INT32_MAX : Z := 2 ^ 31 - 1.

Definition zt_patch_disp32 (buf : list Z) (insn_offset disp_offset disp_size disp_value : Z)
    : option (list Z) :=
  if negb (disp_size =? 4) || (disp_value <? INT32_MIN) || (disp_value >? INT32_MAX) then None
  else Some (memcpy_at (Z.to_nat (insn_offset + disp_offset)) (le_bytes 4 disp_value) buf).

(** The first operand, if it is an immediate. *)
Definition first_imm (i : cs_insn) : option Z :=
  match x86_operands i with X86_OP_IMM v :: _ => Some v | _ => None end.

Definition zt_is_rel_call (i : cs_insn) : option Z :=
  match insn_id i with X86_INS_CALL => first_imm i | _ => None end.

Definition zt_is_rel_jmp (i : cs_insn) : option Z :=
  match insn_id i with X86_INS_JMP => first_imm i | _ => None end.

Definition zt_is_conditional_jump (i : cs_insn) : bool :=
  match insn_id i with
  | X86_INS_JAE | X86_INS_JA | X86_INS_JBE | X86_INS_JB | X86_INS_JCXZ | X86_INS_JECXZ | X86_INS_JE
  | X86_INS_JGE | X86_INS_JG | X86_INS_JLE | X86_INS_JL | X86_INS_JNE | X86_INS_JNO | X86_INS_JNP
  | X86_INS_JNS | X86_INS_JO | X86_INS_JP | X86_INS_JRCXZ | X86_INS_JS => true
  | _ => false
  end.

Definition zt_inverse_short_jcc_opcode (i : cs_insn) : option Z :=
  match insn_id i with
  | X86_INS_JO => Some 0x71
  | X86_INS_JNO => Some 0x70
  | X86_INS_JB => Some 0x73
  | X86_INS_JAE => Some 0x72
  | X86_INS_JE => Some 0x75
  | X86_INS_JNE => Some 0x74
  | X86_INS_JBE => Some 0x77
  | X86_INS_JA => Some 0x76
  | X86_INS_JS => Some 0x79
  | X86_INS_JNS => Some 0x78
  | X86_INS_JP => Some 0x7B
  | X86_INS_JNP => Some 0x7A
  | X86_INS_JL => Some 0x7D
  | X86_INS_JGE => Some 0x7C
  | X86_INS_JLE => Some 0x7F
  | X86_INS_JG => Some 0x7E
  | _ => None
  end.

Definition zt_rewrite_rel_call (buf : list Z) (offset target_addr : Z) : option (list Z * Z) :=
  emit_all buf offset
    [[0x41; 0x53]; [0x49; 0xBB]; le_bytes 8 target_addr; [0x41; 0xFF; 0xD3]; [0x41; 0x5B]].

Definition zt_rewrite_rel_jmp (buf : list Z) (offset target_addr : Z) : option (list Z * Z) :=
  emit_all buf offset [[0x49; 0xBB]; le_bytes 8 target_addr; [0x41; 0xFF; 0xE3]].

Definition zt_rewrite_cond_jmp (buf : list Z) (offset : Z) (i : cs_insn) (target_addr : Z)
    : option (list Z * Z) :=
  match zt_inverse_short_jcc_opcode i with
  | None => None
  | Some opcode =>
      match zt_emit_bytes buf offset [opcode; 13] with
      | None => None
      | Some (buf, offset) => zt_rewrite_rel_jmp buf offset target_addr
      end
  end.

Definition is_rip_mem (op : x86_operand) : bool :=
  match op with X86_OP_MEM true => true | _ => false end.

(** The new displacement of a rip-relative operand of an instruction copied to
    [insn_offset] of the relocated code. *)
Definition rebased_disp (cur : cs_insn) (trampoline_code_addr insn_offset : Z) : Z :=
  let old_next := insn_address cur +64 insn_size cur in
  let old_target := u64 (i64 old_next + x86_disp cur) in
  let new_next := trampoline_code_addr +64 insn_offset +64 insn_size cur in
  i64 (i64 old_target - i64 new_next).

(** One iteration of the relocation loop. *)
Definition relocate_one (trampoline_code_addr : Z) (buf : list Z) (emitted : Z) (cur : cs_insn)
    : option (list Z * Z) :=
  match zt_is_rel_call cur with
  | Some imm => zt_rewrite_rel_call buf emitted (u64 imm)
  | None =>
      match zt_is_rel_jmp cur with
      | Some imm => zt_rewrite_rel_jmp buf emitted (u64 imm)
      | None =>
          if zt_is_conditional_jump cur then
            match first_imm cur with
            | None => None
            | Some imm => zt_rewrite_cond_jmp buf emitted cur (u64 imm)
            end
          else
            let insn_offset := emitted in
            match zt_emit_bytes buf emitted (take (Z.to_nat (insn_size cur)) (insn_bytes cur)) with
            | None => None
            | Some (buf, emitted) =>
                if existsb is_rip_mem (x86_operands cur) then
                  match zt_patch_disp32 buf insn_offset (x86_disp_offset cur) (x86_disp_size cur)
                          (rebased_disp cur trampoline_code_addr insn_offset) with
                  | None => None
                  | Some buf => Some (buf, emitted)
                  end
                else Some (buf, emitted)
            end
      end
  end.

Fixpoint relocate_loop (trampoline_code_addr : Z) (buf : list Z) (emitted : Z) (insns : list cs_insn)
    : option (list Z * Z) :=
  match insns with
  | [] => Some (buf, emitted)
  | cur :: insns =>
      match relocate_one trampoline_code_addr buf emitted cur with
      | None => None
      | Some (buf, emitted) => relocate_loop trampoline_code_addr buf emitted insns
      end
  end.

Section builder.
(** [cs_open] followed by [cs_disasm] with details on: [None] if the handle cannot
    be opened, otherwise the instructions. *)
Context (cs_disasm : list Z -> Z -> option (list cs_insn)).

Definition zt_emit_relocated_orig_code (probe : zt_probe_info_t) (trampoline_code_addr : Z)
    (buf : list Z) : option (list Z * Z) :=
  match cs_disasm (take (Z.to_nat (pr_orig_len probe)) (pr_orig_code probe))
          (tgt_remote_addr (pr_target probe)) with
  | None | Some [] => None
  | Some insns => relocate_loop trampoline_code_addr buf 0 insns
  end.

Definition zt_build_trampoline (probe : zt_probe_info_t) (entry_stub_addr trampoline_addr : Z)
    (trampoline_buf : list Z) : option (list Z * Z) :=
  if (trampoline_addr =? 0) || (entry_stub_addr =? 0) then None
  else if (pr_orig_len probe =? 0) || (pr_orig_len probe >? ZT_PROBE_ORIG_CODE_MAX) then None
  else
    let continue_addr := tgt_remote_addr (pr_target probe) +64 pr_orig_len probe in
    let buf := replicate (length trampoline_buf) 0x90 in
    match zt_emit_bytes buf 0 ZT_TRAMPOLINE_TEMPLATE_PREFIX with
    | None => None
    | Some (buf, offset) =>
        let buf := memcpy_at 1 (le_bytes 4 (pr_probe_id probe)) buf in
        match zt_emit_relocated_orig_code probe (trampoline_addr +64 sizeof_prefix)
                (drop (Z.to_nat offset) buf) with
        | None => None
        | Some (tail, relocated_size) =>
            let buf := take (Z.to_nat offset) buf ++ tail in
            let offset := offset + relocated_size in
            match zt_emit_bytes buf offset ZT_TRAMPOLINE_TEMPLATE_SUFFIX with
            | None => None
            | Some (buf, offset) =>
                if negb (offset =? sizeof_prefix + relocated_size + sizeof_suffix) then None
                else
                  let entry_slot_offset := sizeof_prefix + relocated_size + 6 in
                  let continue_slot_offset := entry_slot_offset + 8 in
                  let call_disp := entry_slot_offset - 11 in
                  let buf := memcpy_at 7 (le_bytes 4 call_disp) buf in
                  let jmp_disp := continue_slot_offset - (sizeof_prefix + relocated_size + 6) in
                  let tail_at := Z.to_nat (sizeof_prefix + relocated_size) in
                  let buf := memcpy_at (tail_at + 2) (le_bytes 4 jmp_disp) buf in
                  let buf := memcpy_at (tail_at + 6) (le_bytes 8 entry_stub_addr) buf in
                  let buf := memcpy_at (tail_at + 14) (le_bytes 8 continue_addr) buf in
                  Some (buf, offset)
            end
        end
    end.
End builder.
