(* ===== verification/X86Spec.v ===== *)
(** * What an x86_64 trampoline does

    The bytes the builder emits, as a function of the relocated instructions, and
    their execution on a small model of the processor. *)

From S2P Require Import Prelude CLib Types Emit X86Trampoline.

(** ** The relocated instructions *)

Definition jmp_bytes (target : Z) : list Z := [0x49; 0xBB] ++ le_bytes 8 target ++ [0x41; 0xFF; 0xE3].
Definition call_bytes (target : Z) : list Z :=
  [0x41; 0x53; 0x49; 0xBB] ++ le_bytes 8 target ++ [0x41; 0xFF; 0xD3; 0x41; 0x5B].

(** A displacement that a 32-bit field can hold. *)
Definition disp32 (d : Z) : bool := (INT32_MIN <=? d) && (d <=? INT32_MAX).

(** The bytes that replace an instruction at [off] of the relocated code; [None] if
    it cannot be relocated. *)
Definition reloc_bytes (code_addr off : Z) (cur : cs_insn) : option (list Z) :=
  match zt_is_rel_call cur, zt_is_rel_jmp cur with
  | Some imm, _ => Some (call_bytes (u64 imm))
  | None, Some imm => Some (jmp_bytes (u64 imm))
  | None, None =>
      if zt_is_conditional_jump cur then
        match first_imm cur, zt_inverse_short_jcc_opcode cur with
        | Some imm, Some op => Some ([op; 13] ++ jmp_bytes (u64 imm))
        | _, _ => None
        end
      else if existsb is_rip_mem (x86_operands cur) then
        let d := rebased_disp cur code_addr off in
        if (x86_disp_size cur =? 4) && disp32 d
        then Some (memcpy_at (Z.to_nat (x86_disp_offset cur)) (le_bytes 4 d) (insn_bytes cur))
        else None
      else Some (insn_bytes cur)
  end.

Fixpoint reloc_code (code_addr off : Z) (insns : list cs_insn) : option (list Z) :=
  match insns with
  | [] => Some []
  | cur :: insns =>
      match reloc_bytes code_addr off cur with
      | None => None
      | Some bs =>
          match reloc_code code_addr (off + Z.of_nat (length bs)) insns with
          | None => None
          | Some rest => Some (bs ++ rest)
          end
      end
  end.

(** What the builder relies on of the disassembler: the bytes of an instruction
    are its size, and the displacement field of a rip-relative operand lies inside. *)
Definition insn_ok (i : cs_insn) : Prop :=
  Z.of_nat (length (insn_bytes i)) = insn_size i /\
  (existsb is_rip_mem (x86_operands i) = true ->
   0 <= x86_disp_offset i /\ x86_disp_offset i + 4 <= insn_size i).

Lemma relocate_one_eq A buf off cur :
  insn_ok cur -> 0 <= off <= Z.of_nat (length buf) ->
  relocate_one A buf off cur =
  match reloc_bytes A off cur with None => None | Some bs => emitted buf off bs end.
Proof.
  intros [Hsz Hdisp] Hoff. unfold relocate_one, reloc_bytes.
  destruct (zt_is_rel_call cur); [apply emit_all_eq; done|].
  destruct (zt_is_rel_jmp cur); [apply emit_all_eq; done|].
  destruct (zt_is_conditional_jump cur).
  - destruct (first_imm cur) as [imm|]; [|done]. unfold zt_rewrite_cond_jmp.
    destruct (zt_inverse_short_jcc_opcode cur) as [op|]; [|done].
    rewrite emit_bytes_eq. apply emitted_bind; [lia|]. intros. by apply emit_all_eq.
  - rewrite take_ge by lia. rewrite emit_bytes_eq. unfold emitted, fits.
    destruct (existsb is_rip_mem (x86_operands cur)) eqn:Hrip.
    2:{ by destruct (_ <=? _). }
    destruct (Hdisp eq_refl) as [Hd0 Hd4]. unfold zt_patch_disp32, disp32.
    set (d := rebased_disp cur A off).
    replace (negb (x86_disp_size cur =? 4) || (d <? INT32_MIN) || (d >? INT32_MAX))
      with (negb ((x86_disp_size cur =? 4) && ((INT32_MIN <=? d) && (d <=? INT32_MAX)))).
    2:{ rewrite !negb_andb, !Z.leb_antisym, !negb_involutive, Z.gtb_ltb. by rewrite orb_assoc. }
    destruct ((x86_disp_size cur =? 4) && _); cbn [negb]; [|by destruct (_ <=? _)].
    rewrite length_memcpy_at by (rewrite length_le_bytes; lia).
    destruct (Z.leb_spec (off + Z.of_nat (length (insn_bytes cur))) (Z.of_nat (length buf))); [|done].
    rewrite Z2Nat.inj_add by lia. rewrite memcpy_at_inside by (rewrite ?length_le_bytes; lia). done.
Qed.

Lemma relocate_loop_eq A buf off insns :
  Forall insn_ok insns -> 0 <= off <= Z.of_nat (length buf) ->
  relocate_loop A buf off insns =
  match reloc_code A off insns with None => None | Some bs => emitted buf off bs end.
Proof.
  intros Hok. revert buf off. induction Hok as [|cur insns Hc _ IH]; intros buf off Hoff;
    cbn [relocate_loop reloc_code].
  - unfold emitted, fits. cbn. rewrite Z.add_0_r, memcpy_at_nil.
    destruct (Z.leb_spec off (Z.of_nat (length buf))); [done|lia].
  - rewrite relocate_one_eq by done. destruct (reloc_bytes A off cur) as [bs|]; [|done].
    destruct (reloc_code A (off + Z.of_nat (length bs)) insns) as [rest|] eqn:Hr.
    + apply emitted_bind; [lia|]. intros buf' off' Hl Ho ->. by rewrite IH, Hr.
    + unfold emitted, fits. destruct (Z.leb_spec (off + Z.of_nat (length bs)) (Z.of_nat (length buf))); [|done].
      by rewrite IH, Hr by (rewrite length_memcpy_at by lia; lia).
Qed.

(** ** The whole trampoline *)

Definition x86_prefix (id n : Z) : list Z :=
  [0x68] ++ le_bytes 4 id ++ [0xFF; 0x15] ++ le_bytes 4 (n + 11) ++ [0x48; 0x8D; 0x64; 0x24; 0x08].

Definition x86_suffix (entry continue : Z) : list Z :=
  [0xFF; 0x25] ++ le_bytes 4 8 ++ le_bytes 8 entry ++ le_bytes 8 continue.

Definition x86_layout (id entry continue : Z) (code : list Z) : list Z :=
  x86_prefix id (Z.of_nat (length code)) ++ code ++ x86_suffix entry continue.

Lemma length_layout id entry cont code :
  length (x86_layout id entry cont code) = (38 + length code)%nat.
Proof.
  unfold x86_layout, x86_prefix, x86_suffix. rewrite !length_app, !length_le_bytes. cbn [length]. lia.
Qed.

Lemma suffix_patched j entry cont (rest : list Z) :
  memcpy_at 14 (le_bytes 8 cont) (memcpy_at 6 (le_bytes 8 entry)
    (memcpy_at 2 (le_bytes 4 j) (ZT_TRAMPOLINE_TEMPLATE_SUFFIX ++ rest))) =
  ([0xFF; 0x25] ++ le_bytes 4 j ++ le_bytes 8 entry ++ le_bytes 8 cont) ++ rest.
Proof. reflexivity. Qed.

Lemma prefix_patched id d (rest : list Z) :
  memcpy_at 7 (le_bytes 4 d) (memcpy_at 1 (le_bytes 4 id) ZT_TRAMPOLINE_TEMPLATE_PREFIX ++ rest) =
  ([0x68] ++ le_bytes 4 id ++ [0xFF; 0x15] ++ le_bytes 4 d ++ [0x48; 0x8D; 0x64; 0x24; 0x08]) ++ rest.
Proof. reflexivity. Qed.

(** The stores into the templates, once the code is in place. *)
Lemma patched_layout id entry cont code rest :
  let n := (16 + length code)%nat in
  memcpy_at (n + 14) (le_bytes 8 cont) (memcpy_at (n + 6) (le_bytes 8 entry)
    (memcpy_at (n + 2) (le_bytes 4 8) (memcpy_at 7 (le_bytes 4 (Z.of_nat (length code) + 11))
      (memcpy_at 1 (le_bytes 4 id) ZT_TRAMPOLINE_TEMPLATE_PREFIX
         ++ code ++ ZT_TRAMPOLINE_TEMPLATE_SUFFIX ++ rest)))) =
  x86_layout id entry cont code ++ rest.
Proof.
  intros n. rewrite prefix_patched. set (p7 := [0x68] ++ _).
  assert (Hp7 : length p7 = 16%nat) by reflexivity. rewrite (app_assoc p7).
  rewrite (memcpy_at_skip _ 2), (memcpy_at_skip _ 6), (memcpy_at_skip _ 14)
    by (rewrite length_app, Hp7; lia).
  rewrite suffix_patched. unfold x86_layout, x86_suffix. rewrite <- !app_assoc. reflexivity.
Qed.

(** The buffer of a build that has room: the trampoline, then the nops of memset. *)
(** Emission at the start of a block of filler. *)
Lemma memcpy_fill bs n x : memcpy_at 0 bs (replicate n x) = bs ++ replicate (n - length bs) x.
Proof. unfold memcpy_at. by rewrite take_0, drop_replicate. Qed.

Lemma build_eq cs_disasm probe entry addr buf insns :
  addr <> 0 -> entry <> 0 -> 0 < pr_orig_len probe <= ZT_PROBE_ORIG_CODE_MAX ->
  cs_disasm (take (Z.to_nat (pr_orig_len probe)) (pr_orig_code probe))
    (tgt_remote_addr (pr_target probe)) = Some insns -> insns <> [] -> Forall insn_ok insns ->
  let cont := tgt_remote_addr (pr_target probe) +64 pr_orig_len probe in
  zt_build_trampoline cs_disasm probe entry addr buf =
  match reloc_code (addr +64 sizeof_prefix) 0 insns with
  | None => None
  | Some code =>
      if (38 + length code <=? length buf)%nat then
        Some (x86_layout (pr_probe_id probe) entry cont code
                ++ replicate (length buf - (38 + length code)) 0x90, Z.of_nat (38 + length code))
      else None
  end.
Proof.
  intros Ha He Hl Hd Hne Hok cont. unfold zt_build_trampoline, zt_emit_relocated_orig_code.
  destruct (Z.eqb_spec addr 0), (Z.eqb_spec entry 0); try done. cbn [orb].
  destruct (Z.eqb_spec (pr_orig_len probe) 0); [lia|]. rewrite Z.gtb_ltb.
  destruct (Z.ltb_spec ZT_PROBE_ORIG_CODE_MAX (pr_orig_len probe)); [lia|]. cbn [orb].
  rewrite Hd. destruct insns as [|i0 insns]; [done|]. set (is0 := i0 :: insns) in *.
  rewrite emit_bytes_eq. unfold emitted, fits. rewrite length_replicate.
  change (Z.of_nat (length ZT_TRAMPOLINE_TEMPLATE_PREFIX)) with 16. rewrite Z.add_0_l.
  destruct (Z.leb_spec 16 (Z.of_nat (length buf))) as [H16|H16].
  2:{ destruct (reloc_code _ _ _) as [code|]; [|done].
      destruct (Nat.leb_spec (38 + length code) (length buf)); [lia|done]. }
  set (sz := length buf) in *.
  change (Z.to_nat 0) with 0%nat. rewrite memcpy_fill. change (length ZT_TRAMPOLINE_TEMPLATE_PREFIX) with 16%nat. set (pre := memcpy_at 1 (le_bytes 4 (pr_probe_id probe)) ZT_TRAMPOLINE_TEMPLATE_PREFIX).
  change (memcpy_at 1 (le_bytes 4 (pr_probe_id probe)) (ZT_TRAMPOLINE_TEMPLATE_PREFIX ++ replicate (sz - 16) 0x90))
    with (pre ++ replicate (sz - 16) 0x90).
  change (Z.to_nat 16) with (length pre). rewrite drop_app_length, take_app_length.
  rewrite relocate_loop_eq; [|done|lia].
  destruct (reloc_code (addr +64 sizeof_prefix) 0 is0) as [code|]; [|done].
  unfold emitted, fits. rewrite length_replicate, !Z.add_0_l. change (Z.to_nat 0) with 0%nat.
  destruct (Z.leb_spec (Z.of_nat (length code)) (Z.of_nat (sz - 16))) as [Hc|Hc].
  2:{ destruct (Nat.leb_spec (38 + length code) sz); [lia|done]. }
  rewrite memcpy_fill, emit_bytes_eq. unfold emitted, fits.
  rewrite !length_app, length_replicate. change (length pre) with 16%nat.
  change (Z.of_nat (length ZT_TRAMPOLINE_TEMPLATE_SUFFIX)) with 22.
  destruct (Nat.leb_spec (38 + length code) sz) as [H38|H38].
  2:{ destruct (Z.leb_spec (16 + Z.of_nat (length code) + 22)
        (Z.of_nat (16 + (length code + (sz - 16 - length code))))); [lia|done]. }
  destruct (Z.leb_spec (16 + Z.of_nat (length code) + 22)
    (Z.of_nat (16 + (length code + (sz - 16 - length code))))); [|lia].
  unfold sizeof_prefix, sizeof_suffix. rewrite Z.eqb_refl. cbn [negb].
  rewrite app_assoc, (memcpy_at_skip _ 0) by (rewrite length_app; change (length pre) with 16%nat; lia).
  rewrite memcpy_fill. change (length ZT_TRAMPOLINE_TEMPLATE_SUFFIX) with 22%nat.
  replace (sz - 16 - length code - 22)%nat with (sz - (38 + length code))%nat by lia.
  replace (16 + Z.of_nat (length code) + 6 - 11) with (Z.of_nat (length code) + 11) by lia.
  replace (16 + Z.of_nat (length code) + 6 + 8 - (16 + Z.of_nat (length code) + 6)) with 8 by lia.
  replace (Z.to_nat (16 + Z.of_nat (length code))) with (16 + length code)%nat by lia.
  rewrite <- app_assoc. unfold pre. rewrite patched_layout. f_equal. f_equal. lia.
Qed.

(** ** A small x86_64

    The instructions the builder emits itself; addresses are small enough not to
    wrap.  [cc] gives the eight conditions that the even opcodes 0x70, 0x72, ...
    test; the odd ones test their negations. *)

Record cpu := mk_cpu { rip : Z; rsp : Z; r11 : Z; mem : Z -> Z }.

Definition store8 (m : Z -> Z) (a v : Z) : Z -> Z :=
  fun x => if (a <=? x) && (x <? a + 8) then arr_get (le_bytes 8 v) (x - a) else m x.

Definition push (v : Z) (s : cpu) : cpu :=
  mk_cpu (rip s) (rsp s - 8) (r11 s) (store8 (mem s) (rsp s - 8) v).

Definition jump (a : Z) (s : cpu) : cpu := mk_cpu a (rsp s) (r11 s) (mem s).

Definition jcc_taken (cc : Z -> bool) (op : Z) : bool :=
  xorb (cc ((op - 0x70) / 2)) (Z.odd op).

Definition i8 (x : Z) : Z := if x <? 128 then x else x - 256.

Definition x86_step (cc : Z -> bool) (s : cpu) : option cpu :=
  let b i := mem s (rip s + i) in
  if b 0 =? 0x68 then                                             (* push imm32 *)
    Some (jump (rip s + 5) (push (i32 (load (mem s) (rip s + 1) 4)) s))
  else if (b 0 =? 0xFF) && (b 1 =? 0x15) then                     (* call [rip+d] *)
    let target := load (mem s) (rip s + 6 + i32 (load (mem s) (rip s + 2) 4)) 8 in
    Some (jump target (push (rip s + 6) s))
  else if (b 0 =? 0xFF) && (b 1 =? 0x25) then                     (* jmp [rip+d] *)
    Some (jump (load (mem s) (rip s + 6 + i32 (load (mem s) (rip s + 2) 4)) 8) s)
  else if (b 0 =? 0x48) && (b 1 =? 0x8D) && (b 2 =? 0x64) && (b 3 =? 0x24) then (* lea rsp,[rsp+d8] *)
    Some (mk_cpu (rip s + 5) (rsp s + i8 (b 4)) (r11 s) (mem s))
  else if (b 0 =? 0x41) && (b 1 =? 0x53) then                     (* push r11 *)
    Some (jump (rip s + 2) (push (r11 s) s))
  else if (b 0 =? 0x41) && (b 1 =? 0x5B) then                     (* pop r11 *)
    Some (mk_cpu (rip s + 2) (rsp s + 8) (load (mem s) (rsp s) 8) (mem s))
  else if (b 0 =? 0x49) && (b 1 =? 0xBB) then                     (* movabs r11, imm64 *)
    Some (mk_cpu (rip s + 10) (rsp s) (load (mem s) (rip s + 2) 8) (mem s))
  else if (b 0 =? 0x41) && (b 1 =? 0xFF) && (b 2 =? 0xD3) then    (* call r11 *)
    Some (jump (r11 s) (push (rip s + 3) s))
  else if (b 0 =? 0x41) && (b 1 =? 0xFF) && (b 2 =? 0xE3) then    (* jmp r11 *)
    Some (jump (r11 s) s)
  else if (0x70 <=? b 0) && (b 0 <=? 0x7F) then                   (* jcc rel8 *)
    Some (jump (if jcc_taken cc (b 0) then rip s + 2 + i8 (b 1) else rip s + 2) s)
  else None.

Fixpoint x86_run (cc : Z -> bool) (n : nat) (s : cpu) : option cpu :=
  match n with
  | O => Some s
  | S n => match x86_step cc s with None => None | Some s => x86_run cc n s end
  end.

(** The bytes from [a] on are not in the [n] bytes below [sp]. *)
Definition below_apart (sp n a len : Z) : Prop := sp <= a \/ a + len <= sp - n.

Lemma store8_other m a v x : x < a \/ a + 8 <= x -> store8 m a v x = m x.
Proof.
  intros H. unfold store8. destruct (Z.leb_spec a x), (Z.ltb_spec x (a + 8)); cbn; try done; lia.
Qed.

Lemma store8_load m a v : load (store8 m a v) a 8 = u64 v.
Proof.
  rewrite <- le_word_u64. change 8%nat with (length (le_bytes 8 v)) at 1. apply code_at_load.
  intros i b Hi. apply lookup_lt_Some in Hi as Hl. rewrite length_le_bytes in Hl.
  unfold store8. destruct (Z.leb_spec a (a + Z.of_nat i)), (Z.ltb_spec (a + Z.of_nat i) (a + 8)); try lia.
  cbn [andb]. unfold arr_get. replace (Z.to_nat (a + Z.of_nat i - a)) with i by lia.
  by apply list_lookup_total_correct.
Qed.

Lemma load_below m a v b n : a + 8 <= b -> load (store8 m a v) b n = load m b n.
Proof. intros H. unfold load. f_equal. apply map_ext. intros i. apply store8_other. lia. Qed.

Lemma code_at_store m a bs sp v :
  code_at m a bs -> below_apart sp 8 a (Z.of_nat (length bs)) -> code_at (store8 m (sp - 8) v) a bs.
Proof.
  intros H Hap i b Hi. apply lookup_lt_Some in Hi as Hl. unfold below_apart in Hap.
  rewrite store8_other by lia. by apply H.
Qed.

Lemma i32_u32 x : i32 (u32 x) = i32 x.
Proof. unfold i32. by rewrite (u32_small (u32 x)) by apply u32_range. Qed.

Section steps.
Context (cc : Z -> bool) (s : cpu).

Lemma step_push_imm id rest :
  code_at (mem s) (rip s) ([0x68] ++ le_bytes 4 id ++ rest) ->
  x86_step cc s = Some (jump (rip s + 5) (push (i32 id) s)).
Proof.
  intros H. unfold x86_step. rewrite (byte_at _ _ _ 0 0x68 H) by done.
  apply code_at_app in H as [_ H]. apply code_at_app in H as [H _]. apply code_at_load in H.
  rewrite length_le_bytes, le_word_u32 in H. cbn [length] in H. change (Z.of_nat 1) with 1 in H. cbn [Z.eqb Pos.eqb].
  by rewrite H, i32_u32.
Qed.

Lemma step_call_mem d rest :
  code_at (mem s) (rip s) ([0xFF; 0x15] ++ le_bytes 4 d ++ rest) ->
  x86_step cc s = Some (jump (load (mem s) (rip s + 6 + i32 d) 8) (push (rip s + 6) s)).
Proof.
  intros H. unfold x86_step. rewrite (byte_at _ _ _ 0 0xFF H), (byte_at _ _ _ 1 0x15 H) by done.
  apply code_at_app in H as [_ H]. apply code_at_app in H as [H _]. apply code_at_load in H.
  rewrite length_le_bytes, le_word_u32 in H. cbn [length] in H. change (Z.of_nat 2) with 2 in H. cbn [Z.eqb Pos.eqb andb].
  by rewrite H, i32_u32.
Qed.

Lemma step_jmp_mem d rest :
  code_at (mem s) (rip s) ([0xFF; 0x25] ++ le_bytes 4 d ++ rest) ->
  x86_step cc s = Some (jump (load (mem s) (rip s + 6 + i32 d) 8) s).
Proof.
  intros H. unfold x86_step. rewrite (byte_at _ _ _ 0 0xFF H), (byte_at _ _ _ 1 0x25 H) by done.
  apply code_at_app in H as [_ H]. apply code_at_app in H as [H _]. apply code_at_load in H.
  rewrite length_le_bytes, le_word_u32 in H. cbn [length] in H. change (Z.of_nat 2) with 2 in H. cbn [Z.eqb Pos.eqb andb].
  by rewrite H, i32_u32.
Qed.

Lemma step_lea_rsp rest :
  code_at (mem s) (rip s) ([0x48; 0x8D; 0x64; 0x24; 0x08] ++ rest) ->
  x86_step cc s = Some (mk_cpu (rip s + 5) (rsp s + 8) (r11 s) (mem s)).
Proof.
  intros H. unfold x86_step.
  rewrite (byte_at _ _ _ 0 0x48 H), (byte_at _ _ _ 1 0x8D H), (byte_at _ _ _ 2 0x64 H),
    (byte_at _ _ _ 3 0x24 H), (byte_at _ _ _ 4 0x08 H) by done. reflexivity.
Qed.

Lemma step_movabs v rest :
  code_at (mem s) (rip s) ([0x49; 0xBB] ++ le_bytes 8 v ++ rest) ->
  x86_step cc s = Some (mk_cpu (rip s + 10) (rsp s) (u64 v) (mem s)).
Proof.
  intros H. unfold x86_step. rewrite (byte_at _ _ _ 0 0x49 H), (byte_at _ _ _ 1 0xBB H) by done.
  apply code_at_app in H as [_ H]. apply code_at_app in H as [H _]. apply code_at_load in H.
  rewrite length_le_bytes, le_word_u64 in H. cbn [length] in H. change (Z.of_nat 2) with 2 in H. cbn [Z.eqb Pos.eqb andb].
  by rewrite H.
Qed.

Lemma step_push_r11 rest :
  code_at (mem s) (rip s) ([0x41; 0x53] ++ rest) ->
  x86_step cc s = Some (jump (rip s + 2) (push (r11 s) s)).
Proof.
  intros H. unfold x86_step. rewrite (byte_at _ _ _ 0 0x41 H), (byte_at _ _ _ 1 0x53 H) by done. reflexivity.
Qed.

Lemma step_pop_r11 rest :
  code_at (mem s) (rip s) ([0x41; 0x5B] ++ rest) ->
  x86_step cc s = Some (mk_cpu (rip s + 2) (rsp s + 8) (load (mem s) (rsp s) 8) (mem s)).
Proof.
  intros H. unfold x86_step. rewrite (byte_at _ _ _ 0 0x41 H), (byte_at _ _ _ 1 0x5B H) by done. reflexivity.
Qed.

Lemma step_call_r11 rest :
  code_at (mem s) (rip s) ([0x41; 0xFF; 0xD3] ++ rest) ->
  x86_step cc s = Some (jump (r11 s) (push (rip s + 3) s)).
Proof.
  intros H. unfold x86_step.
  rewrite (byte_at _ _ _ 0 0x41 H), (byte_at _ _ _ 1 0xFF H), (byte_at _ _ _ 2 0xD3 H) by done. reflexivity.
Qed.

Lemma step_jmp_r11 rest :
  code_at (mem s) (rip s) ([0x41; 0xFF; 0xE3] ++ rest) -> x86_step cc s = Some (jump (r11 s) s).
Proof.
  intros H. unfold x86_step.
  rewrite (byte_at _ _ _ 0 0x41 H), (byte_at _ _ _ 1 0xFF H), (byte_at _ _ _ 2 0xE3 H) by done. reflexivity.
Qed.

Lemma step_jcc op rest :
  0x70 <= op <= 0x7F -> code_at (mem s) (rip s) ([op; 13] ++ rest) ->
  x86_step cc s = Some (jump (if jcc_taken cc op then rip s + 15 else rip s + 2) s).
Proof.
  intros Hop H. unfold x86_step. rewrite (byte_at _ _ _ 0 op H), (byte_at _ _ _ 1 13 H) by done.
  destruct (Z.eqb_spec op 0x68), (Z.eqb_spec op 0xFF), (Z.eqb_spec op 0x48), (Z.eqb_spec op 0x41),
    (Z.eqb_spec op 0x49); try lia. cbn [andb].
  destruct (Z.leb_spec 0x70 op), (Z.leb_spec op 0x7F); try lia. cbn [andb].
  replace (rip s + 2 + i8 13) with (rip s + 15) by (unfold i8; cbn; lia). done.
Qed.
End steps.

(** ** Properties *)

Lemma i32_small x : - 2 ^ 31 <= x < 2 ^ 31 -> i32 x = x.
Proof.
  intros H. unfold i32, u32. destruct (Z.ltb_spec (x mod 2 ^ 32) (2 ^ 31)) as [Hl|Hl].
  - destruct (Z.le_gt_cases 0 x); [by rewrite Z.mod_small by lia|].
    rewrite <- (Z_mod_plus_full x 1), Z.mod_small in Hl by lia. lia.
  - destruct (Z.le_gt_cases 0 x); [rewrite Z.mod_small in Hl by lia; lia|].
    rewrite <- (Z_mod_plus_full x 1), Z.mod_small by lia. lia.
Qed.

(** A buffer of the size the runner passes. *)
Definition tramp_buf_ok (buf : list Z) : Prop := Z.of_nat (length buf) = 512.

Section layout.
Context (cc : Z -> bool) (id entry cont : Z) (code : list Z) (addr : Z).
Context (Hentry : is_u64 entry) (Hcont : is_u64 cont) (Hcode : Z.of_nat (length code) <= 512).
Let bs := x86_layout id entry cont code.
Let n := Z.of_nat (length code).

Lemma layout_parts m : code_at m addr bs ->
  code_at m addr ([0x68] ++ le_bytes 4 id ++ []) /\
  code_at m (addr + 5) ([0xFF; 0x15] ++ le_bytes 4 (n + 11) ++ []) /\
  code_at m (addr + 11) ([0x48; 0x8D; 0x64; 0x24; 0x08] ++ []) /\
  code_at m (addr + 16) code /\
  code_at m (addr + 16 + n) ([0xFF; 0x25] ++ le_bytes 4 8 ++ []) /\
  code_at m (addr + 22 + n) (le_bytes 8 entry) /\ code_at m (addr + 30 + n) (le_bytes 8 cont).
Proof.
  unfold bs, x86_layout, x86_prefix, x86_suffix. rewrite !code_at_app, !length_app, !length_le_bytes.
  cbn [length]. fold n. intros ((H1 & H2 & H3 & H4 & H5) & H6 & H7 & H8 & H9 & H10).
  split_and!; first [done|by intros ? ?|eapply code_at_shift; [|eassumption]; lia].
Qed.

Lemma load_u64 m a v : is_u64 v -> code_at m a (le_bytes 8 v) -> load m a 8 = v.
Proof.
  intros Hv H. apply code_at_load in H. rewrite length_le_bytes, le_word_u64, u64_small in H by done. done.
Qed.

Lemma layout_enter s :
  code_at (mem s) addr bs -> rip s = addr -> below_apart (rsp s) 16 addr (Z.of_nat (length bs)) ->
  x86_run cc 2 s = Some (mk_cpu entry (rsp s - 16) (r11 s)
    (store8 (store8 (mem s) (rsp s - 8) (i32 id)) (rsp s - 16) (addr + 11))).
Proof.
  intros Hc Hrip Hap. cbn [x86_run].
  destruct (layout_parts _ Hc) as (H1 & _). rewrite <- Hrip in H1. rewrite (step_push_imm cc s _ _ H1).
  set (s1 := jump (rip s + 5) (push (i32 id) s)).
  assert (Hc1 : code_at (mem s1) addr bs) by (apply code_at_store; [done|unfold below_apart in *; lia]).
  destruct (layout_parts _ Hc1) as (_ & H2 & _ & _ & _ & H6 & _).
  replace (addr + 5) with (rip s1) in H2 by (cbn; lia). rewrite (step_call_mem cc s1 _ _ H2).
  rewrite i32_small by (unfold n; lia).
  replace (rip s1 + 6 + (n + 11)) with (addr + 22 + n) by (cbn; lia).
  rewrite (load_u64 _ _ entry) by done. unfold s1, jump, push. cbn. do 2 f_equal; [lia|].
  f_equal; [lia|lia].
Qed.

Lemma layout_leave s :
  code_at (mem s) addr bs -> rip s = addr + 11 ->
  x86_step cc s = Some (mk_cpu (addr + 16) (rsp s + 8) (r11 s) (mem s)).
Proof.
  intros Hc Hrip. destruct (layout_parts _ Hc) as (_ & _ & H3 & _). rewrite <- Hrip in H3.
  rewrite (step_lea_rsp cc s _ H3). do 2 f_equal. lia.
Qed.

Lemma layout_continue s :
  code_at (mem s) addr bs -> rip s = addr + 16 + n -> x86_step cc s = Some (jump cont s).
Proof.
  intros Hc Hrip. destruct (layout_parts _ Hc) as (_ & _ & _ & _ & H5 & _ & H7). rewrite <- Hrip in H5.
  rewrite (step_jmp_mem cc s _ _ H5), i32_small by lia.
  replace (rip s + 6 + 8) with (addr + 30 + n) by lia. by rewrite (load_u64 _ _ cont) by done.
Qed.
End layout.

(** What the builder needs of the disassembler for a probe: it decodes the saved
    bytes into instructions that are as capstone documents them. *)
Definition disasm_ok (cs_disasm : list Z -> Z -> option (list cs_insn)) (probe : zt_probe_info_t)
    (insns : list cs_insn) : Prop :=
  cs_disasm (take (Z.to_nat (pr_orig_len probe)) (pr_orig_code probe))
    (tgt_remote_addr (pr_target probe)) = Some insns /\ insns <> [] /\ Forall insn_ok insns.

Lemma build_inv cs_disasm probe entry addr buf insns out size :
  disasm_ok cs_disasm probe insns -> tramp_buf_ok buf -> 0 <= pr_orig_len probe ->
  zt_build_trampoline cs_disasm probe entry addr buf = Some (out, size) ->
  exists code, reloc_code (addr +64 sizeof_prefix) 0 insns = Some code /\
    size = 38 + Z.of_nat (length code) /\ size <= 512 /\
    take (Z.to_nat size) out = x86_layout (pr_probe_id probe) entry
      (tgt_remote_addr (pr_target probe) +64 pr_orig_len probe) code.
Proof.
  intros (Hd & Hne & Hok) Hbuf H0 Hb. unfold tramp_buf_ok in Hbuf.
  assert (addr <> 0 /\ entry <> 0 /\ 0 < pr_orig_len probe <= ZT_PROBE_ORIG_CODE_MAX) as (Ha & He & Hl).
  { unfold zt_build_trampoline in Hb. destruct (Z.eqb_spec addr 0), (Z.eqb_spec entry 0); try done.
    cbn [orb] in Hb. destruct (Z.eqb_spec (pr_orig_len probe) 0); [done|].
    destruct (Z.gtb_spec (pr_orig_len probe) ZT_PROBE_ORIG_CODE_MAX); [done|].
    split_and!; lia. }
  rewrite (build_eq _ _ _ _ _ insns) in Hb by done.
  destruct (reloc_code _ _ _) as [code|]; [|done]. exists code.
  destruct (Nat.leb_spec (38 + length code) (length buf)); [|done].
  pose proof (length_layout (pr_probe_id probe) entry
    (tgt_remote_addr (pr_target probe) +64 pr_orig_len probe) code) as HL.
  revert Hb HL. generalize (x86_layout (pr_probe_id probe) entry
    (tgt_remote_addr (pr_target probe) +64 pr_orig_len probe) code). intros L [= <- <-] HL.
  split_and!; [done|lia|lia|]. rewrite take_app_length'; [done|]. lia.
Qed.

(** A built trampoline does its job around the replayed code.  Run from its
    first byte, with 16 bytes of stack below rsp that it does not occupy itself,
    it calls entry_stub with the probe id on the stack above the return address;
    when entry_stub returns it drops the id and reaches the replayed instructions
    with the stack pointer of the call; behind them it jumps to the instruction
    after the patch. *)
Lemma zt_build_trampoline_runs cs_disasm probe entry addr buf insns out size cc :
  disasm_ok cs_disasm probe insns -> tramp_buf_ok buf -> 0 <= pr_orig_len probe -> is_u64 entry ->
  zt_build_trampoline cs_disasm probe entry addr buf = Some (out, size) ->
  let tramp := take (Z.to_nat size) out in
  let code_len := size - 38 in
  (forall s, code_at (mem s) addr tramp -> rip s = addr -> below_apart (rsp s) 16 addr size ->
    exists s', x86_run cc 2 s = Some s' /\ rip s' = entry /\ rsp s' = rsp s - 16 /\ r11 s' = r11 s /\
      load (mem s') (rsp s') 8 = u64 (addr + 11) /\
      load (mem s') (rsp s' + 8) 8 = u64 (i32 (pr_probe_id probe)) /\
      forall x, x < rsp s - 16 \/ rsp s <= x -> mem s' x = mem s x) /\
  (forall s, code_at (mem s) addr tramp -> rip s = addr + 11 ->
    x86_step cc s = Some (mk_cpu (addr + 16) (rsp s + 8) (r11 s) (mem s))) /\
  (forall s, code_at (mem s) addr tramp -> rip s = addr + 16 + code_len ->
    x86_step cc s = Some (jump (tgt_remote_addr (pr_target probe) +64 pr_orig_len probe) s)).
Proof.
  intros Hd Hbuf H0 He Hb tramp code_len.
  destruct (build_inv _ _ _ _ _ _ _ _ Hd Hbuf H0 Hb) as (code & Hr & Hsize & Hmax & Ht).
  unfold tramp. rewrite Ht. set (cont := tgt_remote_addr (pr_target probe) +64 pr_orig_len probe) in *.
  assert (Hcont : is_u64 cont) by apply u64_range.
  split_and!.
  - intros s Hc Hrip Hap.
    replace size with (Z.of_nat (length (x86_layout (pr_probe_id probe) entry cont code))) in Hap
      by (rewrite length_layout; lia).
    pose proof (layout_enter cc _ _ cont code addr He ltac:(lia) s Hc Hrip Hap) as Hrun.
    eexists. split; [exact Hrun|].
    cbn [rip rsp r11 mem]. split_and!; [done|done|done|apply store8_load| |].
    + rewrite load_below by lia. replace (rsp s - 16 + 8) with (rsp s - 8) by lia. apply store8_load.
    + intros x Hx. rewrite !store8_other by lia. done.
  - intros s Hc Hrip. by eapply layout_leave.
  - intros s Hc Hrip. eapply layout_continue; [done|done|]. unfold code_len in Hrip. lia.
Qed.

(** *** The relocated instructions *)

(** The short opcode of a conditional jump. *)
Definition jcc_opcode (id : x86_insn_id) : option Z :=
  match id with
  | X86_INS_JO => Some 0x70 | X86_INS_JNO => Some 0x71 | X86_INS_JB => Some 0x72 | X86_INS_JAE => Some 0x73
  | X86_INS_JE => Some 0x74 | X86_INS_JNE => Some 0x75 | X86_INS_JBE => Some 0x76 | X86_INS_JA => Some 0x77
  | X86_INS_JS => Some 0x78 | X86_INS_JNS => Some 0x79 | X86_INS_JP => Some 0x7A | X86_INS_JNP => Some 0x7B
  | X86_INS_JL => Some 0x7C | X86_INS_JGE => Some 0x7D | X86_INS_JLE => Some 0x7E | X86_INS_JG => Some 0x7F
  | _ => None
  end.

Lemma inverse_opcode cc i op :
  zt_inverse_short_jcc_opcode i = Some op ->
  exists op0, jcc_opcode (insn_id i) = Some op0 /\ 0x70 <= op <= 0x7F /\
    jcc_taken cc op = negb (jcc_taken cc op0).
Proof.
  unfold zt_inverse_short_jcc_opcode, jcc_taken. destruct (insn_id i); intros [= <-]; cbn [jcc_opcode];
    (eexists; split; [reflexivity|]; split; [lia|]); cbn; by destruct (cc _).
Qed.

Lemma run_jmp cc s target rest :
  is_u64 target -> code_at (mem s) (rip s) (jmp_bytes target ++ rest) ->
  x86_run cc 2 s = Some (mk_cpu target (rsp s) target (mem s)).
Proof.
  intros Ht Hc. unfold jmp_bytes in Hc. rewrite <- !app_assoc in Hc. cbn [x86_run].
  rewrite (step_movabs cc s _ _ Hc), u64_small by done.
  apply code_at_app in Hc as [_ Hc]. apply code_at_app in Hc as [_ Hc]. rewrite length_le_bytes in Hc.
  cbn [length] in Hc. set (s1 := mk_cpu _ _ _ _).
  rewrite (step_jmp_r11 cc s1 rest); [done|]. eapply code_at_shift; [|exact Hc]. cbn. lia.
Qed.

Lemma run_call cc s target :
  is_u64 target -> code_at (mem s) (rip s) (call_bytes target) ->
  below_apart (rsp s) 8 (rip s) (Z.of_nat (length (call_bytes target))) ->
  x86_run cc 3 s = Some (mk_cpu target (rsp s - 16) target
    (store8 (store8 (mem s) (rsp s - 8) (r11 s)) (rsp s - 16) (rip s + 15))).
Proof.
  intros Ht Hc Hap. cbn [x86_run].
  rewrite (step_push_r11 cc s ([0x49; 0xBB] ++ le_bytes 8 target ++ [0x41; 0xFF; 0xD3; 0x41; 0x5B]) Hc).
  set (s1 := jump (rip s + 2) (push (r11 s) s)).
  assert (Hc1 : code_at (mem s1) (rip s) (call_bytes target)) by by apply code_at_store.
  unfold call_bytes in Hc1. change [0x41; 0x53; 0x49; 0xBB] with ([0x41; 0x53] ++ [0x49; 0xBB]) in Hc1.
  rewrite <- app_assoc in Hc1. apply code_at_app in Hc1 as [_ Hc1].
  rewrite (step_movabs cc s1 _ _ Hc1), u64_small by done. set (s2 := mk_cpu _ _ _ _).
  apply code_at_app in Hc1 as [_ Hc1]. apply code_at_app in Hc1 as [_ Hc1]. rewrite length_le_bytes in Hc1.
  rewrite (step_call_r11 cc s2 [0x41; 0x5B]) by (eapply code_at_shift; [|exact Hc1]; cbn; lia).
  unfold s2, s1, jump, push. cbn [rip rsp r11 mem]. do 2 f_equal; [lia|]. f_equal; lia.
Qed.

(** Behaviour of the reference bytes of a relocated transfer. *)
Lemma jmp_runs cc s target bs :
  is_u64 target -> bs = jmp_bytes target -> code_at (mem s) (rip s) bs ->
  x86_run cc 2 s = Some (mk_cpu target (rsp s) target (mem s)).
Proof. intros Ht -> Hc. apply (run_jmp cc s _ []); [done|by rewrite app_nil_r]. Qed.

Lemma jcc_runs cc s cur op op0 target :
  is_u64 target -> zt_inverse_short_jcc_opcode cur = Some op -> jcc_opcode (insn_id cur) = Some op0 ->
  code_at (mem s) (rip s) ([op; 13] ++ jmp_bytes target) ->
  if jcc_taken cc op0 then x86_run cc 3 s = Some (mk_cpu target (rsp s) target (mem s))
  else x86_run cc 1 s = Some (jump (rip s + Z.of_nat (length ([op; 13] ++ jmp_bytes target))) s).
Proof.
  intros Ht Hop H0 Hc. destruct (inverse_opcode cc cur op Hop) as (op1 & H1 & Hr & Htk).
  rewrite H0 in H1. injection H1 as <-. cbn [x86_run]. rewrite (step_jcc cc s op _ Hr Hc), Htk.
  destruct (jcc_taken cc op0); cbn [negb]; [|done].
  apply (run_jmp cc (jump (rip s + 2) s) _ []); [done|]. rewrite app_nil_r.
  by apply (code_at_app _ _ [op; 13]) in Hc as [_ Hc].
Qed.

Lemma call_returns cc s' a target :
  code_at (mem s') a (call_bytes target) -> rip s' = a + 15 ->
  x86_step cc s' = Some (mk_cpu (a + 17) (rsp s' + 8) (load (mem s') (rsp s') 8) (mem s')).
Proof.
  intros Hc' Hrip. unfold call_bytes in Hc'. rewrite !app_assoc in Hc'.
  change [0x41; 0xFF; 0xD3; 0x41; 0x5B] with ([0x41; 0xFF; 0xD3] ++ [0x41; 0x5B]) in Hc'.
  rewrite app_assoc in Hc'. apply code_at_app in Hc' as [_ Hc'].
  rewrite !length_app, length_le_bytes in Hc'. cbn [length] in Hc'.
  rewrite (step_pop_r11 cc s' []); [|rewrite app_nil_r; eapply code_at_shift; [|exact Hc']; cbn; lia].
  do 2 f_equal. lia.
Qed.

(** The bytes one step of the relocation loop put into the buffer. *)
Definition new_code (buf' : list Z) (off off' : Z) : list Z :=
  take (Z.to_nat (off' - off)) (drop (Z.to_nat off) buf').

Lemma emitted_inv buf off bs buf' off' :
  0 <= off -> emitted buf off bs = Some (buf', off') ->
  new_code buf' off off' = bs /\ off' = off + Z.of_nat (length bs) /\ off' <= Z.of_nat (length buf) /\
  length buf' = length buf /\
  forall i, (Z.of_nat i < off \/ off' <= Z.of_nat i) -> buf' !! i = buf !! i.
Proof.
  unfold emitted, fits, new_code. intros H0.
  destruct (Z.leb_spec (off + Z.of_nat (length bs)) (Z.of_nat (length buf))) as [Hle|]; [|done].
  intros [= <- <-]. split_and!; [|done|done|rewrite length_memcpy_at by lia; done|].
  - replace (off + Z.of_nat (length bs) - off) with (Z.of_nat (length bs)) by lia. rewrite Nat2Z.id.
    unfold memcpy_at. rewrite drop_app_length' by (rewrite length_take; lia). by apply take_app_length.
  - intros i Hi. unfold memcpy_at. destruct Hi as [Hi|Hi].
    + rewrite lookup_app_l by (rewrite length_take; lia). apply lookup_take_lt. lia.
    + rewrite lookup_app_r, lookup_app_r; rewrite length_take; [|lia..].
      rewrite lookup_drop. f_equal. lia.
Qed.

Lemma relocate_one_inv A buf off cur buf' off' :
  insn_ok cur -> 0 <= off <= Z.of_nat (length buf) -> relocate_one A buf off cur = Some (buf', off') ->
  reloc_bytes A off cur = Some (new_code buf' off off') /\
  off' = off + Z.of_nat (length (new_code buf' off off')) /\ length buf' = length buf /\
  forall i, (Z.of_nat i < off \/ off' <= Z.of_nat i) -> buf' !! i = buf !! i.
Proof.
  intros Hok Hoff. rewrite relocate_one_eq by done. destruct (reloc_bytes A off cur) as [bs|]; [|done].
  intros (-> & ? & ? & ? & ?)%emitted_inv; [done|lia].
Qed.

(** C25: the relocation loop keeps the meaning of control transfers.  When
    relocate_one has put the replacement of an instruction into the buffer (and
    touched nothing else of it), that code, run at its new place, does this: for a
    relative jump it reaches the original target; for a conditional jump it
    reaches the target exactly when the condition of the instruction's opcode
    holds and falls through to the code behind it otherwise; for a relative call
    it enters the original callee with a return address behind which r11 and the
    stack pointer are restored and the code behind it is reached.  Jumps clobber
    only r11.  The jumps on rcx are refused. *)
Theorem reloc_control_flow A buf off cur buf' off' imm ops cc s :
  insn_ok cur -> 0 <= off <= Z.of_nat (length buf) ->
  relocate_one A buf off cur = Some (buf', off') -> x86_operands cur = X86_OP_IMM imm :: ops ->
  code_at (mem s) (rip s) (new_code buf' off off') ->
  (insn_id cur = X86_INS_JMP -> x86_run cc 2 s = Some (mk_cpu (u64 imm) (rsp s) (u64 imm) (mem s))) /\
  (forall op, jcc_opcode (insn_id cur) = Some op ->
    if jcc_taken cc op then x86_run cc 3 s = Some (mk_cpu (u64 imm) (rsp s) (u64 imm) (mem s))
    else x86_run cc 1 s = Some (jump (rip s + (off' - off)) s)) /\
  (insn_id cur = X86_INS_CALL -> below_apart (rsp s) 8 (rip s) (off' - off) ->
    x86_run cc 3 s = Some (mk_cpu (u64 imm) (rsp s - 16) (u64 imm)
      (store8 (store8 (mem s) (rsp s - 8) (r11 s)) (rsp s - 16) (rip s + 15))) /\
    forall s', code_at (mem s') (rip s) (new_code buf' off off') -> rip s' = rip s + 15 ->
      x86_step cc s' = Some (mk_cpu (rip s + (off' - off)) (rsp s' + 8) (load (mem s') (rsp s') 8) (mem s'))) /\
  insn_id cur <> X86_INS_JCXZ /\ insn_id cur <> X86_INS_JECXZ /\ insn_id cur <> X86_INS_JRCXZ /\
  length buf' = length buf /\
  (forall i, (Z.of_nat i < off \/ off' <= Z.of_nat i) -> buf' !! i = buf !! i).
Proof.
  intros Hok Hoff Hr Hops Hc. destruct (relocate_one_inv _ _ _ _ _ _ Hok Hoff Hr) as (Hb & Hlen & Hl & Hfr).
  replace (off' - off) with (Z.of_nat (length (new_code buf' off off'))) by lia.
  revert Hb Hc. generalize (new_code buf' off off'). intros bs Hb Hc.
  assert (Hf : first_imm cur = Some imm) by by unfold first_imm; rewrite Hops.
  unfold reloc_bytes, zt_is_rel_call, zt_is_rel_jmp, zt_is_conditional_jump in Hb.
  pose proof (u64_range imm) as Hu. split_and!; [..|done|done].
  - intros Hid. rewrite Hid, Hf in Hb. injection Hb as <-. by eapply jmp_runs.
  - intros op Hop. destruct (zt_inverse_short_jcc_opcode cur) as [op'|] eqn:Hinv.
    2:{ unfold zt_inverse_short_jcc_opcode in Hinv. by destruct (insn_id cur). }
    assert (bs = [op'; 13] ++ jmp_bytes (u64 imm)) as ->
      by (destruct (insn_id cur); try discriminate Hop; rewrite Hf in Hb; by injection Hb).
    by eapply jcc_runs.
  - intros Hid Hap. rewrite Hid, Hf in Hb. injection Hb as <-. split; [by apply run_call|].
    intros s' Hc' Hrip. by eapply call_returns.
  - intros Hid. unfold zt_inverse_short_jcc_opcode in Hb. by rewrite Hid, Hf in Hb.
  - intros Hid. unfold zt_inverse_short_jcc_opcode in Hb. by rewrite Hid, Hf in Hb.
  - intros Hid. unfold zt_inverse_short_jcc_opcode in Hb. by rewrite Hid, Hf in Hb.
Qed.

Lemma u64_sub_r x y : u64 (x - u64 y) = u64 (x - y).
Proof. unfold u64. apply Zminus_mod_idemp_r. Qed.

Lemma u64_minus_l x y : u64 (u64 x - y) = u64 (x - y).
Proof. unfold u64. apply Zminus_mod_idemp_l. Qed.

(** A patched field holds the word, the other bytes are as before. *)
Lemma patched_field bytes k d :
  (k + length (le_bytes 4 d) <= length bytes)%nat ->
  let bs := memcpy_at k (le_bytes 4 d) bytes in
  length bs = length bytes /\ le_word (take 4 (drop k bs)) = u32 d /\
  forall i, (i < k \/ k + 4 <= i)%nat -> bs !! i = bytes !! i.
Proof.
  intros Hl bs. unfold bs. split; [by apply length_memcpy_at|]. unfold memcpy_at. split.
  - rewrite drop_app_length' by (rewrite length_take; lia).
    rewrite take_app_length' by done. apply le_word_u32.
  - intros i Hi. rewrite length_le_bytes in *. destruct Hi as [Hi|Hi].
    + rewrite lookup_app_l by (rewrite length_take; lia). by apply lookup_take_lt.
    + rewrite lookup_app_r, lookup_app_r; rewrite length_take, ?length_le_bytes; [|lia..].
      rewrite lookup_drop. f_equal. lia.
Qed.

(** The displacement leads from the new place to the old target. *)
Lemma rebased_disp_target cur A off :
  u64 (A + off + insn_size cur + rebased_disp cur A off) =
  u64 (insn_address cur + insn_size cur + x86_disp cur).
Proof.
  unfold rebased_disp. set (N := A + off + insn_size cur).
  set (T := insn_address cur + insn_size cur + x86_disp cur).
  assert (Ht : u64 (i64 (insn_address cur +64 insn_size cur) + x86_disp cur) = u64 T).
  { rewrite <- u64_add_l, u64_i64, u64_idem, u64_add_l. done. }
  assert (Hn : A +64 off +64 insn_size cur = u64 N) by (by rewrite u64_add_l).
  rewrite Ht, Hn. rewrite <- u64_add_r, u64_i64, u64_add_r.
  rewrite <- (u64_add_r N), <- (u64_sub_r (i64 (u64 T))), u64_i64, u64_idem, u64_sub_r.
  rewrite <- (u64_minus_l (i64 (u64 T))), u64_i64, u64_idem, u64_minus_l, u64_add_r. f_equal. lia.
Qed.

Lemma i64_signed x d : - 2 ^ 63 <= d < 2 ^ 63 -> u64 x = u64 d -> i64 x = d.
Proof.
  intros Hd Hx. unfold i64. rewrite Hx. unfold u64. destruct (Z.le_gt_cases 0 d).
  - rewrite Z.mod_small by lia. destruct (Z.ltb_spec d (2 ^ 63)); lia.
  - rewrite <- (Z_mod_plus_full d 1), Z.mod_small by lia. destruct (Z.ltb_spec (d + 1 * 2 ^ 64) (2 ^ 63)); lia.
Qed.

(** A displacement that leads to the old target is the one computed. *)
Lemma rebased_disp_unique cur A off d :
  - 2 ^ 31 <= d < 2 ^ 31 ->
  u64 (A + off + insn_size cur + d) = u64 (insn_address cur + insn_size cur + x86_disp cur) ->
  rebased_disp cur A off = d.
Proof.
  intros Hd Heq. pose proof (rebased_disp_target cur A off) as Ht. rewrite <- Heq in Ht.
  assert (Hu : u64 (rebased_disp cur A off) = u64 d).
  { set (N := A + off + insn_size cur) in *.
    replace (rebased_disp cur A off) with (N + rebased_disp cur A off - N) by lia.
    replace d with (N + d - N) by lia. by rewrite <- u64_minus_l, Ht, u64_minus_l. }
  unfold rebased_disp in *. rewrite u64_i64 in Hu. by apply i64_signed; [lia|].
Qed.

(** An instruction the builder copies: neither a conditional jump nor a call or a
    jump to an address in the instruction. *)
Definition copied (i : cs_insn) : Prop :=
  (exists n, insn_id i = X86_INS_OTHER n) \/
  ((insn_id i = X86_INS_CALL \/ insn_id i = X86_INS_JMP) /\
   forall imm ops, x86_operands i <> X86_OP_IMM imm :: ops).

Lemma copied_reloc A off cur :
  copied cur -> reloc_bytes A off cur =
    if existsb is_rip_mem (x86_operands cur) then
      if (x86_disp_size cur =? 4) && disp32 (rebased_disp cur A off)
      then Some (memcpy_at (Z.to_nat (x86_disp_offset cur)) (le_bytes 4 (rebased_disp cur A off)) (insn_bytes cur))
      else None
    else Some (insn_bytes cur).
Proof.
  intros Hc. unfold reloc_bytes, zt_is_rel_call, zt_is_rel_jmp, zt_is_conditional_jump.
  destruct Hc as [[n ->]|[Hid Hno]]; [done|].
  assert (Hf : first_imm cur = None).
  { unfold first_imm. destruct (x86_operands cur) as [|[] ?] eqn:Ho; try done. by destruct (Hno imm l). }
  rewrite Hf. by destruct Hid as [-> | ->].
Qed.

(** C26: a copied instruction with a rip-relative operand still addresses the same
    memory.  When relocate_one has copied it (touching nothing else of the
    buffer), its 4-byte displacement field, read from the new place, leads to the
    target it had at the old place, and every other byte of it is unchanged; the
    copy succeeds exactly when the instruction fits into the buffer, its field has
    four bytes and some 32-bit displacement leads from the new place to the
    target. *)
Theorem reloc_rip_relative A buf off cur :
  insn_ok cur -> 0 <= off <= Z.of_nat (length buf) ->
  existsb is_rip_mem (x86_operands cur) = true -> copied cur ->
  let at_disp := Z.to_nat (x86_disp_offset cur) in
  let target := u64 (insn_address cur + insn_size cur + x86_disp cur) in
  (relocate_one A buf off cur <> None <->
   off + insn_size cur <= Z.of_nat (length buf) /\ x86_disp_size cur = 4 /\
   exists d, - 2 ^ 31 <= d < 2 ^ 31 /\ u64 (A + off + insn_size cur + d) = target) /\
  forall buf' off', relocate_one A buf off cur = Some (buf', off') ->
    let bs := new_code buf' off off' in
    off' = off + insn_size cur /\ length buf' = length buf /\
    u64 (A + off + insn_size cur + i32 (le_word (take 4 (drop at_disp bs)))) = target /\
    (forall i, (i < at_disp \/ at_disp + 4 <= i)%nat -> bs !! i = insn_bytes cur !! i) /\
    forall i, (Z.of_nat i < off \/ off' <= Z.of_nat i) -> buf' !! i = buf !! i.
Proof.
  intros Hok Hoff Hrip Hcp at_disp target. pose proof Hok as [Hsz Hd]. destruct (Hd Hrip) as [H0 H4].
  pose proof (copied_reloc A off cur Hcp) as Hrb. rewrite Hrip in Hrb.
  assert (Hl : (at_disp + length (le_bytes 4 (rebased_disp cur A off)) <= length (insn_bytes cur))%nat)
    by (rewrite length_le_bytes; lia).
  split.
  - rewrite relocate_one_eq, Hrb by done. split.
    + destruct ((x86_disp_size cur =? 4) && _) eqn:Hfit; [|done].
      unfold disp32, INT32_MIN, INT32_MAX in Hfit. zbool. unfold emitted, fits.
      rewrite length_memcpy_at by done. rewrite Hsz.
      destruct (Z.leb_spec (off + insn_size cur) (Z.of_nat (length buf))); [|done]. intros _.
      split_and!; [done|done|]. exists (rebased_disp cur A off). split; [lia|]. apply rebased_disp_target.
    + intros (Hroom & Hs4 & d & Hdr & Hdt). rewrite (rebased_disp_unique cur A off d Hdr Hdt) in *.
      unfold disp32, INT32_MIN, INT32_MAX. rewrite Hs4.
      destruct (Z.leb_spec (- 2 ^ 31) d), (Z.leb_spec d (2 ^ 31 - 1)); try lia.
      cbn [Z.eqb Pos.eqb andb]. unfold emitted, fits. rewrite length_memcpy_at by done. rewrite Hsz.
      destruct (Z.leb_spec (off + insn_size cur) (Z.of_nat (length buf))); [done|lia].
  - intros buf' off' Hr bs. destruct (relocate_one_inv _ _ _ _ _ _ Hok Hoff Hr) as (Hb & Hlen & Hlb & Hfr).
    fold bs in Hb, Hlen. rewrite Hrb in Hb. set (d := rebased_disp cur A off) in *.
    destruct (_ && disp32 d) eqn:Hfit; [|done]. apply (inj Some) in Hb. fold at_disp in Hb.
    unfold disp32, INT32_MIN, INT32_MAX in Hfit. zbool.
    destruct (patched_field (insn_bytes cur) at_disp d) as (Hlp & Hfield & Hother); [done|].
    rewrite Hb in Hlp, Hfield, Hother. rewrite Hfield, i32_u32, i32_small by lia.
    split_and!; [lia|done|apply rebased_disp_target|done|done].
Qed.

(** Sizes as x86 has them: at least one byte, at least two for a relative transfer. *)
Definition insn_size_ok (i : cs_insn) : Prop :=
  1 <= insn_size i /\
  (zt_is_rel_call i <> None \/ zt_is_rel_jmp i <> None \/ zt_is_conditional_jump i = true -> 2 <= insn_size i).

Lemma reloc_bytes_length A off cur bs :
  insn_ok cur -> insn_size_ok cur -> reloc_bytes A off cur = Some bs ->
  Z.of_nat (length bs) <= 9 * insn_size cur.
Proof.
  intros [Hsz Hd] [H1 H2] Hb. unfold reloc_bytes in Hb.
  destruct (zt_is_rel_call cur); [apply (inj Some) in Hb as <-; specialize (H2 ltac:(by left));
    unfold call_bytes; rewrite !length_app, length_le_bytes; cbn; lia|].
  destruct (zt_is_rel_jmp cur); [apply (inj Some) in Hb as <-; specialize (H2 ltac:(right; by left));
    unfold jmp_bytes; rewrite !length_app, length_le_bytes; cbn; lia|].
  destruct (zt_is_conditional_jump cur).
  { destruct (first_imm cur), (zt_inverse_short_jcc_opcode cur); try done. apply (inj Some) in Hb as <-.
    specialize (H2 ltac:(auto)). unfold jmp_bytes. rewrite !length_app, length_le_bytes. cbn. lia. }
  destruct (existsb _ _) eqn:Hrip; [|apply (inj Some) in Hb as <-; lia].
  destruct (_ && _); [|done]. apply (inj Some) in Hb as <-. destruct (Hd eq_refl).
  rewrite length_memcpy_at by (rewrite length_le_bytes; lia). lia.
Qed.

Lemma reloc_code_length A off insns code :
  Forall insn_ok insns -> Forall insn_size_ok insns -> reloc_code A off insns = Some code ->
  Z.of_nat (length code) <= 9 * foldr Z.add 0 (map insn_size insns).
Proof.
  intros Hok. revert off code. induction Hok as [|cur insns Hc _ IH]; intros off code Hs; cbn [reloc_code].
  - intros [= <-]. cbn. lia.
  - inversion_clear Hs as [|? ? Hs1 Hs2]. destruct (reloc_bytes A off cur) as [bs|] eqn:Hb; [|done].
    destruct (reloc_code A _ insns) as [rest|] eqn:Hr; [|done]. intros [= <-].
    pose proof (reloc_bytes_length _ _ _ _ Hc Hs1 Hb). pose proof (IH _ _ Hs2 Hr).
    rewrite length_app. cbn [map foldr]. lia.
Qed.

(** C27: 512 bytes are always enough.  For a saved prologue of at most 32 bytes the
    build succeeds exactly when every instruction can be relocated, and the
    trampoline then takes at most 326 bytes. *)
Theorem zt_build_trampoline_fits cs_disasm probe entry addr buf insns :
  disasm_ok cs_disasm probe insns -> tramp_buf_ok buf -> Forall insn_size_ok insns ->
  addr <> 0 -> entry <> 0 -> 0 < pr_orig_len probe <= ZT_PROBE_ORIG_CODE_MAX ->
  foldr Z.add 0 (map insn_size insns) <= pr_orig_len probe ->
  match zt_build_trampoline cs_disasm probe entry addr buf with
  | Some (out, size) => reloc_code (addr +64 sizeof_prefix) 0 insns <> None /\ size <= 326 /\
      length out = length buf
  | None => reloc_code (addr +64 sizeof_prefix) 0 insns = None
  end.
Proof.
  intros (Hd & Hne & Hok) Hbuf Hs Ha He Hl Hsum. unfold tramp_buf_ok, ZT_PROBE_ORIG_CODE_MAX in *.
  rewrite (build_eq _ _ _ _ _ insns) by done.
  destruct (reloc_code (addr +64 sizeof_prefix) 0 insns) as [code|] eqn:Hr; [|done].
  pose proof (reloc_code_length _ _ _ _ Hok Hs Hr).
  destruct (Nat.leb_spec (38 + length code) (length buf)); [|lia].
  split_and!; [done|lia|]. rewrite length_app, length_replicate, length_layout. lia.
Qed.

(** ** Witnesses *)

(** `mov rax, [rip+0x100]; nop` at 0x401000. *)
Definition sample_insns : list cs_insn :=
  [mk_insn (X86_INS_OTHER 1) 0x401000 7 [0x48; 0x8B; 0x05; 0x00; 0x01; 0x00; 0x00]
     [X86_OP_REG; X86_OP_MEM true] 0x100 3 4;
   mk_insn (X86_INS_OTHER 2) 0x401007 1 [0x90] [] 0 0 0].

Definition sample_disasm (code : list Z) (addr : Z) : option (list cs_insn) := Some sample_insns.

Definition sample_x86_probe : zt_probe_info_t :=
  mk_probe 7 (mk_target [] [] 0x401000) 0 0
    ([0x48; 0x8B; 0x05; 0x00; 0x01; 0x00; 0x00; 0x90] ++ replicate 24 0) 8 ZT_PROBE_PREPARED
    zero_filter zero_call_action 0 [].

Lemma sample_insns_ok : Forall insn_ok sample_insns.
Proof. repeat constructor; cbn; try lia; done. Qed.

Lemma sample_disasm_ok : disasm_ok sample_disasm sample_x86_probe sample_insns.
Proof. split_and!; [done|done|apply sample_insns_ok]. Qed.

Definition sample_built : list Z * Z :=
  Eval vm_compute in
    default ([], 0) (zt_build_trampoline sample_disasm sample_x86_probe 0x600000 0x500000 (replicate 512 0)).

(** A state about to enter the trampoline at 0x500000, the stack at 0x700000. *)
Definition sample_cpu : cpu :=
  mk_cpu 0x500000 0x700000 0 (fun x => arr_get (fst sample_built) (x - 0x500000)).

Lemma sample_code : code_at (mem sample_cpu) 0x500000 (take (Z.to_nat (snd sample_built)) (fst sample_built)).
Proof.
  intros i b Hi. cbn [mem sample_cpu]. unfold arr_get.
  replace (Z.to_nat (0x500000 + Z.of_nat i - 0x500000)) with i by lia.
  apply list_lookup_total_correct. by apply lookup_take_Some in Hi as [Hi _].
Qed.

(** At the sample prologue: the trampoline calls entry_stub at 0x600000 with
    probe id 7 on the stack. *)
Lemma zt_build_trampoline_runs_witness :
  exists s', x86_run (fun _ => false) 2 sample_cpu = Some s' /\ rip s' = 0x600000 /\
    load (mem s') (rsp s' + 8) 8 = 7.
Proof.
  destruct (zt_build_trampoline_runs sample_disasm sample_x86_probe 0x600000 0x500000 (replicate 512 0)
    sample_insns (fst sample_built) (snd sample_built) (fun _ => false)) as [H _].
  - apply sample_disasm_ok.
  - reflexivity.
  - discriminate.
  - split; [discriminate|reflexivity].
  - vm_compute. reflexivity.
  - destruct (H sample_cpu sample_code) as (s' & H1 & H2 & _ & _ & _ & H6 & _).
    + reflexivity.
    + right. discriminate.
    + exists s'. split; [exact H1|]. split; [exact H2|exact H6].
Defined.

(** C25 at `je 0x401234`, condition true, relocated to 0x1000. *)
Lemma reloc_control_flow_witness :
  let cur := mk_insn X86_INS_JE 0x401000 2 [0x74; 0x10] [X86_OP_IMM 0x401234] 0 0 0 in
  let s := mk_cpu 0x1000 0x7000 0 (fun x => arr_get ([0x75; 13] ++ jmp_bytes 0x401234) (x - 0x1000)) in
  relocate_one 0x1000 (replicate 15 0) 0 cur = Some ([0x75; 13] ++ jmp_bytes 0x401234, 15) /\
  x86_run (fun _ => true) 3 s = Some (mk_cpu 0x401234 0x7000 0x401234 (mem s)).
Proof.
  intros cur s. split; [vm_compute; reflexivity|].
  destruct (reloc_control_flow 0x1000 (replicate 15 0) 0 cur ([0x75; 13] ++ jmp_bytes 0x401234) 15
    0x401234 [] (fun _ => true) s) as (_ & H & _).
  - split; [reflexivity|discriminate].
  - split; discriminate.
  - vm_compute. reflexivity.
  - reflexivity.
  - intros i b Hi. unfold s. cbn [mem rip]. unfold arr_get.
    replace (Z.to_nat (0x1000 + Z.of_nat i - 0x1000)) with i by lia.
    apply list_lookup_total_correct. exact Hi.
  - exact (H 0x74 eq_refl).
Defined.

(** C26 at the sample's first instruction, copied to 0x500010. *)
Lemma reloc_rip_relative_witness :
  let cur := mk_insn (X86_INS_OTHER 1) 0x401000 7 [0x48; 0x8B; 0x05; 0x00; 0x01; 0x00; 0x00]
     [X86_OP_REG; X86_OP_MEM true] 0x100 3 4 in
  let bs := [0x48; 0x8B; 0x05; 0xF0; 0x10; 0xF0; 0xFF] in
  relocate_one 0x500010 (replicate 7 0) 0 cur = Some (bs, 7) /\
  u64 (0x500010 + 0 + 7 + i32 (le_word (take 4 (drop 3 bs)))) = u64 (0x401000 + 7 + 0x100).
Proof.
  intros cur bs. assert (Hr : relocate_one 0x500010 (replicate 7 0) 0 cur = Some (bs, 7))
    by (vm_compute; reflexivity).
  split; [exact Hr|]. destruct (reloc_rip_relative 0x500010 (replicate 7 0) 0 cur) as [_ H].
  - split; [reflexivity|]. intros _. split; discriminate.
  - split; discriminate.
  - reflexivity.
  - left. exists 1. reflexivity.
  - destruct (H bs 7 Hr) as (_ & _ & Ht & _). exact Ht.
Defined.

(** C27 at the sample prologue. *)
Lemma zt_build_trampoline_fits_witness :
  match zt_build_trampoline sample_disasm sample_x86_probe 0x600000 0x500000 (replicate 512 0) with
  | Some (out, size) => size <= 326
  | None => False
  end.
Proof.
  pose proof (zt_build_trampoline_fits sample_disasm sample_x86_probe 0x600000 0x500000 (replicate 512 0)
    sample_insns sample_disasm_ok eq_refl) as H.
  assert (Hs : Forall insn_size_ok sample_insns)
    by (repeat constructor; cbn; try discriminate; intros [Hx|[Hx|Hx]]; try discriminate; destruct (Hx eq_refl)).
  specialize (H Hs ltac:(discriminate) ltac:(discriminate) ltac:(split; [reflexivity|discriminate])
    ltac:(discriminate)).
  destruct (zt_build_trampoline _ _ _ _ _) as [[out size]|]; [apply H|].
  vm_compute in H. discriminate H.
Defined.
