(* ===== verification/A64Machine.v ===== *)
(** * A small AArch64

    The instructions the trampoline builder and the probe patch use and the
    program-counter relative ones the builder rewrites or refuses: their encodings,
    their decoding and their execution.  Of the literal loads only the 64-bit one is
    executed; a literal prefetch has no effect and counts as any other.  Bit
    fields are arithmetic on [Z], so that [lia] decides the decoding of a word. *)

From S2P Require Import Prelude CLib Types Emit.

(** ** Bit fields *)

(** The [n] bits of [w] from bit [lo] on. *)
Definition bits (w lo n : Z) : Z := (w / 2 ^ lo) mod 2 ^ n.

Definition sext (n x : Z) : Z := if x <? 2 ^ (n - 1) then x else x - 2 ^ n.

Lemma bits_range w lo n : 0 <= n -> 0 <= bits w lo n < 2 ^ n.
Proof. intros Hn. apply Z.mod_pos_bound. lia. Qed.

Lemma lor_disjoint a b k : 0 <= k -> 0 <= b < 2 ^ k -> Z.lor (a * 2 ^ k) b = a * 2 ^ k + b.
Proof.
  intros Hk Hb. assert (Hl : Z.land (a * 2 ^ k) b = 0).
  { apply Z.bits_inj'. intros i Hi. rewrite Z.land_spec, Z.bits_0.
    destruct (Z.ltb_spec i k); [by rewrite Z.mul_pow2_bits_low|].
    rewrite <- (Z.mod_small b (2 ^ k)), Z.mod_pow2_bits_high by lia. by rewrite andb_false_r. }
  by rewrite <- Z.lxor_lor, <- Z.add_nocarry_lxor by done.
Qed.

(** Clearing a field. *)
Lemma ldiff_field w lo n : 0 <= lo -> 0 <= n ->
  Z.ldiff w (Z.shiftl (Z.ones n) lo) = w - bits w lo n * 2 ^ lo.
Proof.
  intros Hl Hn. set (m := Z.shiftl (Z.ones n) lo).
  assert (Hf : Z.land w m = bits w lo n * 2 ^ lo).
  { unfold m, bits. rewrite <- Z.shiftl_mul_pow2, <- Z.land_ones, <- Z.shiftr_div_pow2 by done.
    apply Z.bits_inj'. intros i Hi. rewrite Z.land_spec, !Z.shiftl_spec by done.
    destruct (Z.ltb_spec i lo); [by rewrite !(Z.testbit_neg_r _ (i - lo)), andb_false_r by lia|].
    rewrite Z.land_spec, Z.shiftr_spec by lia. by replace (i - lo + lo) with i by lia. }
  rewrite <- Hf, Z.sub_nocarry_ldiff.
  - apply Z.bits_inj'. intros i Hi. rewrite !Z.ldiff_spec, Z.land_spec. by destruct (Z.testbit w i), (Z.testbit m i).
  - apply Z.bits_inj'. intros i Hi. rewrite Z.ldiff_spec, Z.land_spec, Z.bits_0.
    by destruct (Z.testbit w i), (Z.testbit m i).
Qed.

(** Flipping a bit. *)
Lemma lxor_bit w k : 0 <= k ->
  Z.lxor w (Z.shiftl 1 k) = w + (1 - 2 * bits w k 1) * 2 ^ k.
Proof.
  intros Hk. rewrite Z.shiftl_1_l. unfold bits. change (2 ^ 1) with 2. rewrite <- Z.bit0_mod.
  rewrite <- Z.shiftr_div_pow2, Z.shiftr_spec, Z.add_0_l by done. destruct (Z.testbit w k) eqn:Hb; cbn [Z.b2z].
  - replace (w + (1 - 2 * 1) * 2 ^ k) with (w - 2 ^ k) by lia. rewrite Z.sub_nocarry_ldiff.
    + apply Z.bits_inj'. intros i Hi. rewrite Z.lxor_spec, Z.ldiff_spec, Z.pow2_bits_eqb by done.
      destruct (Z.eqb_spec k i) as [<-|]; [by rewrite Hb|]. by destruct (Z.testbit w i).
    + apply Z.bits_inj'. intros i Hi. rewrite Z.ldiff_spec, Z.pow2_bits_eqb, Z.bits_0 by done.
      destruct (Z.eqb_spec k i) as [<-|]; [by rewrite Hb|done].
  - replace (w + (1 - 2 * 0) * 2 ^ k) with (w + 2 ^ k) by lia. rewrite <- Z.add_nocarry_lxor; [done|].
    apply Z.bits_inj'. intros i Hi. rewrite Z.land_spec, Z.pow2_bits_eqb, Z.bits_0 by done.
    destruct (Z.eqb_spec k i) as [<-|]; [by rewrite Hb|]. by rewrite andb_false_r.
Qed.

(** ** Instructions *)

Inductive a64_op :=
| OMovz (rd hw imm : Z)
| OMovk (rd hw imm : Z)
| OBr (rn : Z)
| OBlr (rn : Z)
| OMov (rd rm : Z)
| OAdr (rd off : Z)
| OAdrp (rd off : Z)
| OB (off : Z)
| OBl (off : Z)
| OBcond (cond off : Z)
| OCb (sf nonzero : bool) (rt off : Z)
| OTb (nonzero : bool) (bit rt off : Z)
| OLdr (rt off : Z)
| OLitOther
| OOther.

Definition adr_imm (w : Z) : Z := sext 21 (bits w 5 19 * 4 + bits w 29 2).

Definition a64_decode (w : Z) : a64_op :=
  if bits w 23 9 =? 0x1A5 then OMovz (bits w 0 5) (bits w 21 2) (bits w 5 16)
  else if bits w 23 9 =? 0x1E5 then OMovk (bits w 0 5) (bits w 21 2) (bits w 5 16)
  else if (bits w 10 22 =? 0x3587C0) && (bits w 0 5 =? 0) then OBr (bits w 5 5)
  else if (bits w 10 22 =? 0x358FC0) && (bits w 0 5 =? 0) then OBlr (bits w 5 5)
  else if (bits w 21 11 =? 0x550) && (bits w 5 11 =? 0x1F) then OMov (bits w 0 5) (bits w 16 5)
  else if (bits w 24 5 =? 0x10) && (bits w 31 1 =? 0) then OAdr (bits w 0 5) (adr_imm w)
  else if (bits w 24 5 =? 0x10) && (bits w 31 1 =? 1) then OAdrp (bits w 0 5) (4096 * adr_imm w)
  else if bits w 26 6 =? 0x05 then OB (4 * sext 26 (bits w 0 26))
  else if bits w 26 6 =? 0x25 then OBl (4 * sext 26 (bits w 0 26))
  else if (bits w 24 8 =? 0x54) && (bits w 4 1 =? 0) then OBcond (bits w 0 4) (4 * sext 19 (bits w 5 19))
  else if bits w 25 6 =? 0x1A then
    OCb (bits w 31 1 =? 1) (bits w 24 1 =? 1) (bits w 0 5) (4 * sext 19 (bits w 5 19))
  else if bits w 25 6 =? 0x1B then
    OTb (bits w 24 1 =? 1) (32 * bits w 31 1 + bits w 19 5) (bits w 0 5) (4 * sext 14 (bits w 5 14))
  else if bits w 24 8 =? 0x58 then OLdr (bits w 0 5) (4 * sext 19 (bits w 5 19))
  else if (bits w 27 3 =? 3) && (bits w 24 2 =? 0) then if bits w 30 2 =? 3 then OOther else OLitOther
  else OOther.

(** ** Execution

    Register 31 reads as zero and ignores writes.  [cc] gives the conditions of the
    even codes; an odd code tests the negation of the one below it. *)

Record a64_cpu := mk_a64 { pc : Z; regs : Z -> Z; amem : Z -> Z }.

Definition get (s : a64_cpu) (r : Z) : Z := if r =? 31 then 0 else regs s r.
Definition set (r v : Z) (s : a64_cpu) : a64_cpu :=
  mk_a64 (pc s) (fun x => if (x =? r) && negb (r =? 31) then v else regs s x) (amem s).
Definition goto (a : Z) (s : a64_cpu) : a64_cpu := mk_a64 a (regs s) (amem s).

Definition cond_holds (cc : Z -> bool) (c : Z) : bool :=
  if 14 <=? c then true else xorb (cc (c / 2)) (Z.odd c).

(** Whether an instruction leaves the straight line. *)
Definition a64_taken (cc : Z -> bool) (op : a64_op) (s : a64_cpu) : bool :=
  match op with
  | OBr _ | OBlr _ | OB _ | OBl _ => true
  | OBcond c _ => cond_holds cc c
  | OCb sf nz rt _ => xorb nz ((if sf then get s rt else get s rt mod 2 ^ 32) =? 0)
  | OTb nz bit rt _ => xorb nz (bits (get s rt) bit 1 =? 0)
  | _ => false
  end.

Definition a64_target (op : a64_op) (s : a64_cpu) : Z :=
  match op with
  | OBr rn | OBlr rn => get s rn
  | OB off | OBl off | OBcond _ off | OCb _ _ _ off | OTb _ _ _ off => u64 (pc s + off)
  | _ => pc s + 4
  end.

(** The registers an instruction writes. *)
Definition a64_writes (op : a64_op) (s : a64_cpu) : a64_cpu :=
  match op with
  | OMovz rd hw imm => set rd (imm * 2 ^ (16 * hw)) s
  | OMovk rd hw imm => set rd (get s rd + (imm - bits (get s rd) (16 * hw) 16) * 2 ^ (16 * hw)) s
  | OMov rd rm => set rd (get s rm) s
  | OAdr rd off => set rd (u64 (pc s + off)) s
  | OAdrp rd off => set rd (u64 (pc s - pc s mod 4096 + off)) s
  | OLdr rt off => set rt (load (amem s) (u64 (pc s + off)) 8) s
  | OBl _ | OBlr _ => set 30 (pc s + 4) s
  | _ => s
  end.

Definition a64_exec (cc : Z -> bool) (op : a64_op) (s : a64_cpu) : option a64_cpu :=
  match op with
  | OOther | OLitOther => None
  | _ => Some (goto (if a64_taken cc op s then a64_target op s else pc s + 4) (a64_writes op s))
  end.

Definition a64_step (cc : Z -> bool) (s : a64_cpu) : option a64_cpu :=
  a64_exec cc (a64_decode (load (amem s) (pc s) 4)) s.

Fixpoint a64_run (cc : Z -> bool) (n : nat) (s : a64_cpu) : option a64_cpu :=
  match n with
  | O => Some s
  | S n => match a64_step cc s with None => None | Some s => a64_run cc n s end
  end.

Lemma a64_run_add cc n m s :
  a64_run cc (n + m) s = match a64_run cc n s with None => None | Some s => a64_run cc m s end.
Proof. revert s. induction n as [|n IH]; intros s; [done|]. cbn. by destruct (a64_step cc s). Qed.

(** ** Words in memory *)

Definition words_bytes (ws : list Z) : list Z := concat (map (le_bytes 4) ws).

Definition words_at (m : Z -> Z) (a : Z) (ws : list Z) : Prop := code_at m a (words_bytes ws).

Lemma length_words_bytes ws : length (words_bytes ws) = (4 * length ws)%nat.
Proof.
  unfold words_bytes. induction ws as [|w ws IH]; [done|]. cbn [map concat length].
  rewrite length_app, IH, length_le_bytes. lia.
Qed.

Lemma words_bytes_app ws ws' : words_bytes (ws ++ ws') = words_bytes ws ++ words_bytes ws'.
Proof. unfold words_bytes. by rewrite map_app, concat_app. Qed.

Lemma words_at_app m a ws ws' :
  words_at m a (ws ++ ws') <-> words_at m a ws /\ words_at m (a + 4 * Z.of_nat (length ws)) ws'.
Proof.
  unfold words_at. rewrite words_bytes_app, code_at_app, length_words_bytes.
  by replace (Z.of_nat (4 * length ws)) with (4 * Z.of_nat (length ws)) by lia.
Qed.

Lemma words_at_cons m a w ws : words_at m a (w :: ws) <-> words_at m a [w] /\ words_at m (a + 4) ws.
Proof. apply (words_at_app m a [w] ws). Qed.

Lemma step_word cc s w : words_at (amem s) (pc s) [w] -> is_u32 w -> a64_step cc s = a64_exec cc (a64_decode w) s.
Proof.
  intros H Hw. unfold a64_step. do 2 f_equal. unfold words_at, words_bytes in H. cbn [map concat] in H.
  rewrite app_nil_r in H. apply code_at_load in H. by rewrite length_le_bytes, le_word_u32, u32_small in H by done.
Qed.
