(* ===== verification/A64Trampoline.v ===== *)
(** * The AArch64 trampoline builder (src/isa/aarch64/trampoline_manager.c)

    A trampoline keeps the link register in x15, loads the probe id and
    entry_stub's address, calls entry_stub, moves the returned x15 (exit_stub) to
    x30, replays the relocated prologue and branches behind the patch.  Its names
    carry the prefix a64_ where the x86_64 builder has a function of the same name.
    The disassembler (capstone) is the parameter [cs_disasm]. *)

From S2P Require Import Prelude CLib Types Emit.

(** ** Instructions as capstone reports them *)

Inductive arm64_insn_id :=
| ARM64_INS_ADR | ARM64_INS_ADRP | ARM64_INS_BL | ARM64_INS_B | ARM64_INS_CBNZ | ARM64_INS_CBZ
| ARM64_INS_TBNZ | ARM64_INS_TBZ
| ARM64_INS_LDR | ARM64_INS_LDRB | ARM64_INS_LDRH | ARM64_INS_LDRSB | ARM64_INS_LDRSH | ARM64_INS_LDRSW
| ARM64_INS_OTHER (n : Z).

Inductive arm64_operand :=
| ARM64_OP_IMM (imm : Z)
| ARM64_OP_OTHER.

Record a64_insn := mk_a64_insn {
  a64_id : arm64_insn_id;
  a64_size : Z;
  a64_bytes : list Z;
  a64_operands : list arm64_operand;
  a64_cc : Z                      (* arm64_cc: EQ = 1 ... LE = 14 *)
}.

Definition ARM64_CC_EQ : Z := 1.
Definition ARM64_CC_LE : Z := 14.
Definition ZT_AARCH64_INSN_SIZE : Z := 4.

(** ** Emission *)

(** This builder's copy of zt_emit_bytes. *)
Definition a64_emit_bytes : list Z -> Z -> list Z -> option (list Z * Z) := zt_emit_bytes.

Definition zt_emit_u32 (buf : list Z) (offset insn : Z) : option (list Z * Z) :=
  a64_emit_bytes buf offset (le_bytes 4 insn).

(** The 16 bits of [value] from bit [16 * hw] on. *)
Definition halfword (value hw : Z) : Z := Z.land (Z.shiftr value (hw * 16)) 0xffff.

Definition mov_word (rd hw imm16 : Z) : Z :=
  Z.lor (Z.lor (Z.lor (if hw =? 0 then 0xD2800000 else 0xF2800000) (Z.shiftl hw 21))
           (Z.shiftl imm16 5)) rd.

(** The for loop over the halfwords. *)
Fixpoint mov_abs_loop (hws : list Z) (buf : list Z) (offset rd value : Z) : option (list Z * Z) :=
  match hws with
  | [] => Some (buf, offset)
  | hw :: hws =>
      let imm16 := halfword value hw in
      if negb (hw =? 0) && (imm16 =? 0) then mov_abs_loop hws buf offset rd value
      else
        match zt_emit_u32 buf offset (mov_word rd hw imm16) with
        | None => None
        | Some (buf, offset) => mov_abs_loop hws buf offset rd value
        end
  end.

Definition zt_emit_mov_abs (buf : list Z) (offset rd value : Z) : option (list Z * Z) :=
  if rd >? 31 then None else mov_abs_loop [0; 1; 2; 3] buf offset rd value.

Definition zt_mov_abs_size (value : Z) : Z :=
  let count := 1 + b2z (negb (halfword value 1 =? 0)) + b2z (negb (halfword value 2 =? 0))
                 + b2z (negb (halfword value 3 =? 0)) in
  count * ZT_AARCH64_INSN_SIZE.

(** The nops of a buffer; its last bytes, fewer than four, stay as they were. *)
Definition zt_fill_nops (buf : list Z) : list Z :=
  let n := (length buf / 4)%nat in
  concat (replicate n (le_bytes 4 0xD503201F)) ++ drop (4 * n) buf.

Definition zt_read_u32 (buf : list Z) : Z := le_word (take 4 buf).

Definition zt_aarch64_branch_target (insn : a64_insn) (operand_index : nat) : option Z :=
  match a64_operands insn !! operand_index with
  | Some (ARM64_OP_IMM imm) => Some (u64 imm)
  | _ => None
  end.

(** The [||] of two emissions. *)
Definition emit_then (r : option (list Z * Z)) (k : list Z -> Z -> option (list Z * Z))
    : option (list Z * Z) :=
  match r with None => None | Some (buf, offset) => k buf offset end.

Definition zt_emit_abs_branch (buf : list Z) (offset target_addr : Z) : option (list Z * Z) :=
  emit_then (zt_emit_mov_abs buf offset 16 target_addr)
    (fun buf offset => zt_emit_u32 buf offset 0xD61F0200).

Definition zt_emit_abs_call (buf : list Z) (offset target_addr : Z) : option (list Z * Z) :=
  emit_then (zt_emit_mov_abs buf offset 16 target_addr)
    (fun buf offset => zt_emit_u32 buf offset 0xD63F0200).

Definition zt_aarch64_cond_code (cond : Z) : option Z :=
  if (cond <? ARM64_CC_EQ) || (cond >? ARM64_CC_LE) then None else Some (cond - ARM64_CC_EQ).

Definition zt_aarch64_inverse_cond (cond : Z) : option Z :=
  match zt_aarch64_cond_code cond with None => None | Some code => Some (Z.lxor code 1) end.

Definition zt_aarch64_encode_b_cond (cond byte_offset : Z) : Z :=
  let imm19 := Z.land (u32 (Z.quot byte_offset ZT_AARCH64_INSN_SIZE)) 0x7ffff in
  Z.lor (Z.lor 0x54000000 (Z.shiftl imm19 5)) (Z.land cond 0xf).

(** The distance over the absolute branch that follows a rewritten branch. *)
Definition skip_bytes (target_addr : Z) : Z :=
  ZT_AARCH64_INSN_SIZE + zt_mov_abs_size target_addr + ZT_AARCH64_INSN_SIZE.

Definition zt_emit_cond_abs_branch (buf : list Z) (offset cond target_addr : Z)
    : option (list Z * Z) :=
  match zt_aarch64_inverse_cond cond with
  | None => None
  | Some inverse =>
      emit_then (zt_emit_u32 buf offset (zt_aarch64_encode_b_cond inverse (skip_bytes target_addr)))
        (fun buf offset => zt_emit_abs_branch buf offset target_addr)
  end.

(** [w ^= 1 << 24; w &= ~(mask << 5); w |= (skip / 4) << 5]. *)
Definition rewrite_branch (w mask target_addr : Z) : Z :=
  Z.lor (Z.ldiff (Z.lxor w (Z.shiftl 1 24)) (Z.shiftl mask 5))
    (Z.shiftl (skip_bytes target_addr / ZT_AARCH64_INSN_SIZE) 5).

Definition zt_emit_cb_abs_branch (buf : list Z) (offset : Z) (insn : a64_insn) (target_addr : Z)
    : option (list Z * Z) :=
  emit_then (zt_emit_u32 buf offset (rewrite_branch (zt_read_u32 (a64_bytes insn)) 0x7ffff target_addr))
    (fun buf offset => zt_emit_abs_branch buf offset target_addr).

Definition zt_emit_tb_abs_branch (buf : list Z) (offset : Z) (insn : a64_insn) (target_addr : Z)
    : option (list Z * Z) :=
  emit_then (zt_emit_u32 buf offset (rewrite_branch (zt_read_u32 (a64_bytes insn)) 0x3fff target_addr))
    (fun buf offset => zt_emit_abs_branch buf offset target_addr).

Definition zt_emit_adr_like (buf : list Z) (offset : Z) (insn : a64_insn) : option (list Z * Z) :=
  match zt_aarch64_branch_target insn 1 with
  | None => None
  | Some target_addr =>
      zt_emit_mov_abs buf offset (Z.land (zt_read_u32 (a64_bytes insn)) 0x1f) target_addr
  end.

(** A load whose second operand is an immediate is a literal load. *)
Definition is_literal_load (insn : a64_insn) : bool :=
  match a64_id insn with
  | ARM64_INS_LDR | ARM64_INS_LDRB | ARM64_INS_LDRH | ARM64_INS_LDRSB | ARM64_INS_LDRSH | ARM64_INS_LDRSW =>
      match a64_operands insn !! 1%nat with Some (ARM64_OP_IMM _) => true | _ => false end
  | _ => false
  end.

Definition zt_emit_relocated_insn (buf : list Z) (offset : Z) (insn : a64_insn) : option (list Z * Z) :=
  if negb (a64_size insn =? ZT_AARCH64_INSN_SIZE) then None
  else
    match a64_id insn with
    | ARM64_INS_ADR | ARM64_INS_ADRP => zt_emit_adr_like buf offset insn
    | ARM64_INS_BL =>
        match zt_aarch64_branch_target insn 0 with
        | None => None
        | Some target_addr => zt_emit_abs_call buf offset target_addr
        end
    | ARM64_INS_B =>
        match zt_aarch64_branch_target insn 0 with
        | None => None
        | Some target_addr =>
            let cc := a64_cc insn in
            if (cc >=? ARM64_CC_EQ) && (cc <=? ARM64_CC_LE)
            then zt_emit_cond_abs_branch buf offset cc target_addr
            else zt_emit_abs_branch buf offset target_addr
        end
    | ARM64_INS_CBNZ | ARM64_INS_CBZ =>
        match zt_aarch64_branch_target insn 1 with
        | None => None
        | Some target_addr => zt_emit_cb_abs_branch buf offset insn target_addr
        end
    | ARM64_INS_TBNZ | ARM64_INS_TBZ =>
        match zt_aarch64_branch_target insn 2 with
        | None => None
        | Some target_addr => zt_emit_tb_abs_branch buf offset insn target_addr
        end
    | _ =>
        if is_literal_load insn then None
        else a64_emit_bytes buf offset (take (Z.to_nat (a64_size insn)) (a64_bytes insn))
    end.

Fixpoint a64_relocate_loop (buf : list Z) (emitted : Z) (insns : list a64_insn)
    : option (list Z * Z) :=
  match insns with
  | [] => Some (buf, emitted)
  | cur :: insns =>
      emit_then (zt_emit_relocated_insn buf emitted cur)
        (fun buf emitted => a64_relocate_loop buf emitted insns)
  end.

Section builder.
Context (cs_disasm : list Z -> Z -> option (list a64_insn)).

Definition a64_emit_relocated_orig_code (probe : zt_probe_info_t) (buf : list Z) : option (list Z * Z) :=
  if (pr_orig_len probe =? 0) || negb (pr_orig_len probe mod ZT_AARCH64_INSN_SIZE =? 0) then None
  else
    match cs_disasm (take (Z.to_nat (pr_orig_len probe)) (pr_orig_code probe))
            (tgt_remote_addr (pr_target probe)) with
    | None | Some [] => None
    | Some insns => a64_relocate_loop buf 0 insns
    end.

Definition a64_build_trampoline (probe : zt_probe_info_t) (entry_stub_addr trampoline_addr : Z)
    (trampoline_buf : list Z) : option (list Z * Z) :=
  if (trampoline_addr =? 0) || (entry_stub_addr =? 0) then None
  else if (pr_orig_len probe =? 0) || (pr_orig_len probe >? ZT_PROBE_ORIG_CODE_MAX) then None
  else
    let continue_addr := tgt_remote_addr (pr_target probe) +64 pr_orig_len probe in
    let buf := zt_fill_nops trampoline_buf in
    emit_then (zt_emit_u32 buf 0 0xAA1E03EF) (fun buf offset =>                (* mov x15, x30 *)
    emit_then (zt_emit_mov_abs buf offset 17 (pr_probe_id probe)) (fun buf offset =>
    emit_then (zt_emit_mov_abs buf offset 16 entry_stub_addr) (fun buf offset =>
    emit_then (zt_emit_u32 buf offset 0xD63F0200) (fun buf offset =>           (* blr x16 *)
    emit_then (zt_emit_u32 buf offset 0xAA0F03FE) (fun buf offset =>           (* mov x30, x15 *)
    match a64_emit_relocated_orig_code probe (drop (Z.to_nat offset) buf) with
    | None => None
    | Some (tail, relocated_size) =>
        let buf := take (Z.to_nat offset) buf ++ tail in
        let offset := offset + relocated_size in
        emit_then (zt_emit_mov_abs buf offset 16 continue_addr) (fun buf offset =>
        zt_emit_u32 buf offset 0xD61F0200)                                     (* br x16 *)
    end))))).
End builder.
