(* ===== verification/A64Spec.v ===== *)
(** * What the AArch64 builder's code does

    The words the builder emits, as functions of their operands, and their
    execution on the machine of A64Machine. *)

From S2P Require Import Prelude CLib Types Emit A64Machine A64Trampoline.

(** ** Encodings *)

Ltac bits_lia := unfold bits, is_u32 in *; cbn [Z.pow Z.pow_pos Pos.iter Z.mul Pos.mul] in *; Z.div_mod_to_equations; lia.

(** Decide the tests of [a64_decode] one after another. *)
Ltac decode_tests :=
  unfold a64_decode;
  repeat match goal with
  | |- context [if (?a =? ?b) && (?c =? ?d) then _ else _] =>
      first [ replace (a =? b) with false by (symmetry; apply Z.eqb_neq; bits_lia)
            | replace (a =? b) with true by (symmetry; apply Z.eqb_eq; bits_lia);
              first [ replace (c =? d) with false by (symmetry; apply Z.eqb_neq; bits_lia)
                    | replace (c =? d) with true by (symmetry; apply Z.eqb_eq; bits_lia) ] ];
      cbn [andb]
  | |- context [if ?a =? ?b then _ else _] =>
      first [ replace (a =? b) with false by (symmetry; apply Z.eqb_neq; bits_lia)
            | replace (a =? b) with true by (symmetry; apply Z.eqb_eq; bits_lia) ]
  end.

Lemma mov_word_sum rd hw imm : 0 <= rd < 32 -> 0 <= hw < 4 -> 0 <= imm < 65536 ->
  mov_word rd hw imm = (if hw =? 0 then 0xD2800000 else 0xF2800000) + hw * 2 ^ 21 + imm * 2 ^ 5 + rd.
Proof.
  intros Hr Hh Hi. unfold mov_word. set (base := if hw =? 0 then _ else _).
  assert (Hb : base = base / 2 ^ 23 * 2 ^ 23) by (unfold base; by destruct (hw =? 0)).
  rewrite !Z.shiftl_mul_pow2 by done. rewrite Hb, lor_disjoint by lia. rewrite <- Hb.
  set (x := base + hw * 2 ^ 21). assert (Hx : x = x / 2 ^ 21 * 2 ^ 21).
  { unfold x, base. destruct (hw =? 0); Z.div_mod_to_equations; lia. }
  rewrite Hx, lor_disjoint by lia. rewrite <- Hx.
  replace (x + imm * 2 ^ 5) with ((x / 2 ^ 5 + imm) * 2 ^ 5).
  - rewrite lor_disjoint by lia. unfold x, base. destruct (hw =? 0); Z.div_mod_to_equations; lia.
  - unfold x, base. destruct (hw =? 0); Z.div_mod_to_equations; lia.
Qed.

Lemma mov_word_u32 rd hw imm : 0 <= rd < 32 -> 0 <= hw < 4 -> 0 <= imm < 65536 -> is_u32 (mov_word rd hw imm).
Proof. intros. rewrite mov_word_sum by done. unfold is_u32. destruct (hw =? 0); lia. Qed.

Lemma decode_mov_word rd hw imm : 0 <= rd < 32 -> 0 <= hw < 4 -> 0 <= imm < 65536 ->
  a64_decode (mov_word rd hw imm) = if hw =? 0 then OMovz rd hw imm else OMovk rd hw imm.
Proof.
  intros Hr Hh Hi. rewrite mov_word_sum by done.
  destruct (Z.eqb_spec hw 0); decode_tests; f_equal; bits_lia.
Qed.

(** ** Materialising a 64-bit value *)

(** The words of the loop of zt_emit_mov_abs. *)
Fixpoint mov_words (hws : list Z) (rd value : Z) : list Z :=
  match hws with
  | [] => []
  | hw :: hws =>
      if negb (hw =? 0) && (halfword value hw =? 0) then mov_words hws rd value
      else mov_word rd hw (halfword value hw) :: mov_words hws rd value
  end.

Definition mov_abs_words (rd value : Z) : list Z := mov_words [0; 1; 2; 3] rd value.

Lemma mov_abs_words_cons rd value :
  mov_abs_words rd value =
  mov_word rd 0 (halfword value 0) :: mov_words (seqZ 1 (Z.of_nat 3)) rd value.
Proof. reflexivity. Qed.

Lemma halfword_bits value hw : 0 <= hw -> halfword value hw = bits value (16 * hw) 16.
Proof.
  intros. unfold halfword, bits. change 0xffff with (Z.ones 16).
  rewrite Z.land_ones, Z.shiftr_div_pow2 by lia. do 3 f_equal. lia.
Qed.

Lemma halfword_range value hw : 0 <= halfword value hw < 65536.
Proof. unfold halfword. change 0xffff with (Z.ones 16). rewrite Z.land_ones by done. apply Z.mod_pos_bound. lia. Qed.

Lemma mod_next_halfword value k : 0 <= k ->
  value mod 2 ^ (16 * (k + 1)) = value mod 2 ^ (16 * k) + halfword value k * 2 ^ (16 * k).
Proof.
  intros Hk. rewrite halfword_bits by done. unfold bits.
  replace (16 * (k + 1)) with (16 * k + 16) by lia. rewrite Z.pow_add_r, Z.rem_mul_r by lia. lia.
Qed.

Lemma emit_u32_eq buf off w : zt_emit_u32 buf off w = emitted buf off (words_bytes [w]).
Proof. unfold zt_emit_u32, a64_emit_bytes. rewrite emit_bytes_eq. unfold words_bytes. cbn [map concat]. by rewrite app_nil_r. Qed.

(** Two emissions of words, in either shape of the code. *)
Lemma emit_words_bind buf off ws ws' k :
  0 <= off ->
  (forall buf' off', length buf' = length buf -> 0 <= off' <= Z.of_nat (length buf') ->
    k buf' off' = emitted buf' off' (words_bytes ws')) ->
  emit_then (emitted buf off (words_bytes ws)) k = emitted buf off (words_bytes (ws ++ ws')).
Proof. intros H0 Hk. rewrite words_bytes_app. apply emitted_bind; [done|]. intros. by apply Hk. Qed.

Lemma emitted_nil buf off : 0 <= off <= Z.of_nat (length buf) -> emitted buf off [] = Some (buf, off).
Proof.
  intros. unfold emitted, fits. cbn. rewrite Z.add_0_r, memcpy_at_nil.
  destruct (Z.leb_spec off (Z.of_nat (length buf))); [done|lia].
Qed.

Lemma mov_abs_loop_eq hws buf off rd value :
  0 <= off <= Z.of_nat (length buf) ->
  mov_abs_loop hws buf off rd value = emitted buf off (words_bytes (mov_words hws rd value)).
Proof.
  revert buf off. induction hws as [|hw hws IH]; intros buf off Ho; cbn [mov_abs_loop mov_words].
  { by rewrite emitted_nil. }
  destruct (negb (hw =? 0) && _); [by apply IH|]. rewrite emit_u32_eq.
  apply (emit_words_bind _ _ [_]); [lia|]. intros. by apply IH.
Qed.

Lemma emit_mov_abs_eq buf off rd value :
  rd <= 31 -> 0 <= off <= Z.of_nat (length buf) ->
  zt_emit_mov_abs buf off rd value = emitted buf off (words_bytes (mov_abs_words rd value)).
Proof.
  intros Hr Ho. unfold zt_emit_mov_abs. rewrite Z.gtb_ltb. destruct (Z.ltb_spec 31 rd); [lia|].
  by apply mov_abs_loop_eq.
Qed.

Lemma mov_abs_words_size rd value :
  4 * Z.of_nat (length (mov_abs_words rd value)) = zt_mov_abs_size value.
Proof.
  unfold mov_abs_words, zt_mov_abs_size, ZT_AARCH64_INSN_SIZE. cbn [mov_words].
  change (negb (0 =? 0)) with false. change (negb (1 =? 0)) with true. change (negb (2 =? 0)) with true.
  change (negb (3 =? 0)) with true. cbn [andb].
  by destruct (halfword value 1 =? 0), (halfword value 2 =? 0), (halfword value 3 =? 0).
Qed.

Lemma zt_mov_abs_size_range value : 4 <= zt_mov_abs_size value <= 16 /\ zt_mov_abs_size value mod 4 = 0.
Proof.
  unfold zt_mov_abs_size, ZT_AARCH64_INSN_SIZE.
  by destruct (halfword value 1 =? 0), (halfword value 2 =? 0), (halfword value 3 =? 0).
Qed.

(** What straight-line code of [n] words leaves: the memory, the program counter
    behind it, and [rd] set. *)
Definition moved (s s' : a64_cpu) (n : nat) (rd value : Z) : Prop :=
  pc s' = pc s + 4 * Z.of_nat n /\ amem s' = amem s /\
  forall r, get s' r = if (r =? rd) && negb (rd =? 31) then value else get s r.

Lemma get_set r v s x : get (set r v s) x = if (x =? r) && negb (r =? 31) then v else get s x.
Proof.
  unfold get, set. cbn. destruct (Z.eqb_spec x 31) as [->|]; [|done].
  destruct (Z.eqb_spec 31 r) as [<-|]; done.
Qed.

Section execution.
Context (cc : Z -> bool).

Lemma run_movk rd value n k s :
  1 <= k -> 0 <= rd < 32 -> words_at (amem s) (pc s) (mov_words (seqZ k (Z.of_nat n)) rd value) ->
  k + Z.of_nat n = 4 -> is_u64 value ->
  (rd <> 31 -> get s rd = value mod 2 ^ (16 * k)) ->
  exists s', a64_run cc (length (mov_words (seqZ k (Z.of_nat n)) rd value)) s = Some s' /\
    moved s s' (length (mov_words (seqZ k (Z.of_nat n)) rd value)) rd value.
Proof.
  revert k s. induction n as [|n IH]; intros k s Hk Hrd Hw Hn Hv Hg.
  - change (seqZ k (Z.of_nat 0)) with (@nil Z) in *. exists s. split; [done|]. split_and!; [cbn [mov_words length]; lia|done|]. intros r.
    destruct (Z.eqb_spec r rd) as [->|]; [|done]. destruct (Z.eqb_spec rd 31); [done|]. cbn.
    rewrite Hg by done. rewrite Z.mod_small; [done|]. replace (16 * k) with 64 by lia. exact Hv.
  - rewrite seqZ_cons in * by lia. cbn [mov_words] in *.
    replace (Z.succ k) with (k + 1) in * by lia. replace (Z.pred (Z.of_nat (S n))) with (Z.of_nat n) in * by lia.
    destruct (Z.eqb_spec k 0); [lia|]. cbn [negb andb] in *.
    pose proof (halfword_range value k) as Hh. pose proof (mod_next_halfword value k ltac:(lia)) as Hnext.
    destruct (Z.eqb_spec (halfword value k) 0) as [H0|H0].
    + apply IH; try done; try lia.
    + apply words_at_cons in Hw as [Hw1 Hw2]. cbn [length a64_run].
      rewrite (step_word _ _ _ Hw1) by (apply mov_word_u32; lia).
      rewrite decode_mov_word by lia. destruct (Z.eqb_spec k 0); [done|].
      cbn [a64_exec a64_taken a64_writes]. set (s1 := goto _ _).
      destruct (IH (k + 1) s1) as (s' & Hrun & Hpc & Hm & Hr); try done; try lia.
      * intros Hne. change (get s1 rd) with (get (set rd (get s rd + (halfword value k - bits (get s rd) (16 * k) 16) * 2 ^ (16 * k)) s) rd).
        rewrite get_set, Z.eqb_refl. destruct (Z.eqb_spec rd 31); [done|]. cbn [negb andb].
        rewrite Hg, Hnext by done. unfold bits. rewrite Z.div_small by (apply Z.mod_pos_bound; lia).
        rewrite Z.mod_0_l by lia. lia.
      * exists s'. split; [done|]. split_and!; [rewrite Hpc; cbn; lia|done|].
        intros r. rewrite Hr. destruct ((r =? rd) && negb (rd =? 31)) eqn:Hx; [done|].
        unfold s1. change (get (goto ?a ?b) r) with (get b r). by rewrite get_set, Hx.
Qed.

Lemma run_mov_abs rd value s :
  0 <= rd < 32 -> is_u64 value -> words_at (amem s) (pc s) (mov_abs_words rd value) ->
  exists s', a64_run cc (length (mov_abs_words rd value)) s = Some s' /\
    moved s s' (length (mov_abs_words rd value)) rd value.
Proof.
  intros Hrd Hv Hw. rewrite mov_abs_words_cons in *. cbn [length a64_run].
  pose proof (halfword_range value 0) as Hh. apply words_at_cons in Hw as [Hw1 Hw2].
  rewrite (step_word _ _ _ Hw1), decode_mov_word by (try apply mov_word_u32; lia).
  cbn [Z.eqb a64_exec a64_taken a64_writes]. set (s1 := goto _ _).
  destruct (run_movk rd value 3 1 s1) as (s' & Hrun & Hpc & Hm & Hr); try done.
  - intros Hne. unfold s1. change (get (goto ?a ?b) rd) with (get b rd). rewrite get_set, Z.eqb_refl.
    destruct (Z.eqb_spec rd 31); [done|]. cbn [negb andb].
    pose proof (mod_next_halfword value 0 ltac:(lia)) as Hx. change (0 + 1) with 1 in Hx.
    change (16 * 0) with 0 in *. rewrite Z.mod_1_r in Hx. lia.
  - exists s'. split; [done|]. split_and!; [rewrite Hpc; unfold s1; cbn [pc goto]; lia|done|].
    intros r. rewrite Hr. destruct ((r =? rd) && negb (rd =? 31)) eqn:Hx; [done|].
    unfold s1. change (get (goto ?a ?b) r) with (get b r). by rewrite get_set, Hx.
Qed.
End execution.

(** The bytes an emission put between two offsets of the buffer. *)
Definition slice (buf : list Z) (from to : Z) : list Z :=
  take (Z.to_nat (to - from)) (drop (Z.to_nat from) buf).

Lemma emitted_slice buf off bs buf' off' :
  emitted buf off bs = Some (buf', off') -> 0 <= off <= Z.of_nat (length buf) ->
  slice buf' off off' = bs /\ off' = off + Z.of_nat (length bs) /\ off' <= Z.of_nat (length buf) /\
  length buf' = length buf.
Proof.
  unfold emitted, fits. destruct (Z.leb_spec (off + Z.of_nat (length bs)) (Z.of_nat (length buf))); [|done].
  intros Heq Ho. injection Heq as <- <-. rewrite length_memcpy_at by lia. split_and!; try done.
  unfold slice, memcpy_at. rewrite drop_app_length' by (rewrite length_take; lia).
  apply take_app_length'. lia.
Qed.

(** Zt_emit_mov_abs emits zt_mov_abs_size bytes that load the value.  From any
    state at their address the code runs to its end with [rd] holding [value] and
    every other register and the memory unchanged. *)
Lemma zt_emit_mov_abs_runs buf off rd value buf' off' :
  zt_emit_mov_abs buf off rd value = Some (buf', off') ->
  0 <= off <= Z.of_nat (length buf) -> 0 <= rd < 31 -> is_u64 value ->
  off' = off + zt_mov_abs_size value /\
  forall cc s, code_at (amem s) (pc s) (slice buf' off off') ->
    exists n s', a64_run cc n s = Some s' /\ pc s' = pc s + zt_mov_abs_size value /\
      amem s' = amem s /\ get s' rd = value /\ forall r, r <> rd -> get s' r = get s r.
Proof.
  intros He Ho Hr Hv. rewrite emit_mov_abs_eq in He by lia.
  apply emitted_slice in He as (-> & -> & _); [|done]. rewrite length_words_bytes.
  rewrite <- (mov_abs_words_size rd). split; [lia|]. intros cc s Hc.
  destruct (run_mov_abs cc rd value s) as (s' & Hrun & Hpc & Hm & Hg); [lia|done..|].
  eexists _, s'. split; [exact Hrun|]. split_and!; [done..| |].
  - rewrite Hg, Z.eqb_refl. by destruct (Z.eqb_spec rd 31); [lia|].
  - intros r Hne. rewrite Hg. by destruct (Z.eqb_spec r rd).
Qed.

(** ** Relocated instructions *)

Definition abs_branch_words (target : Z) : list Z := mov_abs_words 16 target ++ [0xD61F0200].
Definition abs_call_words (target : Z) : list Z := mov_abs_words 16 target ++ [0xD63F0200].

(** The words that replace an instruction; [None] if it is refused. *)
Definition reloc_words (i : a64_insn) : option (list Z) :=
  let w := zt_read_u32 (a64_bytes i) in
  match a64_id i with
  | ARM64_INS_ADR | ARM64_INS_ADRP => mov_abs_words (Z.land w 0x1f) <$> zt_aarch64_branch_target i 1
  | ARM64_INS_BL => abs_call_words <$> zt_aarch64_branch_target i 0
  | ARM64_INS_B =>
      (fun t => if (1 <=? a64_cc i) && (a64_cc i <=? 14)
                then zt_aarch64_encode_b_cond (Z.lxor (a64_cc i - 1) 1) (skip_bytes t) :: abs_branch_words t
                else abs_branch_words t) <$> zt_aarch64_branch_target i 0
  | ARM64_INS_CBNZ | ARM64_INS_CBZ =>
      (fun t => rewrite_branch w 0x7ffff t :: abs_branch_words t) <$> zt_aarch64_branch_target i 1
  | ARM64_INS_TBNZ | ARM64_INS_TBZ =>
      (fun t => rewrite_branch w 0x3fff t :: abs_branch_words t) <$> zt_aarch64_branch_target i 2
  | _ => if is_literal_load i then None else Some [w]
  end.

Definition a64_bytes_ok (i : a64_insn) : Prop :=
  a64_size i = 4 /\ length (a64_bytes i) = 4%nat /\ Forall is_byte (a64_bytes i).

Lemma land_31 w : Z.land w 0x1f = bits w 0 5.
Proof. unfold bits. change 0x1f with (Z.ones 5). by rewrite Z.land_ones, Z.div_1_r by done. Qed.

Lemma emit_abs_branch_eq buf off t :
  0 <= off <= Z.of_nat (length buf) ->
  zt_emit_abs_branch buf off t = emitted buf off (words_bytes (abs_branch_words t)).
Proof.
  intros. unfold zt_emit_abs_branch. rewrite emit_mov_abs_eq by lia. apply emit_words_bind; [lia|].
  intros. apply emit_u32_eq.
Qed.

Lemma emit_abs_call_eq buf off t :
  0 <= off <= Z.of_nat (length buf) ->
  zt_emit_abs_call buf off t = emitted buf off (words_bytes (abs_call_words t)).
Proof.
  intros. unfold zt_emit_abs_call. rewrite emit_mov_abs_eq by lia. apply emit_words_bind; [lia|].
  intros. apply emit_u32_eq.
Qed.

Lemma emit_then_branch_eq buf off w t :
  0 <= off <= Z.of_nat (length buf) ->
  emit_then (zt_emit_u32 buf off w) (fun buf off => zt_emit_abs_branch buf off t) =
  emitted buf off (words_bytes (w :: abs_branch_words t)).
Proof.
  intros. rewrite emit_u32_eq. apply (emit_words_bind _ _ [w]); [lia|]. intros. by apply emit_abs_branch_eq.
Qed.

Lemma read_u32_u32 i : a64_bytes_ok i -> is_u32 (zt_read_u32 (a64_bytes i)).
Proof.
  intros (_ & Hl & Hb). unfold zt_read_u32. rewrite take_ge by lia.
  apply le_word_range in Hb. by rewrite Hl in Hb.
Qed.

Lemma emit_copied_eq buf off i :
  a64_bytes_ok i -> 
  a64_emit_bytes buf off (take (Z.to_nat (a64_size i)) (a64_bytes i)) =
  emitted buf off (words_bytes [zt_read_u32 (a64_bytes i)]).
Proof.
  intros (-> & Hl & Hb). unfold a64_emit_bytes. rewrite emit_bytes_eq. f_equal.
  unfold words_bytes, zt_read_u32. cbn [map concat]. rewrite app_nil_r. change (Z.to_nat 4) with 4%nat.
  rewrite !take_ge by lia. pose proof (le_bytes_le_word _ Hb) as H. by rewrite Hl in H.
Qed.

Lemma emit_relocated_insn_eq buf off i :
  a64_bytes_ok i -> 0 <= off <= Z.of_nat (length buf) ->
  zt_emit_relocated_insn buf off i =
  match reloc_words i with None => None | Some ws => emitted buf off (words_bytes ws) end.
Proof.
  intros Hok Ho. unfold zt_emit_relocated_insn, reloc_words. destruct Hok as (Hs & Hok). rewrite Hs.
  cbn [Z.eqb Pos.eqb negb ZT_AARCH64_INSN_SIZE]. pose proof (conj Hs Hok : a64_bytes_ok i) as Hi.
  assert (Hcopy : (if is_literal_load i then None
     else a64_emit_bytes buf off (take (Z.to_nat (a64_size i)) (a64_bytes i))) =
    match (if is_literal_load i then None else Some [zt_read_u32 (a64_bytes i)]) with
    | Some ws => emitted buf off (words_bytes ws) | None => None end).
  { destruct (is_literal_load i); [done|]. by apply emit_copied_eq. }
  rewrite Hs in Hcopy. assert (Hrd : Z.land (zt_read_u32 (a64_bytes i)) 0x1f <= 31).
  { rewrite land_31. pose proof (bits_range (zt_read_u32 (a64_bytes i)) 0 5 ltac:(lia)). lia. }
  destruct (a64_id i); try exact Hcopy.
  1,2: unfold zt_emit_adr_like; destruct (zt_aarch64_branch_target i 1); cbn [fmap option_fmap option_map]; [|done];
    by apply emit_mov_abs_eq.
  1: destruct (zt_aarch64_branch_target i 0); cbn [fmap option_fmap option_map]; [|done]; by apply emit_abs_call_eq.
  - destruct (zt_aarch64_branch_target i 0); cbn [fmap option_fmap option_map]; [|done].
    rewrite Z.geb_leb. unfold ARM64_CC_EQ, ARM64_CC_LE, zt_emit_cond_abs_branch, zt_aarch64_inverse_cond, zt_aarch64_cond_code.
    unfold ARM64_CC_EQ, ARM64_CC_LE. destruct (_ && _) eqn:Hcc; [|by apply emit_abs_branch_eq]. zbool.
    destruct (Z.ltb_spec (a64_cc i) 1); [lia|]. rewrite Z.gtb_ltb. destruct (Z.ltb_spec 14 (a64_cc i)); [lia|].
    by apply emit_then_branch_eq.
  - destruct (zt_aarch64_branch_target i 1); [|done]. by apply emit_then_branch_eq.
  - destruct (zt_aarch64_branch_target i 1); [|done]. by apply emit_then_branch_eq.
  - destruct (zt_aarch64_branch_target i 2); [|done]. by apply emit_then_branch_eq.
  - destruct (zt_aarch64_branch_target i 2); [|done]. by apply emit_then_branch_eq.
Qed.

(** ** Rewritten branches *)

Lemma skip_cases t :
  skip_bytes t = 4 + zt_mov_abs_size t + 4 /\
  (skip_bytes t = 12 \/ skip_bytes t = 16 \/ skip_bytes t = 20 \/ skip_bytes t = 24).
Proof.
  unfold skip_bytes, ZT_AARCH64_INSN_SIZE. pose proof (zt_mov_abs_size_range t) as [? ?]. split; [done|].
  Z.div_mod_to_equations; lia.
Qed.

(** Storing a value into a cleared field. *)
Lemma lor_field a n lo k : 0 <= lo -> 0 <= n -> 0 <= k < 2 ^ n ->
  Z.lor (Z.ldiff a (Z.shiftl (Z.ones n) lo)) (Z.shiftl k lo) =
  a - bits a lo n * 2 ^ lo + k * 2 ^ lo.
Proof.
  intros Hl Hn Hk. rewrite <- ldiff_field, <- (Z.shiftl_mul_pow2 k) by done. set (m := Z.shiftl (Z.ones n) lo).
  assert (Hz : Z.land (Z.ldiff a m) (Z.shiftl k lo) = 0).
  { apply Z.bits_inj'. intros i Hi. rewrite Z.land_spec, Z.ldiff_spec, Z.bits_0.
    unfold m. rewrite !Z.shiftl_spec by done.
    destruct (Z.ltb_spec i lo); [by rewrite (Z.testbit_neg_r k), andb_false_r by lia|].
    rewrite <- (Z.mod_small k (2 ^ n)) by done. rewrite <- Z.land_ones, Z.land_spec by done.
    destruct (Z.testbit a i), (Z.testbit k (i - lo)), (Z.testbit (Z.ones n) (i - lo)); done. }
  by rewrite <- Z.lxor_lor, <- Z.add_nocarry_lxor by done.
Qed.

Lemma rewrite_branch_sum w n t : is_u32 w -> n = 19 \/ n = 14 ->
  rewrite_branch w (Z.ones n) t =
  w + (1 - 2 * bits w 24 1) * 2 ^ 24 - bits w 5 n * 2 ^ 5 + skip_bytes t / 4 * 2 ^ 5.
Proof.
  intros Hw Hn. pose proof (skip_cases t) as [_ Hs]. unfold rewrite_branch.
  change ZT_AARCH64_INSN_SIZE with 4.
  rewrite lor_field by (destruct Hn as [-> | ->]; Z.div_mod_to_equations; lia).
  rewrite lxor_bit by done. do 2 f_equal.
  destruct Hn as [-> | ->]; bits_lia.
Qed.

(** The test of [a64_decode] that a decoded word passed. *)
Ltac decode_cases H :=
  unfold a64_decode in H;
  repeat match type of H with
  | (if ?c then _ else _) = _ => destruct c eqn:?; [try discriminate H|try discriminate H]
  end; zbool.

Lemma cb_fields w sf nz rt off : a64_decode w = OCb sf nz rt off ->
  bits w 25 6 = 0x1A /\ sf = (bits w 31 1 =? 1) /\ nz = (bits w 24 1 =? 1) /\ rt = bits w 0 5 /\
  off = 4 * sext 19 (bits w 5 19).
Proof. intros H. decode_cases H. by injection H as <- <- <- <-. Qed.

Lemma tb_fields w nz bit rt off : a64_decode w = OTb nz bit rt off ->
  bits w 25 6 = 0x1B /\ nz = (bits w 24 1 =? 1) /\ bit = 32 * bits w 31 1 + bits w 19 5 /\ rt = bits w 0 5 /\
  off = 4 * sext 14 (bits w 5 14).
Proof. intros H. decode_cases H. by injection H as <- <- <- <-. Qed.

Lemma flip_bit w : negb (bits w 24 1 =? 1) = (1 - bits w 24 1 =? 1).
Proof.
  pose proof (bits_range w 24 1 ltac:(lia)). change (2 ^ 1) with 2 in *.
  destruct (Z.eqb_spec (bits w 24 1) 1), (Z.eqb_spec (1 - bits w 24 1) 1); cbn; try done; lia.
Qed.

(** A test-and-branch word by its fields; [top] is the sf or b5 bit, [op] 0x1A or 0x1B. *)
Definition cb_word (top op nz b40 f rt : Z) : Z :=
  (top * 64 + op) * 2 ^ 25 + nz * 2 ^ 24 + b40 * 2 ^ 19 + f * 2 ^ 5 + rt.

Lemma decode_cb_word top nz b40 f rt :
  0 <= top < 2 -> 0 <= nz < 2 -> 0 <= b40 < 32 -> 0 <= f < 2 ^ 14 -> 0 <= rt < 32 ->
  a64_decode (cb_word top 0x1A nz b40 f rt) =
    OCb (top =? 1) (nz =? 1) rt (4 * sext 19 (b40 * 2 ^ 14 + f)) /\
  a64_decode (cb_word top 0x1B nz b40 f rt) = OTb (nz =? 1) (32 * top + b40) rt (4 * sext 14 f).
Proof.
  intros. unfold cb_word. split; decode_tests; repeat (f_equal; try bits_lia).
Qed.

Lemma cb_word_split w op : is_u32 w -> bits w 25 6 = op ->
  w = cb_word (bits w 31 1) op (bits w 24 1) (bits w 19 5) (bits w 5 14) (bits w 0 5).
Proof. intros Hw <-. unfold cb_word. bits_lia. Qed.

Lemma field_19 w : is_u32 w -> bits w 5 19 = bits w 19 5 * 2 ^ 14 + bits w 5 14.
Proof. intros. bits_lia. Qed.

Lemma sext_small n x : 0 <= x < 2 ^ (n - 1) -> sext n x = x.
Proof. intros. unfold sext. destruct (Z.ltb_spec x (2 ^ (n - 1))); lia. Qed.

Lemma decode_rewrite_cb w sf nz rt off t : is_u32 w -> a64_decode w = OCb sf nz rt off ->
  is_u32 (rewrite_branch w 0x7ffff t) /\
  a64_decode (rewrite_branch w 0x7ffff t) = OCb sf (negb nz) rt (skip_bytes t).
Proof.
  intros Hw (Hop & -> & -> & -> & ->)%cb_fields. rewrite flip_bit. change 0x7ffff with (Z.ones 19).
  rewrite rewrite_branch_sum, field_19 by auto. pose proof (skip_cases t) as [_ Hs].
  set (k := skip_bytes t / 4). assert (Hk : 0 <= k < 8 /\ 4 * k = skip_bytes t)
    by (unfold k; Z.div_mod_to_equations; lia). destruct Hk as [Hk <-].
  pose proof (bits_range w 31 1 ltac:(lia)). pose proof (bits_range w 24 1 ltac:(lia)).
  pose proof (bits_range w 0 5 ltac:(lia)).
  destruct (decode_cb_word (bits w 31 1) (1 - bits w 24 1) 0 k (bits w 0 5)) as [Hd _]; try lia.
  rewrite sext_small in Hd by lia. change (0 * 2 ^ 14 + k) with k in Hd.
  pose proof (cb_word_split w _ Hw Hop) as Hsplit. match goal with |- is_u32 ?r /\ _ => set (x := r) end.
  match type of Hd with a64_decode ?r = _ => assert (Hx : x = r) by (unfold x, cb_word in *; lia) end.
  rewrite Hx. split; [|exact Hd]. unfold is_u32, cb_word. lia.
Qed.

Lemma decode_rewrite_tb w nz bit rt off t : is_u32 w -> a64_decode w = OTb nz bit rt off ->
  is_u32 (rewrite_branch w 0x3fff t) /\
  a64_decode (rewrite_branch w 0x3fff t) = OTb (negb nz) bit rt (skip_bytes t).
Proof.
  intros Hw (Hop & -> & -> & -> & ->)%tb_fields. rewrite flip_bit. change 0x3fff with (Z.ones 14).
  rewrite rewrite_branch_sum by auto. pose proof (skip_cases t) as [_ Hs].
  set (k := skip_bytes t / 4). assert (Hk : 0 <= k < 8 /\ 4 * k = skip_bytes t)
    by (unfold k; Z.div_mod_to_equations; lia). destruct Hk as [Hk <-].
  pose proof (bits_range w 31 1 ltac:(lia)). pose proof (bits_range w 24 1 ltac:(lia)).
  pose proof (bits_range w 0 5 ltac:(lia)). pose proof (bits_range w 19 5 ltac:(lia)).
  destruct (decode_cb_word (bits w 31 1) (1 - bits w 24 1) (bits w 19 5) k (bits w 0 5)) as [_ Hd]; try lia.
  rewrite sext_small in Hd by lia.
  pose proof (cb_word_split w _ Hw Hop) as Hsplit. match goal with |- is_u32 ?r /\ _ => set (x := r) end.
  match type of Hd with a64_decode ?r = _ => assert (Hx : x = r) by (unfold x, cb_word in *; lia) end.
  rewrite Hx. split; [|exact Hd]. unfold is_u32, cb_word. lia.
Qed.

(** The inverted condition, skipping the absolute branch. *)
Lemma decode_b_cond c t : 1 <= c <= 14 ->
  let w := zt_aarch64_encode_b_cond (Z.lxor (c - 1) 1) (skip_bytes t) in
  is_u32 w /\ a64_decode w = OBcond (Z.lxor (c - 1) 1) (skip_bytes t).
Proof.
  intros Hc. pose proof (skip_cases t) as [_ Hs].
  assert (c = 1 \/ c = 2 \/ c = 3 \/ c = 4 \/ c = 5 \/ c = 6 \/ c = 7 \/ c = 8 \/ c = 9 \/ c = 10 \/
    c = 11 \/ c = 12 \/ c = 13 \/ c = 14) as Hcs by lia.
  destruct Hs as [->|[->|[->| ->]]]; repeat destruct Hcs as [->|Hcs]; try subst c; vm_compute; done.
Qed.

Lemma cond_holds_inverse cc c : 1 <= c <= 14 -> cond_holds cc (Z.lxor (c - 1) 1) = negb (cond_holds cc (c - 1)).
Proof.
  intros Hc. assert (c = 1 \/ c = 2 \/ c = 3 \/ c = 4 \/ c = 5 \/ c = 6 \/ c = 7 \/ c = 8 \/ c = 9 \/ c = 10 \/
    c = 11 \/ c = 12 \/ c = 13 \/ c = 14) as Hcs by lia.
  repeat destruct Hcs as [->|Hcs]; try subst c; vm_compute;
    match goal with |- context [cc ?x] => by destruct (cc x) end.
Qed.

(** ** Equivalence of a relocated instruction *)

Definition pc_relative (op : a64_op) : bool :=
  match op with
  | OAdr _ _ | OAdrp _ _ | OB _ | OBl _ | OBcond _ _ | OCb _ _ _ _ | OTb _ _ _ _ | OLdr _ _ | OLitOther => true
  | _ => false
  end.

(** Operand [k] is the immediate [v]. *)
Definition reports (i : a64_insn) (k : nat) (v : Z) : Prop :=
  exists imm, a64_operands i !! k = Some (ARM64_OP_IMM imm) /\ u64 imm = u64 v.

(** What the builder relies on of the disassembler: for an instruction at [addr]
    the id and the condition are those its word encodes, the immediate operand of a
    program-counter relative one is the address it refers to, and any other id is
    program-counter relative only as a load with an immediate operand. *)
Definition a64_insn_ok (addr : Z) (i : a64_insn) : Prop :=
  a64_bytes_ok i /\
  let op := a64_decode (zt_read_u32 (a64_bytes i)) in
  match a64_id i with
  | ARM64_INS_ADR => exists rd off, op = OAdr rd off /\ reports i 1 (addr + off)
  | ARM64_INS_ADRP => exists rd off, op = OAdrp rd off /\ reports i 1 (addr - addr mod 4096 + off)
  | ARM64_INS_BL => exists off, op = OBl off /\ reports i 0 (addr + off)
  | ARM64_INS_B => exists off, reports i 0 (addr + off) /\
      if (1 <=? a64_cc i) && (a64_cc i <=? 14) then op = OBcond (a64_cc i - 1) off
      else op = OB off \/ exists c, 14 <= c /\ op = OBcond c off
  | ARM64_INS_CBNZ | ARM64_INS_CBZ => exists sf nz rt off, op = OCb sf nz rt off /\ reports i 1 (addr + off)
  | ARM64_INS_TBNZ | ARM64_INS_TBZ => exists nz bit rt off, op = OTb nz bit rt off /\ reports i 2 (addr + off)
  | _ => pc_relative op = true -> is_literal_load i = true
  end.

Lemma reports_target i k v : reports i k v -> zt_aarch64_branch_target i k = Some (u64 v).
Proof. intros (imm & H & <-). unfold zt_aarch64_branch_target. by rewrite H. Qed.

Section blocks.
Context (cc : Z -> bool).

Lemma run_last n s s1 w :
  a64_run cc n s = Some s1 -> words_at (amem s1) (pc s1) [w] -> is_u32 w ->
  a64_run cc (n + 1) s = a64_exec cc (a64_decode w) s1.
Proof.
  intros Hr Hw H32. rewrite a64_run_add, Hr. cbn [a64_run]. rewrite (step_word _ _ _ Hw H32).
  by destruct (a64_exec cc (a64_decode w) s1).
Qed.

(** An absolute branch or call goes to its target through x16. *)
Lemma run_abs s t w :
  is_u64 t -> words_at (amem s) (pc s) (mov_abs_words 16 t ++ [w]) -> is_u32 w ->
  exists n s1, a64_run cc n s = a64_exec cc (a64_decode w) s1 /\ amem s1 = amem s /\
    pc s1 = pc s + zt_mov_abs_size t /\ get s1 16 = t /\ forall r, r <> 16 -> get s1 r = get s r.
Proof.
  intros Ht Hw H32. apply words_at_app in Hw as [Hw1 Hw2].
  destruct (run_mov_abs cc 16 t s) as (s1 & Hr & Hpc & Hm & Hg); [lia|done..|].
  rewrite (mov_abs_words_size 16) in *. exists (length (mov_abs_words 16 t) + 1)%nat, s1. split_and!; try done.
  - apply (run_last _ _ s1); [done| |done]. by rewrite Hm, Hpc.
  - intros r Hne. rewrite Hg. by destruct (Z.eqb_spec r 16).
Qed.

Lemma run_abs_branch s t :
  is_u64 t -> words_at (amem s) (pc s) (abs_branch_words t) ->
  exists n s2, a64_run cc n s = Some s2 /\ amem s2 = amem s /\ pc s2 = t /\
    forall r, r <> 16 -> get s2 r = get s r.
Proof.
  intros Ht Hw. destruct (run_abs s t 0xD61F0200) as (n & s1 & Hr & Hm & _ & H16 & Hg); [done..|].
  exists n, (goto t s1). rewrite Hr. split_and!; try done. change (a64_decode 0xD61F0200) with (OBr 16).
  cbn [a64_exec a64_taken a64_target a64_writes]. by rewrite H16.
Qed.

Lemma run_abs_call s t :
  is_u64 t -> words_at (amem s) (pc s) (abs_call_words t) ->
  exists n s2, a64_run cc n s = Some s2 /\ amem s2 = amem s /\ pc s2 = t /\
    get s2 30 = pc s + zt_mov_abs_size t + 4 /\ forall r, r <> 16 -> r <> 30 -> get s2 r = get s r.
Proof.
  intros Ht Hw. destruct (run_abs s t 0xD63F0200) as (n & s1 & Hr & Hm & Hpc & H16 & Hg); [done..|].
  exists n, (goto t (set 30 (pc s1 + 4) s1)). rewrite Hr. change (a64_decode 0xD63F0200) with (OBlr 16).
  cbn [a64_exec a64_taken a64_target a64_writes]. rewrite H16. split_and!; try done.
  - change (get (goto ?a ?b) 30) with (get b 30). rewrite get_set. cbn. lia.
  - intros r H1 H2. change (get (goto ?a ?b) r) with (get b r). rewrite get_set.
    destruct (Z.eqb_spec r 30); [done|]. by apply Hg.
Qed.

(** A branch over the absolute branch behind it. *)
Lemma run_skip s w op t :
  words_at (amem s) (pc s) (w :: abs_branch_words t) -> is_u32 w -> a64_decode w = op -> op <> OOther -> op <> OLitOther ->
  a64_writes op s = s -> a64_target op s = u64 (pc s + skip_bytes t) ->
  is_u64 (pc s + skip_bytes t) -> is_u64 t ->
  exists n s2, a64_run cc n s = Some s2 /\ amem s2 = amem s /\
    pc s2 = (if a64_taken cc op s then pc s + skip_bytes t else t) /\
    forall x, x <> 16 \/ a64_taken cc op s = true -> get s2 x = get s x.
Proof.
  intros Hw H32 Hd Hne Hne' Hwr Htg Hu Ht. apply words_at_cons in Hw as [Hw1 Hw2].
  pose proof (step_word cc s w Hw1 H32) as Hst. rewrite Hd in Hst.
  assert (He : a64_exec cc op s = Some (goto (if a64_taken cc op s then a64_target op s else pc s + 4) s))
    by (destruct op; try done; cbn [a64_exec]; by rewrite Hwr).
  rewrite He, Htg, (u64_small _ Hu) in Hst. destruct (a64_taken cc op s).
  - exists 1%nat, (goto (pc s + skip_bytes t) s). cbn [a64_run]. by rewrite Hst.
  - destruct (run_abs_branch (goto (pc s + 4) s) t) as (n & s2 & Hr & Hm & Hpc & Hg); [done..|].
    exists (S n), s2. cbn [a64_run]. rewrite Hst. split_and!; try done.
    intros x [Hx|[=]]. by rewrite Hg.
Qed.
End blocks.

(** What relocated code at [r] does, against what the original did in going from
    [s] to [s1]: it goes on behind itself where the original went on, and to the
    same place where the original branched; a taken branch may change x16, and a
    call links to the code behind it. *)
Definition reloc_simulates (cc : Z -> bool) (op : a64_op) (bs : list Z) (r : Z) (s s1 : a64_cpu) : Prop :=
  let next := r + Z.of_nat (length bs) in
  exists n s2, a64_run cc n (goto r s) = Some s2 /\ amem s2 = amem s1 /\
    pc s2 = (if a64_taken cc op s then pc s1 else next) /\
    (forall x, x <> 30 -> x <> 16 \/ a64_taken cc op s = false -> get s2 x = get s1 x) /\
    get s2 30 = match op with OBl _ => next | _ => get s1 30 end.

Section simulation.
Context (cc : Z -> bool).

Lemma simulates_mov op r s rd v ws :
  words_at (amem s) r ws -> ws = mov_abs_words rd v -> 0 <= rd < 32 -> is_u64 v ->
  a64_taken cc op s = false -> (forall off, op <> OBl off) -> 
  reloc_simulates cc op (words_bytes ws) r s (goto (pc s + 4) (set rd v s)).
Proof.
  intros Hw -> Hrd Hv Ht Hop. destruct (run_mov_abs cc rd v (goto r s)) as (s2 & Hr & Hpc & Hm & Hg); [done..|].
  eexists _, s2. split; [exact Hr|]. rewrite Ht, length_words_bytes.
  assert (Hall : forall x, get s2 x = get (goto (pc s + 4) (set rd v s)) x).
  { intros x. rewrite Hg. change (get (goto ?a ?b) ?y) with (get b y). by rewrite get_set. }
  split_and!; [done| |done|].
  - rewrite Hpc. cbn [pc goto]. lia.
  - rewrite Hall. by destruct op.
Qed.

Lemma simulates_branch op r s t off :
  words_at (amem s) r (abs_branch_words t) -> t = u64 (pc s + off) -> a64_taken cc op s = true ->
  (forall off, op <> OBl off) ->
  reloc_simulates cc op (words_bytes (abs_branch_words t)) r s (goto t s).
Proof.
  intros Hw Ht Htk Hop. destruct (run_abs_branch cc (goto r s) t) as (n & s2 & Hr & Hm & Hpc & Hg);
    [subst t; apply u64_range|done|].
  exists n, s2. rewrite Htk. split_and!; try done.
  - intros x _ [Hx|[=]]. by apply Hg.
  - rewrite Hg by done. destruct op; try done. by edestruct Hop.
Qed.

(** A conditional branch [op], replaced by [op'] which tests the opposite. *)
Lemma simulates_cond op op' r s w t off :
  words_at (amem s) r (w :: abs_branch_words t) -> is_u32 w -> a64_decode w = op' -> t = u64 (pc s + off) ->
  op' <> OOther -> op' <> OLitOther -> a64_writes op' (goto r s) = goto r s ->
  a64_target op' (goto r s) = u64 (r + skip_bytes t) -> is_u64 (r + skip_bytes t) ->
  a64_taken cc op' (goto r s) = negb (a64_taken cc op s) -> (forall off, op <> OBl off) ->
  reloc_simulates cc op (words_bytes (w :: abs_branch_words t)) r s
    (goto (if a64_taken cc op s then t else pc s + 4) s).
Proof.
  intros Hw H32 Hd Ht Hne Hne' Hwr Htg Hu Htk Hop.
  destruct (run_skip cc (goto r s) w op' t) as (n & s2 & Hr & Hm & Hpc & Hg); try done;
    [subst t; apply u64_range|].
  exists n, s2. rewrite Htk in *. cbn [pc goto] in *. split_and!; try done.
  - rewrite Hpc. destruct (a64_taken cc op s); cbn [negb]; [done|].
    rewrite length_words_bytes. unfold abs_branch_words. cbn [length]. rewrite length_app. cbn [length].
    destruct (skip_cases t) as [-> _]. rewrite <- (mov_abs_words_size 16). lia.
  - intros x _ [Hx|Hx]; apply Hg; [by left|right; by rewrite Hx].
  - rewrite Hg by by left. destruct op; try done. by edestruct Hop.
Qed.

Lemma simulates_call r s t off :
  words_at (amem s) r (abs_call_words t) -> t = u64 (pc s + off) ->
  reloc_simulates cc (OBl off) (words_bytes (abs_call_words t)) r s (goto t (set 30 (pc s + 4) s)).
Proof.
  intros Hw Ht. destruct (run_abs_call cc (goto r s) t) as (n & s2 & Hr & Hm & Hpc & H30 & Hg);
    [subst t; apply u64_range|done|].
  exists n, s2. split_and!; try done.
  - intros x H1 [Hx|[=]]. change (get (goto ?a ?b) x) with (get b x). rewrite get_set.
    destruct (Z.eqb_spec x 30); [done|]. by apply Hg.
  - rewrite H30, length_words_bytes. unfold abs_call_words. rewrite length_app. cbn [length pc goto].
    rewrite <- (mov_abs_words_size 16). lia.
Qed.
End simulation.

Lemma adr_fields w rd off : a64_decode w = OAdr rd off \/ a64_decode w = OAdrp rd off ->
  rd = bits w 0 5.
Proof. intros [H|H]; decode_cases H; by injection H. Qed.

Lemma a64_exec_eq cc op s s1 : a64_exec cc op s = Some s1 ->
  s1 = goto (if a64_taken cc op s then a64_target op s else pc s + 4) (a64_writes op s).
Proof. by destruct op; intros [= <-]. Qed.

Lemma pcrel_room t r : 0 <= r -> r + 24 < 2 ^ 64 -> is_u64 (r + skip_bytes t).
Proof. intros. destruct (skip_cases t) as [_ Hs]. unfold is_u64. lia. Qed.

Lemma reloc_words_pcrel addr i ws cc s s1 r :
  let op := a64_decode (zt_read_u32 (a64_bytes i)) in
  a64_insn_ok addr i -> reloc_words i = Some ws -> pc_relative op = true ->
  pc s = addr -> a64_exec cc op s = Some s1 -> words_at (amem s) r ws ->
  0 <= r -> r + 24 < 2 ^ 64 -> reloc_simulates cc op (words_bytes ws) r s s1.
Proof.
  intros op [Hb Hok] Hws Hrel <- ->%a64_exec_eq Hw H0 H24.
  pose proof (read_u32_u32 i Hb) as H32. unfold reloc_words in Hws. unfold op in *. clear op.
  set (w := zt_read_u32 (a64_bytes i)) in *. pose proof (bits_range w 0 5 ltac:(lia)) as Hrd.
  rewrite land_31 in Hws.
  destruct (a64_id i); cbn beta zeta in Hok; try (rewrite Hok in Hws by done; done).
  1,2: destruct Hok as (rd & o & Hop & Hrep); rewrite (reports_target _ _ _ Hrep) in Hws; injection Hws as <-;
    rewrite Hop; rewrite <- (adr_fields w rd o) in * by auto; by apply simulates_mov; try apply u64_range.
  3,4: destruct Hok as (sf & nz & rt & o & Hop & Hrep); rewrite (reports_target _ _ _ Hrep) in Hws; injection Hws as <-;
    destruct (decode_rewrite_cb w _ _ _ _ (u64 (pc s + o)) H32 Hop) as [Hu Hd]; rewrite Hop;
    eapply simulates_cond; try done; [by apply pcrel_room|]; cbn [a64_taken]; by destruct nz, (_ =? 0).
  3,4: destruct Hok as (nz & bit & rt & o & Hop & Hrep); rewrite (reports_target _ _ _ Hrep) in Hws; injection Hws as <-;
    destruct (decode_rewrite_tb w _ _ _ _ (u64 (pc s + o)) H32 Hop) as [Hu Hd]; rewrite Hop;
    eapply simulates_cond; try done; [by apply pcrel_room|]; cbn [a64_taken]; by destruct nz, (_ =? 0).
  - destruct Hok as (o & Hop & Hrep). rewrite (reports_target _ _ _ Hrep) in Hws. injection Hws as <-.
    rewrite Hop. by apply simulates_call.
  - destruct Hok as (o & Hrep & Hop). rewrite (reports_target _ _ _ Hrep) in Hws. injection Hws as <-.
    destruct (_ && _) eqn:Hcc; zbool.
    + rewrite Hop. destruct (decode_b_cond (a64_cc i) (u64 (pc s + o))) as [Hu Hd]; [lia|].
      eapply simulates_cond; try done; [by apply pcrel_room|]. cbn [a64_taken]. by apply cond_holds_inverse.
    + assert (Ht : a64_taken cc (a64_decode w) s = true /\ a64_target (a64_decode w) s = u64 (pc s + o) /\
        a64_writes (a64_decode w) s = s /\ forall o, a64_decode w <> OBl o).
      { destruct Hop as [->|(c & Hc & ->)]; [done|]. split_and!; try done. cbn. unfold cond_holds.
        by destruct (Z.leb_spec 14 c); [|lia]. }
      destruct Ht as (Ht & Htg & Hwr & Hbl). rewrite Ht, Htg, Hwr. by eapply simulates_branch.
Qed.

Lemma reloc_words_copied addr i ws :
  a64_insn_ok addr i -> reloc_words i = Some ws ->
  pc_relative (a64_decode (zt_read_u32 (a64_bytes i))) = false -> words_bytes ws = a64_bytes i.
Proof.
  intros [Hb Hok] Hws Hrel. assert (ws = [zt_read_u32 (a64_bytes i)]) as ->.
  { unfold reloc_words in Hws. destruct (a64_id i);
      try (destruct (is_literal_load i); [done|by injection Hws as <-]);
      cbn beta zeta in Hok; repeat match goal with H : exists _, _ |- _ => destruct H | H : _ /\ _ |- _ => destruct H end;
      try match goal with H : a64_decode _ = _ |- _ => rewrite H in Hrel; done end.
    destruct (_ && _); [by rewrite H0 in Hrel|]. by destruct H0 as [Hop|(? & _ & Hop)]; rewrite Hop in Hrel. }
  destruct Hb as (_ & Hl & Hbb). unfold words_bytes, zt_read_u32. cbn [map concat].
  rewrite app_nil_r, take_ge by lia. pose proof (le_bytes_le_word _ Hbb) as H. by rewrite Hl in H.
Qed.

(** C28: a relocated instruction does what the original did.  For a program-counter
    relative instruction at [addr] the emitted code, run at any address [r] from
    the same registers and memory, reaches the target the original reaches under
    the same condition, or its own end where the original falls through, with the
    same registers (ADR and ADRP results included), x16 after a taken branch
    excepted; any other instruction is copied unchanged, and literal loads are
    refused. *)
Theorem zt_emit_relocated_insn_equiv addr buf off i buf' off' :
  zt_emit_relocated_insn buf off i = Some (buf', off') -> a64_insn_ok addr i ->
  0 <= off <= Z.of_nat (length buf) ->
  let op := a64_decode (zt_read_u32 (a64_bytes i)) in
  let bs := slice buf' off off' in
  is_literal_load i = false /\
  if pc_relative op then
    forall cc s s1 r, pc s = addr -> a64_exec cc op s = Some s1 -> code_at (amem s) r bs ->
      0 <= r -> r + 24 < 2 ^ 64 -> reloc_simulates cc op bs r s s1
  else bs = a64_bytes i.
Proof.
  intros He Hok Ho op bs. pose proof Hok as [Hb _]. rewrite emit_relocated_insn_eq in He by done.
  destruct (reloc_words i) as [ws|] eqn:Hws; [|done]. apply emitted_slice in He as (Hs & _); [|done].
  unfold bs. rewrite Hs. split.
  - unfold reloc_words in Hws. destruct (is_literal_load i) eqn:Hl; [|done].
    unfold is_literal_load in Hl. by destruct (a64_id i).
  - destruct (pc_relative op) eqn:Hrel; [|by apply (reloc_words_copied addr)].
    intros cc s s1 r Hpc Hex Hc H0 H24. by apply (reloc_words_pcrel addr i).
Qed.

(** ** Witnesses *)

Lemma code_at_arr a bs m : (forall x, m x = arr_get bs (x - a)) -> code_at m a bs.
Proof.
  intros Hm i b Hi. rewrite Hm. unfold arr_get. replace (Z.to_nat (a + Z.of_nat i - a)) with i by lia.
  by apply list_lookup_total_correct.
Qed.

(** At 0x7f0000401000 in x16. *)
Lemma zt_emit_mov_abs_runs_witness :
  let bs := words_bytes [0xD2820010; 0xF2A00810; 0xF2CFE010] in
  let s := mk_a64 0x1000 (fun r => r) (fun x => arr_get bs (x - 0x1000)) in
  exists n s', a64_run (fun _ => false) n s = Some s' /\ pc s' = 0x100C /\ get s' 16 = 0x7f0000401000.
Proof.
  intros bs s.
  destruct (zt_emit_mov_abs_runs (replicate 16 0) 0 16 0x7f0000401000 (bs ++ replicate 4 0) 12) as [_ H].
  - vm_compute. reflexivity.
  - split; discriminate.
  - split; [discriminate|reflexivity].
  - split; [discriminate|reflexivity].
  - destruct (H (fun _ => false) s) as (n & s' & H1 & H2 & _ & H4 & _).
    + apply code_at_arr. reflexivity.
    + exists n, s'. split; [exact H1|]. split; [exact H2|exact H4].
Defined.

(** C28 at `cbz x1, 0x401020`, at 0x401004, with x1 zero. *)
Lemma zt_emit_relocated_insn_equiv_witness :
  let i := mk_a64_insn ARM64_INS_CBZ 4 (le_bytes 4 0xB40000E1) [ARM64_OP_OTHER; ARM64_OP_IMM 0x401020] 0 in
  let bs := words_bytes [0xB5000081; 0xD2820410; 0xF2A00810; 0xD61F0200] in
  let s := mk_a64 0x401004 (fun _ => 0) (fun x => arr_get bs (x - 0x1000)) in
  exists n s2, a64_run (fun _ => false) n (goto 0x1000 s) = Some s2 /\ pc s2 = 0x401020.
Proof.
  intros i bs s.
  destruct (zt_emit_relocated_insn_equiv 0x401004 (replicate 16 0) 0 i bs 16) as [_ H].
  - vm_compute. reflexivity.
  - split; [repeat constructor; done|]. exists true, false, 1, 28. split; [vm_compute; reflexivity|].
    exists 0x401020. split; reflexivity.
  - split; discriminate.
  - destruct (H (fun _ => false) s (goto 0x401020 s) 0x1000) as (n & s2 & H1 & _ & H2 & _).
    + reflexivity.
    + vm_compute. reflexivity.
    + apply code_at_arr. reflexivity.
    + discriminate.
    + reflexivity.
    + exists n, s2. split; [exact H1|]. rewrite H2. vm_compute. reflexivity.
Defined.
