(* ===== verification/A64Build.v ===== *)
(** * What an AArch64 trampoline does

    The layout zt_build_trampoline (src/isa/aarch64/trampoline_manager.c) produces,
    its execution, and its size. *)

From S2P Require Import Prelude CLib Types Emit A64Machine A64Trampoline A64Spec.

(** ** Layout *)

Fixpoint reloc_all (insns : list a64_insn) : option (list Z) :=
  match insns with
  | [] => Some []
  | i :: insns =>
      match reloc_words i with
      | None => None
      | Some ws => match reloc_all insns with None => None | Some rest => Some (ws ++ rest) end
      end
  end.

(** Up to the first replayed instruction. *)
Definition a64_prefix (id entry : Z) : list Z :=
  [0xAA1E03EF] ++ mov_abs_words 17 id ++ mov_abs_words 16 entry ++ [0xD63F0200] ++ [0xAA0F03FE].

Definition a64_layout (id entry cont : Z) (code : list Z) : list Z :=
  a64_prefix id entry ++ code ++ abs_branch_words cont.

Lemma a64_relocate_loop_eq buf off insns :
  Forall a64_bytes_ok insns -> 0 <= off <= Z.of_nat (length buf) ->
  a64_relocate_loop buf off insns =
  match reloc_all insns with None => None | Some ws => emitted buf off (words_bytes ws) end.
Proof.
  intros Hok. revert buf off. induction Hok as [|i insns Hi _ IH]; intros buf off Ho;
    cbn [a64_relocate_loop reloc_all].
  { by rewrite emitted_nil. }
  rewrite emit_relocated_insn_eq by done. destruct (reloc_words i) as [ws|]; [|done].
  destruct (reloc_all insns) as [rest|] eqn:Hr.
  - apply emit_words_bind; [lia|]. intros. by rewrite IH.
  - unfold emitted, fits. destruct (Z.leb_spec (off + Z.of_nat (length (words_bytes ws))) (Z.of_nat (length buf))); [|done].
    cbn [emit_then]. rewrite IH; [done|]. rewrite length_memcpy_at by lia. lia.
Qed.

Lemma emit_then_none buf off bs k :
  0 <= off -> (forall b o, 0 <= o <= Z.of_nat (length b) -> k b o = None) ->
  emit_then (emitted buf off bs) k = None.
Proof.
  intros H0 Hk. unfold emitted, fits. destruct (Z.leb_spec (off + Z.of_nat (length bs)) (Z.of_nat (length buf))); [|done].
  apply Hk. rewrite length_memcpy_at by lia. lia.
Qed.

Lemma emit_then_some r k x : emit_then r k = Some x -> exists b o, k b o = Some x.
Proof. destruct r as [[b o]|]; [by exists b, o|done]. Qed.

(** Emitting into the rest of a buffer is emitting at its offset. *)
Lemma emitted_rest buf off bs (k : list Z -> Z -> option (list Z * Z)) :
  0 <= off <= Z.of_nat (length buf) ->
  match emitted (drop (Z.to_nat off) buf) 0 bs with
  | None => None
  | Some (tail, n) => k (take (Z.to_nat off) buf ++ tail) (off + n)
  end = emit_then (emitted buf off bs) k.
Proof.
  intros Ho. unfold emitted, fits. rewrite length_drop.
  destruct (Z.leb_spec (off + Z.of_nat (length bs)) (Z.of_nat (length buf))),
    (Z.leb_spec (0 + Z.of_nat (length bs)) (Z.of_nat (length buf - Z.to_nat off))); try lia; [|done].
  cbn [emit_then]. f_equal. unfold memcpy_at. change (Z.to_nat 0) with 0%nat. rewrite take_0, drop_drop. done.
Qed.

Lemma length_fill_nops buf : length (zt_fill_nops buf) = length buf.
Proof.
  unfold zt_fill_nops. rewrite length_app, length_drop. pose proof (Nat.div_mod_eq (length buf) 4) as Hd.
  assert (Hc : forall n, length (concat (replicate n (le_bytes 4 0xD503201F))) = (4 * n)%nat).
  { induction n as [|n IH]; [done|]. cbn [replicate concat]. rewrite length_app, IH, length_le_bytes. lia. }
  rewrite Hc. lia.
Qed.

(** What the builder needs of the disassembler: the saved bytes decode into
    instructions of four bytes. *)
Definition a64_disasm_ok (cs_disasm : list Z -> Z -> option (list a64_insn)) (probe : zt_probe_info_t)
    (insns : list a64_insn) : Prop :=
  cs_disasm (take (Z.to_nat (pr_orig_len probe)) (pr_orig_code probe))
    (tgt_remote_addr (pr_target probe)) = Some insns /\ insns <> [] /\ Forall a64_bytes_ok insns.

(** The lengths the builder accepts. *)
Definition a64_orig_len_ok (n : Z) : Prop := 0 < n <= ZT_PROBE_ORIG_CODE_MAX /\ n mod 4 = 0.

Lemma orig_code_eq cs_disasm probe buf insns :
  a64_disasm_ok cs_disasm probe insns -> a64_orig_len_ok (pr_orig_len probe) ->
  a64_emit_relocated_orig_code cs_disasm probe buf =
  match reloc_all insns with None => None | Some ws => emitted buf 0 (words_bytes ws) end.
Proof.
  intros (Hd & Hne & Hok) [Hl Hm]. unfold a64_emit_relocated_orig_code. rewrite Hd.
  destruct (Z.eqb_spec (pr_orig_len probe) 0); [lia|]. change ZT_AARCH64_INSN_SIZE with 4. rewrite Hm. cbn [orb negb Z.eqb].
  destruct insns; [done|]. apply a64_relocate_loop_eq; [done|lia].
Qed.

Lemma a64_build_eq cs_disasm probe entry addr buf insns :
  a64_disasm_ok cs_disasm probe insns -> a64_orig_len_ok (pr_orig_len probe) -> addr <> 0 -> entry <> 0 ->
  a64_build_trampoline cs_disasm probe entry addr buf =
  match reloc_all insns with
  | None => None
  | Some code => emitted (zt_fill_nops buf) 0 (words_bytes (a64_layout (pr_probe_id probe) entry
      (tgt_remote_addr (pr_target probe) +64 pr_orig_len probe) code))
  end.
Proof.
  intros Hd Hl Ha He. pose proof Hl as [Hlen _]. unfold a64_build_trampoline.
  destruct (Z.eqb_spec addr 0), (Z.eqb_spec entry 0); try done. cbn [orb].
  destruct (Z.eqb_spec (pr_orig_len probe) 0); [lia|]. rewrite Z.gtb_ltb.
  destruct (Z.ltb_spec ZT_PROBE_ORIG_CODE_MAX (pr_orig_len probe)); [lia|]. cbn [orb].
  set (cont := _ +64 _). assert (Hrest : forall b o, 0 <= o <= Z.of_nat (length b) ->
    match a64_emit_relocated_orig_code cs_disasm probe (drop (Z.to_nat o) b) with
    | Some (tail, n) => emit_then (zt_emit_mov_abs (take (Z.to_nat o) b ++ tail) (o + n) 16 cont)
        (fun b o => zt_emit_u32 b o 0xD61F0200)
    | None => None
    end = match reloc_all insns with None => None
          | Some code => emitted b o (words_bytes (code ++ abs_branch_words cont)) end).
  { intros b o Ho. rewrite (orig_code_eq _ _ _ insns) by done. destruct (reloc_all insns) as [code|]; [|done].
    etransitivity; [exact (emitted_rest b o (words_bytes code) (fun b o => zt_emit_abs_branch b o cont) Ho)|].
    apply emit_words_bind; [lia|]. intros. by apply emit_abs_branch_eq. }
  destruct (reloc_all insns) as [code|].
  - unfold a64_layout, a64_prefix. rewrite <- !app_assoc.
    repeat (rewrite ?emit_u32_eq, ?emit_mov_abs_eq by lia; apply emit_words_bind; [lia|]; intros).
    by apply Hrest.
  - repeat (rewrite ?emit_u32_eq, ?emit_mov_abs_eq by lia; apply emit_then_none; [lia|]; intros).
    by apply Hrest.
Qed.

(** ** Execution *)

(** Where entry_stub returns to, and the number of bytes before the replayed code. *)
Definition stub_return (id entry : Z) : Z := 4 + zt_mov_abs_size id + zt_mov_abs_size entry + 4.

Lemma length_prefix id entry : 4 * Z.of_nat (length (a64_prefix id entry)) = stub_return id entry + 4.
Proof.
  unfold a64_prefix, stub_return. rewrite !length_app. cbn [length].
  rewrite <- (mov_abs_words_size 17 id), <- (mov_abs_words_size 16 entry). lia.
Qed.

Lemma a64_layout_parts m addr id entry cont code :
  words_at m addr (a64_layout id entry cont code) ->
  words_at m addr [0xAA1E03EF] /\ words_at m (addr + 4) (mov_abs_words 17 id) /\
  words_at m (addr + 4 + zt_mov_abs_size id) (abs_call_words entry) /\
  words_at m (addr + stub_return id entry) [0xAA0F03FE] /\
  words_at m (addr + stub_return id entry + 4) code /\
  words_at m (addr + stub_return id entry + 4 + 4 * Z.of_nat (length code)) (abs_branch_words cont).
Proof.
  intros H. unfold a64_layout in H. apply words_at_app in H as [H Hc]. apply words_at_app in Hc as [Hc Hb].
  rewrite !length_prefix in *. unfold a64_prefix in H.
  replace ([0xAA1E03EF] ++ mov_abs_words 17 id ++ mov_abs_words 16 entry ++ [0xD63F0200] ++ [0xAA0F03FE])
    with ([0xAA1E03EF] ++ mov_abs_words 17 id ++ abs_call_words entry ++ [0xAA0F03FE]) in H
    by (unfold abs_call_words; by rewrite <- !app_assoc).
  rewrite !words_at_app in H. destruct H as (H1 & H2 & H3 & H4). cbn [length] in *.
  change (4 * Z.of_nat 1) with 4 in *. rewrite (mov_abs_words_size 17) in *.
  rewrite !Z.add_assoc in *. split_and!; try done.
  unfold abs_call_words in H4. rewrite length_app in H4. cbn [length] in H4.
  replace (4 * Z.of_nat (length (mov_abs_words 16 entry) + 1)) with (zt_mov_abs_size entry + 4) in H4
    by (rewrite <- (mov_abs_words_size 16); lia).
  unfold stub_return. by rewrite !Z.add_assoc in *.
Qed.

Lemma enter_runs cc s id entry :
  words_at (amem s) (pc s) [0xAA1E03EF] -> words_at (amem s) (pc s + 4) (mov_abs_words 17 id) ->
  words_at (amem s) (pc s + 4 + zt_mov_abs_size id) (abs_call_words entry) -> is_u64 id -> is_u64 entry ->
  exists n s', a64_run cc n s = Some s' /\ pc s' = entry /\ amem s' = amem s /\ get s' 17 = id /\
    get s' 15 = get s 30 /\ get s' 30 = pc s + stub_return id entry /\
    forall r, r <> 15 -> r <> 16 -> r <> 17 -> r <> 30 -> get s' r = get s r.
Proof.
  intros H1 H2 H3 Hid He. pose proof (step_word cc s _ H1 ltac:(done)) as Hst.
  change (a64_decode 0xAA1E03EF) with (OMov 15 30) in Hst. cbn [a64_exec a64_taken a64_writes] in Hst.
  set (s1 := goto (pc s + 4) (set 15 (get s 30) s)) in Hst.
  destruct (run_mov_abs cc 17 id s1) as (s2 & Hr2 & Hpc2 & Hm2 & Hg2); [lia|done..|].
  rewrite (mov_abs_words_size 17) in Hpc2. change (pc s1) with (pc s + 4) in Hpc2.
  destruct (run_abs_call cc s2 entry) as (n & s3 & Hr3 & Hm3 & Hpc3 & H30 & Hg3);
    [done|by rewrite Hm2, Hpc2|].
  exists (1 + (length (mov_abs_words 17 id) + n))%nat, s3. split_and!.
  - rewrite a64_run_add. cbn [a64_run]. rewrite Hst, a64_run_add, Hr2. exact Hr3.
  - done.
  - by rewrite Hm3, Hm2.
  - by rewrite Hg3, Hg2.
  - rewrite Hg3, Hg2 by done. reflexivity.
  - rewrite H30, Hpc2. unfold stub_return. lia.
  - intros r N15 N16 N17 N30. rewrite Hg3, Hg2 by done. destruct (Z.eqb_spec r 17); [done|]. cbn [andb].
    unfold s1. change (get (goto ?a ?b) r) with (get b r). rewrite get_set. by destruct (Z.eqb_spec r 15).
Qed.

Lemma a64_build_inv cs_disasm probe entry addr buf insns out size :
  a64_disasm_ok cs_disasm probe insns -> 0 <= pr_orig_len probe ->
  a64_build_trampoline cs_disasm probe entry addr buf = Some (out, size) ->
  exists code, reloc_all insns = Some code /\
    let L := words_bytes (a64_layout (pr_probe_id probe) entry
      (tgt_remote_addr (pr_target probe) +64 pr_orig_len probe) code) in
    take (Z.to_nat size) out = L /\ size = Z.of_nat (length L) /\ length out = length buf.
Proof.
  intros Hd H0 Hb. assert (addr <> 0 /\ entry <> 0 /\ a64_orig_len_ok (pr_orig_len probe)) as (Ha & He & Hl).
  { unfold a64_build_trampoline in Hb. destruct (Z.eqb_spec addr 0), (Z.eqb_spec entry 0); try done.
    cbn [orb] in Hb. destruct (Z.eqb_spec (pr_orig_len probe) 0); [done|].
    destruct (Z.gtb_spec (pr_orig_len probe) ZT_PROBE_ORIG_CODE_MAX); [done|]. cbn [orb] in Hb.
    split_and!; [done|done|split; [lia|]]. 
    destruct (Z.eqb_spec (pr_orig_len probe mod 4) 0) as [|Hm]; [done|].
    assert (Hnone : forall b, a64_emit_relocated_orig_code cs_disasm probe b = None).
    { intros b. unfold a64_emit_relocated_orig_code. change ZT_AARCH64_INSN_SIZE with 4.
      destruct (Z.eqb_spec (pr_orig_len probe mod 4) 0); [done|]. by rewrite orb_true_r. }
    do 5 apply emit_then_some in Hb as (? & ? & Hb). by rewrite Hnone in Hb. }
  rewrite (a64_build_eq _ _ _ _ _ insns) in Hb by done. destruct (reloc_all insns) as [code|]; [|done].
  exists code. split; [done|]. apply emitted_slice in Hb as (Hs & -> & _ & Hlen); [|lia].
  unfold slice in Hs. rewrite Z.add_0_l, Z.sub_0_r in *. rewrite length_fill_nops in Hlen. done.
Qed.

(** A built trampoline does its job around the replayed code.  Run from its
    first word it calls entry_stub with the probe id in x17 and the caller's link
    register in x15; when entry_stub returns it moves x15 to the link register and
    reaches the replayed instructions; behind them it branches to the instruction
    after the patch.  Besides x15, x16, x17 and the link register nothing changes. *)
Lemma a64_build_trampoline_runs cs_disasm probe entry addr buf insns out size cc :
  a64_disasm_ok cs_disasm probe insns -> 0 <= pr_orig_len probe -> is_u64 entry -> is_u64 (pr_probe_id probe) ->
  a64_build_trampoline cs_disasm probe entry addr buf = Some (out, size) ->
  let tramp := take (Z.to_nat size) out in
  let back := stub_return (pr_probe_id probe) entry in
  exists code, reloc_all insns = Some code /\
  (forall s, code_at (amem s) addr tramp -> pc s = addr ->
    exists n s', a64_run cc n s = Some s' /\ pc s' = entry /\ amem s' = amem s /\
      get s' 17 = pr_probe_id probe /\ get s' 15 = get s 30 /\ get s' 30 = addr + back /\
      forall r, r <> 15 -> r <> 16 -> r <> 17 -> r <> 30 -> get s' r = get s r) /\
  (forall s, code_at (amem s) addr tramp -> pc s = addr + back ->
    a64_step cc s = Some (goto (addr + back + 4) (set 30 (get s 15) s)) /\
    words_at (amem s) (addr + back + 4) code) /\
  (forall s, code_at (amem s) addr tramp -> pc s = addr + back + 4 + 4 * Z.of_nat (length code) ->
    exists n s', a64_run cc n s = Some s' /\ amem s' = amem s /\
      pc s' = (tgt_remote_addr (pr_target probe) +64 pr_orig_len probe) /\
      forall r, r <> 16 -> get s' r = get s r).
Proof.
  intros Hd H0 He Hid Hb tramp back. destruct (a64_build_inv _ _ _ _ _ _ _ _ Hd H0 Hb) as (code & Hr & Ht & _).
  unfold tramp. rewrite Ht. exists code. split; [done|]. split_and!.
  - intros s Hc Hpc. destruct (a64_layout_parts _ _ _ _ _ _ Hc) as (H1 & H2 & H3 & _). rewrite <- Hpc in *.
    by apply enter_runs.
  - intros s Hc Hpc. destruct (a64_layout_parts _ _ _ _ _ _ Hc) as (_ & _ & _ & H4 & H5 & _). split; [|done].
    fold back in H4. rewrite <- Hpc in *. by rewrite (step_word cc s _ H4).
  - intros s Hc Hpc. destruct (a64_layout_parts _ _ _ _ _ _ Hc) as (_ & _ & _ & _ & _ & H6).
    fold back in H6. rewrite <- Hpc in *. apply run_abs_branch; [apply u64_range|done].
Qed.

(** ** Size *)

Lemma length_mov_abs_words rd v : (length (mov_abs_words rd v) <= 4)%nat.
Proof. pose proof (mov_abs_words_size rd v). pose proof (zt_mov_abs_size_range v). lia. Qed.

Lemma length_abs_branch_words t : (length (abs_branch_words t) <= 5)%nat.
Proof. unfold abs_branch_words. rewrite length_app. pose proof (length_mov_abs_words 16 t). cbn [length]. lia. Qed.

Lemma reloc_words_length i ws : reloc_words i = Some ws -> (length ws <= 6)%nat.
Proof.
  unfold reloc_words. pose proof (fun t => length_abs_branch_words t) as Hb.
  pose proof length_mov_abs_words as Hm.
  destruct (a64_id i); try (destruct (is_literal_load i); [done|intros [= <-]; cbn; lia]);
    destruct (zt_aarch64_branch_target i _) as [t|]; cbn [fmap option_fmap option_map]; try done; intros Heq;
    apply (inj Some) in Heq as <-; specialize (Hb t); unfold abs_call_words; try case_match;
    rewrite ?length_app; cbn [length]; try (pose proof (Hm 16 t); lia);
    pose proof (Hm (Z.land (zt_read_u32 (a64_bytes i)) 0x1f) t); lia.
Qed.

Lemma reloc_all_length insns code : reloc_all insns = Some code -> (length code <= 6 * length insns)%nat.
Proof.
  revert code. induction insns as [|i insns IH]; cbn [reloc_all]; intros code; [by intros [= <-]|].
  destruct (reloc_words i) as [ws|] eqn:Hw; [|done]. apply reloc_words_length in Hw.
  destruct (reloc_all insns) as [rest|]; [|done]. intros [= <-]. specialize (IH _ eq_refl).
  rewrite length_app. cbn [length]. lia.
Qed.

(** The only instructions refused are literal loads. *)
Lemma reloc_words_refused addr i : a64_insn_ok addr i -> reloc_words i = None <-> is_literal_load i = true.
Proof.
  intros [_ Hok]. unfold reloc_words, is_literal_load. unfold is_literal_load in *.
  destruct (a64_id i); cbn beta zeta in Hok;
    try (by destruct (a64_operands i !! 1%nat) as [[]|]);
    repeat match goal with H : exists _, _ |- _ => destruct H | H : _ /\ _ |- _ => destruct H end;
    match goal with H : reports _ _ _ |- _ => by rewrite (reports_target _ _ _ H) end.
Qed.

Lemma reloc_all_refused insns :
  Forall (fun i => exists addr, a64_insn_ok addr i) insns ->
  reloc_all insns = None <-> existsb is_literal_load insns = true.
Proof.
  induction 1 as [|i insns [addr Hi] _ IH]; cbn [reloc_all existsb]; [done|].
  pose proof (reloc_words_refused addr i Hi) as Hr. rewrite orb_true_iff.
  destruct (reloc_words i), (reloc_all insns); intuition congruence.
Qed.

(** 512 bytes are always enough.  For a saved prologue of at most 32 bytes of
    whole instructions the build fails exactly when one of them is a literal load,
    and a built trampoline takes at most 256 bytes. *)
Lemma a64_build_trampoline_fits cs_disasm probe entry addr buf insns :
  a64_disasm_ok cs_disasm probe insns -> Forall (fun i => exists addr, a64_insn_ok addr i) insns ->
  a64_orig_len_ok (pr_orig_len probe) -> 4 * Z.of_nat (length insns) <= pr_orig_len probe ->
  addr <> 0 -> entry <> 0 -> length buf = 512%nat ->
  match a64_build_trampoline cs_disasm probe entry addr buf with
  | Some (out, size) => existsb is_literal_load insns = false /\ size <= 256 /\ length out = 512%nat
  | None => existsb is_literal_load insns = true
  end.
Proof.
  intros Hd Hok Hl Hn Ha He Hbuf. pose proof Hl as [Hlen _]. unfold ZT_PROBE_ORIG_CODE_MAX in Hlen.
  pose proof (reloc_all_refused _ Hok) as Hr. rewrite (a64_build_eq _ _ _ _ _ insns) by done.
  destruct (reloc_all insns) as [code|] eqn:Hc; [|by apply Hr]. apply reloc_all_length in Hc.
  set (cont := _ +64 _). set (L := words_bytes _).
  assert (HL : Z.of_nat (length L) <= 256).
  { unfold L, a64_layout. rewrite length_words_bytes, !length_app.
    pose proof (length_prefix (pr_probe_id probe) entry) as Hp. unfold stub_return in Hp.
    pose proof (length_abs_branch_words cont). pose proof (zt_mov_abs_size_range (pr_probe_id probe)).
    pose proof (zt_mov_abs_size_range entry). lia. }
  unfold emitted, fits. rewrite length_fill_nops, Hbuf.
  destruct (Z.leb_spec (0 + Z.of_nat (length L)) (Z.of_nat 512)); [|lia].
  split_and!; [|lia|].
  - destruct (existsb is_literal_load insns); [|done]. by destruct Hr as [_ Hr]; specialize (Hr eq_refl).
  - rewrite length_memcpy_at; rewrite length_fill_nops; lia.
Qed.

(** ** Witnesses *)

(** `adrp x0, 0x402000; cbz x1, 0x401020; nop; nop` at 0x401000. *)
Definition sample_a64_insns : list a64_insn :=
  [mk_a64_insn ARM64_INS_ADRP 4 (le_bytes 4 0xB0000000) [ARM64_OP_OTHER; ARM64_OP_IMM 0x402000] 0;
   mk_a64_insn ARM64_INS_CBZ 4 (le_bytes 4 0xB40000E1) [ARM64_OP_OTHER; ARM64_OP_IMM 0x401020] 0;
   mk_a64_insn (ARM64_INS_OTHER 1) 4 (le_bytes 4 0xD503201F) [] 0;
   mk_a64_insn (ARM64_INS_OTHER 1) 4 (le_bytes 4 0xD503201F) [] 0].

Definition sample_a64_disasm (code : list Z) (addr : Z) : option (list a64_insn) := Some sample_a64_insns.

Definition sample_a64_probe : zt_probe_info_t :=
  mk_probe 7 (mk_target [] [] 0x401000) 0 0
    (words_bytes [0xB0000000; 0xB40000E1; 0xD503201F; 0xD503201F] ++ replicate 16 0) 16 ZT_PROBE_PREPARED
    zero_filter zero_call_action 0 [].

Lemma sample_a64_bytes_ok : Forall a64_bytes_ok sample_a64_insns.
Proof. repeat constructor; done. Qed.

Lemma sample_a64_disasm_ok : a64_disasm_ok sample_a64_disasm sample_a64_probe sample_a64_insns.
Proof. split_and!; [done|done|apply sample_a64_bytes_ok]. Qed.

Lemma sample_a64_insns_ok : Forall (fun i => exists addr, a64_insn_ok addr i) sample_a64_insns.
Proof.
  repeat constructor.
  - exists 0x401000. split; [repeat constructor; done|]. exists 0, 0x1000. split; [vm_compute; done|]. by exists 0x402000.
  - exists 0x401004. split; [repeat constructor; done|]. exists true, false, 1, 28. split; [vm_compute; done|]. by exists 0x401020.
  - exists 0x401008. split; [repeat constructor; done|]. vm_compute. done.
  - exists 0x40100C. split; [repeat constructor; done|]. vm_compute. done.
Qed.

Definition sample_a64_built : list Z * Z :=
  Eval vm_compute in
    default ([], 0) (a64_build_trampoline sample_a64_disasm sample_a64_probe 0x600000 0x500000 (replicate 512 0)).

Definition sample_a64_cpu : a64_cpu :=
  mk_a64 0x500000 (fun r => r) (fun x => arr_get (fst sample_a64_built) (x - 0x500000)).

Lemma sample_a64_code :
  code_at (amem sample_a64_cpu) 0x500000 (take (Z.to_nat (snd sample_a64_built)) (fst sample_a64_built)).
Proof.
  intros i b Hi. cbn [amem sample_a64_cpu]. unfold arr_get.
  replace (Z.to_nat (0x500000 + Z.of_nat i - 0x500000)) with i by lia.
  apply list_lookup_total_correct. by apply lookup_take_Some in Hi as [Hi _].
Qed.

(** At the sample prologue: entry_stub at 0x600000 is called with id 7. *)
Lemma a64_build_trampoline_runs_witness :
  exists n s', a64_run (fun _ => false) n sample_a64_cpu = Some s' /\ pc s' = 0x600000 /\ get s' 17 = 7.
Proof.
  destruct (a64_build_trampoline_runs sample_a64_disasm sample_a64_probe 0x600000 0x500000 (replicate 512 0)
    sample_a64_insns (fst sample_a64_built) (snd sample_a64_built) (fun _ => false)) as (code & _ & H & _).
  - apply sample_a64_disasm_ok.
  - discriminate.
  - split; [discriminate|reflexivity].
  - split; [discriminate|reflexivity].
  - vm_compute. reflexivity.
  - destruct (H sample_a64_cpu sample_a64_code eq_refl) as (n & s' & H1 & H2 & _ & H4 & _).
    exists n, s'. split; [exact H1|]. split; [exact H2|exact H4].
Defined.

(** The case at the sample prologue. *)
Lemma a64_build_trampoline_fits_witness :
  match a64_build_trampoline sample_a64_disasm sample_a64_probe 0x600000 0x500000 (replicate 512 0) with
  | Some (out, size) => size <= 256
  | None => False
  end.
Proof.
  pose proof (a64_build_trampoline_fits sample_a64_disasm sample_a64_probe 0x600000 0x500000 (replicate 512 0)
    sample_a64_insns sample_a64_disasm_ok sample_a64_insns_ok ltac:(split; [split; [reflexivity|discriminate]|reflexivity])
    ltac:(discriminate) ltac:(discriminate) ltac:(discriminate) eq_refl) as H.
  destruct (a64_build_trampoline _ _ _ _ _) as [[out size]|]; [apply H|].
  vm_compute in H. discriminate H.
Defined.
