(* ===== verification/RemoteMem.v ===== *)
(** * The target's memory (src/zt_injector.c)

    zt_read_remote_memory, zt_read_remote_iov and zt_write_remote_memory: a fast
    path through process_vm_readv/writev and a fallback that moves machine words
    with ptrace.  The kernel is the parameter [K]: it may refuse any call and may
    transfer only part of a request. *)

From S2P Require Import Prelude CLib.

(** ** The kernel's interface *)

(** The answers of the kernel to the n-th call: how many bytes process_vm_readv and
    process_vm_writev transfer at most (negative for an error), and whether ptrace
    accepts to peek or poke at an address. *)
Record kernel_t := mk_kernel {
  k_vm_readv : nat -> Z -> Z -> Z;
  k_vm_writev : nat -> Z -> Z -> Z;
  k_peek : nat -> Z -> bool;
  k_poke : nat -> Z -> bool
}.

(** Bytes at mapped addresses, and the number of calls so far. *)
Record proc_t := mk_proc { pm : Z -> option Z; pcalls : nat }.

Definition pr_call (s : proc_t) : proc_t := mk_proc (pm s) (S (pcalls s)).
Definition pr_store (m : Z -> option Z) (s : proc_t) : proc_t := mk_proc m (S (pcalls s)).

(** The bytes of a range, if all of it is mapped. *)
Fixpoint read_bytes (m : Z -> option Z) (a : Z) (n : nat) : option (list Z) :=
  match n with
  | O => Some []
  | S n =>
      match m a, read_bytes m (a + 1) n with
      | Some b, Some bs => Some (b :: bs)
      | _, _ => None
      end
  end.

Definition write_bytes (m : Z -> option Z) (a : Z) (bs : list Z) : Z -> option Z :=
  fun x => if (a <=? x) && (x <? a + Z.of_nat (length bs)) then bs !! Z.to_nat (x - a) else m x.

(** How many bytes from [a] on are mapped, [n] at most. *)
Fixpoint mapped_prefix (m : Z -> option Z) (a : Z) (n : nat) : Z :=
  match n with
  | O => 0
  | S n => match m a with None => 0 | Some _ => 1 + mapped_prefix m (a + 1) n end
  end.

(** The count a transfer returns: partial where the mapping ends or the kernel stops. *)
Definition transferred (m : Z -> option Z) (a size answer : Z) : Z :=
  if answer <? 0 then -1 else Z.min (Z.min answer size) (mapped_prefix m a (Z.to_nat size)).

Section memory.
Context (K : kernel_t).

(** The bytes read, if all were. *)
Definition process_vm_readv (a size : Z) (s : proc_t) : option (list Z) * proc_t :=
  let n := transferred (pm s) a size (k_vm_readv K (pcalls s) a size) in
  (if n =? size then read_bytes (pm s) a (Z.to_nat size) else None, pr_call s).

(** The count written; the first bytes are in memory even if it falls short. *)
Definition process_vm_writev (a : Z) (bs : list Z) (s : proc_t) : Z * proc_t :=
  let size := Z.of_nat (length bs) in
  let n := transferred (pm s) a size (k_vm_writev K (pcalls s) a size) in
  (n, pr_store (write_bytes (pm s) a (take (Z.to_nat n) bs)) s).

(** PTRACE_PEEKDATA and PTRACE_POKEDATA move eight bytes. *)
Definition ptrace_peek (a : Z) (s : proc_t) : option (list Z) * proc_t :=
  (if k_peek K (pcalls s) a then read_bytes (pm s) a 8 else None, pr_call s).

Definition ptrace_poke (a : Z) (word : list Z) (s : proc_t) : Z * proc_t :=
  if k_poke K (pcalls s) a
  then match read_bytes (pm s) a 8 with
       | Some _ => (0, pr_store (write_bytes (pm s) a word) s)
       | None => (-1, pr_call s)
       end
  else (-1, pr_call s).

(** ** Reads *)

Definition word_size : Z := 8.

(** The values [copied] takes in the word loops: every chunk but the last is a word. *)
Definition word_offsets (size : Z) : list Z :=
  map (fun i => word_size * i) (seqZ 0 ((size + word_size - 1) / word_size)).

Definition chunk_size (size copied : Z) : Z := Z.min (size - copied) word_size.

Fixpoint peek_loop (offsets : list Z) (remote_addr size : Z) (s : proc_t) : option (list Z) * proc_t :=
  match offsets with
  | [] => (Some [], s)
  | copied :: offsets =>
      match ptrace_peek (remote_addr +64 copied) s with
      | (None, s) => (None, s)
      | (Some word, s) =>
          match peek_loop offsets remote_addr size s with
          | (None, s) => (None, s)
          | (Some rest, s) => (Some (take (Z.to_nat (chunk_size size copied)) word ++ rest), s)
          end
      end
  end.

(** The bytes, or [None] for -1. *)
Definition zt_read_remote_memory (remote_addr size : Z) (s : proc_t) : option (list Z) * proc_t :=
  if size =? 0 then (None, s)
  else
    match process_vm_readv remote_addr size s with
    | (Some bs, s) => (Some bs, s)
    | (None, s) => peek_loop (word_offsets size) remote_addr size s
    end.

(** A scattered read: the segments (address and length) in one call, or one by one. *)
Fixpoint read_segments (segs : list (Z * Z)) (s : proc_t) : option (list (list Z)) * proc_t :=
  match segs with
  | [] => (Some [], s)
  | (a, n) :: segs =>
      match zt_read_remote_memory a n s with
      | (None, s) => (None, s)
      | (Some bs, s) =>
          match read_segments segs s with
          | (None, s) => (None, s)
          | (Some rest, s) => (Some (bs :: rest), s)
          end
      end
  end.

(** process_vm_readv over several segments: all of them, or a short count. *)
Definition process_vm_readv_iov (segs : list (Z * Z)) (expected : Z) (s : proc_t)
    : option (list (list Z)) * proc_t :=
  let answer := k_vm_readv K (pcalls s) (default 0 (fst <$> head segs)) expected in
  (if answer =? expected then mapM (fun '(a, n) => read_bytes (pm s) a (Z.to_nat n)) segs else None, pr_call s).

Definition zt_read_remote_iov (segs : list (Z * Z)) (expected : Z) (s : proc_t)
    : option (list (list Z)) * proc_t :=
  if (length segs =? 0)%nat then (None, s)
  else if expected =? 0 then (Some [], s)
  else
    match process_vm_readv_iov segs expected s with
    | (Some bss, s) => (Some bss, s)
    | (None, s) => read_segments segs s
    end.

(** ** Writes *)

Fixpoint poke_loop (offsets : list Z) (remote_addr : Z) (buffer : list Z) (s : proc_t) : Z * proc_t :=
  match offsets with
  | [] => (0, s)
  | copied :: offsets =>
      let size := Z.of_nat (length buffer) in
      let chunk := chunk_size size copied in
      let '(temp, s) :=
        if chunk =? word_size then (Some [], s) else zt_read_remote_memory (remote_addr +64 copied) word_size s in
      match temp with
      | None => (-1, s)
      | Some temp =>
          let src := take (Z.to_nat chunk) (drop (Z.to_nat copied) buffer) in
          let word := src ++ drop (Z.to_nat chunk) temp in
          match ptrace_poke (remote_addr +64 copied) word s with
          | (0, s) => poke_loop offsets remote_addr buffer s
          | (_, s) => (-1, s)
          end
      end
  end.

Definition zt_write_remote_memory (remote_addr : Z) (buffer : list Z) (s : proc_t) : Z * proc_t :=
  let size := Z.of_nat (length buffer) in
  if size =? 0 then (-1, s)
  else
    let '(nwritten, s) := process_vm_writev remote_addr buffer s in
    if nwritten =? size then (0, s)
    else poke_loop (word_offsets size) remote_addr buffer s.
End memory.
