(* ===== verification/RemoteMemSpec.v ===== *)
(** * What the remote memory operations promise

    A write that succeeds stores exactly its bytes; one that fails stored nothing
    but some of them; a read that succeeds returns what is there. *)

From S2P Require Import Prelude CLib RemoteMem.

(** ** Byte ranges *)

Definition in_range (a : Z) (n : nat) (x : Z) : Prop := a <= x < a + Z.of_nat n.

Lemma read_bytes_length m a n bs : read_bytes m a n = Some bs -> length bs = n.
Proof.
  revert a bs. induction n as [|n IH]; cbn; intros a bs H; [by simplify_eq|].
  destruct (m a); [|done]. destruct (read_bytes m (a + 1) n) as [r|] eqn:Hr; [|done]. simplify_eq.
  cbn. f_equal. by eapply IH.
Qed.

Lemma read_bytes_get m a n bs i :
  read_bytes m a n = Some bs -> (i < n)%nat -> m (a + Z.of_nat i) = bs !! i.
Proof.
  revert a bs i. induction n as [|n IH]; cbn; intros a bs i H Hi; [lia|].
  destruct (m a) as [b|] eqn:Hb; [|done]. destruct (read_bytes m (a + 1) n) as [r|] eqn:Hr; [|done]. simplify_eq.
  destruct i as [|i]; [by rewrite Z.add_0_r|]. cbn. rewrite <- (IH (a + 1)) by (done || lia). f_equal. lia.
Qed.

Lemma read_bytes_intro m a bs :
  (forall i, (i < length bs)%nat -> m (a + Z.of_nat i) = bs !! i) -> read_bytes m a (length bs) = Some bs.
Proof.
  revert a. induction bs as [|b bs IH]; intros a H; [done|]. cbn.
  pose proof (H 0%nat ltac:(cbn; lia)) as H0. rewrite Z.add_0_r in H0. cbn in H0. rewrite H0.
  rewrite IH; [done|]. intros i Hi. change (bs !! i) with ((b :: bs) !! S i). rewrite <- H by (cbn; lia). f_equal. lia.
Qed.

Lemma read_bytes_ext m m' a n :
  (forall x, in_range a n x -> m x = m' x) -> read_bytes m a n = read_bytes m' a n.
Proof.
  revert a. induction n as [|n IH]; intros a H; [done|]. cbn.
  rewrite H by (unfold in_range; lia). rewrite IH; [done|]. intros x Hx. apply H. unfold in_range in *. lia.
Qed.

Lemma write_bytes_in m a bs x :
  in_range a (length bs) x -> write_bytes m a bs x = bs !! Z.to_nat (x - a).
Proof. unfold in_range, write_bytes. intros. by destruct (Z.leb_spec a x), (Z.ltb_spec x (a + Z.of_nat (length bs))); try lia. Qed.

Lemma write_bytes_out m a bs x : ~ in_range a (length bs) x -> write_bytes m a bs x = m x.
Proof. unfold in_range, write_bytes. intros. destruct (Z.leb_spec a x), (Z.ltb_spec x (a + Z.of_nat (length bs))); cbn; try done; lia. Qed.

Lemma write_read m a bs : read_bytes (write_bytes m a bs) a (length bs) = Some bs.
Proof.
  apply read_bytes_intro. intros i Hi. rewrite write_bytes_in by (unfold in_range; lia).
  f_equal. lia.
Qed.

Lemma mapped_prefix_le m a n : 0 <= mapped_prefix m a n <= Z.of_nat n.
Proof. revert a. induction n as [|n IH]; intros a; cbn; [lia|]. destruct (m a); [specialize (IH (a + 1))|]; lia. Qed.

Lemma transferred_le m a size k : 0 <= size -> transferred m a size k <= size.
Proof. intros. unfold transferred. destruct (k <? 0); lia. Qed.

Lemma read_bytes_take m a n bs k :
  read_bytes m a n = Some bs -> (k <= n)%nat -> read_bytes m a k = Some (take k bs).
Proof.
  intros H Hk. pose proof (read_bytes_length _ _ _ _ H) as Hl.
  replace k with (length (take k bs)) at 1 by (rewrite length_take; lia). apply read_bytes_intro.
  intros i Hi. rewrite length_take in Hi. rewrite lookup_take_lt by lia. by apply (read_bytes_get m a n); [|lia].
Qed.

Lemma read_bytes_app m a n1 n2 bs1 bs2 :
  read_bytes m a n1 = Some bs1 -> read_bytes m (a + Z.of_nat n1) n2 = Some bs2 ->
  read_bytes m a (n1 + n2) = Some (bs1 ++ bs2).
Proof.
  intros H1 H2. pose proof (read_bytes_length _ _ _ _ H1) as L1. pose proof (read_bytes_length _ _ _ _ H2) as L2.
  replace (n1 + n2)%nat with (length (bs1 ++ bs2)) by (rewrite length_app; lia). apply read_bytes_intro.
  intros i Hi. rewrite length_app in Hi. destruct (Nat.lt_ge_cases i n1).
  - rewrite lookup_app_l by lia. by apply (read_bytes_get m a n1).
  - rewrite lookup_app_r by lia. rewrite <- (read_bytes_get m (a + Z.of_nat n1) n2 bs2) by (done || lia).
    f_equal. lia.
Qed.

(** ** Reads *)

Lemma offsets_cons k n : map (fun i => word_size * i) (seqZ k (Z.of_nat (S n))) =
  word_size * k :: map (fun i => word_size * i) (seqZ (k + 1) (Z.of_nat n)).
Proof. rewrite seqZ_cons by lia. cbn [map]. do 3 f_equal; lia. Qed.

Lemma offsets_nil k : map (fun i => word_size * i) (seqZ k (Z.of_nat 0)) = [].
Proof. reflexivity. Qed.

Lemma word_count size : 0 <= size ->
  exists n, word_offsets size = map (fun i => word_size * i) (seqZ 0 (Z.of_nat n)) /\
    size <= 8 * Z.of_nat n < size + 8.
Proof.
  intros H. exists (Z.to_nat ((size + 7) / 8)). unfold word_offsets, word_size.
  replace (size + 8 - 1) with (size + 7) by lia.
  rewrite Z2Nat.id by (apply Z.div_pos; lia). split; [done|]. Z.div_mod_to_equations; lia.
Qed.

Section reads.
Context (K : kernel_t).

Lemma peek_loop_spec a size n k s :
  0 <= a -> a + size <= 2 ^ 64 -> 0 <= k -> size <= 8 * (k + Z.of_nat n) < size + 8 ->
  let '(r, s') := peek_loop K (map (fun i => word_size * i) (seqZ k (Z.of_nat n))) a size s in
  pm s' = pm s /\
  forall bs, r = Some bs -> read_bytes (pm s) (a + 8 * k) (Z.to_nat (size - 8 * k)) = Some bs.
Proof.
  intros Ha Hw. revert k s. induction n as [|n IH]; intros k s Hk Hn.
  - rewrite offsets_nil. cbn [peek_loop]. split; [done|]. intros bs [= <-]. by rewrite Z2Nat.nonpos by lia.
  - rewrite offsets_cons. cbn [peek_loop]. unfold word_size at 1. unfold ptrace_peek. rewrite u64_small by (unfold is_u64; lia).
    destruct (k_peek K (pcalls s) (a + 8 * k)); [|done].
    destruct (read_bytes (pm s) (a + 8 * k) 8) as [word|] eqn:Hword; [|done].
    specialize (IH (k + 1) (pr_call s) ltac:(lia) ltac:(lia)).
    destruct (peek_loop K _ a size (pr_call s)) as [r s']. destruct IH as [Hm IH]. change (pm (pr_call s)) with (pm s) in *.
    destruct r as [rest|]; [|by split]. split; [done|]. intros bs [= <-]. specialize (IH _ eq_refl).
    unfold chunk_size, word_size. set (c := Z.to_nat (Z.min (size - 8 * k) 8)).
    replace (Z.to_nat (size - 8 * k)) with (c + Z.to_nat (size - 8 * (k + 1)))%nat by lia.
    apply read_bytes_app; [apply (read_bytes_take _ _ 8%nat); [done|lia]|]. destruct (Nat.eq_dec c 8%nat) as [->|].
    + by replace (a + 8 * k + Z.of_nat 8) with (a + 8 * (k + 1)) by lia.
    + replace (Z.to_nat (size - 8 * (k + 1))) with 0%nat in * by lia. exact IH.
Qed.

Lemma read_remote_spec a size s :
  0 <= a -> a + size <= 2 ^ 64 -> 0 <= size ->
  let '(r, s') := zt_read_remote_memory K a size s in
  pm s' = pm s /\ forall bs, r = Some bs -> read_bytes (pm s) a (Z.to_nat size) = Some bs.
Proof.
  intros Ha Hw Hs. unfold zt_read_remote_memory. destruct (Z.eqb_spec size 0) as [|Hnz]; [done|].
  unfold process_vm_readv. set (fast := if _ =? size then _ else _).
  assert (Hf : forall bs, fast = Some bs -> read_bytes (pm s) a (Z.to_nat size) = Some bs)
    by (unfold fast; intros bs; by destruct (_ =? size)).
  destruct fast as [bs|]; [by split|]. destruct (word_count size) as (n & -> & Hn); [done|].
  pose proof (peek_loop_spec a size n 0 (pr_call s) Ha Hw ltac:(lia) ltac:(lia)) as H.
  destruct (peek_loop K _ a size (pr_call s)) as [r s']. change (8 * 0) with 0 in H.
  by rewrite Z.add_0_r, Z.sub_0_r in H.
Qed.
End reads.

(** ** The word loops *)

Section loops.
Context (K : kernel_t) (a : Z) (buf : list Z).
Let size := Z.of_nat (length buf).
Hypothesis no_wrap : 0 <= a /\ a + size <= 2 ^ 64.

(** [m] lies between the memory [m0] before the write and the one after it. *)
Definition between (m0 m : Z -> option Z) : Prop :=
  forall x, m x = m0 x \/ (in_range a (length buf) x /\ m x = buf !! Z.to_nat (x - a)).

(** The first [c] bytes are written. *)
Definition written (m : Z -> option Z) (c : Z) : Prop :=
  forall x, a <= x < a + c -> m x = buf !! Z.to_nat (x - a).

Lemma between_refl m : between m m.
Proof. intros x. by left. Qed.

Lemma between_prefix m0 m n : between m0 m -> between m0 (write_bytes m a (take n buf)).
Proof.
  intros H x. destruct (decide (in_range a (length (take n buf)) x)) as [Hin|Hout].
  - right. rewrite write_bytes_in by done. unfold in_range in *. rewrite length_take in Hin. split; [lia|].
    apply lookup_take_lt. lia.
  - rewrite write_bytes_out by done. apply H.
Qed.

(** Storing the chunk at [c], the bytes behind the buffer put back. *)
Lemma store_chunk m0 m c tail :
  between m0 m -> written m c -> 0 <= c < size ->
  let chunk := chunk_size size c in
  let word := take (Z.to_nat chunk) (drop (Z.to_nat c) buf) ++ tail in
  (forall i b, tail !! i = Some b -> m (a + c + chunk + Z.of_nat i) = Some b /\ chunk < word_size) ->
  between m0 (write_bytes m (a + c) word) /\ written (write_bytes m (a + c) word) (c + chunk).
Proof.
  intros Hb Hw Hc chunk word Ht. unfold chunk_size, word_size in *. set (src := take _ _) in word.
  assert (Hlen : Z.of_nat (length src) = chunk)
    by (unfold src, chunk, size in *; rewrite length_take, length_drop; lia).
  assert (Hsrc : forall x, a + c <= x < a + c + chunk ->
    write_bytes m (a + c) word x = buf !! Z.to_nat (x - a)).
  { intros x Hx. unfold word. rewrite write_bytes_in by (unfold in_range; rewrite length_app; lia).
    rewrite lookup_app_l by lia. unfold src. rewrite lookup_take_lt, lookup_drop by lia. f_equal. lia. }
  assert (Htail : forall x, a + c + chunk <= x -> write_bytes m (a + c) word x = m x).
  { intros x Hx. destruct (decide (in_range (a + c) (length word) x)) as [Hin|]; [|by apply write_bytes_out].
    rewrite write_bytes_in by done. unfold word, in_range in *. rewrite length_app in Hin.
    rewrite lookup_app_r by lia. destruct (tail !! (Z.to_nat (x - (a + c)) - length src)%nat) as [b|] eqn:Hbt.
    - apply Ht in Hbt as [Hbt _]. rewrite <- Hbt. f_equal. lia.
    - apply lookup_ge_None in Hbt. lia. }
  assert (Hbefore : forall x, x < a + c -> write_bytes m (a + c) word x = m x).
  { intros x Hx. apply write_bytes_out. unfold in_range. lia. }
  split.
  - intros x. destruct (Z.lt_ge_cases x (a + c)); [rewrite Hbefore by done; apply Hb|].
    destruct (Z.lt_ge_cases x (a + c + chunk)); [|rewrite Htail by lia; apply Hb].
    right. rewrite Hsrc by lia. split; [unfold in_range, chunk, size in *; lia|done].
  - intros x Hx. destruct (Z.lt_ge_cases x (a + c)); [rewrite Hbefore by done; apply Hw; lia|]. apply Hsrc. lia.
Qed.

Lemma read_tail m c temp :
  0 <= c < size -> read_bytes m (a + c) 8 = Some temp ->
  let chunk := chunk_size size c in
  chunk < word_size ->
  forall i b, drop (Z.to_nat chunk) temp !! i = Some b -> m (a + c + chunk + Z.of_nat i) = Some b /\ chunk < word_size.
Proof.
  intros Hc Ht chunk Hlt i b Hi. split; [|done]. rewrite lookup_drop in Hi. rewrite <- Hi.
  pose proof (lookup_lt_Some _ _ _ Hi) as Hl. rewrite (read_bytes_length _ _ _ _ Ht) in Hl.
  rewrite <- (read_bytes_get _ _ _ _ _ Ht Hl). f_equal. unfold chunk, chunk_size, word_size in *. lia.
Qed.

Lemma poke_loop_spec m0 n k s :
  between m0 (pm s) -> written (pm s) (Z.min (8 * k) size) -> 0 <= k ->
  size <= 8 * (k + Z.of_nat n) < size + 8 -> a + 8 * (k + Z.of_nat n) <= 2 ^ 64 ->
  let '(rc, s') := poke_loop K (map (fun i => word_size * i) (seqZ k (Z.of_nat n))) a buf s in
  between m0 (pm s') /\ (rc = 0 -> written (pm s') size) /\ (rc = 0 \/ rc = -1).
Proof.
  revert k s. induction n as [|n IH]; intros k s Hb Hw Hk Hn Hr.
  - rewrite offsets_nil. cbn [poke_loop]. split_and!; [done| |by left]. intros _ x Hx. apply Hw. lia.
  - rewrite offsets_cons. cbn [poke_loop]. fold size. unfold word_size at 1 2 3 4 5.
    rewrite u64_small by (unfold is_u64; lia). set (c := 8 * k) in *.
    set (temp := if chunk_size size c =? 8 then _ else _).
    assert (Htemp : pm (snd temp) = pm s /\ forall t, fst temp = Some t ->
      forall i b, drop (Z.to_nat (chunk_size size c)) t !! i = Some b ->
        pm s (a + c + chunk_size size c + Z.of_nat i) = Some b /\ chunk_size size c < word_size).
    { unfold temp. destruct (Z.eqb_spec (chunk_size size c) 8) as [He|Hne].
      - split; [done|]. intros t [= <-] i b Hi. by rewrite drop_nil in Hi.
      - pose proof (read_remote_spec K (a + c) 8 s ltac:(lia) ltac:(lia) ltac:(lia)) as Hread. unfold word_size.
        destruct (zt_read_remote_memory K (a + c) 8 s) as [r s1]. destruct Hread as [Hm Hread].
        split; [done|]. cbn [fst]. intros t ->. apply (read_tail (pm s) c t); [lia|by apply Hread|].
        unfold chunk_size, word_size in *. lia. }
    destruct temp as [[t|] s1]; cbn [fst snd] in Htemp; destruct Htemp as [Hm1 Ht];
      [|rewrite Hm1; split_and!; [done|done|by right]].
    specialize (Ht _ eq_refl). unfold ptrace_poke. rewrite Hm1.
    destruct (k_poke K (pcalls s1) (a + c)); [|cbn [pr_call pm]; rewrite Hm1; split_and!; [done|done|by right]].
    destruct (read_bytes (pm s) (a + c) 8); [|cbn [pr_call pm]; rewrite Hm1; split_and!; [done|done|by right]].
    rewrite Z.min_l in Hw by lia.
    destruct (store_chunk m0 (pm s) c (drop (Z.to_nat (chunk_size size c)) t) Hb Hw ltac:(lia) Ht) as [Hb' Hw'].
    apply IH; [exact Hb'| |lia|lia|lia]. cbn [pr_store pm]. intros x Hx. apply Hw'.
    unfold chunk_size, word_size. lia.
Qed.
End loops.

(** ** The operations *)

Lemma write_remote_spec K a buf s :
  0 <= a -> a + Z.of_nat (length buf) + 8 <= 2 ^ 64 ->
  let '(rc, s') := zt_write_remote_memory K a buf s in
  between a buf (pm s) (pm s') /\ (rc = 0 -> written a buf (pm s') (Z.of_nat (length buf))) /\ (rc = 0 \/ rc = -1).
Proof.
  intros Ha Hr. unfold zt_write_remote_memory, process_vm_writev. set (size := Z.of_nat (length buf)) in *.
  destruct (Z.eqb_spec size 0) as [|Hnz]; [split_and!; [apply between_refl|done|by right]|].
  set (n := transferred _ _ _ _). set (s1 := pr_store _ s).
  assert (Hb : between a buf (pm s) (pm s1)) by apply between_prefix, between_refl.
  destruct (Z.eqb_spec n size) as [Hn|Hn].
  - split_and!; [done| |by left]. intros _ x Hx. unfold s1. cbn [pr_store pm].
    rewrite take_ge by (unfold size in *; lia). apply write_bytes_in. unfold in_range. lia.
  - destruct (word_count size) as (k & -> & Hk); [lia|].
    apply (poke_loop_spec K a buf ltac:(lia) (pm s) k 0 s1); fold size; try lia; [done|].
    intros x Hx. lia.
Qed.

(** C29: a remote write changes nothing but its range.  If it reports success the
    range holds exactly the buffer; if it fails, whatever the kernel refused
    half-way, every byte of the range is the old one or the new one. *)
Theorem zt_write_remote_memory_spec K a buf s :
  0 <= a -> a + Z.of_nat (length buf) + 8 <= 2 ^ 64 ->
  let '(rc, s') := zt_write_remote_memory K a buf s in
  (rc = 0 \/ rc = -1) /\
  (forall x, ~ in_range a (length buf) x -> pm s' x = pm s x) /\
  (forall x, in_range a (length buf) x ->
     pm s' x = buf !! Z.to_nat (x - a) \/ rc = -1 /\ pm s' x = pm s x).
Proof.
  intros Ha Hr. pose proof (write_remote_spec K a buf s Ha Hr) as H.
  destruct (zt_write_remote_memory K a buf s) as [rc s']. destruct H as (Hb & Hw & Hrc). split_and!; [done| |].
  - intros x Hx. by destruct (Hb x) as [?|[? _]].
  - intros x Hx. destruct Hrc as [->| ->]; [left; by apply Hw|].
    destruct (Hb x) as [?|[_ ?]]; [by right|by left].
Qed.

Lemma mapped_prefix_full m a n bs : read_bytes m a n = Some bs -> mapped_prefix m a n = Z.of_nat n.
Proof.
  revert a bs. induction n as [|n IH]; intros a bs; [done|]. cbn. destruct (m a); [|done].
  destruct (read_bytes m (a + 1) n) as [r|] eqn:Hr; [|done]. intros _. rewrite (IH _ _ Hr). lia.
Qed.

(** What a write stored, a read returns.  A read changes nothing, its result,
    if it has one, is the buffer, and it has one whenever the kernel transfers the
    whole range. *)
Lemma zt_remote_memory_roundtrip K K' a buf s s1 :
  zt_write_remote_memory K a buf s = (0, s1) -> 0 <= a -> a + Z.of_nat (length buf) + 8 <= 2 ^ 64 ->
  let size := Z.of_nat (length buf) in
  let '(r, s2) := zt_read_remote_memory K' a size s1 in
  pm s2 = pm s1 /\ (r = None \/ r = Some buf) /\
  (size <= k_vm_readv K' (pcalls s1) a size -> r = Some buf).
Proof.
  intros Hwr Ha Hr size. pose proof (write_remote_spec K a buf s Ha Hr) as H. rewrite Hwr in H.
  destruct H as (_ & Hw & _). specialize (Hw eq_refl).
  assert (Hnz : size <> 0).
  { intros H0. unfold zt_write_remote_memory in Hwr. fold size in Hwr. by rewrite H0 in Hwr. }
  assert (Hbuf : read_bytes (pm s1) a (Z.to_nat size) = Some buf).
  { unfold size. rewrite Nat2Z.id. apply read_bytes_intro. intros i Hi. rewrite Hw by lia. f_equal. lia. }
  pose proof (read_remote_spec K' a size s1 Ha ltac:(unfold size; lia) ltac:(lia)) as Hread.
  destruct (zt_read_remote_memory K' a size s1) as [r s2] eqn:Hrd. destruct Hread as [Hm Hread].
  split_and!; [done| |].
  - destruct r as [bs|]; [|by left]. right. specialize (Hread _ eq_refl). congruence.
  - intros Hk. unfold zt_read_remote_memory, process_vm_readv, transferred in Hrd.
    destruct (Z.eqb_spec size 0); [done|]. rewrite (mapped_prefix_full _ _ _ _ Hbuf), Z2Nat.id in Hrd by lia.
    destruct (Z.ltb_spec (k_vm_readv K' (pcalls s1) a size) 0); [lia|].
    rewrite !Z.min_r, Z.eqb_refl, Hbuf in Hrd by lia. by simplify_eq.
Qed.

(** ** Witnesses *)

(** A kernel without process_vm access: every call goes through ptrace words. *)
Definition ptrace_kernel : kernel_t := mk_kernel (fun _ _ _ => -1) (fun _ _ _ => -1) (fun _ _ => true) (fun _ _ => true).
Definition plain_kernel : kernel_t :=
  mk_kernel (fun _ _ size => size) (fun _ _ size => size) (fun _ _ => true) (fun _ _ => true).
Definition zero_page : proc_t := mk_proc (fun x => if (4096 <=? x) && (x <? 8192) then Some 0 else None) 0.

(** C29 for three bytes at 4100, written by read-modify-write of one word. *)
Lemma zt_write_remote_memory_spec_witness :
  let '(rc, s') := zt_write_remote_memory ptrace_kernel 4100 [1; 2; 3] zero_page in
  pm s' 4100 = Some 1 /\ pm s' 4103 = Some 0.
Proof.
  pose proof (zt_write_remote_memory_spec ptrace_kernel 4100 [1; 2; 3] zero_page ltac:(lia) ltac:(cbn; lia)) as H.
  destruct (zt_write_remote_memory ptrace_kernel 4100 [1; 2; 3] zero_page) as [rc s'] eqn:Hw.
  destruct H as (_ & Hout & Hin). split.
  - destruct (Hin 4100) as [H|[Hrc _]]; [unfold in_range; cbn; lia|exact H|].
    change rc with (fst (rc, s')) in Hrc. rewrite <- Hw in Hrc. vm_compute in Hrc. discriminate Hrc.
  - rewrite Hout; [reflexivity|unfold in_range; cbn; lia].
Defined.

(** For the same bytes, read back through process_vm_readv. *)
Lemma zt_remote_memory_roundtrip_witness :
  let '(rc, s1) := zt_write_remote_memory ptrace_kernel 4100 [1; 2; 3] zero_page in
  fst (zt_read_remote_memory plain_kernel 4100 3 s1) = Some [1; 2; 3].
Proof.
  destruct (zt_write_remote_memory ptrace_kernel 4100 [1; 2; 3] zero_page) as [rc s1] eqn:Hw.
  assert (rc = 0) as -> by (change rc with (fst (rc, s1)); rewrite <- Hw; vm_compute; reflexivity).
  pose proof (zt_remote_memory_roundtrip ptrace_kernel plain_kernel 4100 [1; 2; 3] zero_page s1 Hw ltac:(lia)
    ltac:(cbn; lia)) as H. change (Z.of_nat (length [1; 2; 3])) with 3 in H. cbv zeta in H.
  destruct (zt_read_remote_memory plain_kernel 4100 3 s1) as [r s2]. apply H. cbn. lia.
Defined.
