(* ===== verification/Arch.v ===== *)
(** * The architecture boundary (include/zt_arch.h, src/isa/*/arch.c)

    What the injector asks of an instruction set is the class [Arch]: register
    access, the stubs for remote execution, the span a patch must cover and the
    jump that is patched in.  The two instances are the x86_64 and the AArch64
    arch.c; the laws their clients rely on are the class [ArchLaws]. *)

From S2P Require Import Prelude CLib Types RemoteMem Emit X86Trampoline A64Trampoline.

(** ** Arguments (src/isa/common/zt_remote_exec.h) *)

Record zt_arch_remote_syscall_args_t := mk_syscall_args {
  sa_syscall_no : Z; sa_arg1 : Z; sa_arg2 : Z; sa_arg3 : Z; sa_arg4 : Z; sa_arg5 : Z; sa_arg6 : Z
}.

Record zt_arch_remote_call_args_t := mk_call_args { ca_func_addr : Z; ca_arg1 : Z; ca_arg2 : Z }.

(** ** The interface *)

Class Arch := {
  regs_t : Type;
  zt_get_pc : regs_t -> Z;
  zt_get_retval : regs_t -> Z;
  select_stub_pc : kernel_t -> Z -> Z -> proc_t -> Z * proc_t;
  SYS_mmap : Z;
  SYS_munmap : Z;
  syscall_code_size : Z;
  call_code_size : Z;
  zt_prepare_syscall_regs : regs_t -> zt_arch_remote_syscall_args_t -> Z -> regs_t;
  zt_prepare_call_regs : regs_t -> zt_arch_remote_call_args_t -> Z -> regs_t;
  zt_build_syscall_stub : Z -> list Z -> option (list Z);
  zt_build_call_stub : Z -> list Z -> Z -> option (list Z);
  zt_arch_probe_patch_len : Z;
  zt_arch_calc_patch_span : list Z -> Z -> option Z;
  jump_patch : Z -> list Z
}.

(** zt_arch_install_jump, which the two files share but for the bytes. *)
Definition zt_arch_install_jump `{Arch} (K : kernel_t) (patch_addr target_addr : Z) (s : proc_t) : Z * proc_t :=
  if (patch_addr =? 0) || (target_addr =? 0) then (-1, s)
  else zt_write_remote_memory K patch_addr (jump_patch target_addr) s.

(** ** x86_64 *)

Module X86.

Record user_regs_struct := mk_regs {
  rip : Z; rax : Z; rdi : Z; rsi : Z; rdx : Z; r10 : Z; r8 : Z; r9 : Z;
  other_regs : list Z
}.

Definition ZT_X86_64_PATCH_LEN : Z := 14.
Definition ZT_X86_64_REMOTE_SYSCALL_CODE_SIZE : Z := 8.
Definition ZT_X86_64_REMOTE_CALL_CODE_SIZE : Z := 16.

Definition x86_prepare_syscall_regs (regs : user_regs_struct) (args : zt_arch_remote_syscall_args_t)
    (stub_pc : Z) : user_regs_struct :=
  mk_regs (rip regs) (u64 (sa_syscall_no args)) (sa_arg1 args) (sa_arg2 args) (sa_arg3 args) (sa_arg4 args)
    (sa_arg5 args) (sa_arg6 args) (other_regs regs).

Definition x86_prepare_call_regs (regs : user_regs_struct) (args : zt_arch_remote_call_args_t)
    (stub_pc : Z) : user_regs_struct :=
  mk_regs (rip regs) (rax regs) (ca_arg1 args) (ca_arg2 args) (rdx regs) (r10 regs) (r8 regs) (r9 regs)
    (other_regs regs).

Definition x86_build_syscall_stub (stub_size : Z) (saved_code : list Z) : option (list Z) :=
  if negb (stub_size =? ZT_X86_64_REMOTE_SYSCALL_CODE_SIZE) then None
  else Some (memcpy_at 0 [0x0f; 0x05; 0xcc] saved_code).

Definition x86_build_call_stub (stub_size : Z) (saved_code : list Z) (func_addr : Z) : option (list Z) :=
  if negb (stub_size =? ZT_X86_64_REMOTE_CALL_CODE_SIZE) then None
  else Some (memcpy_at 0 ([0x48; 0xB8] ++ le_bytes 8 func_addr ++ [0xFF; 0xD0; 0xCC]) saved_code).

(** The for loop over the decoded instructions. *)
Fixpoint span_loop (total_len min_len : Z) (insns : list cs_insn) : option Z :=
  match insns with
  | [] => None
  | i :: insns =>
      let total_len := total_len + insn_size i in
      if total_len >=? min_len then Some total_len else span_loop total_len min_len insns
  end.

Definition x86_calc_patch_span (cs_disasm : list Z -> Z -> option (list cs_insn)) (code : list Z) (min_len : Z)
    : option Z :=
  if Z.of_nat (length code) <? min_len then None
  else
    match cs_disasm code 0 with
    | None | Some [] => None
    | Some insns => span_loop 0 min_len insns
    end.

Definition x86_jump_patch (target_addr : Z) : list Z := [0xFF; 0x25; 0; 0; 0; 0] ++ le_bytes 8 target_addr.

#[export] Instance x86_64_arch (cs_disasm : list Z -> Z -> option (list cs_insn)) : Arch := {|
  regs_t := user_regs_struct;
  zt_get_pc := rip;
  zt_get_retval := rax;
  select_stub_pc := fun _ current_pc _ s => (current_pc, s);
  SYS_mmap := 9;
  SYS_munmap := 11;
  syscall_code_size := ZT_X86_64_REMOTE_SYSCALL_CODE_SIZE;
  call_code_size := ZT_X86_64_REMOTE_CALL_CODE_SIZE;
  zt_prepare_syscall_regs := x86_prepare_syscall_regs;
  zt_prepare_call_regs := x86_prepare_call_regs;
  zt_build_syscall_stub := x86_build_syscall_stub;
  zt_build_call_stub := x86_build_call_stub;
  zt_arch_probe_patch_len := ZT_X86_64_PATCH_LEN;
  zt_arch_calc_patch_span := x86_calc_patch_span cs_disasm;
  jump_patch := x86_jump_patch
|}.
End X86.

(** ** AArch64 *)

Module A64.

(** The general registers x0 to x30, and the rest. *)
Record user_pt_regs := mk_regs { regs : list Z; sp : Z; pc : Z; pstate : Z }.

Definition ZT_AARCH64_PATCH_LEN : Z := 16.
Definition ZT_AARCH64_REMOTE_SYSCALL_CODE_SIZE : Z := 8.
Definition ZT_AARCH64_REMOTE_CALL_CODE_SIZE : Z := 24.

Definition zt_remote_stub_pc (K : kernel_t) (current_pc stub_size : Z) (s : proc_t) : Z * proc_t :=
  if current_pc =? 0 then (0, s)
  else
    match zt_read_remote_memory K current_pc 4 s with
    | (None, s) => (current_pc, s)
    | (Some insn, s) =>
        if le_word insn =? 0xD4000001 then
          match zt_read_remote_memory K (current_pc +64 4) stub_size s with
          | (Some _, s) => (current_pc +64 4, s)
          | (None, s) => (current_pc, s)
          end
        else (current_pc, s)
    end.

Definition a64_prepare_syscall_regs (r : user_pt_regs) (args : zt_arch_remote_syscall_args_t)
    (stub_pc : Z) : user_pt_regs :=
  mk_regs (<[8%nat := u64 (sa_syscall_no args)]> (<[5%nat := sa_arg6 args]> (<[4%nat := sa_arg5 args]>
    (<[3%nat := sa_arg4 args]> (<[2%nat := sa_arg3 args]> (<[1%nat := sa_arg2 args]>
    (<[0%nat := sa_arg1 args]> (regs r)))))))) (sp r) stub_pc (pstate r).

Definition a64_prepare_call_regs (r : user_pt_regs) (args : zt_arch_remote_call_args_t)
    (stub_pc : Z) : user_pt_regs :=
  mk_regs (<[1%nat := ca_arg2 args]> (<[0%nat := ca_arg1 args]> (regs r))) (sp r) stub_pc (pstate r).

Definition a64_build_syscall_stub (stub_size : Z) (saved_code : list Z) : option (list Z) :=
  if negb (stub_size =? ZT_AARCH64_REMOTE_SYSCALL_CODE_SIZE) then None
  else Some (le_bytes 4 0xD4000001 ++ le_bytes 4 0xD4200000).

Definition a64_build_call_stub (stub_size : Z) (saved_code : list Z) (func_addr : Z) : option (list Z) :=
  if negb (stub_size =? ZT_AARCH64_REMOTE_CALL_CODE_SIZE) then None
  else Some (le_bytes 4 0x58000090 ++ le_bytes 4 0xD63F0200 ++ le_bytes 4 0xD4200000
               ++ le_bytes 4 0xD503201F ++ le_bytes 8 func_addr).

Definition a64_calc_patch_span (code : list Z) (min_len : Z) : option Z :=
  if Z.of_nat (length code) <? min_len then None
  else
    let span := Z.ldiff (u64 (min_len + (ZT_AARCH64_INSN_SIZE - 1))) (ZT_AARCH64_INSN_SIZE - 1) in
    if span >? Z.of_nat (length code) then None else Some span.

Definition a64_jump_patch (target_addr : Z) : list Z :=
  le_bytes 4 0x58000050 ++ le_bytes 4 0xD61F0200 ++ le_bytes 8 target_addr.

#[export] Instance aarch64_arch : Arch := {|
  regs_t := user_pt_regs;
  zt_get_pc := pc;
  zt_get_retval := fun r => arr_get (regs r) 0;
  select_stub_pc := zt_remote_stub_pc;
  SYS_mmap := 222;
  SYS_munmap := 215;
  syscall_code_size := ZT_AARCH64_REMOTE_SYSCALL_CODE_SIZE;
  call_code_size := ZT_AARCH64_REMOTE_CALL_CODE_SIZE;
  zt_prepare_syscall_regs := a64_prepare_syscall_regs;
  zt_prepare_call_regs := a64_prepare_call_regs;
  zt_build_syscall_stub := a64_build_syscall_stub;
  zt_build_call_stub := a64_build_call_stub;
  zt_arch_probe_patch_len := ZT_AARCH64_PATCH_LEN;
  zt_arch_calc_patch_span := a64_calc_patch_span;
  jump_patch := a64_jump_patch
|}.
End A64.

(** ** What the clients rely on *)

Class ArchLaws (A : Arch) := {
  patch_len_range : 0 < zt_arch_probe_patch_len <= ZT_PROBE_ORIG_CODE_MAX;
  jump_patch_length t : Z.of_nat (length (jump_patch t)) = zt_arch_probe_patch_len;
  patch_span_bounds code min_len n :
    0 < min_len -> is_u64 (min_len + 3) -> zt_arch_calc_patch_span code min_len = Some n ->
    min_len <= n <= Z.of_nat (length code);
  select_stub_pc_mem K pc size s : pm (snd (select_stub_pc K pc size s)) = pm s;
  syscall_stub_length size saved stub :
    zt_build_syscall_stub size saved = Some stub -> Z.of_nat (length saved) = size -> length stub = length saved;
  call_stub_length size saved f stub :
    zt_build_call_stub size saved f = Some stub -> Z.of_nat (length saved) = size -> length stub = length saved
}.

Lemma peek_loop_mem K offsets a size s : pm (snd (peek_loop K offsets a size s)) = pm s.
Proof.
  revert s. induction offsets as [|c offsets IH]; intros s; [done|]. cbn [peek_loop]. unfold ptrace_peek.
  destruct (if k_peek K (pcalls s) (a +64 c) then _ else _); [|done].
  specialize (IH (pr_call s)). destruct (peek_loop K offsets a size (pr_call s)) as [[]]; exact IH.
Qed.

Lemma read_remote_mem K a size s : pm (snd (zt_read_remote_memory K a size s)) = pm s.
Proof.
  unfold zt_read_remote_memory. destruct (size =? 0); [done|]. unfold process_vm_readv.
  destruct (if _ =? size then _ else _); [done|]. apply (peek_loop_mem K _ a size (pr_call s)).
Qed.

(** The instructions a disassembler returns lie in the code it was given. *)
Definition disasm_within (cs_disasm : list Z -> Z -> option (list cs_insn)) : Prop :=
  forall code addr insns, cs_disasm code addr = Some insns ->
    Forall (fun i => 0 < insn_size i) insns /\
    foldr Z.add 0 (map insn_size insns) <= Z.of_nat (length code).

(** The span is the first instruction boundary at or behind [min_len]. *)
Lemma span_loop_spec total min_len insns n :
  total < min_len -> Forall (fun i => 0 < insn_size i) insns -> X86.span_loop total min_len insns = Some n ->
  exists k, n = total + foldr Z.add 0 (map insn_size (take k insns)) /\ min_len <= n /\
    n <= total + foldr Z.add 0 (map insn_size insns) /\
    forall j, (j < k)%nat -> total + foldr Z.add 0 (map insn_size (take j insns)) < min_len.
Proof.
  intros Ht Hpos. revert total Ht. induction Hpos as [|i insns Hi Hpos IH]; intros total Ht; [done|].
  cbn [X86.span_loop]. rewrite Z.geb_leb. destruct (Z.leb_spec min_len (total + insn_size i)).
  - intros [= <-]. exists 1%nat. cbn [take map foldr]. rewrite take_0. cbn [map foldr].
    split_and!; [lia|lia| |intros [|j] Hj; [cbn|]; lia].
    assert (0 <= foldr Z.add 0 (map insn_size insns)).
    { clear - Hpos. induction Hpos; cbn; lia. }
    lia.
  - intros (k & -> & Hn & Hle & Hj)%IH; [|lia]. exists (S k). cbn [take map foldr]. split_and!; [lia|lia|lia|].
    intros [|j] Hlt; cbn [take map foldr]; [lia|]. specialize (Hj j ltac:(lia)). lia.
Qed.

Lemma length_patched_stub off src saved : (off + length src <= length saved)%nat ->
  length (memcpy_at off src saved) = length saved.
Proof. apply length_memcpy_at. Qed.

#[export] Instance x86_64_laws cs_disasm : disasm_within cs_disasm -> ArchLaws (X86.x86_64_arch cs_disasm).
Proof.
  intros Hd. split; cbn.
  - done.
  - reflexivity.
  - intros code min_len n Hm _. unfold X86.x86_calc_patch_span.
    destruct (_ <? min_len); [done|]. destruct (cs_disasm code 0) as [insns|] eqn:Hi; [|done].
    destruct (Hd _ _ _ Hi) as [Hpos Hsum]. destruct insns as [|i insns]; [done|].
    intros (k & _ & Hn & Hle & _)%span_loop_spec; [|lia|done]. lia.
  - done.
  - intros size saved stub. unfold X86.x86_build_syscall_stub. destruct (_ =? _) eqn:He; [|done]. zbool.
    intros [= <-] Hl. apply length_patched_stub. unfold X86.ZT_X86_64_REMOTE_SYSCALL_CODE_SIZE in *. cbn. lia.
  - intros size saved f stub. unfold X86.x86_build_call_stub. destruct (_ =? _) eqn:He; [|done]. zbool.
    intros Hs Hl. apply (inj Some) in Hs as <-. apply length_patched_stub.
    unfold X86.ZT_X86_64_REMOTE_CALL_CODE_SIZE in *. rewrite !length_app, length_le_bytes. cbn. lia.
Qed.

(** Rounding up to whole instructions. *)
Lemma round_up_4 n : 0 <= n -> Z.ldiff (n + 3) 3 = 4 * ((n + 3) / 4).
Proof.
  intros Hn. change 3 with (Z.ones 2) at 2. rewrite Z.ldiff_ones_r, Z.shiftr_div_pow2, Z.shiftl_mul_pow2 by done.
  change (2 ^ 2) with 4. lia.
Qed.

#[export] Instance aarch64_laws : ArchLaws A64.aarch64_arch.
Proof.
  split; cbn.
  - done.
  - reflexivity.
  - intros code min_len n Hm Hu. unfold A64.a64_calc_patch_span, ZT_AARCH64_INSN_SIZE.
    destruct (_ <? min_len); [done|]. change (4 - 1) with 3. rewrite u64_small, round_up_4 by (done || lia).
    rewrite Z.gtb_ltb. destruct (Z.ltb_spec (Z.of_nat (length code)) (4 * ((min_len + 3) / 4))); [done|].
    intros [= <-]. Z.div_mod_to_equations; lia.
  - intros K pc size s. unfold A64.zt_remote_stub_pc. destruct (pc =? 0); [done|].
    pose proof (read_remote_mem K pc 4 s) as H1. destruct (zt_read_remote_memory K pc 4 s) as [[insn|] s1]; [|done].
    destruct (_ =? _); [|done]. pose proof (read_remote_mem K (pc +64 4) size s1) as H2.
    destruct (zt_read_remote_memory K (pc +64 4) size s1) as [[]]; cbn in *; congruence.
  - intros size saved stub. unfold A64.a64_build_syscall_stub. destruct (_ =? _) eqn:He; [|done]. zbool.
    intros Hs Hl. apply (inj Some) in Hs as <-. unfold A64.ZT_AARCH64_REMOTE_SYSCALL_CODE_SIZE in *.
    rewrite !length_app, !length_le_bytes. lia.
  - intros size saved f stub. unfold A64.a64_build_call_stub. destruct (_ =? _) eqn:He; [|done]. zbool.
    intros Hs Hl. apply (inj Some) in Hs as <-. unfold A64.ZT_AARCH64_REMOTE_CALL_CODE_SIZE in *.
    rewrite !length_app, !length_le_bytes. lia.
Qed.
