(* ===== verification/ArchSpec.v ===== *)
(** * What the probe patches do

    The jump that zt_arch_install_jump writes, executed, and the span of original
    instructions it displaces. *)

From S2P Require Import Prelude CLib Types RemoteMem RemoteMemSpec Emit X86Trampoline X86Spec.
From S2P Require Import A64Machine A64Trampoline A64Spec Arch.

(** A processor's memory that holds the mapped bytes of the target. *)
Definition sees (c : Z -> Z) (m : Z -> option Z) : Prop := forall x b, m x = Some b -> c x = b.

(** The patch of a successful installation is in memory. *)
Lemma installed_code `{Arch} K a t s s' c :
  zt_arch_install_jump K a t s = (0, s') -> 0 <= a -> a + Z.of_nat (length (jump_patch t)) + 8 <= 2 ^ 64 ->
  sees c (pm s') -> code_at c a (jump_patch t).
Proof.
  intros Hi Ha Hr Hc i b Hib. unfold zt_arch_install_jump in Hi. destruct (_ || _); [done|].
  pose proof (write_remote_spec K a (jump_patch t) s Ha Hr) as Hw. rewrite Hi in Hw. destruct Hw as (_ & Hw & _).
  apply Hc. apply lookup_lt_Some in Hib as Hl. rewrite Hw by (done || lia). rewrite <- Hib. f_equal. lia.
Qed.

(** On x86_64 the jump is one instruction that changes no register but rip. *)
Lemma x86_jump_patch_runs cc c t :
  is_u64 t -> code_at (mem c) (rip c) (X86.x86_jump_patch t) -> x86_step cc c = Some (jump t c).
Proof.
  intros Ht Hc. unfold X86.x86_jump_patch in Hc.
  change [0xFF; 0x25; 0; 0; 0; 0] with ([0xFF; 0x25] ++ le_bytes 4 0) in Hc. rewrite <- app_assoc in Hc.
  rewrite (step_jmp_mem cc c 0 _ Hc), i32_small by lia. do 2 f_equal.
  apply code_at_app in Hc as [_ Hc]. apply code_at_app in Hc as [_ Hc]. rewrite length_le_bytes in Hc.
  apply load_u64; [done|]. eapply code_at_shift; [|exact Hc]. cbn [length]. lia.
Qed.

(** On AArch64 it is two that change only x16. *)
Lemma a64_jump_patch_runs cc c t :
  is_u64 t -> 0 <= pc c -> pc c + 8 < 2 ^ 64 -> code_at (amem c) (pc c) (A64.a64_jump_patch t) ->
  exists c', a64_run cc 2 c = Some c' /\ pc c' = t /\ amem c' = amem c /\ forall r, r <> 16 -> get c' r = get c r.
Proof.
  intros Ht Ha Hr Hi. unfold A64.a64_jump_patch in Hi.
  apply code_at_app in Hi as [H1 Hi]. apply code_at_app in Hi as [H2 H3]. rewrite !length_le_bytes in *.
  assert (W1 : words_at (amem c) (pc c) [0x58000050]) by (unfold words_at, words_bytes; cbn [map concat]; by rewrite app_nil_r).
  pose proof (step_word cc c _ W1 ltac:(done)) as S1.
  change (a64_decode 0x58000050) with (OLdr 16 8) in S1. cbn [a64_exec a64_taken a64_writes] in S1.
  assert (Hlit : load (amem c) (u64 (pc c + 8)) 8 = t).
  { rewrite u64_small by (unfold is_u64; lia). apply load_u64; [done|]. eapply code_at_shift; [|exact H3]. lia. }
  rewrite Hlit in S1.
  set (c1 := goto (pc c + 4) (set 16 t c)) in S1.
  assert (W2 : words_at (amem c1) (pc c1) [0xD61F0200]) by (unfold words_at, words_bytes; cbn [map concat]; by rewrite app_nil_r).
  exists (goto t c1). cbn [a64_run]. rewrite S1, (step_word cc c1 _ W2 ltac:(done)).
  change (a64_decode 0xD61F0200) with (OBr 16). split_and!; [done..|].
  intros r Hne. change (get (goto ?x ?y) r) with (get y r). unfold c1. change (get (goto ?x ?y) r) with (get y r).
  rewrite get_set. by destruct (Z.eqb_spec r 16).
Qed.

(** The patched prologue transfers control to the trampoline.  Once the jump is
    installed, a thread that reaches the patched address continues at the
    trampoline. *)
Lemma zt_arch_install_jump_runs cs_disasm K a t s :
  is_u64 t -> 0 <= a -> a + 24 <= 2 ^ 64 ->
  (forall s' cc c, zt_arch_install_jump (H := X86.x86_64_arch cs_disasm) K a t s = (0, s') ->
    sees (mem c) (pm s') -> rip c = a -> x86_step cc c = Some (jump t c)) /\
  (forall s' cc c, zt_arch_install_jump (H := A64.aarch64_arch) K a t s = (0, s') ->
    sees (amem c) (pm s') -> pc c = a ->
    exists c', a64_run cc 2 c = Some c' /\ pc c' = t /\ amem c' = amem c /\
      forall r, r <> 16 -> get c' r = get c r).
Proof.
  intros Ht Ha Hr. split.
  - intros s' cc c Hi Hsee Hpc. apply (installed_code _ _ _ _ _ (mem c)) in Hi; [|done|cbn; lia|done].
    apply x86_jump_patch_runs; [done|]. by rewrite Hpc.
  - intros s' cc c Hi Hsee Hpc. apply (installed_code _ _ _ _ _ (amem c)) in Hi; [|done|cbn; lia|done].
    apply a64_jump_patch_runs; [done|lia|lia|]. by rewrite Hpc.
Qed.

(** A patch displaces whole instructions.  On x86_64 the span is the smallest
    sum of leading instructions that has [min_len] bytes, on AArch64 the smallest
    multiple of four; both lie within the code that was read. *)
Lemma zt_arch_calc_patch_span_minimal cs_disasm code min_len n :
  disasm_within cs_disasm -> 0 < min_len -> is_u64 (min_len + 3) ->
  (zt_arch_calc_patch_span (Arch := X86.x86_64_arch cs_disasm) code min_len = Some n ->
   exists insns k, cs_disasm code 0 = Some insns /\
     n = foldr Z.add 0 (map insn_size (take k insns)) /\ min_len <= n <= Z.of_nat (length code) /\
     forall j, (j < k)%nat -> foldr Z.add 0 (map insn_size (take j insns)) < min_len) /\
  (zt_arch_calc_patch_span (Arch := A64.aarch64_arch) code min_len = Some n ->
   n mod 4 = 0 /\ min_len <= n <= Z.of_nat (length code) /\ n < min_len + 4).
Proof.
  intros Hd Hm Hu. split.
  - intros Hn. pose proof (x86_64_laws _ Hd) as L.
    pose proof (@patch_span_bounds _ L _ _ _ Hm Hu Hn) as Hb. cbn in Hn. unfold X86.x86_calc_patch_span in Hn.
    destruct (_ <? min_len); [done|]. destruct (cs_disasm code 0) as [insns|] eqn:Hi; [|done].
    destruct (Hd _ _ _ Hi) as [Hpos _]. assert (Hs : X86.span_loop 0 min_len insns = Some n) by (by destruct insns).
    apply span_loop_spec in Hs as (k & Hk & _ & _ & Hj); [|lia|done]. exists insns, k.
    rewrite Z.add_0_l in Hk. done.
  - intros Hn. pose proof (@patch_span_bounds _ aarch64_laws _ _ _ Hm Hu Hn) as Hb. cbn in Hn.
    unfold A64.a64_calc_patch_span, ZT_AARCH64_INSN_SIZE in Hn. destruct (_ <? min_len); [done|].
    change (4 - 1) with 3 in Hn. rewrite u64_small, round_up_4 in Hn by (done || lia).
    destruct (_ >? _); [done|]. injection Hn as <-. split_and!; try lia; Z.div_mod_to_equations; lia.
Qed.

(** ** Witnesses *)

(** A disassembler for code made of nops. *)
Definition nop_insn : cs_insn := mk_insn (X86_INS_OTHER 1) 0 1 [0x90] [] 0 0 0.
Definition nop_disasm (code : list Z) (addr : Z) : option (list cs_insn) := Some (map (fun _ => nop_insn) code).

Lemma nop_disasm_within : disasm_within nop_disasm.
Proof.
  intros code addr insns [= <-]. induction code as [|b code [IH1 IH2]]; cbn; [by split|].
  split; [by constructor|]. lia.
Qed.

Lemma sees_default m : sees (fun x => default 0 (m x)) m.
Proof. by intros x b ->. Qed.

(** At 4112, with the trampoline at 0x500000. *)
Lemma zt_arch_install_jump_runs_witness :
  let '(rc, s') := zt_arch_install_jump (H := X86.x86_64_arch nop_disasm) plain_kernel 4112 0x500000 zero_page in
  let c := mk_cpu 4112 0x700000 0 (fun x => default 0 (pm s' x)) in
  rc = 0 /\ x86_step (fun _ => false) c = Some (jump 0x500000 c).
Proof.
  destruct (zt_arch_install_jump (H := X86.x86_64_arch nop_disasm) plain_kernel 4112 0x500000 zero_page) as [rc s'] eqn:Hi.
  assert (rc = 0) as -> by (change rc with (fst (rc, s')); rewrite <- Hi; vm_compute; reflexivity).
  split; [reflexivity|].
  destruct (zt_arch_install_jump_runs nop_disasm plain_kernel 4112 0x500000 zero_page) as [H _].
  - split; [discriminate|reflexivity].
  - discriminate.
  - discriminate.
  - apply (H s'); [exact Hi|apply sees_default|reflexivity].
Defined.

(** For 32 nops: the x86_64 jump displaces fourteen of them. *)
Lemma zt_arch_calc_patch_span_minimal_witness :
  exists insns k, nop_disasm (replicate 32 0x90) 0 = Some insns /\
    14 = foldr Z.add 0 (map insn_size (take k insns)).
Proof.
  destruct (zt_arch_calc_patch_span_minimal nop_disasm (replicate 32 0x90) 14 14) as [H _].
  - exact nop_disasm_within.
  - reflexivity.
  - split; [discriminate|reflexivity].
  - destruct (H eq_refl) as (insns & k & H1 & H2 & _). exists insns, k. split; [exact H1|exact H2].
Defined.
