(* ===== verification/RemoteExec.v ===== *)
(** * Remote execution (src/isa/common/zt_remote_exec.c)

    A stopped thread's code and registers are borrowed: a stub is written over the
    code at its program counter, its registers are set up, it runs until the trap
    at the end of the stub, and both are put back.  The instruction set is an
    instance of [Arch]; the kernel and the target's own execution are the
    parameter [exec_kernel]. *)

From S2P Require Import Prelude CLib Types RemoteMem RemoteMemSpec Arch.

Definition SIGTRAP : Z := 5.

Inductive wait_status_t :=
| WSTOPPED (sig : Z)
| WEXITED
| WSIGNALED.

Section exec.
Context `{A : Arch}.

(** The stopped thread: its memory and registers. *)
Record tracee_t := mk_tracee { tr_proc : proc_t; tr_regs : regs_t }.

(** Whether ptrace accepts the n-th call (for registers, with the given values), and the outcome of waitpid (a failure, or a
    status) with the state the target reached by then.  waitpid is retried while it
    is interrupted. *)
Record exec_kernel := mk_exec_kernel {
  ek_mem : kernel_t;
  ek_get_regs : nat -> bool;
  ek_set_regs : nat -> regs_t -> bool;
  ek_cont : nat -> bool;
  ek_wait : tracee_t -> option wait_status_t * tracee_t
}.

Context (E : exec_kernel).

Definition tr_call (s : tracee_t) : tracee_t := mk_tracee (pr_call (tr_proc s)) (tr_regs s).

Definition get_regs (s : tracee_t) : option regs_t * tracee_t :=
  (if ek_get_regs E (pcalls (tr_proc s)) then Some (tr_regs s) else None, tr_call s).

Definition set_regs (regs : regs_t) (s : tracee_t) : Z * tracee_t :=
  if ek_set_regs E (pcalls (tr_proc s)) regs then (0, mk_tracee (pr_call (tr_proc s)) regs) else (-1, tr_call s).

Definition ptrace_cont (s : tracee_t) : Z * tracee_t :=
  (if ek_cont E (pcalls (tr_proc s)) then 0 else -1, tr_call s).

Definition tr_read (a size : Z) (s : tracee_t) : option (list Z) * tracee_t :=
  let '(r, p) := zt_read_remote_memory (ek_mem E) a size (tr_proc s) in (r, mk_tracee p (tr_regs s)).

Definition tr_write (a : Z) (buf : list Z) (s : tracee_t) : Z * tracee_t :=
  let '(r, p) := zt_write_remote_memory (ek_mem E) a buf (tr_proc s) in (r, mk_tracee p (tr_regs s)).

(** ** The driver *)

Definition zt_arch_restore_regs_and_code (saved_regs : regs_t) (stub_pc : Z) (saved_code : list Z)
    (s : tracee_t) : Z * tracee_t :=
  let '(rc1, s) := set_regs saved_regs s in
  let '(rc2, s) := tr_write stub_pc saved_code s in
  (if (rc1 =? 0) && (rc2 =? 0) then 0 else -1, s).

(** [Some status] if waitpid returned the thread. *)
Definition zt_arch_wait_for_stub_stop (s : tracee_t) : option wait_status_t * tracee_t := ek_wait E s.

Definition restore_and_fail (saved_regs : regs_t) (stub_pc : Z) (saved_code : list Z) (s : tracee_t)
    : Z * option Z * tracee_t :=
  let '(_, s) := zt_arch_restore_regs_and_code saved_regs stub_pc saved_code s in (-1, None, s).

(** From PTRACE_CONT on. *)
Definition run_borrowed (saved_regs : regs_t) (stub_pc : Z) (saved_code : list Z) (s : tracee_t)
    : Z * option Z * tracee_t :=
  let fail := restore_and_fail saved_regs stub_pc saved_code in
  let '(rc, s) := ptrace_cont s in
  if negb (rc =? 0) then fail s
  else
    let '(status, s) := zt_arch_wait_for_stub_stop s in
    match status with
    | Some (WSTOPPED sig) =>
        if sig =? SIGTRAP then
          match get_regs s with
          | (None, s) => fail s
          | (Some regs, s) =>
              let '(rc, s) := zt_arch_restore_regs_and_code saved_regs stub_pc saved_code s in
              (rc, Some (zt_get_retval regs), s)
          end
        else fail s
    | _ => fail s
    end.

(** From the write of the stub on. *)
Definition borrow_and_run (saved_regs regs : regs_t) (stub_pc : Z) (saved_code stub_code : list Z) (s : tracee_t)
    : Z * option Z * tracee_t :=
  let '(rc, s) := tr_write stub_pc stub_code s in
  if negb (rc =? 0) then (-1, None, s)
  else
    let '(rc, s) := set_regs regs s in
    if negb (rc =? 0) then let '(_, s) := tr_write stub_pc saved_code s in (-1, None, s)
    else run_borrowed saved_regs stub_pc saved_code s.

(** The return code, what *ret_out was set to, and the thread. *)
Definition zt_arch_execute_remote_stub {T} (stub_size : Z) (prepare_regs : regs_t -> T -> Z -> regs_t)
    (build_stub : Z -> list Z -> T -> option (list Z)) (args : T) (s : tracee_t)
    : Z * option Z * tracee_t :=
  if stub_size =? 0 then (-1, None, s)
  else
    match get_regs s with
    | (None, s) => (-1, None, s)
    | (Some saved_regs, s) =>
        let '(stub_pc, p) := select_stub_pc (ek_mem E) (zt_get_pc saved_regs) stub_size (tr_proc s) in
        let s := mk_tracee p (tr_regs s) in
        if stub_pc =? 0 then (-1, None, s)
        else
          match tr_read stub_pc stub_size s with
          | (None, s) => (-1, None, s)
          | (Some saved_code, s) =>
              match build_stub stub_size saved_code args with
              | None => (-1, None, s)
              | Some stub_code =>
                  borrow_and_run saved_regs (prepare_regs saved_regs args stub_pc) stub_pc saved_code stub_code s
              end
          end
    end.

Definition zt_arch_prepare_syscall_regs_bridge (saved_regs : regs_t) (ctx : zt_arch_remote_syscall_args_t) (stub_pc : Z) : regs_t :=
  zt_prepare_syscall_regs saved_regs ctx stub_pc.

Definition zt_arch_prepare_call_regs_bridge (saved_regs : regs_t) (ctx : zt_arch_remote_call_args_t) (stub_pc : Z) : regs_t :=
  zt_prepare_call_regs saved_regs ctx stub_pc.

Definition zt_arch_build_syscall_stub_bridge (stub_size : Z) (saved_code : list Z) (ctx : zt_arch_remote_syscall_args_t)
    : option (list Z) := zt_build_syscall_stub stub_size saved_code.

Definition zt_arch_build_call_stub_bridge (stub_size : Z) (saved_code : list Z) (ctx : zt_arch_remote_call_args_t)
    : option (list Z) := zt_build_call_stub stub_size saved_code (ca_func_addr ctx).

Definition zt_arch_execute_syscall6 (args : zt_arch_remote_syscall_args_t) (s : tracee_t) : Z * option Z * tracee_t :=
  zt_arch_execute_remote_stub syscall_code_size zt_arch_prepare_syscall_regs_bridge zt_arch_build_syscall_stub_bridge args s.

Definition zt_arch_execute_call2 (args : zt_arch_remote_call_args_t) (s : tracee_t) : Z * option Z * tracee_t :=
  zt_arch_execute_remote_stub call_code_size zt_arch_prepare_call_regs_bridge zt_arch_build_call_stub_bridge args s.

Definition zt_arch_remote_syscall6 (syscall_no arg1 arg2 arg3 arg4 arg5 arg6 : Z) (s : tracee_t)
    : Z * option Z * tracee_t :=
  zt_arch_execute_syscall6 (mk_syscall_args syscall_no arg1 arg2 arg3 arg4 arg5 arg6) s.

Definition zt_arch_remote_call2 (func_addr arg1 arg2 : Z) (s : tracee_t) : Z * option Z * tracee_t :=
  zt_arch_execute_call2 (mk_call_args func_addr arg1 arg2) s.

(** ** Remote mappings (src/zt_injector.c) *)

Definition zt_remote_syscall_return_is_error (ret : Z) : bool :=
  let signed_ret := i64 ret in (signed_ret <? 0) && (signed_ret >=? -4095).

(** The mapped address, or [None] for -1. *)
Definition zt_remote_mmap (size prot flags : Z) (s : tracee_t) : option Z * tracee_t :=
  if size =? 0 then (None, s)
  else
    match zt_arch_remote_syscall6 SYS_mmap 0 size (u64 prot) (u64 flags) (u64 (-1)) 0 s with
    | (0, Some ret, s) => (if zt_remote_syscall_return_is_error ret then None else Some ret, s)
    | (_, _, s) => (None, s)
    end.

Definition zt_remote_munmap (remote_addr size : Z) (s : tracee_t) : Z * tracee_t :=
  if (remote_addr =? 0) || (size =? 0) then (-1, s)
  else
    match zt_arch_remote_syscall6 SYS_munmap remote_addr size 0 0 0 0 s with
    | (0, Some ret, s) => (if zt_remote_syscall_return_is_error ret then -1 else 0, s)
    | (_, _, s) => (-1, s)
    end.

Definition zt_remote_call2 (func_addr arg1 arg2 : Z) (s : tracee_t) : Z * option Z * tracee_t :=
  zt_arch_remote_call2 func_addr arg1 arg2 s.
End exec.

(** ** Code and registers are given back *)

Section restore.
Context `{A : Arch} (E : exec_kernel).

Definition tm (s : tracee_t) : Z -> option Z := pm (tr_proc s).

(** Addresses at which a range of [n] bytes can be read and written. *)
Definition addr_ok (a : Z) (n : nat) : Prop := 0 <= a /\ a + Z.of_nat n + 8 <= 2 ^ 64.

(** The range holds [code]; everything else is as in [m]. *)
Definition overlaid (m m' : Z -> option Z) (a : Z) (code : list Z) : Prop :=
  forall x, m' x = if decide (in_range a (length code) x) then code !! Z.to_nat (x - a) else m x.

Lemma tr_write_spec a buf s :
  addr_ok a (length buf) ->
  let '(rc, s') := tr_write E a buf s in
  tr_regs s' = tr_regs s /\ (rc = 0 -> overlaid (tm s) (tm s') a buf) /\ (rc = 0 \/ rc = -1) /\
  forall x, ~ in_range a (length buf) x -> tm s' x = tm s x.
Proof.
  intros [Ha Hr]. unfold tr_write. pose proof (write_remote_spec (ek_mem E) a buf (tr_proc s) Ha Hr) as H.
  destruct (zt_write_remote_memory (ek_mem E) a buf (tr_proc s)) as [rc p]. destruct H as (Hb & Hw & Hrc).
  unfold tm. cbn [tr_regs tr_proc].
  assert (Hout : forall x, ~ in_range a (length buf) x -> pm p x = pm (tr_proc s) x).
  { intros x Hx. by destruct (Hb x) as [?|[? _]]. }
  split_and!; try done. intros H0 x. destruct (decide (in_range a (length buf) x)) as [Hx|Hx]; [by apply Hw|by apply Hout].
Qed.

(** The restore of the saved state. *)
Lemma restore_spec saved pc code s rc s' :
  addr_ok pc (length code) -> zt_arch_restore_regs_and_code E saved pc code s = (rc, s') ->
  (rc = 0 -> tr_regs s' = saved /\ overlaid (tm s) (tm s') pc code) /\ (rc = 0 \/ rc = -1).
Proof.
  intros Hok. unfold zt_arch_restore_regs_and_code. destruct (set_regs E saved s) as [rc1 s1] eqn:Hset.
  pose proof (tr_write_spec pc code s1 Hok) as Hw. destruct (tr_write E pc code s1) as [rc2 s2].
  destruct Hw as (Hregs & Hov & _). intros [= <- <-]. destruct (_ && _) eqn:Hb; [|by split; [|right]].
  split; [|by left]. intros _. zbool. subst. unfold set_regs in Hset. destruct (ek_set_regs E _ _); [|done].
  injection Hset as <-. split; [done|by apply Hov].
Qed.

(** The kernel does not refuse to put things back: it accepts the registers the
    thread had (it may refuse any others), transfers writes to the range whole, and
    the target did not unmap the range while it ran. *)
Record restorable (saved : regs_t) (pc : Z) (n : nat) : Prop := {
  rs_regs : forall k, ek_set_regs E k saved = true;
  rs_write : forall k, Z.of_nat n <= k_vm_writev (ek_mem E) k pc (Z.of_nat n);
  rs_mapped : forall s status s', ek_wait E s = (status, s') ->
    (forall x, in_range pc n x -> tm s x <> None) -> forall x, in_range pc n x -> tm s' x <> None
}.

Lemma mapped_prefix_range m a n : (forall x, in_range a n x -> m x <> None) -> mapped_prefix m a n = Z.of_nat n.
Proof.
  revert a. induction n as [|n IH]; intros a H; [done|]. cbn. pose proof (H a ltac:(unfold in_range; lia)).
  destruct (m a); [|done]. rewrite IH; [lia|]. intros x Hx. apply H. unfold in_range in *. lia.
Qed.

Lemma tr_write_succeeds a buf s :
  (forall k, Z.of_nat (length buf) <= k_vm_writev (ek_mem E) k a (Z.of_nat (length buf))) -> buf <> [] ->
  (forall x, in_range a (length buf) x -> tm s x <> None) -> fst (tr_write E a buf s) = 0.
Proof.
  intros Hk Hne Hm. unfold tr_write, zt_write_remote_memory, process_vm_writev, transferred.
  rewrite Nat2Z.id, mapped_prefix_range by done. specialize (Hk (pcalls (tr_proc s))).
  destruct (Z.eqb_spec (Z.of_nat (length buf)) 0); [by destruct buf|].
  destruct (Z.ltb_spec (k_vm_writev (ek_mem E) (pcalls (tr_proc s)) a (Z.of_nat (length buf))) 0); [lia|].
  by rewrite !Z.min_r, Z.eqb_refl by lia.
Qed.

Definition mapped (m : Z -> option Z) (a : Z) (n : nat) : Prop := forall x, in_range a n x -> m x <> None.

(** Registers and code as the thread had them. *)
Definition given_back (s' : tracee_t) (saved : regs_t) (pc : Z) (code : list Z) : Prop :=
  tr_regs s' = saved /\ forall x, in_range pc (length code) x -> tm s' x = code !! Z.to_nat (x - pc).

Lemma overlaid_in m m' a code x : overlaid m m' a code -> in_range a (length code) x -> m' x = code !! Z.to_nat (x - a).
Proof. intros H Hx. rewrite H. by destruct (decide _). Qed.

Lemma overlaid_out m m' a code x : overlaid m m' a code -> ~ in_range a (length code) x -> m' x = m x.
Proof. intros H Hx. rewrite H. by destruct (decide _). Qed.

Lemma restore_succeeds saved pc code s rc s' :
  addr_ok pc (length code) -> restorable saved pc (length code) -> code <> [] -> mapped (tm s) pc (length code) ->
  zt_arch_restore_regs_and_code E saved pc code s = (rc, s') -> given_back s' saved pc code.
Proof.
  intros Hok [Hset Hw _] Hne Hm Hr. pose proof (restore_spec _ _ _ _ _ _ Hok Hr) as [H0 _].
  assert (rc = 0) as ->.
  { unfold zt_arch_restore_regs_and_code, set_regs in Hr. rewrite Hset in Hr.
    pose proof (tr_write_succeeds pc code (mk_tracee (pr_call (tr_proc s)) saved) Hw Hne Hm) as Hf.
    destruct (tr_write E pc code _) as [rc2 s2]. cbn [fst] in Hf. subst rc2. by injection Hr. }
  destruct (H0 eq_refl) as [Hregs Hov]. split; [done|]. intros x Hx. by apply (overlaid_in _ _ _ _ _ Hov).
Qed.

Lemma fail_given_back saved pc code s s' :
  addr_ok pc (length code) -> restorable saved pc (length code) -> code <> [] -> mapped (tm s) pc (length code) ->
  restore_and_fail E saved pc code s = (-1, None, s') -> given_back s' saved pc code.
Proof.
  intros Hok Hres Hne Hm. unfold restore_and_fail.
  destruct (zt_arch_restore_regs_and_code E saved pc code s) as [rc s1] eqn:Hr. intros [= <-].
  by apply (restore_succeeds _ _ _ s rc).
Qed.

Lemma fail_rc saved pc code s : exists s', restore_and_fail E saved pc code s = (-1, None, s').
Proof. unfold restore_and_fail. destruct (zt_arch_restore_regs_and_code E saved pc code s) as [rc s1]. by exists s1. Qed.

(** The outcome of a borrowed run that reported success. *)
Definition stub_ran (sr s' : tracee_t) (pc : Z) (code : list Z) (ret : option Z) : Prop :=
  exists sx, ek_wait E sr = (Some (WSTOPPED SIGTRAP), sx) /\ ret = Some (zt_get_retval (tr_regs sx)) /\
    overlaid (tm sx) (tm s') pc code.

Lemma run_borrowed_spec saved pc code s rc ret s' :
  addr_ok pc (length code) -> run_borrowed E saved pc code s = (rc, ret, s') ->
  (rc = 0 -> tr_regs s' = saved /\ stub_ran (tr_call s) s' pc code ret) /\
  (restorable saved pc (length code) -> code <> [] -> mapped (tm s) pc (length code) -> given_back s' saved pc code).
Proof.
  intros Hok. unfold run_borrowed, ptrace_cont.
  assert (Hfail : forall s1, (mapped (tm s) pc (length code) -> restorable saved pc (length code) -> mapped (tm s1) pc (length code)) ->
    restore_and_fail E saved pc code s1 = (rc, ret, s') ->
    (rc = 0 -> tr_regs s' = saved /\ stub_ran (tr_call s) s' pc code ret) /\
    (restorable saved pc (length code) -> code <> [] -> mapped (tm s) pc (length code) -> given_back s' saved pc code)).
  { intros s1 Hm Hf. destruct (fail_rc saved pc code s1) as [s2 H2]. rewrite H2 in Hf. injection Hf as <- <- <-.
    split; [done|]. intros Hr Hne Hm0. apply (fail_given_back saved pc code s1); auto. }
  destruct (ek_cont E _); cbn [Z.eqb negb]; [|by apply Hfail].
  unfold zt_arch_wait_for_stub_stop. destruct (ek_wait E (tr_call s)) as [status s1] eqn:Hw.
  assert (Hm1 : mapped (tm s) pc (length code) -> restorable saved pc (length code) -> mapped (tm s1) pc (length code)).
  { intros Hm [_ _ Hr]. exact (Hr _ _ _ Hw Hm). }
  destruct status as [[sig| |]|]; try (by apply Hfail).
  destruct (Z.eqb_spec sig SIGTRAP) as [->|]; [|by apply Hfail].
  unfold get_regs. destruct (ek_get_regs E _); [|by apply Hfail].
  destruct (zt_arch_restore_regs_and_code E saved pc code (tr_call s1)) as [rc1 s2] eqn:Hr.
  pose proof (restore_spec _ _ _ _ _ _ Hok Hr) as [H0 _]. intros [= <- <- <-]. split.
  - intros ->. destruct (H0 eq_refl) as [Hregs Hov]. split; [done|]. by exists s1.
  - intros Hres Hne Hm. apply (restore_succeeds _ _ _ (tr_call s1) rc1); auto.
Qed.

Lemma lookup_range (code : list Z) a x : in_range a (length code) x -> code !! Z.to_nat (x - a) <> None.
Proof. unfold in_range. intros Hx Hn. apply lookup_ge_None in Hn. lia. Qed.

Lemma overlaid_mapped m m' a code : overlaid m m' a code -> mapped m' a (length code).
Proof. intros H x Hx. rewrite (overlaid_in _ _ _ _ _ H Hx). by apply lookup_range. Qed.

Lemma borrow_and_run_spec regs pc saved stub s rc ret s' :
  borrow_and_run E (tr_regs s) regs pc saved stub s = (rc, ret, s') ->
  addr_ok pc (length saved) -> length stub = length saved -> saved <> [] ->
  (forall x, in_range pc (length saved) x -> tm s x = saved !! Z.to_nat (x - pc)) ->
  (rc = 0 -> tr_regs s' = tr_regs s /\
    exists sr, tr_regs sr = regs /\ overlaid (tm s) (tm sr) pc stub /\ stub_ran sr s' pc saved ret) /\
  (restorable (tr_regs s) pc (length saved) -> given_back s' (tr_regs s) pc saved).
Proof.
  intros Hex Hok Hlb Hne Hold. unfold borrow_and_run in Hex.
  assert (Hmap : mapped (tm s) pc (length saved)) by (intros x Hx; rewrite Hold by done; by apply lookup_range).
  pose proof (tr_write_spec pc stub s ltac:(by rewrite Hlb)) as Hws.
  destruct (tr_write E pc stub s) as [rc1 s1] eqn:Hwr. destruct Hws as (Hr1 & Hov & Hrc & _).
  destruct (Z.eqb_spec rc1 0) as [->|Hn]; cbn [negb] in Hex.
  2:{ injection Hex as <- <- <-. split; [done|]. intros [_ Hw _]. rewrite <- Hlb in Hw, Hmap.
      pose proof (tr_write_succeeds pc stub s Hw) as Hf. rewrite Hwr in Hf. exfalso. apply Hn, Hf; [|done].
      intros ->. by destruct saved. }
  specialize (Hov eq_refl). unfold set_regs in Hex. destruct (ek_set_regs E _ _) eqn:Hset; cbn [negb Z.eqb] in Hex.
  - apply run_borrowed_spec in Hex as [H0 Hgb]; [|done]. split.
    + intros Hrc0. destruct (H0 Hrc0) as [Hregs Hran]. split; [done|]. by exists (tr_call (mk_tracee (pr_call (tr_proc s1)) regs)).
    + intros Hres. apply Hgb; [done|done|]. apply overlaid_mapped in Hov. by rewrite <- Hlb.
  - apply overlaid_mapped in Hov. rewrite Hlb in Hov.
    pose proof (tr_write_spec pc saved (tr_call s1) Hok) as Hback.
    pose proof (fun Hw => tr_write_succeeds pc saved (tr_call s1) Hw Hne Hov) as Hsucc.
    destruct (tr_write E pc saved (tr_call s1)) as [rc2 s2]. injection Hex as <- <- <-. split; [done|].
    intros [_ Hw _]. destruct Hback as (Hr2 & Hov2 & _). split; [by rewrite Hr2|].
    intros x Hx. by apply (overlaid_in _ _ _ _ _ (Hov2 (Hsucc Hw))).
Qed.

(** C30: remote execution gives code and registers back.  If it reports success, the
    thread's registers and the bytes under the stub are those from before, the
    stub ran to its trap from the prepared registers with nothing else of the
    memory changed by the injector, and the result is the return register at the
    trap.  If it fails (a read fails, the stub cannot be built, the kernel refuses
    the prepared registers, the run or the wait fails, the thread stops for another
    reason, the registers cannot be read), the same is given back, provided the
    kernel accepts the registers the thread had, transfers writes to the stub's
    range whole, and the range was not unmapped meanwhile.  A write of the stub
    that the kernel cuts short is therefore not covered: partial_stub_write_left
    shows that its bytes stay. *)
Theorem zt_arch_execute_remote_stub_restores {T} size prepare build (args : T) s rc ret s' :
  ArchLaws A -> zt_arch_execute_remote_stub E size prepare build args s = (rc, ret, s') ->
  (forall saved stub, build size saved args = Some stub -> Z.of_nat (length saved) = size -> length stub = length saved) ->
  let pc := fst (select_stub_pc (ek_mem E) (zt_get_pc (tr_regs s)) size (pr_call (tr_proc s))) in
  let n := Z.to_nat size in
  0 <= size -> addr_ok pc n ->
  (rc = 0 ->
    tr_regs s' = tr_regs s /\ (forall x, in_range pc n x -> tm s' x = tm s x) /\
    exists saved stub sr, read_bytes (tm s) pc n = Some saved /\ build size saved args = Some stub /\
      tr_regs sr = prepare (tr_regs s) args pc /\ overlaid (tm s) (tm sr) pc stub /\ stub_ran sr s' pc saved ret) /\
  (restorable (tr_regs s) pc n -> tr_regs s' = tr_regs s /\ forall x, in_range pc n x -> tm s' x = tm s x).
Proof.
  intros HL Hex Hlen pc n Hsz [Hpc Hend]. unfold zt_arch_execute_remote_stub in Hex.
  destruct (Z.eqb_spec size 0) as [->|Hnz]; [by injection Hex as <- <- <-|].
  unfold get_regs in Hex. destruct (ek_get_regs E _); [|by injection Hex as <- <- <-].
  pose proof (select_stub_pc_mem (ek_mem E) (zt_get_pc (tr_regs s)) size (pr_call (tr_proc s))) as Hsel.
  cbn [tr_call tr_proc tr_regs] in Hex. unfold pc in *. clear pc.
  destruct (select_stub_pc _ _ _ _) as [pc p0]. cbn [fst snd] in *. change (pm (pr_call ?q)) with (pm q) in Hsel.
  destruct (pc =? 0); [by injection Hex as <- <- <-; unfold tm; cbn; rewrite Hsel|].
  unfold tr_read in Hex. cbn [tr_proc tr_regs] in Hex.
  pose proof (read_remote_spec (ek_mem E) pc size p0 Hpc ltac:(lia) Hsz) as Hread.
  destruct (zt_read_remote_memory (ek_mem E) pc size p0) as [[saved|] p1]; destruct Hread as [Hm1 Hread];
    [|by injection Hex as <- <- <-; unfold tm; cbn; rewrite Hm1, Hsel].
  specialize (Hread _ eq_refl). fold n in Hread. rewrite Hsel in Hread, Hm1.
  destruct (build size saved args) as [stub|] eqn:Hbuild; [|by injection Hex as <- <- <-; unfold tm; cbn; rewrite Hm1].
  pose proof (read_bytes_length _ _ _ _ Hread) as Hls. set (s1 := mk_tracee p1 (tr_regs s)) in Hex.
  assert (Hmem : tm s1 = tm s) by exact Hm1.
  assert (Hold : forall x, in_range pc n x -> tm s x = saved !! Z.to_nat (x - pc)).
  { intros x Hx. unfold in_range in Hx. rewrite <- (read_bytes_get _ _ _ _ _ Hread) by lia. unfold tm. f_equal. lia. }
  change (tr_regs s) with (tr_regs s1) in Hex at 1.
  apply borrow_and_run_spec in Hex as [H0 Hgb]; rewrite ?Hls, ?Hmem in *;
    [|split; lia|apply (Hlen saved) in Hbuild; lia|intros ->; cbn in Hls; lia|done].
  split.
  - intros Hrc. destruct (H0 Hrc) as (Hregs & sr & Hr & Hov & Hran). split; [done|]. split.
    + intros x Hx. rewrite Hold by done. destruct Hran as (sx & _ & _ & Hov').
      apply (overlaid_in _ _ _ _ _ Hov'). by rewrite Hls.
    + by exists saved, stub, sr.
  - intros Hres. destruct (Hgb Hres) as [Hregs Hcode]. split; [done|].
    intros x Hx. rewrite Hold by done. apply Hcode. by rewrite Hls.
Qed.
End restore.

(** ** Witnesses *)

(** A thread at 4096 in a page of zeros; it runs to the trap with 77 in x0. *)
Definition sample_tracee : tracee_t (A := A64.aarch64_arch) :=
  mk_tracee (A := A64.aarch64_arch) zero_page (A64.mk_regs (replicate 31 0) 0 4096 0).

Definition sample_exec_kernel (mem : kernel_t) : exec_kernel (A := A64.aarch64_arch) :=
  mk_exec_kernel (A := A64.aarch64_arch) mem (fun _ => true) (fun _ _ => true) (fun _ => true)
    (fun s => (Some (WSTOPPED SIGTRAP),
       mk_tracee (A := A64.aarch64_arch) (tr_proc s) (A64.mk_regs (77 :: replicate 30 0) 0 4100 0))).

(** A kernel that accepts only registers with 0 in x8: not the prepared ones. *)
Definition refusing_kernel : exec_kernel (A := A64.aarch64_arch) :=
  mk_exec_kernel (A := A64.aarch64_arch) plain_kernel (fun _ => true)
    (fun _ r => nth 8 (A64.regs r) 0 =? 0) (fun _ => true) (fun s => (None, s)).

Definition mmap_args : zt_arch_remote_syscall_args_t := mk_syscall_args 222 0 4096 7 34 0 0.

(** C30 for a remote mmap system call that returns 77, and for one whose registers
    the kernel refuses after the stub was written. *)
Lemma zt_arch_execute_remote_stub_restores_witness :
  (let '(rc, ret, s') := zt_arch_execute_syscall6 (sample_exec_kernel plain_kernel) mmap_args sample_tracee in
   rc = 0 /\ tr_regs s' = tr_regs sample_tracee /\ tm s' 4096 = Some 0) /\
  (let '(rc, ret, s') := zt_arch_execute_syscall6 refusing_kernel mmap_args sample_tracee in
   rc = -1 /\ tr_regs s' = tr_regs sample_tracee /\ tm s' 4096 = Some 0).
Proof.
  split.
  - destruct (zt_arch_execute_syscall6 (sample_exec_kernel plain_kernel) mmap_args sample_tracee) as [[rc ret] s'] eqn:Hex.
    assert (Hrc : rc = 0) by (change rc with (fst (fst (rc, ret, s'))); rewrite <- Hex; vm_compute; reflexivity).
    destruct (zt_arch_execute_remote_stub_restores (sample_exec_kernel plain_kernel) _ _ _ _ _ _ _ _
      aarch64_laws Hex) as [H _].
    + intros saved stub. apply syscall_stub_length.
    + discriminate.
    + split; [vm_compute; discriminate|vm_compute; discriminate].
    + destruct (H Hrc) as (H1 & H2 & _). split; [exact Hrc|]. split; [exact H1|].
      rewrite H2; [reflexivity|]. split; vm_compute; [discriminate|reflexivity].
  - destruct (zt_arch_execute_syscall6 refusing_kernel mmap_args sample_tracee) as [[rc ret] s'] eqn:Hex.
    assert (Hrc : rc = -1) by (change rc with (fst (fst (rc, ret, s'))); rewrite <- Hex; vm_compute; reflexivity).
    destruct (zt_arch_execute_remote_stub_restores refusing_kernel _ _ _ _ _ _ _ _
      aarch64_laws Hex) as [_ H].
    + intros saved stub. apply syscall_stub_length.
    + discriminate.
    + split; [vm_compute; discriminate|vm_compute; discriminate].
    + destruct H as [H1 H2].
      * split; [intros k; reflexivity|intros k; vm_compute; discriminate|].
        intros s status s1 Hw Hm. injection Hw as _ <-. exact Hm.
      * split; [exact Hrc|]. split; [exact H1|].
        rewrite H2; [reflexivity|]. split; vm_compute; [discriminate|reflexivity].
Defined.

(** A write of the stub that the kernel cuts short is not undone: the driver returns
    -1 with the first bytes of the stub left in the target's code. *)
Lemma partial_stub_write_left :
  let '(rc, _, s') := zt_arch_execute_syscall6
    (sample_exec_kernel (mk_kernel (fun _ _ size => size) (fun _ _ _ => 2) (fun _ _ => true) (fun _ _ => false)))
    (mk_syscall_args 222 0 4096 7 34 0 0) sample_tracee in
  rc = -1 /\ tm sample_tracee 4096 = Some 0 /\ tm s' 4096 = Some 0x01.
Proof. vm_compute. done. Qed.
