(* ===== verification/Threads.v ===== *)
(** * Thread-group control (src/zt_injector.c)

    Seizing, stopping and resuming every thread of the target, and moving stopped
    threads out of the code that is about to be patched.  The thread table is the
    list of its first [thread_count] entries; the calls into the kernel are the
    operations of [thread_kernel], answered call by call. *)

From S2P Require Import Prelude CLib Types.

(** ** State *)

Record zt_thread_info_t := mk_thread { th_tid : Z; th_stopped : Z; th_resume_signal : Z }.

Definition zero_thread : zt_thread_info_t := mk_thread 0 0 0.
Definition ZT_THREADS_CAPACITY : Z := 256.

Record zt_injector_session_t := mk_session {
  ses_pid : Z;
  ses_next_probe_id : Z;
  ses_probe_count : Z;
  ses_threads_stopped : Z;
  ses_target_exited : Z;
  ses_threads : list zt_thread_info_t;
  ses_probes : list zt_probe_info_t
}.

Definition ses_set_threads (ths : list zt_thread_info_t) (s : zt_injector_session_t) : zt_injector_session_t :=
  mk_session (ses_pid s) (ses_next_probe_id s) (ses_probe_count s) (ses_threads_stopped s) (ses_target_exited s)
    ths (ses_probes s).
Definition ses_set_stopped (x : Z) (s : zt_injector_session_t) : zt_injector_session_t :=
  mk_session (ses_pid s) (ses_next_probe_id s) (ses_probe_count s) x (ses_target_exited s)
    (ses_threads s) (ses_probes s).
Definition ses_set_exited (s : zt_injector_session_t) : zt_injector_session_t :=
  mk_session (ses_pid s) (ses_next_probe_id s) (ses_probe_count s) 0 1 (ses_threads s) (ses_probes s).

(** ** The kernel's interface *)

Inductive ptrace_result := PtOk | PtEsrch | PtError.

(** A wait status: a stop with its signal and ptrace event, an exit, or neither. *)
Inductive wstatus := WsStopped (sig event : Z) | WsExited | WsSignaled | WsOther.

(** waitpid on one thread: a status, the thread is gone, or an error. *)
Inductive wait_result := WrStatus (st : wstatus) | WrGone | WrError.

(** How the queue of a polling waitpid ends. *)
Inductive poll_end := PeNone | PeNoChild | PeError.

(** The answers to the n-th call.  [tk_tasks] lists the thread ids of
    /proc/<pid>/task; [tk_step] is the program counter after a single step. *)
Record thread_kernel := mk_thread_kernel {
  tk_tasks : nat -> option (list Z);
  tk_seize : nat -> Z -> ptrace_result;
  tk_interrupt : nat -> Z -> ptrace_result;
  tk_cont : nat -> Z -> ptrace_result;
  tk_singlestep : nat -> Z -> ptrace_result;
  tk_step : nat -> Z -> Z -> Z;
  tk_wait : nat -> Z -> wait_result;
  tk_getregs : nat -> Z -> ptrace_result;
  tk_events : nat -> list (Z * wstatus) * poll_end;
  tk_exited : nat -> bool
}.

(** The kernel's side: the number of calls so far, each thread's program counter,
    the signals delivered when threads were resumed, the threads in a ptrace-stop
    that waitpid has reported, and the last listing of the task directory (its call
    and what it returned).  A reported thread stays stopped until a request of the
    tracer resumes it or its end is reported. *)
Record kstate := mk_kstate {
  ks_calls : nat;
  ks_pc : Z -> Z;
  ks_sent : list (Z * Z);
  ks_halted : Z -> bool;
  ks_listed : nat * list Z
}.

Definition ks_tick (k : kstate) : kstate :=
  mk_kstate (S (ks_calls k)) (ks_pc k) (ks_sent k) (ks_halted k) (ks_listed k).
Definition ks_set_halted (tid : Z) (b : bool) (k : kstate) : kstate :=
  mk_kstate (ks_calls k) (ks_pc k) (ks_sent k) (fun t => if t =? tid then b else ks_halted k t) (ks_listed k).

(** The listing of the task directory. *)
Definition ks_list (tids : list Z) (k : kstate) : kstate :=
  mk_kstate (S (ks_calls k)) (ks_pc k) (ks_sent k) (ks_halted k) (ks_calls k, tids).

(** A thread is resumed with a signal (0 for none). *)
Definition ks_send (tid sig : Z) (k : kstate) : kstate :=
  ks_set_halted tid false
    (mk_kstate (S (ks_calls k)) (ks_pc k) (if sig =? 0 then ks_sent k else ks_sent k ++ [(tid, sig)])
       (ks_halted k) (ks_listed k)).
Definition ks_move (tid pc : Z) (k : kstate) : kstate :=
  mk_kstate (ks_calls k) (fun t => if t =? tid then pc else ks_pc k t) (ks_sent k) (ks_halted k) (ks_listed k).

(** waitpid reports a status of a thread. *)
Definition ks_report (tid : Z) (st : wstatus) (k : kstate) : kstate :=
  match st with
  | WsStopped _ _ => ks_set_halted tid true (ks_tick k)
  | WsExited | WsSignaled => ks_set_halted tid false (ks_tick k)
  | WsOther => ks_tick k
  end.

(** A loop over the thread table that stops at the first non-zero code. *)
Fixpoint for_threads (f : zt_thread_info_t -> kstate -> Z * zt_thread_info_t * kstate)
    (ths : list zt_thread_info_t) (k : kstate) : Z * list zt_thread_info_t * kstate :=
  match ths with
  | [] => (0, [], k)
  | t :: ths =>
      let '(rc, t, k) := f t k in
      if rc =? 0 then let '(rc, ths, k) := for_threads f ths k in (rc, t :: ths, k)
      else (rc, t :: ths, k)
  end.

(** ** Threads *)

Definition zt_session_find_thread (s : zt_injector_session_t) (tid : Z) : option zt_thread_info_t :=
  if tid <=? 0 then None else find (fun t => th_tid t =? tid) (ses_threads s).

Definition zt_thread_clear (t : zt_thread_info_t) : zt_thread_info_t := zero_thread.

Definition zt_thread_mark_running (t : zt_thread_info_t) : zt_thread_info_t := mk_thread (th_tid t) 0 0.

Definition zt_session_add_thread (s : zt_injector_session_t) (tid : Z) : Z * zt_injector_session_t :=
  if tid <=? 0 then (-1, s)
  else
    match zt_session_find_thread s tid with
    | Some _ => (0, s)
    | None =>
        if Z.of_nat (length (ses_threads s)) >=? ZT_THREADS_CAPACITY then (-1, s)
        else (0, ses_set_threads (ses_threads s ++ [mk_thread tid 0 0]) s)
    end.

Definition zt_session_mark_target_exited (s : zt_injector_session_t) : zt_injector_session_t := ses_set_exited s.

Definition zt_wait_status_is_thread_exit (st : wstatus) : bool :=
  match st with WsExited | WsSignaled => true | _ => false end.

(** The session, and *target_exited_out. *)
Definition zt_session_note_thread_exit (s : zt_injector_session_t) (tid out : Z) : zt_injector_session_t * Z :=
  if tid =? ses_pid s then (zt_session_mark_target_exited s, 1) else (s, out).

Definition PTRACE_EVENT_STOP : Z := 128.
Definition SIGTRAP : Z := 5.

Definition zt_resume_signal_from_status (st : wstatus) : Z :=
  match st with
  | WsStopped stop_sig event =>
      if (event =? PTRACE_EVENT_STOP) || (stop_sig =? SIGTRAP) || (stop_sig =? Z.lor SIGTRAP 0x80) then 0 else stop_sig
  | _ => 0
  end.

Definition zt_thread_mark_stopped (t : zt_thread_info_t) (st : wstatus) : zt_thread_info_t :=
  mk_thread (th_tid t) 1 (zt_resume_signal_from_status st).

Definition zt_compact_threads (s : zt_injector_session_t) : zt_injector_session_t :=
  ses_set_threads (List.filter (fun t => negb (th_tid t <=? 0)) (ses_threads s)) s.

Definition zt_session_has_unstopped_thread (s : zt_injector_session_t) : bool :=
  existsb (fun t => (th_tid t >? 0) && (th_stopped t =? 0)) (ses_threads s).

Section control.
Context (K : thread_kernel).

Definition zt_injector_seize_thread (s : zt_injector_session_t) (tid : Z) (k : kstate)
    : Z * zt_injector_session_t * kstate :=
  match zt_session_find_thread s tid with
  | Some _ => (0, s, k)
  | None =>
      match tk_seize K (ks_calls k) tid with
      | PtEsrch => (0, s, ks_tick k)
      | PtError => (-1, s, ks_tick k)
      | PtOk => let '(rc, s) := zt_session_add_thread s tid in (rc, s, ks_tick k)
      end
  end.

(** The readdir loop: entries that are not positive numbers are skipped. *)
Fixpoint seize_loop (tids : list Z) (s : zt_injector_session_t) (k : kstate) : Z * zt_injector_session_t * kstate :=
  match tids with
  | [] => (0, s, k)
  | tid :: tids =>
      if tid <=? 0 then seize_loop tids s k
      else
        let '(rc, s, k) := zt_injector_seize_thread s tid k in
        if rc =? 0 then seize_loop tids s k else (-1, s, k)
  end.

Definition zt_injector_refresh_threads (s : zt_injector_session_t) (k : kstate) : Z * zt_injector_session_t * kstate :=
  if ses_pid s <=? 0 then (-1, s, k)
  else
    match tk_tasks K (ks_calls k) with
    | None => (-1, s, ks_tick k)
    | Some tids => seize_loop tids s (ks_list tids k)
    end.

Definition zt_wait_for_thread_stop (t : zt_thread_info_t) (k : kstate) : Z * zt_thread_info_t * kstate :=
  if th_tid t <=? 0 then (-1, t, k)
  else
    match tk_wait K (ks_calls k) (th_tid t) with
    | WrStatus (WsStopped sig event) =>
        (0, zt_thread_mark_stopped t (WsStopped sig event), ks_report (th_tid t) (WsStopped sig event) k)
    | WrStatus st =>
        if zt_wait_status_is_thread_exit st then (0, zt_thread_clear t, ks_report (th_tid t) st k)
        else (-1, t, ks_report (th_tid t) st k)
    | WrGone => (0, zt_thread_clear t, ks_tick k)
    | WrError => (-1, t, ks_tick k)
    end.

(** ** Stopping the group *)

(** The bodies of the two loops of a pass. *)
Definition interrupt_one (t : zt_thread_info_t) (k : kstate) : Z * zt_thread_info_t * kstate :=
  if (th_tid t <=? 0) || negb (th_stopped t =? 0) then (0, t, k)
  else
    match tk_interrupt K (ks_calls k) (th_tid t) with
    | PtOk => (0, t, ks_tick k)
    | PtEsrch => (0, zt_thread_clear t, ks_tick k)
    | PtError => (-1, t, ks_tick k)
    end.

Definition wait_one (t : zt_thread_info_t) (k : kstate) : Z * zt_thread_info_t * kstate :=
  if (th_tid t <=? 0) || negb (th_stopped t =? 0) then (0, t, k) else zt_wait_for_thread_stop t k.

Fixpoint stop_passes (passes : nat) (s : zt_injector_session_t) (k : kstate) : Z * zt_injector_session_t * kstate :=
  match passes with
  | O => (-1, s, k)
  | S passes =>
      let '(rc, ths, k) := for_threads interrupt_one (ses_threads s) k in
      let s := ses_set_threads ths s in
      if negb (rc =? 0) then (-1, s, k)
      else
        let '(rc, ths, k) := for_threads wait_one (ses_threads s) k in
        let s := ses_set_threads ths s in
        if negb (rc =? 0) then (-1, s, k)
        else
          let s := zt_compact_threads s in
          let '(rc, s, k) := zt_injector_refresh_threads s k in
          if negb (rc =? 0) then (-1, s, k)
          else if negb (zt_session_has_unstopped_thread s) then (0, ses_set_stopped 1 s, k)
          else stop_passes passes s k
  end.

Definition zt_injector_interrupt_all (s : zt_injector_session_t) (k : kstate) : Z * zt_injector_session_t * kstate :=
  if ses_pid s <=? 0 then (-1, s, k)
  else
    let '(rc, s, k) := zt_injector_refresh_threads s k in
    if negb (rc =? 0) then (-1, s, k) else stop_passes 16 s k.

(** ** Resuming *)

Definition continue_one (t : zt_thread_info_t) (k : kstate) : Z * zt_thread_info_t * kstate :=
  if (th_tid t <=? 0) || (th_stopped t =? 0) then (0, t, k)
  else
    match tk_cont K (ks_calls k) (th_tid t) with
    | PtOk => (0, zt_thread_mark_running t, ks_send (th_tid t) (th_resume_signal t) k)
    | PtEsrch => (0, zt_thread_clear t, ks_tick k)
    | PtError => (-1, t, ks_tick k)
    end.

Definition zt_injector_continue_all (s : zt_injector_session_t) (k : kstate) : Z * zt_injector_session_t * kstate :=
  if ses_pid s <=? 0 then (-1, s, k)
  else
    let '(rc, ths, k) := for_threads continue_one (ses_threads s) k in
    let s := ses_set_threads ths s in
    if negb (rc =? 0) then (-1, s, k)
    else (0, ses_set_stopped 0 (zt_compact_threads s), k).

(** ** Polling *)

(** Update the entry zt_session_find_thread finds. *)
Fixpoint update_thread (tid : Z) (f : zt_thread_info_t -> zt_thread_info_t) (ths : list zt_thread_info_t)
    : list zt_thread_info_t :=
  match ths with
  | [] => []
  | t :: ths => if th_tid t =? tid then f t :: ths else t :: update_thread tid f ths
  end.

Definition ses_update (tid : Z) (f : zt_thread_info_t -> zt_thread_info_t) (s : zt_injector_session_t)
    : zt_injector_session_t := ses_set_threads (update_thread tid f (ses_threads s)) s.

Definition zt_session_report_if_target_exited (s : zt_injector_session_t) (out : Z) (k : kstate)
    : zt_injector_session_t * Z :=
  if negb (ses_target_exited s =? 0) || (length (ses_threads s) =? 0)%nat || tk_exited K (ks_calls k)
  then (zt_session_mark_target_exited s, 1) else (s, out).

(** The waitpid loop over the queued events: the return code and *target_exited_out. *)
Fixpoint poll_loop (events : list (Z * wstatus)) (fin : poll_end) (s : zt_injector_session_t) (out : Z) (k : kstate)
    : Z * Z * zt_injector_session_t * kstate :=
  match events with
  | [] =>
      match fin with
      | PeNone | PeNoChild => let '(s, out) := zt_session_report_if_target_exited s out k in (0, out, s, ks_tick k)
      | PeError => (-1, out, s, ks_tick k)
      end
  | (tid, status) :: events =>
      let k := ks_report tid status k in
      match zt_session_find_thread s tid with
      | None =>
          let '(s, out) := if zt_wait_status_is_thread_exit status then zt_session_note_thread_exit s tid out
                           else (s, out) in
          poll_loop events fin s out k
      | Some thread =>
          if zt_wait_status_is_thread_exit status then
            let '(s, out) := zt_session_note_thread_exit s tid out in
            let s := zt_compact_threads (ses_update tid zt_thread_clear s) in
            let '(s, out) := if (length (ses_threads s) =? 0)%nat then (zt_session_mark_target_exited s, 1)
                             else (s, out) in
            poll_loop events fin s out k
          else
            match status with
            | WsStopped _ _ =>
                let thread := zt_thread_mark_stopped thread status in
                let s := ses_update tid (fun t => zt_thread_mark_stopped t status) s in
                match tk_cont K (ks_calls k) tid with
                | PtEsrch => poll_loop events fin (zt_compact_threads (ses_update tid zt_thread_clear s)) out (ks_tick k)
                | PtError => (-1, out, s, ks_tick k)
                | PtOk => poll_loop events fin (ses_update tid zt_thread_mark_running s) out
                            (ks_send tid (th_resume_signal thread) k)
                end
            | _ => poll_loop events fin s out k
            end
      end
  end.

Definition zt_injector_poll_events (s : zt_injector_session_t) (k : kstate) : Z * Z * zt_injector_session_t * kstate :=
  if ses_pid s <=? 0 then (-1, 0, s, k)
  else if negb (ses_target_exited s =? 0) then (0, 1, zt_session_mark_target_exited s, k)
  else
    let '(rc, s, k) := zt_injector_refresh_threads s k in
    if negb (rc =? 0) then
      if tk_exited K (ks_calls k) then (0, 1, zt_session_mark_target_exited s, ks_tick k) else (-1, 0, s, ks_tick k)
    else let '(events, fin) := tk_events K (ks_calls k) in poll_loop events fin s 0 k.

(** ** Patch regions *)

Definition in_patch_region (pc : Z) (probe : zt_probe_info_t) : bool :=
  if (pr_probe_id probe =? 0) || (pr_orig_len probe =? 0) then false
  else
    let start := tgt_remote_addr (pr_target probe) in
    (pc >=? start) && (pc <? start +64 pr_orig_len probe).

Definition zt_pc_is_inside_patch_region (s : zt_injector_session_t) (pc : Z) : bool :=
  if pc =? 0 then false else existsb (in_patch_region pc) (ses_probes s).

Definition zt_single_step_thread (t : zt_thread_info_t) (k : kstate) : Z * zt_thread_info_t * kstate :=
  if (th_tid t <=? 0) || (th_stopped t =? 0) then (-1, t, k)
  else
    let tid := th_tid t in
    match tk_singlestep K (ks_calls k) tid with
    | PtEsrch => (0, zt_thread_clear t, ks_tick k)
    | PtError => (-1, t, ks_tick k)
    | PtOk =>
        let k := ks_move tid (tk_step K (ks_calls k) tid (ks_pc k tid)) (ks_send tid (th_resume_signal t) k) in
        zt_wait_for_thread_stop (zt_thread_mark_running t) k
    end.

Definition ZT_PATCH_REGION_MAX_SINGLE_STEPS : nat := 8.

(** zt_arch_get_pc on a thread. *)
Definition thread_pc (t : zt_thread_info_t) (k : kstate) : ptrace_result * Z * kstate :=
  (tk_getregs K (ks_calls k) (th_tid t), ks_pc k (th_tid t), ks_tick k).

Fixpoint step_loop (steps : nat) (s : zt_injector_session_t) (t : zt_thread_info_t) (k : kstate)
    : Z * zt_thread_info_t * kstate :=
  match steps with
  | O => (0, t, k)
  | S steps =>
      match thread_pc t k with
      | (PtEsrch, _, k) => (0, zt_thread_clear t, k)
      | (PtError, _, k) => (-1, t, k)
      | (PtOk, pc, k) =>
          if negb (zt_pc_is_inside_patch_region s pc) then (0, t, k)
          else
            let '(rc, t, k) := zt_single_step_thread t k in
            if negb (rc =? 0) then (-1, t, k) else step_loop steps s t k
      end
  end.

Definition make_thread_safe (s : zt_injector_session_t) (t : zt_thread_info_t) (k : kstate)
    : Z * zt_thread_info_t * kstate :=
  if (th_tid t <=? 0) || (th_stopped t =? 0) then (0, t, k)
  else
    let '(rc, t, k) := step_loop ZT_PATCH_REGION_MAX_SINGLE_STEPS s t k in
    if negb (rc =? 0) then (-1, t, k)
    else if (th_tid t >? 0) && negb (th_stopped t =? 0) then
      match thread_pc t k with
      | (PtOk, pc, k) => (if zt_pc_is_inside_patch_region s pc then -1 else 0, t, k)
      | (_, _, k) => (-1, t, k)
      end
    else (0, t, k).

Definition zt_ensure_patch_regions_are_safe (s : zt_injector_session_t) (k : kstate)
    : Z * zt_injector_session_t * kstate :=
  if ses_threads_stopped s =? 0 then (-1, s, k)
  else
    let '(rc, ths, k) := for_threads (make_thread_safe s) (ses_threads s) k in
    let s := ses_set_threads ths s in
    if negb (rc =? 0) then (-1, s, k) else (0, zt_compact_threads s, k).

(** ** Detaching *)

(** PTRACE_DETACH passes no signal on; its result is ignored. *)
Fixpoint detach_loop (ths : list zt_thread_info_t) (k : kstate) : kstate :=
  match ths with
  | [] => k
  | t :: ths => detach_loop ths (if th_tid t >? 0 then ks_send (th_tid t) 0 k else k)
  end.

Definition zero_session : zt_injector_session_t :=
  mk_session 0 0 0 0 0 [] (replicate (Z.to_nat ZT_PROBES_CAPACITY) zero_probe).

Definition zt_injector_detach (s : zt_injector_session_t) (k : kstate) : zt_injector_session_t * kstate :=
  let '(_, s, k) :=
    if (ses_pid s >? 0) && (ses_threads_stopped s =? 0) then zt_injector_interrupt_all s k else (0, s, k) in
  (zero_session, detach_loop (ses_threads s) k).
End control.
