(* ===== verification/ThreadsSpec.v ===== *)
(** * What thread-group control promises

    A successful stop leaves no thread of the group running, and a successful
    safety check leaves no stopped thread inside code that is or will be patched. *)

From S2P Require Import Prelude CLib Types Threads.

(** ** The thread table *)

Definition live_tids (ths : list zt_thread_info_t) : list Z :=
  List.filter (fun tid => negb (tid <=? 0)) (map th_tid ths).

(** No thread is entered twice, and the table holds at most 256. *)
Definition table_ok (ths : list zt_thread_info_t) : Prop :=
  NoDup (live_tids ths) /\ Z.of_nat (length ths) <= ZT_THREADS_CAPACITY.

(** Loop bodies keep a thread's id or clear the entry. *)
Definition keeps_tid (t t' : zt_thread_info_t) : Prop := th_tid t' = th_tid t \/ th_tid t' = 0.

Lemma for_threads_keeps f ths k rc ths' k' :
  (forall t k rc t' k', f t k = (rc, t', k') -> keeps_tid t t') ->
  for_threads f ths k = (rc, ths', k') -> Forall2 keeps_tid ths ths'.
Proof.
  intros Hf. revert k rc ths' k'. induction ths as [|t ths IH]; intros k rc ths' k'; cbn [for_threads].
  { intros [= <- <- <-]. constructor. }
  destruct (f t k) as [[rc1 t1] k1] eqn:H1. apply Hf in H1. destruct (rc1 =? 0).
  - destruct (for_threads f ths k1) as [[rc2 ths2] k2] eqn:H2. intros [= <- <- <-]. constructor; [done|by eapply IH].
  - intros [= <- <- <-]. constructor; [done|]. clear. induction ths; constructor; [by left|done].
Qed.

Lemma live_tids_sub ths ths' : Forall2 keeps_tid ths ths' -> live_tids ths' `sublist_of` live_tids ths.
Proof.
  induction 1 as [|t t' ths ths' Ht _ IH]; [done|]. unfold live_tids in *. cbn [map List.filter].
  destruct Ht as [Ht|Ht]; rewrite Ht.
  - destruct (negb (th_tid t <=? 0)); [by apply sublist_skip|done].
  - cbn. destruct (negb (th_tid t <=? 0)); [by apply sublist_cons|done].
Qed.

Lemma keeps_table_ok ths ths' : Forall2 keeps_tid ths ths' -> table_ok ths -> table_ok ths'.
Proof.
  intros H [Hn Hl]. split; [by eapply sublist_NoDup, live_tids_sub|].
  by rewrite <- (Forall2_length _ _ _ H).
Qed.

Lemma compact_live ths : live_tids (List.filter (fun t => negb (th_tid t <=? 0)) ths) = live_tids ths.
Proof.
  unfold live_tids. induction ths as [|t ths IH]; [done|]. cbn [List.filter map].
  destruct (negb (th_tid t <=? 0)) eqn:Ht; [cbn [map List.filter]; by rewrite Ht, IH|done].
Qed.

Lemma compact_table_ok s : table_ok (ses_threads s) -> table_ok (ses_threads (zt_compact_threads s)).
Proof.
  intros [Hn Hl]. unfold zt_compact_threads, ses_set_threads. split; cbn [ses_threads].
  - by rewrite compact_live.
  - pose proof (List.filter_length_le (fun t => negb (th_tid t <=? 0)) (ses_threads s)). lia.
Qed.

Lemma find_thread_spec s tid t :
  zt_session_find_thread s tid = Some t -> t ∈ ses_threads s /\ th_tid t = tid /\ 0 < tid.
Proof.
  unfold zt_session_find_thread. destruct (Z.leb_spec tid 0); [done|]. intros [H1 H2]%find_some.
  apply list_elem_of_In in H1. by zbool.
Qed.

Lemma find_thread_none s tid : zt_session_find_thread s tid = None -> 0 < tid -> tid ∉ live_tids (ses_threads s).
Proof.
  unfold zt_session_find_thread. destruct (Z.leb_spec tid 0); [lia|]. intros H0 _ Hin.
  unfold live_tids in Hin. apply list_elem_of_In, List.filter_In in Hin as [Hin _].
  apply in_map_iff in Hin as (t & <- & Ht). pose proof (find_none _ _ H0 _ Ht) as Hx. cbn in Hx. by rewrite Z.eqb_refl in Hx.
Qed.

Lemma live_tids_app ths ths' : live_tids (ths ++ ths') = live_tids ths ++ live_tids ths'.
Proof. unfold live_tids. by rewrite map_app, List.filter_app. Qed.

Lemma add_thread_spec s tid rc s' :
  zt_session_add_thread s tid = (rc, s') -> table_ok (ses_threads s) ->
  table_ok (ses_threads s') /\ (exists new, ses_threads s' = ses_threads s ++ new) /\
  (rc = 0 -> exists t, t ∈ ses_threads s' /\ th_tid t = tid).
Proof.
  unfold zt_session_add_thread. intros H [Hn Hl]. destruct (Z.leb_spec tid 0).
  { injection H as <- <-. split_and!; [done|by exists []; rewrite app_nil_r|done]. }
  destruct (zt_session_find_thread s tid) as [t|] eqn:Hf.
  { injection H as <- <-. apply find_thread_spec in Hf as (? & ? & _).
    split_and!; [done|by exists []; rewrite app_nil_r|by exists t]. }
  rewrite Z.geb_leb in H. destruct (Z.leb_spec ZT_THREADS_CAPACITY (Z.of_nat (length (ses_threads s)))); injection H as <- <-.
  { split_and!; [done|by exists []; rewrite app_nil_r|done]. }
  cbn [ses_set_threads ses_threads]. split_and!.
  - split; [|rewrite length_app; cbn; lia]. rewrite live_tids_app. apply NoDup_app. split_and!; [done| |].
    + apply find_thread_none in Hf; [|lia]. unfold live_tids at 2. cbn.
      intros x Hx. destruct (negb (tid <=? 0)); [|apply not_elem_of_nil].
      intros ->%list_elem_of_singleton. done.
    + unfold live_tids. cbn. destruct (negb (tid <=? 0)); [apply NoDup_singleton|apply NoDup_nil_2].
  - by eexists.
  - intros _. exists (mk_thread tid 0 0). split; [|done]. set_solver.
Qed.

Section stop.
Context (K : thread_kernel).

(** No thread was stopped or resumed, and the task directory not listed again. *)
Definition same_stops (k k' : kstate) : Prop := ks_halted k' = ks_halted k /\ ks_listed k' = ks_listed k.

#[local] Instance same_stops_preorder : PreOrder same_stops.
Proof. split; unfold same_stops; [done|]. intros k1 k2 k3 [] []. split; congruence. Qed.

Lemma seize_thread_spec s tid k rc s' k' :
  zt_injector_seize_thread K s tid k = (rc, s', k') -> table_ok (ses_threads s) ->
  table_ok (ses_threads s') /\ (exists new, ses_threads s' = ses_threads s ++ new) /\
  (rc = 0 -> (exists t, t ∈ ses_threads s' /\ th_tid t = tid) \/
     tk_seize K (ks_calls k) tid = PtEsrch /\ (ks_calls k < ks_calls k')%nat) /\
  ses_pid s' = ses_pid s /\ (ks_calls k <= ks_calls k')%nat /\ same_stops k k'.
Proof.
  unfold zt_injector_seize_thread, same_stops. intros H Hok. destruct (zt_session_find_thread s tid) as [t|] eqn:Hf.
  { injection H as <- <- <-. apply find_thread_spec in Hf as (? & ? & _).
    split_and!; [done|by exists []; rewrite app_nil_r|left; by exists t|done..]. }
  destruct (tk_seize K (ks_calls k) tid) eqn:Hs.
  - destruct (zt_session_add_thread s tid) as [rc1 s1] eqn:Ha. injection H as <- <- <-.
    assert (Hpid : ses_pid s1 = ses_pid s).
    { unfold zt_session_add_thread in Ha. repeat case_match; by simplify_eq. }
    apply add_thread_spec in Ha as (H1 & H2 & H3); [|done]. split_and!; [done|done|by left; auto|done|cbn; lia|done|done].
  - injection H as <- <- <-. split_and!; [done|by exists []; rewrite app_nil_r|right; split; [done|cbn; lia]|done|cbn; lia|done|done].
  - injection H as <- <- <-. split_and!; [done|by exists []; rewrite app_nil_r|done|done|cbn; lia|done|done].
Qed.

(** Every listed thread is in the table, unless it had gone when it was seized by
    one of the calls [n], ..., [n' - 1]. *)
Definition covers (tids : list Z) (ths : list zt_thread_info_t) (n n' : nat) : Prop :=
  forall tid, tid ∈ tids -> 0 < tid ->
    (exists t, t ∈ ths /\ th_tid t = tid) \/ exists m, (n <= m < n')%nat /\ tk_seize K m tid = PtEsrch.

(** The flags of the table say what the kernel says: a thread marked as stopped is in
    a stop that waitpid reported. *)
Definition flag_ok (k : kstate) (t : zt_thread_info_t) : Prop :=
  0 < th_tid t -> th_stopped t <> 0 -> ks_halted k (th_tid t) = true.

Lemma flags_same k k' ths : same_stops k k' -> Forall (flag_ok k) ths -> Forall (flag_ok k') ths.
Proof. intros [Hh _] Hf. eapply Forall_impl; [exact Hf|]. intros t. unfold flag_ok. by rewrite Hh. Qed.

Lemma add_thread_flags k s tid rc s' :
  zt_session_add_thread s tid = (rc, s') -> Forall (flag_ok k) (ses_threads s) -> Forall (flag_ok k) (ses_threads s').
Proof.
  unfold zt_session_add_thread. intros H Hf. repeat case_match; simplify_eq; try done.
  cbn. apply Forall_app. split; [done|]. apply Forall_singleton. by intros _ [].
Qed.

Lemma seize_thread_flags s tid k rc s' k' :
  zt_injector_seize_thread K s tid k = (rc, s', k') -> Forall (flag_ok k) (ses_threads s) ->
  Forall (flag_ok k') (ses_threads s').
Proof.
  unfold zt_injector_seize_thread. intros H Hf. destruct (zt_session_find_thread s tid); [by simplify_eq|].
  destruct (tk_seize K (ks_calls k) tid); [|by simplify_eq..].
  destruct (zt_session_add_thread s tid) as [rc1 s1] eqn:Ha. simplify_eq. by eapply (add_thread_flags k).
Qed.

Lemma seize_loop_spec tids s k rc s' k' :
  seize_loop K tids s k = (rc, s', k') -> table_ok (ses_threads s) ->
  table_ok (ses_threads s') /\ (exists new, ses_threads s' = ses_threads s ++ new) /\
  (rc = 0 -> covers tids (ses_threads s') (ks_calls k) (ks_calls k')) /\ ses_pid s' = ses_pid s /\
  (ks_calls k <= ks_calls k')%nat /\ same_stops k k' /\
  (Forall (flag_ok k) (ses_threads s) -> Forall (flag_ok k') (ses_threads s')).
Proof.
  revert s k. induction tids as [|tid tids IH]; intros s k; cbn [seize_loop].
  { intros [= <- <- <-] Hok. split_and!; try done; [by exists []; rewrite app_nil_r|].
    intros _ x Hx. by apply not_elem_of_nil in Hx. }
  destruct (Z.leb_spec tid 0) as [Hle|Hgt].
  { intros H Hok. destruct (IH _ _ H Hok) as (H1 & H2 & H3 & H4 & H5 & H6 & H7). split_and!; try done.
    intros Hrc x [->|Hx]%elem_of_cons Hpos; [lia|]. by apply H3. }
  destruct (zt_injector_seize_thread K s tid k) as [[rc1 s1] k1] eqn:Hs. intros H Hok.
  pose proof (seize_thread_flags _ _ _ _ _ _ Hs) as Hfl.
  apply seize_thread_spec in Hs as (Hok1 & [new1 Hn1] & Hc & Hp & Hk & Hst); [|done].
  destruct (Z.eqb_spec rc1 0) as [->|].
  - destruct (IH _ _ H Hok1) as (H1 & [new2 H2] & H3 & H4 & H5 & H6 & H7).
    split_and!; [done| | |congruence|lia|by transitivity k1|auto].
    + exists (new1 ++ new2). by rewrite H2, Hn1, <- app_assoc.
    + intros Hrc x [->|Hx]%elem_of_cons Hpos.
      * destruct (Hc eq_refl) as [(t & Ht & <-)|[He Hlt]];
          [left; exists t; split; [|done]|right; exists (ks_calls k); split; [lia|done]].
        rewrite H2. apply elem_of_app. by left.
      * destruct (H3 Hrc x Hx Hpos) as [|(m & Hm & He)]; [by left|right; exists m; split; [lia|done]].
  - injection H as <- <- <-. split_and!; [done|by exists new1|done..].
Qed.

(** The last listing of the group's threads covers the table. *)
Definition refreshed (s : zt_injector_session_t) (k : kstate) : Prop :=
  let '(n, tids) := ks_listed k in tk_tasks K n = Some tids /\ covers tids (ses_threads s) (S n) (ks_calls k).

Lemma refresh_spec s k rc s' k' :
  zt_injector_refresh_threads K s k = (rc, s', k') -> table_ok (ses_threads s) ->
  table_ok (ses_threads s') /\ (rc = 0 -> refreshed s' k') /\ ses_pid s' = ses_pid s /\
  ks_halted k' = ks_halted k /\
  (Forall (flag_ok k) (ses_threads s) -> Forall (flag_ok k') (ses_threads s')).
Proof.
  unfold zt_injector_refresh_threads. destruct (ses_pid s <=? 0); [by intros [= <- <- <-]|].
  destruct (tk_tasks K (ks_calls k)) as [tids|] eqn:Ht; [|by intros [= <- <- <-]].
  intros H Hok. destruct (seize_loop_spec _ _ _ _ _ _ H Hok) as (H1 & _ & H3 & H4 & _ & [H5 H6] & H7).
  split_and!; try done. intros Hrc. unfold refreshed. rewrite H6. cbn. split; [done|]. by apply H3.
Qed.

Lemma wait_keeps t k rc t' k' : zt_wait_for_thread_stop K t k = (rc, t', k') -> keeps_tid t t'.
Proof.
  unfold zt_wait_for_thread_stop. repeat case_match; intros; simplify_eq; (by left) || (by right).
Qed.

Lemma interrupt_one_keeps t k rc t' k' : interrupt_one K t k = (rc, t', k') -> keeps_tid t t'.
Proof. unfold interrupt_one. repeat case_match; intros; simplify_eq; (by left) || (by right). Qed.

Lemma wait_one_keeps t k rc t' k' : wait_one K t k = (rc, t', k') -> keeps_tid t t'.
Proof. unfold wait_one. case_match; [intros [= <- <- <-]; by left|apply wait_keeps]. Qed.

(** A loop body acts on its own thread only, and leaves its flag true to the kernel. *)
Definition acts_alone (f : zt_thread_info_t -> kstate -> Z * zt_thread_info_t * kstate) : Prop :=
  forall t k rc t' k', f t k = (rc, t', k') ->
    keeps_tid t t' /\ (forall x, x <> th_tid t \/ th_tid t <= 0 -> ks_halted k' x = ks_halted k x) /\
    (flag_ok k t -> flag_ok k' t').

Lemma flag_frame ths k k' :
  (forall x, x ∈ live_tids ths -> ks_halted k' x = ks_halted k x) ->
  Forall (flag_ok k) ths -> Forall (flag_ok k') ths.
Proof.
  intros Hfr Hf. rewrite Forall_forall in Hf |- *. intros t Ht Hpos Hst. rewrite Hfr; [by apply Hf|].
  unfold live_tids. apply list_elem_of_In, List.filter_In. split; [by apply in_map, list_elem_of_In|].
  by destruct (Z.leb_spec (th_tid t) 0); [lia|].
Qed.

Lemma for_threads_flags f ths k rc ths' k' :
  acts_alone f -> for_threads f ths k = (rc, ths', k') -> NoDup (live_tids ths) ->
  (Forall (flag_ok k) ths -> Forall (flag_ok k') ths') /\
  forall x, x ∉ live_tids ths -> ks_halted k' x = ks_halted k x.
Proof.
  intros Hf. revert k rc ths' k'. induction ths as [|t ths IH]; intros k rc ths' k'; cbn [for_threads].
  { intros [= <- <- <-] _. by split. }
  destruct (f t k) as [[rc1 t1] k1] eqn:H1. apply Hf in H1 as (Hk & Hfr & Hfl).
  unfold live_tids. cbn [map List.filter]. fold (live_tids ths). intros H Hnd.
  assert (Hrest : Forall (flag_ok k) ths -> Forall (flag_ok k1) ths).
  { apply flag_frame. intros x Hx. apply Hfr. destruct (Z.leb_spec (th_tid t) 0); [by right|left].
    cbn [negb] in Hnd. apply NoDup_cons in Hnd as [Hnd _]. by intros ->. }
  assert (Hout : forall x, x ∉ (if negb (th_tid t <=? 0) then th_tid t :: live_tids ths else live_tids ths) ->
    (x ∉ live_tids ths) /\ ks_halted k1 x = ks_halted k x).
  { intros x Hx. destruct (Z.leb_spec (th_tid t) 0); cbn [negb] in Hx; [split; [done|]; apply Hfr; by right|].
    apply not_elem_of_cons in Hx as [? ?]. split; [done|]. apply Hfr. by left. }
  destruct (rc1 =? 0).
  - destruct (for_threads f ths k1) as [[rc2 ths2] k2] eqn:H2. injection H as <- <- <-.
    destruct (IH _ _ _ _ H2) as [Hall Hframe].
    { destruct (negb (th_tid t <=? 0)); [by apply NoDup_cons in Hnd as [_ Hnd]|done]. }
    split.
    + intros Hfs. apply Forall_cons in Hfs as [Ht Hts]. constructor; [|by apply Hall, Hrest].
      intros Hpos Hst. rewrite Hframe; [by apply Hfl|]. destruct Hk as [Ht1|Ht1]; [|lia]. rewrite Ht1 in Hpos |- *.
      destruct (Z.leb_spec (th_tid t) 0); [lia|]. cbn [negb] in Hnd. by apply NoDup_cons in Hnd as [Hnd _].
    + intros x [H3 H4]%Hout. by rewrite Hframe.
  - injection H as <- <- <-. split; [|by intros x [_ ?]%Hout].
    intros Hfs. apply Forall_cons in Hfs as [Ht Hts]. constructor; [by apply Hfl|by apply Hrest].
Qed.

Lemma set_halted_other tid b k x : x <> tid -> ks_halted (ks_set_halted tid b k) x = ks_halted k x.
Proof. intros. cbn. by destruct (Z.eqb_spec x tid). Qed.

Lemma wait_alone : acts_alone (zt_wait_for_thread_stop K).
Proof.
  intros t k rc t' k' H. split; [by eapply wait_keeps|]. revert H. unfold zt_wait_for_thread_stop, flag_ok.
  destruct (Z.leb_spec (th_tid t) 0) as [|Hpos]; [by intros [= <- <- <-]|].
  destruct (tk_wait K (ks_calls k) (th_tid t)) as [[sig ev| | |]| |]; intros [= <- <- <-]; cbn;
    (split; [intros x [Hx|?]; [|lia]; try (by destruct (Z.eqb_spec x (th_tid t))); done|]); try done.
  by rewrite Z.eqb_refl.
Qed.

Lemma interrupt_one_alone : acts_alone (interrupt_one K).
Proof.
  intros t k rc t' k' H. split; [by eapply interrupt_one_keeps|]. revert H. unfold interrupt_one, flag_ok.
  repeat case_match; intros [= <- <- <-]; done.
Qed.

Lemma wait_one_alone : acts_alone (wait_one K).
Proof.
  intros t k rc t' k'. unfold wait_one. case_match; [|apply wait_alone].
  intros [= <- <- <-]. split; [by left|done].
Qed.

Lemma continue_one_alone : acts_alone (continue_one K).
Proof.
  intros t k rc t' k'. unfold continue_one, flag_ok.
  destruct (Z.leb_spec (th_tid t) 0) as [|Hpos]; [intros [= <- <- <-]; split; [by left|done]|].
  destruct (th_stopped t =? 0); cbn [orb]; [intros [= <- <- <-]; split; [by left|done]|].
  destruct (tk_cont K (ks_calls k) (th_tid t)); intros [= <- <- <-];
    [|split; [by right|done]|split; [by left|done]].
  split; [by left|]. split; [|done]. intros x [Hx|?]; [|lia]. cbn. by destruct (Z.eqb_spec x (th_tid t)).
Qed.

Lemma compact_flags k s : Forall (flag_ok k) (ses_threads s) -> Forall (flag_ok k) (ses_threads (zt_compact_threads s)).
Proof.
  intros H. rewrite Forall_forall in H |- *. intros t Ht. apply H. cbn in Ht.
  apply list_elem_of_In, List.filter_In in Ht as [Ht _]. by apply list_elem_of_In.
Qed.

(** Every live thread of the table is marked as stopped. *)
Definition all_marked (ths : list zt_thread_info_t) : Prop :=
  forall t, t ∈ ths -> 0 < th_tid t -> th_stopped t <> 0.

(** Every live thread of the table is stopped, as the kernel has reported. *)
Definition all_halted (ths : list zt_thread_info_t) (k : kstate) : Prop :=
  forall t, t ∈ ths -> 0 < th_tid t -> ks_halted k (th_tid t) = true.

Lemma has_unstopped_spec s : zt_session_has_unstopped_thread s = false -> all_marked (ses_threads s).
Proof.
  unfold zt_session_has_unstopped_thread. intros H t Ht Hpos H0. apply list_elem_of_In in Ht.
  assert (Hx : existsb (fun t => (th_tid t >? 0) && (th_stopped t =? 0)) (ses_threads s) = true).
  { apply existsb_exists. exists t. split; [done|]. rewrite H0, Z.gtb_ltb. by destruct (Z.ltb_spec 0 (th_tid t)); [|lia]. }
  congruence.
Qed.

(** One of the loops of a pass. *)
Lemma pass_loop f s k rc ths k' :
  acts_alone f -> for_threads f (ses_threads s) k = (rc, ths, k') -> table_ok (ses_threads s) ->
  table_ok ths /\ (Forall (flag_ok k) (ses_threads s) -> Forall (flag_ok k') ths).
Proof.
  intros Hf H Hok. split; [|by apply (for_threads_flags f _ _ _ _ _ Hf H (proj1 Hok))].
  eapply keeps_table_ok; [|done]. eapply for_threads_keeps; [|done]. intros ? ? ? ? ? H0.
  apply (Hf _ _ _ _ _ H0).
Qed.

Lemma stop_passes_spec n s k rc s' k' :
  stop_passes K n s k = (rc, s', k') -> table_ok (ses_threads s) -> Forall (flag_ok k) (ses_threads s) ->
  table_ok (ses_threads s') /\ Forall (flag_ok k') (ses_threads s') /\
  (rc = 0 -> all_marked (ses_threads s') /\ refreshed s' k' /\ ses_threads_stopped s' = 1).
Proof.
  revert s k. induction n as [|n IH]; intros s k; cbn [stop_passes]; [by intros [= <- <- <-]|].
  destruct (for_threads (interrupt_one K) (ses_threads s) k) as [[rc1 ths1] k1] eqn:H1. intros H Hok Hfl.
  apply (pass_loop _ s) in H1 as [Hok1 Hfl1]; [|apply interrupt_one_alone|done]. specialize (Hfl1 Hfl).
  destruct (negb (rc1 =? 0)); [by injection H as <- <- <-|].
  destruct (for_threads (wait_one K) (ses_threads (ses_set_threads ths1 s)) k1) as [[rc2 ths2] k2] eqn:H2.
  apply pass_loop in H2 as [Hok2 Hfl2]; [|apply wait_one_alone|done]. specialize (Hfl2 Hfl1).
  destruct (negb (rc2 =? 0)); [by injection H as <- <- <-|].
  set (s2 := zt_compact_threads _) in H.
  assert (Hok2' : table_ok (ses_threads s2)) by by apply compact_table_ok.
  assert (Hfl2' : Forall (flag_ok k2) (ses_threads s2)) by by apply compact_flags.
  destruct (zt_injector_refresh_threads K s2 k2) as [[rc3 s3] k3] eqn:H3.
  apply refresh_spec in H3 as (Hok3 & Href & _ & _ & Hfl3); [|done]. specialize (Hfl3 Hfl2').
  destruct (Z.eqb_spec rc3 0) as [->|]; cbn [negb] in H; [|by injection H as <- <- <-].
  destruct (zt_session_has_unstopped_thread s3) eqn:Hu; cbn [negb] in H; [by eapply IH|].
  injection H as <- <- <-. split_and!; [done|done|]. intros _.
  split_and!; [by apply has_unstopped_spec|by apply Href|done].
Qed.

(** C31: a successful stop leaves no thread running.  With a table whose flags are
    true to the kernel, every thread that the last listing of /proc/<pid>/task
    showed is in the table and in a stop that waitpid has reported and no later
    request has ended, unless the kernel said that it was gone when the tracer
    tried to seize it after that listing; the table never holds a thread twice nor
    more than 256, and its flags stay true to the kernel on every path. *)
Theorem zt_injector_interrupt_all_stops s k rc s' k' :
  zt_injector_interrupt_all K s k = (rc, s', k') -> table_ok (ses_threads s) -> Forall (flag_ok k) (ses_threads s) ->
  table_ok (ses_threads s') /\ Forall (flag_ok k') (ses_threads s') /\
  (rc = 0 -> ses_threads_stopped s' = 1 /\ all_marked (ses_threads s') /\ all_halted (ses_threads s') k' /\
    let '(n, tids) := ks_listed k' in tk_tasks K n = Some tids /\
      forall tid, tid ∈ tids -> 0 < tid ->
        ((exists t, t ∈ ses_threads s' /\ th_tid t = tid) /\ ks_halted k' tid = true) \/
        exists m, (n < m < ks_calls k')%nat /\ tk_seize K m tid = PtEsrch).
Proof.
  unfold zt_injector_interrupt_all. destruct (ses_pid s <=? 0); [by intros [= <- <- <-]|].
  destruct (zt_injector_refresh_threads K s k) as [[rc1 s1] k1] eqn:H1. intros H Hok Hfl.
  apply refresh_spec in H1 as (Hok1 & _ & _ & _ & Hfl1); [|done]. specialize (Hfl1 Hfl).
  destruct (negb (rc1 =? 0)); [by injection H as <- <- <-|].
  apply stop_passes_spec in H as (Hok' & Hfl' & Hs); [|done|done]. split_and!; [done|done|]. intros Hrc.
  destruct (Hs Hrc) as (Hall & Href & Hst).
  assert (Hh : all_halted (ses_threads s') k').
  { intros t Ht Hpos. rewrite Forall_forall in Hfl'. apply Hfl'; auto. }
  split_and!; [done|done|done|]. unfold refreshed in Href. destruct (ks_listed k') as [n tids].
  destruct Href as [Ht Hcov]. split; [done|]. intros tid Hin Hpos.
  destruct (Hcov tid Hin Hpos) as [(t & Ht' & <-)|(m & Hm & He)]; [left|right; exists m; split; [lia|done]].
  split; [by exists t|by apply Hh].
Qed.
End stop.

(** ** The flags stay true to the kernel

    The other operations keep the invariant that the stop relies on. *)

Section flags.
Context (K : thread_kernel).

(** The table is well formed and its flags are true to the kernel. *)
Definition threads_ok (s : zt_injector_session_t) (k : kstate) : Prop :=
  table_ok (ses_threads s) /\ Forall (flag_ok k) (ses_threads s).

Lemma threads_ok_compact s k : threads_ok s k -> threads_ok (zt_compact_threads s) k.
Proof. intros [H1 H2]. split; [by apply compact_table_ok|by apply compact_flags]. Qed.

Lemma continue_all_flags s k rc s' k' :
  zt_injector_continue_all K s k = (rc, s', k') -> threads_ok s k -> threads_ok s' k'.
Proof.
  unfold zt_injector_continue_all. destruct (ses_pid s <=? 0); [by intros [= <- <- <-]|].
  destruct (for_threads (continue_one K) (ses_threads s) k) as [[rc1 ths1] k1] eqn:Hf. intros H [Hok Hfl].
  destruct (pass_loop _ _ _ _ _ _ (continue_one_alone K) Hf Hok) as [Hok1 Hfl1].
  assert (threads_ok (ses_set_threads ths1 s) k1) as Hs1 by (split; auto).
  destruct (negb (rc1 =? 0)); injection H as <- <- <-; [done|]. by apply threads_ok_compact in Hs1.
Qed.

Lemma update_thread_keeps tid f ths :
  (forall t, keeps_tid t (f t)) -> Forall2 keeps_tid ths (update_thread tid f ths).
Proof.
  intros Hf. induction ths as [|t ths IH]; cbn; [constructor|]. destruct (th_tid t =? tid); constructor; try done.
  - clear. induction ths; constructor; [by left|done].
  - by left.
Qed.

(** An update of one thread's entry that follows a change of that thread. *)
Lemma update_flags tid f s k k' :
  (forall t, keeps_tid t (f t)) -> 0 < tid ->
  (forall x, x <> tid -> ks_halted k' x = ks_halted k x) ->
  (forall t, th_tid t = tid -> flag_ok k' (f t)) ->
  threads_ok s k -> threads_ok (ses_update tid f s) k'.
Proof.
  intros Hkp Hpos Hfr Hf [Hok Hfl].
  split; [by eapply keeps_table_ok; [apply update_thread_keeps|]|]. destruct Hok as [Hnd _]. cbn.
  induction (ses_threads s) as [|t ths IH]; cbn; [constructor|].
  unfold live_tids in Hnd. cbn [map List.filter] in Hnd. fold (live_tids ths) in Hnd.
  apply Forall_cons in Hfl as [Ht Hts]. destruct (Z.eqb_spec (th_tid t) tid) as [He|He].
  - constructor; [by apply Hf|]. rewrite He in Hnd. destruct (Z.leb_spec tid 0); [lia|]. cbn [negb] in Hnd.
    apply NoDup_cons in Hnd as [Hni _]. eapply flag_frame; [|done]. intros x Hx. apply Hfr. by intros ->.
  - constructor; [intros Hp Hs; rewrite Hfr by done; by apply Ht|]. apply IH; [|done].
    destruct (negb (th_tid t <=? 0)); [by apply NoDup_cons in Hnd as [_ Hnd]|done].
Qed.

Lemma threads_ok_same s s' k : ses_threads s' = ses_threads s -> threads_ok s k -> threads_ok s' k.
Proof. unfold threads_ok. by intros ->. Qed.

Lemma unknown_flags s tid st k :
  zt_session_find_thread s tid = None -> threads_ok s k -> threads_ok s (ks_report tid st k).
Proof.
  intros Hnone [Hok Hfl]. split; [done|]. eapply flag_frame; [|done]. intros x Hx.
  assert (x <> tid).
  { intros ->. destruct (Z.le_gt_cases tid 0); [|by eapply find_thread_none].
    unfold live_tids in Hx. apply list_elem_of_In, List.filter_In in Hx as [_ Hx]. zbool. lia. }
  destruct st; cbn; try done; by destruct (Z.eqb_spec x tid).
Qed.

Lemma report_other tid st k x : x <> tid -> ks_halted (ks_report tid st k) x = ks_halted k x.
Proof. intros. destruct st; cbn; try done; by destruct (Z.eqb_spec x tid). Qed.

Lemma poll_loop_flags events fin s out k rc out' s' k' :
  poll_loop K events fin s out k = (rc, out', s', k') -> threads_ok s k -> threads_ok s' k'.
Proof.
  revert s out k. induction events as [|[tid st] events IH]; intros s out k; cbn [poll_loop].
  { destruct fin; unfold zt_session_report_if_target_exited, zt_session_mark_target_exited;
      repeat case_match; intros; simplify_eq; by eapply threads_ok_same. }
  destruct (zt_session_find_thread s tid) as [t|] eqn:Hfind; intros H Hok.
  2:{ eapply (unknown_flags _ _ st) in Hok; [|done]. unfold zt_session_note_thread_exit in H.
      repeat case_match; simplify_eq; eapply IH; eauto. }
  apply find_thread_spec in Hfind as (_ & _ & Hpos).
  assert (Hclear : forall k2, (forall x, x <> tid -> ks_halted k2 x = ks_halted k x) ->
    threads_ok (zt_compact_threads (ses_update tid zt_thread_clear s)) k2).
  { intros k2 Hk2. apply threads_ok_compact. eapply update_flags; [by right|done|exact Hk2|done|done]. }
  destruct (zt_wait_status_is_thread_exit st) eqn:Hex.
  - assert (Hk : threads_ok (zt_compact_threads (ses_update tid zt_thread_clear s)) (ks_report tid st k))
      by (apply Hclear, report_other).
    unfold zt_session_note_thread_exit in H. repeat case_match;
      simplify_eq; (eapply IH; [eassumption|exact Hk]).
  - destruct st as [sig ev| | |]; try done.
    2:{ eapply IH; [exact H|]. exact Hok. }
    assert (Hmark : threads_ok (ses_update tid (fun t => zt_thread_mark_stopped t (WsStopped sig ev)) s)
      (ks_report tid (WsStopped sig ev) k)).
    { eapply update_flags; [by left|done|apply report_other| |done]. intros t0 <- _ _. cbn. by rewrite Z.eqb_refl. }
    destruct (tk_cont K _ tid).
    + eapply IH; [exact H|]. eapply update_flags; [by left|done| |by intros t0 _ _ []|exact Hmark].
      intros x Hx. cbn. by destruct (Z.eqb_spec x tid).
    + eapply IH; [exact H|]. apply threads_ok_compact. eapply update_flags; [by right|done| |done|exact Hmark]. done.
    + by simplify_eq.
Qed.

Lemma poll_events_flags s k rc out s' k' :
  zt_injector_poll_events K s k = (rc, out, s', k') -> threads_ok s k -> threads_ok s' k'.
Proof.
  unfold zt_injector_poll_events. destruct (ses_pid s <=? 0); [by intros [= <- <- <- <-]|].
  destruct (negb _); [intros [= <- <- <- <-]; by apply threads_ok_same|].
  destruct (zt_injector_refresh_threads K s k) as [[rc1 s1] k1] eqn:Hr. intros H [Hok Hfl].
  apply refresh_spec in Hr as (Hok1 & _ & _ & _ & Hfl1); [|done]. assert (Hs1 : threads_ok s1 k1) by (split; auto).
  destruct (negb (rc1 =? 0)).
  - destruct (tk_exited K (ks_calls k1)); injection H as <- <- <- <-; [by eapply threads_ok_same|done].
  - destruct (tk_events K (ks_calls k1)) as [events fin]. by eapply poll_loop_flags.
Qed.
End flags.

(** ** Patch regions *)

(** The program counter is in the bytes a probe's jump overwrites. *)
Definition inside (p : zt_probe_info_t) (pc : Z) : Prop :=
  pr_probe_id p <> 0 /\ tgt_remote_addr (pr_target p) <= pc < tgt_remote_addr (pr_target p) + pr_orig_len p.

(** Probes are on functions at addresses of the user's address space. *)
Definition probes_placed (ps : list zt_probe_info_t) : Prop :=
  forall p, p ∈ ps -> pr_probe_id p <> 0 ->
    0 < tgt_remote_addr (pr_target p) /\ 0 <= pr_orig_len p /\
    tgt_remote_addr (pr_target p) + pr_orig_len p < 2 ^ 64.

Definition outside (ps : list zt_probe_info_t) (pc : Z) : Prop := forall p, p ∈ ps -> ~ inside p pc.

Lemma patch_region_outside s pc :
  probes_placed (ses_probes s) -> zt_pc_is_inside_patch_region s pc = false <-> outside (ses_probes s) pc.
Proof.
  intros Hpl. unfold zt_pc_is_inside_patch_region, outside.
  assert (Hin : forall p, p ∈ ses_probes s -> pc <> 0 -> in_patch_region pc p = true <-> inside p pc).
  { intros p Hp H0. unfold in_patch_region, inside. specialize (Hpl p Hp).
    destruct (Z.eqb_spec (pr_probe_id p) 0); [cbn; split; [done|by intros []]|]. destruct Hpl as (? & ? & ?); [done|].
    rewrite u64_small by (unfold is_u64; lia). rewrite Z.geb_leb.
    destruct (Z.eqb_spec (pr_orig_len p) 0); cbn [orb]; [split; [done|lia]|].
    rewrite andb_true_iff, Z.leb_le, Z.ltb_lt. tauto. }
  destruct (Z.eqb_spec pc 0) as [->|H0].
  { split; [|done]. intros _ p Hp [Hid Hr]. destruct (Hpl p Hp Hid). lia. }
  rewrite <- not_true_iff_false, existsb_exists. split.
  - intros Hn p Hp Hi. apply Hn. exists p. split; [by apply list_elem_of_In|]. by apply Hin.
  - intros Ho (p & Hp%list_elem_of_In & Hi). by apply (Ho p Hp), Hin.
Qed.

Section safety.
Context (K : thread_kernel) (s : zt_injector_session_t) (Hplaced : probes_placed (ses_probes s)).

(** A thread that is marked as stopped is outside every patch region. *)
Definition thread_safe (k : kstate) (t : zt_thread_info_t) : Prop :=
  0 < th_tid t -> th_stopped t <> 0 -> outside (ses_probes s) (ks_pc k (th_tid t)).

Definition marked (t : zt_thread_info_t) : Prop := 0 < th_tid t -> th_stopped t <> 0.

(** Only the program counter of the live thread [tid] may have moved. *)
Definition moves_only (tid : Z) (k k' : kstate) : Prop :=
  forall x, x <> tid \/ tid <= 0 -> ks_pc k' x = ks_pc k x.

Lemma moves_only_trans t t' k k1 k2 :
  keeps_tid t t' -> moves_only (th_tid t) k k1 -> moves_only (th_tid t') k1 k2 -> moves_only (th_tid t) k k2.
Proof. intros [Ht|Ht] H1 H2 x Hx; rewrite H2, H1; rewrite ?Ht; auto. lia. Qed.

Lemma keeps_trans t1 t2 t3 : keeps_tid t1 t2 -> keeps_tid t2 t3 -> keeps_tid t1 t3.
Proof. unfold keeps_tid. intuition congruence. Qed.

Lemma wait_pc t k rc t' k' : zt_wait_for_thread_stop K t k = (rc, t', k') -> ks_pc k' = ks_pc k.
Proof. unfold zt_wait_for_thread_stop. repeat case_match; intros; by simplify_eq. Qed.

Lemma single_step_spec t k rc t' k' :
  zt_single_step_thread K t k = (rc, t', k') -> keeps_tid t t' /\ moves_only (th_tid t) k k'.
Proof.
  unfold zt_single_step_thread. destruct (Z.leb_spec (th_tid t) 0) as [|Hpos]; [intros [= <- <- <-]; split; [by left|done]|].
  destruct (th_stopped t =? 0); cbn [orb]; [intros [= <- <- <-]; split; [by left|done]|].
  destruct (tk_singlestep K (ks_calls k) (th_tid t)); intros H;
    [|injection H as <- <- <-; split; [by right|done]|injection H as <- <- <-; split; [by left|done]].
  split; [exact (wait_keeps _ _ _ _ _ _ H)|]. intros x Hx. rewrite (wait_pc _ _ _ _ _ H). cbn.
  destruct (Z.eqb_spec x (th_tid t)); [lia|done].
Qed.

Lemma acts_seq t t1 k k1 k2 :
  keeps_tid t t1 -> (forall x, x <> th_tid t \/ th_tid t <= 0 -> ks_halted k1 x = ks_halted k x) ->
  (forall x, x <> th_tid t1 \/ th_tid t1 <= 0 -> ks_halted k2 x = ks_halted k1 x) ->
  forall x, x <> th_tid t \/ th_tid t <= 0 -> ks_halted k2 x = ks_halted k x.
Proof. intros [Ht|Ht] H1 H2 x Hx; rewrite H2, H1; rewrite ?Ht; auto. lia. Qed.

Lemma single_step_alone : acts_alone (zt_single_step_thread K).
Proof.
  intros t k rc t' k' H. split; [by apply single_step_spec in H as [? _]|]. revert H.
  unfold zt_single_step_thread. destruct (Z.leb_spec (th_tid t) 0) as [|Hpos]; [by intros [= <- <- <-]|].
  destruct (th_stopped t =? 0); cbn [orb]; [by intros [= <- <- <-]|].
  destruct (tk_singlestep K (ks_calls k) (th_tid t)); [|intros [= <- <- <-]; split; done..].
  intros (Hk & Hfr & Hfl)%wait_alone. split.
  - intros x Hx. rewrite Hfr by done. cbn. destruct (Z.eqb_spec x (th_tid t)); [lia|done].
  - intros _. apply Hfl. by intros _ [].
Qed.

Lemma single_step_marked t k rc t' k' : zt_single_step_thread K t k = (rc, t', k') -> rc = 0 -> marked t'.
Proof.
  unfold zt_single_step_thread, zt_wait_for_thread_stop, marked. intros H ->. repeat case_match; simplify_eq; done.
Qed.

Lemma step_loop_alone n : acts_alone (step_loop K n s).
Proof.
  induction n as [|n IH]; intros t k rc t' k'; cbn [step_loop]; [intros [= <- <- <-]; split; [by left|done]|].
  unfold thread_pc. destruct (tk_getregs K (ks_calls k) (th_tid t));
    [|by intros [= <- <- <-]; split; [right|]|by intros [= <- <- <-]; split; [left|]].
  destruct (negb _); [intros [= <- <- <-]; split; [by left|done]|].
  destruct (zt_single_step_thread K t (ks_tick k)) as [[rc1 t1] k1] eqn:Hs.
  apply single_step_alone in Hs as (Hk & Hfr & Hfl). destruct (negb (rc1 =? 0)); [by intros [= <- <- <-]|].
  intros (Hk' & Hfr' & Hfl')%IH. split_and!; [by eapply keeps_trans|by eapply acts_seq|auto].
Qed.

Lemma step_loop_marked n t k rc t' k' : step_loop K n s t k = (rc, t', k') -> rc = 0 -> marked t -> marked t'.
Proof.
  intros H ->. revert t k H. induction n as [|n IH]; intros t k; cbn [step_loop]; [by intros [= <- <-]|].
  unfold thread_pc. destruct (tk_getregs K (ks_calls k) (th_tid t)); [|by intros [= <- <-]|done].
  destruct (negb _); [by intros [= <- <-]|].
  destruct (zt_single_step_thread K t (ks_tick k)) as [[rc1 t1] k1] eqn:Hs.
  destruct (Z.eqb_spec rc1 0) as [->|]; cbn [negb]; [|by intros [= ? <- <-]].
  intros H _. eapply IH; [exact H|]. by eapply single_step_marked.
Qed.

(** A thread outside the patch regions is not moved. *)
Lemma step_loop_outside n t k rc t' k' :
  step_loop K n s t k = (rc, t', k') -> outside (ses_probes s) (ks_pc k (th_tid t)) -> ks_pc k' = ks_pc k.
Proof using Hplaced.
  destruct n as [|n]; cbn [step_loop]; [by intros [= <- <- <-]|]. unfold thread_pc. intros H Ho.
  destruct (tk_getregs K (ks_calls k) (th_tid t)); [|by injection H as <- <- <-..].
  rewrite (proj2 (patch_region_outside s _ Hplaced) Ho) in H. by injection H as <- <- <-.
Qed.

Lemma step_loop_spec n t k rc t' k' :
  step_loop K n s t k = (rc, t', k') -> keeps_tid t t' /\ moves_only (th_tid t) k k'.
Proof.
  revert t k. induction n as [|n IH]; intros t k; cbn [step_loop]; [intros [= <- <- <-]; split; [by left|done]|].
  unfold thread_pc. destruct (tk_getregs K (ks_calls k) (th_tid t));
    [|by intros [= <- <- <-]; split; [right|]|by intros [= <- <- <-]; split; [left|]].
  destruct (negb _); [intros [= <- <- <-]; split; [by left|done]|].
  destruct (zt_single_step_thread K t (ks_tick k)) as [[rc1 t1] k1] eqn:Hs. apply single_step_spec in Hs as [Hk Hm].
  destruct (negb (rc1 =? 0)); [by intros [= <- <- <-]|]. intros [Hk' Hm']%IH. split; [by eapply keeps_trans|].
  by eapply moves_only_trans.
Qed.

Lemma make_thread_safe_alone : acts_alone (make_thread_safe K s).
Proof.
  intros t k rc t' k'. unfold make_thread_safe. destruct (_ || _); [intros [= <- <- <-]; split; [by left|done]|].
  destruct (step_loop K _ s t k) as [[rc1 t1] k1] eqn:Hs. apply step_loop_alone in Hs.
  destruct (negb _); [by intros [= <- <- <-]|]. destruct (_ && _); [|by intros [= <- <- <-]].
  unfold thread_pc. destruct (tk_getregs K (ks_calls k1) (th_tid t1)); intros [= <- <- <-]; done.
Qed.

Lemma make_thread_safe_spec t k rc t' k' :
  make_thread_safe K s t k = (rc, t', k') ->
  keeps_tid t t' /\ moves_only (th_tid t) k k' /\
  (outside (ses_probes s) (ks_pc k (th_tid t)) -> ks_pc k' = ks_pc k) /\
  (rc = 0 -> thread_safe k' t' /\ (marked t -> marked t')).
Proof using Hplaced.
  unfold make_thread_safe. destruct (_ || _) eqn:Hskip.
  { intros [= <- <- <-]. split_and!; [by left|done|done|]. intros _. split; [|done]. intros Hpos Hst.
    apply orb_true_iff in Hskip as [H|H]; zbool; lia. }
  destruct (step_loop K ZT_PATCH_REGION_MAX_SINGLE_STEPS s t k) as [[rc1 t1] k1] eqn:Hs.
  pose proof (step_loop_outside _ _ _ _ _ _ Hs) as Ho. pose proof (step_loop_marked _ _ _ _ _ _ Hs) as Hmk.
  apply step_loop_spec in Hs as [Hk Hm].
  destruct (Z.eqb_spec rc1 0) as [->|Hne]; cbn [negb]; [|intros [= <- <- <-]; by split_and!].
  specialize (Hmk eq_refl). destruct (_ && _) eqn:Hst.
  - unfold thread_pc. destruct (tk_getregs K (ks_calls k1) (th_tid t1)); intros [= <- <- <-]; split_and!; try done.
    intros Hrc. split; [|done]. intros _ _. cbn [ks_tick ks_pc]. apply (patch_region_outside s _ Hplaced).
    by destruct (zt_pc_is_inside_patch_region s (ks_pc k1 (th_tid t1))).
  - intros [= <- <- <-]. split_and!; try done. intros _. split; [|done]. intros Hpos Hstop.
    apply andb_false_iff in Hst as [H|H]; zbool; lia.
Qed.

Lemma for_threads_marked ths k ths' k' :
  for_threads (make_thread_safe K s) ths k = (0, ths', k') -> Forall marked ths -> Forall marked ths'.
Proof using Hplaced.
  revert k ths' k'. induction ths as [|t ths IH]; intros k ths' k'; cbn [for_threads]; [by intros [= <- <-]|].
  destruct (make_thread_safe K s t k) as [[rc1 t1] k1] eqn:H1. apply make_thread_safe_spec in H1 as (_ & _ & _ & H1).
  destruct (Z.eqb_spec rc1 0) as [->|Hne]; [|by intros [= ? <- <-]]. destruct (H1 eq_refl) as [_ Hmk].
  destruct (for_threads (make_thread_safe K s) ths k1) as [[rc2 ths2] k2] eqn:H2. intros [= -> <- <-].
  intros [Ht Hts]%Forall_cons. constructor; [by apply Hmk|by eapply IH].
Qed.

Lemma for_threads_unmoved ths k rc ths' k' x :
  for_threads (make_thread_safe K s) ths k = (rc, ths', k') -> outside (ses_probes s) (ks_pc k x) ->
  ks_pc k' x = ks_pc k x.
Proof using Hplaced.
  revert k rc ths' k'. induction ths as [|t ths IH]; intros k rc ths' k'; cbn [for_threads]; [by intros [= <- <- <-]|].
  destruct (make_thread_safe K s t k) as [[rc1 t1] k1] eqn:H1.
  apply make_thread_safe_spec in H1 as (_ & Hm & Hst & _). intros H Ho.
  assert (Hx : ks_pc k1 x = ks_pc k x).
  { destruct (Z.eq_dec x (th_tid t)) as [->|Hne]; [by rewrite Hst|]. apply Hm. by left. }
  destruct (rc1 =? 0); [|by injection H as <- <- <-].
  destruct (for_threads (make_thread_safe K s) ths k1) as [[rc2 ths2] k2] eqn:H2. injection H as <- <- <-.
  rewrite (IH _ _ _ _ H2); [done|]. by rewrite Hx.
Qed.

Lemma for_threads_safe ths k ths' k' :
  for_threads (make_thread_safe K s) ths k = (0, ths', k') -> NoDup (live_tids ths) ->
  Forall (thread_safe k') ths' /\ forall x, x ∉ live_tids ths -> ks_pc k' x = ks_pc k x.
Proof using Hplaced.
  revert k ths' k'. induction ths as [|t ths IH]; intros k ths' k'; cbn [for_threads].
  { intros [= <- <-] _. by split. }
  destruct (make_thread_safe K s t k) as [[rc1 t1] k1] eqn:H1. apply make_thread_safe_spec in H1 as (Hk & Hm & _ & Hsafe).
  destruct (Z.eqb_spec rc1 0) as [->|Hne]; [|by intros [= ? <- <-]].
  destruct (for_threads (make_thread_safe K s) ths k1) as [[rc2 ths2] k2] eqn:H2. intros [= -> <- <-] Hnd.
  unfold live_tids in Hnd. cbn [map List.filter] in Hnd. fold (live_tids ths) in Hnd.
  destruct (IH _ _ _ H2) as [Hall Hframe].
  { destruct (negb (th_tid t <=? 0)); [by apply NoDup_cons in Hnd as [_ Hnd]|done]. }
  split.
  - constructor; [|done]. intros Hpos Hst. rewrite Hframe; [by apply Hsafe|].
    destruct Hk as [Ht|Ht]; [|lia]. rewrite Ht in Hpos |- *.
    destruct (Z.leb_spec (th_tid t) 0); [lia|]. cbn [negb] in Hnd. by apply NoDup_cons in Hnd as [Hnd _].
  - intros x Hx. unfold live_tids in Hx. cbn [map List.filter] in Hx. fold (live_tids ths) in Hx.
    destruct (Z.leb_spec (th_tid t) 0); cbn [negb] in Hx.
    + rewrite Hframe by done. apply Hm. by right.
    + apply not_elem_of_cons in Hx as [Hx1 Hx2]. rewrite Hframe by done. apply Hm. by left.
Qed.

(** C32: patching is safe.  For probes placed in the user's address space: if the
    safety check succeeds after a stop (flags true to the kernel, every thread
    marked), every thread of the table is in a stop the kernel has reported and
    has its program counter outside the bytes that any probe's jump overwrites
    (from the function's address up to, not including, the address plus the length
    of the saved code): the threads found there were single-stepped out, and
    stepping one did not move another.  On every path, a thread that was outside
    is not moved, and the table stays well formed and true to the kernel. *)
Theorem zt_ensure_patch_regions_are_safe_ok k rc s' k' :
  zt_ensure_patch_regions_are_safe K s k = (rc, s', k') -> table_ok (ses_threads s) ->
  Forall (flag_ok k) (ses_threads s) ->
  table_ok (ses_threads s') /\ ses_probes s' = ses_probes s /\ Forall (flag_ok k') (ses_threads s') /\
  (forall x, outside (ses_probes s) (ks_pc k x) -> ks_pc k' x = ks_pc k x) /\
  (rc = 0 -> all_marked (ses_threads s) ->
   forall t, t ∈ ses_threads s' ->
     0 < th_tid t /\ ks_halted k' (th_tid t) = true /\
     forall p, p ∈ ses_probes s' -> ~ inside p (ks_pc k' (th_tid t))).
Proof using Hplaced.
  unfold zt_ensure_patch_regions_are_safe. destruct (ses_threads_stopped s =? 0); [by intros [= <- <- <-]|].
  destruct (for_threads (make_thread_safe K s) (ses_threads s) k) as [[rc1 ths1] k1] eqn:Hf. intros H Hok Hfl.
  destruct (pass_loop _ _ _ _ _ _ make_thread_safe_alone Hf Hok) as [Hok1 Hfl1]. specialize (Hfl1 Hfl).
  pose proof (fun x => for_threads_unmoved _ _ _ _ _ x Hf) as Hun.
  destruct (Z.eqb_spec rc1 0) as [->|]; cbn [negb] in H; [|by injection H as <- <- <-].
  injection H as <- <- <-.
  assert (Hfl2 : Forall (flag_ok k1) (ses_threads (zt_compact_threads (ses_set_threads ths1 s)))) by by apply compact_flags.
  split_and!; [by apply compact_table_ok|done|done|done|].
  intros _ Hall t Ht. pose proof Ht as Ht0.
  cbn [zt_compact_threads ses_set_threads ses_threads] in Ht.
  apply list_elem_of_In, List.filter_In in Ht as [Ht Hpos]. apply list_elem_of_In in Ht. zbool.
  assert (Hst : th_stopped t <> 0).
  { assert (Hm : Forall marked ths1) by (eapply for_threads_marked; [exact Hf|]; by apply Forall_forall).
    rewrite Forall_forall in Hm. by apply Hm. }
  rewrite Forall_forall in Hfl2. split_and!; [done|by apply Hfl2|].
  destruct (for_threads_safe _ _ _ _ Hf (proj1 Hok)) as [Hsafe _]. rewrite Forall_forall in Hsafe. by apply Hsafe.
Qed.
End safety.

(** ** Witnesses *)

(** Two threads, 100 and 101; every request succeeds; a step leaves the prologue. *)
Definition sample_thread_kernel : thread_kernel :=
  mk_thread_kernel (fun _ => Some [100; 101]) (fun _ _ => PtOk) (fun _ _ => PtOk) (fun _ _ => PtOk) (fun _ _ => PtOk)
    (fun _ _ _ => 0x500000) (fun _ _ => WrStatus (WsStopped 5 128)) (fun _ _ => PtOk) (fun _ => ([], PeNone))
    (fun _ => false).

Definition sample_session : zt_injector_session_t := mk_session 100 1 0 0 0 [] [].
Definition sample_kstate : kstate := mk_kstate 0 (fun _ => 0x401004) [] (fun tid => tid =? 100) (0%nat, []).

Lemma sample_table_ok : table_ok [].
Proof. split; [apply NoDup_nil_2|discriminate]. Qed.

(** C31: both threads end up stopped. *)
Lemma zt_injector_interrupt_all_stops_witness :
  let '(rc, s', k') := zt_injector_interrupt_all sample_thread_kernel sample_session sample_kstate in
  rc = 0 /\ (exists t, t ∈ ses_threads s' /\ th_tid t = 101) /\ ks_halted k' 101 = true.
Proof.
  destruct (zt_injector_interrupt_all sample_thread_kernel sample_session sample_kstate) as [[rc s'] k'] eqn:H.
  assert (Hrc : rc = 0) by (change rc with (fst (fst (rc, s', k'))); rewrite <- H; vm_compute; reflexivity).
  destruct (zt_injector_interrupt_all_stops sample_thread_kernel _ _ _ _ _ H sample_table_ok) as (_ & _ & Hs).
  { constructor. }
  split; [exact Hrc|]. destruct (Hs Hrc) as (_ & _ & _ & Hl).
  destruct (ks_listed k') as [n tids]. destruct Hl as [Ht Hall]. injection Ht as <-.
  destruct (Hall 101) as [Hx|(m & _ & Hm)]; [right; left|reflexivity|exact Hx|discriminate Hm].
Defined.

Definition sample_patched_probe : zt_probe_info_t :=
  mk_probe 1 (mk_target [] [] 0x401000) 0 0 (replicate 32 0) 14 ZT_PROBE_PREPARED zero_filter zero_call_action 0 [].

Definition sample_stopped_session : zt_injector_session_t :=
  mk_session 100 2 1 1 0 [mk_thread 100 1 0] [sample_patched_probe].

Lemma sample_stopped_table_ok : table_ok (ses_threads sample_stopped_session).
Proof. split; [apply NoDup_singleton|discriminate]. Qed.

Lemma sample_placed : probes_placed (ses_probes sample_stopped_session).
Proof. intros p Hp _. apply list_elem_of_singleton in Hp as ->. cbn. lia. Qed.

(** C32: a thread stopped at 0x401004 is stepped out of the prologue at 0x401000. *)
Lemma zt_ensure_patch_regions_are_safe_ok_witness :
  let '(rc, s', k') := zt_ensure_patch_regions_are_safe sample_thread_kernel sample_stopped_session sample_kstate in
  rc = 0 /\ inside sample_patched_probe (ks_pc sample_kstate 100) /\
  ~ inside sample_patched_probe (ks_pc k' 100).
Proof.
  destruct (zt_ensure_patch_regions_are_safe sample_thread_kernel sample_stopped_session sample_kstate)
    as [[rc s'] k'] eqn:H.
  assert (Hrc : rc = 0) by (change rc with (fst (fst (rc, s', k'))); rewrite <- H; vm_compute; reflexivity).
  assert (Hths : ses_threads s' = [mk_thread 100 1 0])
    by (change s' with (snd (fst (rc, s', k'))); rewrite <- H; vm_compute; reflexivity).
  destruct (zt_ensure_patch_regions_are_safe_ok sample_thread_kernel sample_stopped_session sample_placed _ _ _ _ H
    sample_stopped_table_ok) as (_ & Hp & _ & _ & Hs).
  { apply Forall_singleton. intros _ _. reflexivity. }
  split; [exact Hrc|]. split; [split; [discriminate|split; [discriminate|reflexivity]]|].
  destruct (Hs Hrc) with (t := mk_thread 100 1 0) as (_ & _ & Hout).
  - intros t Ht _. apply list_elem_of_singleton in Ht as ->. discriminate.
  - rewrite Hths. left.
  - apply Hout. rewrite Hp. left.
Defined.

(** A signal that a thread was about to receive when it was stopped is passed on when
    the group is resumed, but lost when the tracer detaches instead. *)
Lemma detach_loses_signal :
  let s := mk_session 100 1 0 1 0 [mk_thread 100 1 10] [] in
  let k := mk_kstate 0 (fun _ => 0) [] (fun _ => true) (0%nat, []) in
  ks_sent (snd (zt_injector_continue_all sample_thread_kernel s k)) = [(100, 10)] /\
  ks_sent (snd (zt_injector_detach sample_thread_kernel s k)) = [].
Proof. split; reflexivity. Qed.
