(* ===== verification/Probes.v ===== *)
(** * The probe table and the patches (src/zt_injector.c)

    Registering, preparing, installing and uninstalling probes.  The instruction set
    is an instance of [Arch], the target's memory is RemoteMem's, the thread group
    Threads'.  Symbol resolution (/proc and ELF files) is the parameter [resolve]. *)

From S2P Require Import Prelude CLib Types Reader RemoteMem RemoteMemSpec Arch Threads.

(** ** State *)

Record inj_t := mk_inj { in_ses : zt_injector_session_t; in_proc : proc_t; in_k : kstate }.

Definition ses_set_probes (ps : list zt_probe_info_t) (s : zt_injector_session_t) : zt_injector_session_t :=
  mk_session (ses_pid s) (ses_next_probe_id s) (ses_probe_count s) (ses_threads_stopped s) (ses_target_exited s)
    (ses_threads s) ps.

(** Update the entry zt_probe_find_by_id finds. *)
Fixpoint update_probe (probe_id : Z) (f : zt_probe_info_t -> zt_probe_info_t) (ps : list zt_probe_info_t)
    : list zt_probe_info_t :=
  match ps with
  | [] => []
  | p :: ps => if pr_probe_id p =? probe_id then f p :: ps else p :: update_probe probe_id f ps
  end.

Definition in_update_probe (probe_id : Z) (f : zt_probe_info_t -> zt_probe_info_t) (w : inj_t) : inj_t :=
  mk_inj (ses_set_probes (update_probe probe_id f (ses_probes (in_ses w))) (in_ses w)) (in_proc w) (in_k w).

Definition probe_set_prepared (code : list Z) (len : Z) (p : zt_probe_info_t) : zt_probe_info_t :=
  mk_probe (pr_probe_id p) (pr_target p) (pr_trampoline_addr p) (pr_trampoline_slot p)
    (memcpy_at 0 (take (Z.to_nat len) code) (pr_orig_code p)) (len mod 256) ZT_PROBE_PREPARED
    (pr_filter p) (pr_call_action p) (pr_call_action_slot p) (pr_call_symbol p).

Definition probe_set_installed (addr : Z) (p : zt_probe_info_t) : zt_probe_info_t :=
  mk_probe (pr_probe_id p) (pr_target p) addr (pr_trampoline_slot p) (pr_orig_code p) (pr_orig_len p)
    ZT_PROBE_INSTALLED (pr_filter p) (pr_call_action p) (pr_call_action_slot p) (pr_call_symbol p).

Definition probe_set_state (st : zt_probe_state_t) (p : zt_probe_info_t) : zt_probe_info_t :=
  mk_probe (pr_probe_id p) (pr_target p) (pr_trampoline_addr p) (pr_trampoline_slot p) (pr_orig_code p) (pr_orig_len p)
    st (pr_filter p) (pr_call_action p) (pr_call_action_slot p) (pr_call_symbol p).

(** ** The table *)

Definition cstr_eqb (a b : cstr) : bool := bool_decide (a = b).

Definition zt_probe_find_by_symbol (ps : list zt_probe_info_t) (symbol_name : cstr) : option zt_probe_info_t :=
  List.find (fun p => negb (pr_probe_id p =? 0) && cstr_eqb (tgt_symbol (pr_target p)) symbol_name) ps.

(** The entry a registration fills in. *)
Definition new_probe (probe_id : Z) (target : zt_symbol_target_t) : zt_probe_info_t :=
  mk_probe probe_id target 0 (-1) (replicate (Z.to_nat ZT_PROBE_ORIG_CODE_MAX) 0) 0 ZT_PROBE_RESOLVED
    zero_filter zero_call_action (-1) [].

(** Store into the first free entry. *)
Fixpoint fill_free (p : zt_probe_info_t) (ps : list zt_probe_info_t) : option (list zt_probe_info_t) :=
  match ps with
  | [] => None
  | q :: ps =>
      if pr_probe_id q =? 0 then Some (p :: ps)
      else match fill_free p ps with None => None | Some ps => Some (q :: ps) end
  end.

(** The id a registration takes, and the next one: 0 is skipped. *)
Definition take_probe_id (next : Z) : Z * Z :=
  let id := next in
  let next := next +64 1 in
  if id =? 0 then (next, next +64 1) else (id, next).

Definition zt_probe_alloc (s : zt_injector_session_t) (target : zt_symbol_target_t)
    : option zt_probe_info_t * zt_injector_session_t :=
  if (length (tgt_symbol target) =? 0)%nat then (None, s)
  else
    match zt_probe_find_by_symbol (ses_probes s) (tgt_symbol target) with
    | Some probe => (Some probe, s)
    | None =>
        let '(id, next) := take_probe_id (ses_next_probe_id s) in
        let p := new_probe id target in
        match fill_free p (ses_probes s) with
        | None => (None, s)
        | Some ps =>
            (Some p, mk_session (ses_pid s) next (ses_probe_count s + 1) (ses_threads_stopped s)
                       (ses_target_exited s) (ses_threads s) ps)
        end
    end.

Definition zt_register_probe (resolve : cstr -> option zt_symbol_target_t) (s : zt_injector_session_t)
    (symbol_name : cstr) : option zt_probe_info_t * zt_injector_session_t :=
  match zt_probe_find_by_symbol (ses_probes s) symbol_name with
  | Some probe => (Some probe, s)
  | None =>
      match resolve symbol_name with
      | None => (None, s)
      | Some target => zt_probe_alloc s target
      end
  end.

Definition zt_unregister_probe (s : zt_injector_session_t) (probe_id : Z) : Z * zt_injector_session_t :=
  match zt_probe_find_by_id (ses_probes s) probe_id with
  | None => (-1, s)
  | Some _ =>
      (0, mk_session (ses_pid s) (ses_next_probe_id s)
            (if ses_probe_count s >? 0 then ses_probe_count s - 1 else ses_probe_count s)
            (ses_threads_stopped s) (ses_target_exited s) (ses_threads s)
            (update_probe probe_id (fun _ => zero_probe) (ses_probes s)))
  end.

Section patches.
Context `{A : Arch} (K : kernel_t) (TK : thread_kernel).

Definition zt_enable_probe (probe_id : Z) (w : inj_t) : Z * inj_t :=
  match zt_probe_find_by_id (ses_probes (in_ses w)) probe_id with
  | None => (-1, w)
  | Some probe =>
      if bool_decide (pr_state probe = ZT_PROBE_PREPARED) || bool_decide (pr_state probe = ZT_PROBE_INSTALLED)
      then (0, w)
      else
        let '(code, p) := zt_read_remote_memory K (tgt_remote_addr (pr_target probe)) ZT_PROBE_ORIG_CODE_MAX (in_proc w) in
        let w := mk_inj (in_ses w) p (in_k w) in
        match code with
        | None => (-1, w)
        | Some code =>
            match zt_arch_calc_patch_span code zt_arch_probe_patch_len with
            | None => (-1, w)
            | Some patch_len =>
                if patch_len >? ZT_PROBE_ORIG_CODE_MAX then (-1, w)
                else (0, in_update_probe probe_id (probe_set_prepared code patch_len) w)
            end
        end
  end.

(** The safety check on the whole state. *)
Definition ensure_safe (w : inj_t) : Z * inj_t :=
  let '(rc, s, k) := zt_ensure_patch_regions_are_safe TK (in_ses w) (in_k w) in (rc, mk_inj s (in_proc w) k).

Definition zt_install_probe_patch (probe_id trampoline_addr : Z) (w : inj_t) : Z * inj_t :=
  if trampoline_addr =? 0 then (-1, w)
  else
    match zt_probe_find_by_id (ses_probes (in_ses w)) probe_id with
    | None => (-1, w)
    | Some probe =>
        if negb (bool_decide (pr_state probe = ZT_PROBE_PREPARED)) || (pr_orig_len probe <? zt_arch_probe_patch_len)
        then (-1, w)
        else
          let '(rc, w) := ensure_safe w in
          if negb (rc =? 0) then (-1, w)
          else
            let '(rc, p) := zt_arch_install_jump K (tgt_remote_addr (pr_target probe)) trampoline_addr (in_proc w) in
            let w := mk_inj (in_ses w) p (in_k w) in
            if negb (rc =? 0) then (-1, w)
            else (0, in_update_probe probe_id (probe_set_installed trampoline_addr) w)
    end.

Definition zt_uninstall_probe_patch (probe_id : Z) (w : inj_t) : Z * inj_t :=
  match zt_probe_find_by_id (ses_probes (in_ses w)) probe_id with
  | None => (-1, w)
  | Some probe =>
      if pr_orig_len probe =? 0 then (-1, w)
      else
        let '(rc, w) := ensure_safe w in
        if negb (rc =? 0) then (-1, w)
        else
          let '(rc, p) := zt_write_remote_memory K (tgt_remote_addr (pr_target probe))
                            (take (Z.to_nat (pr_orig_len probe)) (pr_orig_code probe)) (in_proc w) in
          let w := mk_inj (in_ses w) p (in_k w) in
          if negb (rc =? 0) then (-1, w)
          else (0, in_update_probe probe_id (probe_set_state ZT_PROBE_DISABLED) w)
  end.
End patches.
