(* ===== verification/ProbesSpec.v ===== *)
(** * What installing and removing a probe does to the target

    Proved for every instruction set that satisfies the laws of [ArchLaws], and so
    for both instances. *)

From S2P Require Import Prelude CLib Types Reader RemoteMem RemoteMemSpec Arch Threads ThreadsSpec Probes.

(** ** The table *)

Lemma find_update ps id f :
  id <> 0 -> (forall p, pr_probe_id p = id -> pr_probe_id (f p) = id) ->
  zt_probe_find_by_id (update_probe id f ps) id = f <$> zt_probe_find_by_id ps id.
Proof.
  intros Hid Hf. unfold zt_probe_find_by_id. destruct (Z.eqb_spec id 0); [done|].
  induction ps as [|p ps IH]; [done|]. cbn [update_probe List.find].
  destruct (Z.eqb_spec (pr_probe_id p) id) as [Hp|Hp]; cbn [List.find].
  - rewrite Hf, Z.eqb_refl by done. done.
  - destruct (Z.eqb_spec (pr_probe_id p) id); [done|]. exact IH.
Qed.

Lemma find_by_id_spec ps id p : zt_probe_find_by_id ps id = Some p -> id <> 0 /\ pr_probe_id p = id.
Proof.
  unfold zt_probe_find_by_id. destruct (Z.eqb_spec id 0); [done|]. intros [_ H]%find_some. by zbool.
Qed.

Section roundtrip.
Context `{A : Arch} {L : ArchLaws A} (K : kernel_t) (TK : thread_kernel).

Definition wm (w : inj_t) : Z -> option Z := pm (in_proc w).
Definition wprobe (w : inj_t) (id : Z) : option zt_probe_info_t := zt_probe_find_by_id (ses_probes (in_ses w)) id.

Lemma in_update_spec id f w p :
  wprobe w id = Some p -> (forall p, pr_probe_id (f p) = pr_probe_id p) ->
  wprobe (in_update_probe id f w) id = Some (f p) /\ wm (in_update_probe id f w) = wm w.
Proof.
  intros Hp Hf. split; [|done]. pose proof (find_by_id_spec _ _ _ Hp) as [Hid _].
  unfold wprobe, in_update_probe. cbn [in_ses ses_set_probes ses_probes]. rewrite find_update; [|done|].
  - unfold wprobe in Hp. by rewrite Hp.
  - intros q <-. apply Hf.
Qed.

Lemma ensure_safe_keeps w rc w' : ensure_safe TK w = (rc, w') -> wm w' = wm w /\ forall id, wprobe w' id = wprobe w id.
Proof.
  unfold ensure_safe. destruct (zt_ensure_patch_regions_are_safe TK (in_ses w) (in_k w)) as [[rc1 s1] k1] eqn:H.
  intros [= <- <-]. split; [done|]. intros id. unfold wprobe. cbn [in_ses].
  unfold zt_ensure_patch_regions_are_safe in H. destruct (_ =? 0); [by injection H as <- <- <-|].
  destruct (for_threads _ _ _) as [[rc2 ths] k2]. destruct (negb _); by injection H as <- <- <-.
Qed.

(** A prepared probe: the saved bytes are those in memory. *)
Lemma enable_spec id w w1 p :
  zt_enable_probe K id w = (0, w1) -> wprobe w id = Some p ->
  pr_state p <> ZT_PROBE_PREPARED -> pr_state p <> ZT_PROBE_INSTALLED ->
  let a := tgt_remote_addr (pr_target p) in
  0 <= a -> a + 40 <= 2 ^ 64 ->
  exists code n, wprobe w1 id = Some (probe_set_prepared code n p) /\ wm w1 = wm w /\
    read_bytes (wm w) a 32 = Some code /\ zt_arch_probe_patch_len <= n <= 32.
Proof.
  intros He Hp N1 N2 a Ha Hr. unfold zt_enable_probe in He. fold (wprobe w id) in He. rewrite Hp in He.
  rewrite !bool_decide_false in He by done. cbn [orb] in He. fold a in He. unfold ZT_PROBE_ORIG_CODE_MAX in He.
  pose proof (read_remote_spec K a 32 (in_proc w) Ha ltac:(lia) ltac:(lia)) as Hread.
  destruct (zt_read_remote_memory K a 32 (in_proc w)) as [[code|] q]; destruct Hread as [Hm Hc]; [|done].
  specialize (Hc _ eq_refl). change (Z.to_nat 32) with 32%nat in Hc.
  pose proof (read_bytes_length _ _ _ _ Hc) as Hl. pose proof (@patch_len_range A L) as Hpl. unfold ZT_PROBE_ORIG_CODE_MAX in Hpl.
  destruct (zt_arch_calc_patch_span code zt_arch_probe_patch_len) as [n|] eqn:Hspan; [|done].
  apply patch_span_bounds in Hspan; [|lia|unfold is_u64; lia].
  destruct (n >? 32); [done|]. injection He as <-. exists code, n.
  destruct (in_update_spec id (probe_set_prepared code n) (mk_inj (in_ses w) q (in_k w)) p) as [H1 H2]; [done|done|].
  split_and!; [done|rewrite H2; exact Hm|done|lia|lia].
Qed.

Lemma prepared_code code n p :
  length (pr_orig_code p) = 32%nat -> length code = 32%nat -> 0 <= n <= 32 ->
  take (Z.to_nat (pr_orig_len (probe_set_prepared code n p))) (pr_orig_code (probe_set_prepared code n p)) =
  take (Z.to_nat n) code.
Proof.
  intros Ho Hc Hn. cbn [probe_set_prepared pr_orig_len pr_orig_code]. rewrite Z.mod_small by lia.
  unfold memcpy_at. rewrite take_0. cbn [app]. apply take_app_length'. rewrite length_take. lia.
Qed.

Lemma install_spec id tramp w w' p :
  zt_install_probe_patch K TK id tramp w = (0, w') -> wprobe w id = Some p ->
  let a := tgt_remote_addr (pr_target p) in
  0 <= a -> a + 40 <= 2 ^ 64 ->
  wprobe w' id = Some (probe_set_installed tramp p) /\
  forall x, wm w' x = if decide (in_range a (Z.to_nat zt_arch_probe_patch_len) x)
                      then jump_patch tramp !! Z.to_nat (x - a) else wm w x.
Proof.
  intros Hi Hp a Ha Hr. unfold zt_install_probe_patch in Hi. fold (wprobe w id) in Hi. rewrite Hp in Hi.
  destruct (tramp =? 0) eqn:Ht; [done|]. destruct (_ || _); [done|].
  destruct (ensure_safe TK w) as [rc1 w1] eqn:Hs. apply ensure_safe_keeps in Hs as [Hm Hps].
  destruct (negb (rc1 =? 0)); [done|]. fold a in Hi. unfold zt_arch_install_jump in Hi.
  destruct (_ || _); [done|]. pose proof (@jump_patch_length A L tramp) as Hl. pose proof (@patch_len_range A L) as Hpl.
  unfold ZT_PROBE_ORIG_CODE_MAX in Hpl.
  assert (Hroom : a + Z.of_nat (length (jump_patch tramp)) + 8 <= 2 ^ 64) by lia.
  pose proof (write_remote_spec K a (jump_patch tramp) (in_proc w1) Ha Hroom) as Hw.
  destruct (zt_write_remote_memory K a (jump_patch tramp) (in_proc w1)) as [rc2 q]. destruct Hw as (Hb & Hw & _).
  destruct (Z.eqb_spec rc2 0) as [->|]; cbn [negb] in Hi; [|done]. injection Hi as <-.
  destruct (in_update_spec id (probe_set_installed tramp) (mk_inj (in_ses w1) q (in_k w1)) p) as [H1 H2];
    [unfold wprobe; cbn [in_ses]; fold (wprobe w1 id); by rewrite Hps|done|].
  split; [done|]. rewrite H2. intros x. change (wm (mk_inj (in_ses w1) q (in_k w1))) with (pm q). rewrite <- Hm.
  assert (Hlen : Z.to_nat zt_arch_probe_patch_len = length (jump_patch tramp)) by lia. rewrite Hlen.
  destruct (decide _) as [Hin|Hout]; [by apply Hw; unfold in_range in Hin|].
  by destruct (Hb x) as [?|[? _]].
Qed.

Lemma uninstall_spec id w w' p :
  zt_uninstall_probe_patch K TK id w = (0, w') -> wprobe w id = Some p ->
  let a := tgt_remote_addr (pr_target p) in
  let code := take (Z.to_nat (pr_orig_len p)) (pr_orig_code p) in
  0 <= a -> a + Z.of_nat (length code) + 8 <= 2 ^ 64 ->
  wprobe w' id = Some (probe_set_state ZT_PROBE_DISABLED p) /\
  forall x, wm w' x = if decide (in_range a (length code) x) then code !! Z.to_nat (x - a) else wm w x.
Proof.
  intros Hi Hp a code Ha Hr. unfold zt_uninstall_probe_patch in Hi. fold (wprobe w id) in Hi. rewrite Hp in Hi.
  destruct (pr_orig_len p =? 0); [done|].
  destruct (ensure_safe TK w) as [rc1 w1] eqn:Hs. apply ensure_safe_keeps in Hs as [Hm Hps].
  destruct (negb (rc1 =? 0)); [done|]. fold a in Hi. fold code in Hi.
  pose proof (write_remote_spec K a code (in_proc w1) Ha Hr) as Hw.
  destruct (zt_write_remote_memory K a code (in_proc w1)) as [rc2 q]. destruct Hw as (Hb & Hw & _).
  destruct (Z.eqb_spec rc2 0) as [->|]; cbn [negb] in Hi; [|done]. injection Hi as <-.
  destruct (in_update_spec id (probe_set_state ZT_PROBE_DISABLED) (mk_inj (in_ses w1) q (in_k w1)) p) as [H1 H2];
    [unfold wprobe; cbn [in_ses]; fold (wprobe w1 id); by rewrite Hps|done|].
  split; [done|]. rewrite H2. intros x. change (wm (mk_inj (in_ses w1) q (in_k w1))) with (pm q). rewrite <- Hm.
  destruct (decide _) as [Hin|Hout]; [by apply Hw; unfold in_range in Hin|]. by destruct (Hb x) as [?|[? _]].
Qed.

(** C33: a probe leaves no trace in the target's code.  Preparing it changes
    nothing; installing it changes exactly the bytes of the jump, inside the saved
    instructions; and uninstalling it, whatever else happened to the memory in
    between, puts every byte of the saved instructions back and touches no other. *)
Theorem probe_patch_roundtrip id tramp p w w1 w2 w2' w3 :
  wprobe w id = Some p -> pr_state p <> ZT_PROBE_PREPARED -> pr_state p <> ZT_PROBE_INSTALLED ->
  length (pr_orig_code p) = 32%nat ->
  let a := tgt_remote_addr (pr_target p) in
  0 <= a -> a + 40 <= 2 ^ 64 ->
  zt_enable_probe K id w = (0, w1) ->
  zt_install_probe_patch K TK id tramp w1 = (0, w2) ->
  wprobe w2' id = wprobe w2 id ->
  zt_uninstall_probe_patch K TK id w2' = (0, w3) ->
  exists n, zt_arch_probe_patch_len <= Z.of_nat n <= 32 /\ wm w1 = wm w /\
    (forall x, wm w2 x = if decide (in_range a (Z.to_nat zt_arch_probe_patch_len) x)
                         then jump_patch tramp !! Z.to_nat (x - a) else wm w x) /\
    (forall x, wm w3 x = if decide (in_range a n x) then wm w x else wm w2' x) /\
    pr_state <$> wprobe w3 id = Some ZT_PROBE_DISABLED.
Proof.
  intros Hp N1 N2 Hol a Ha Hr Hen Hin Hsame Hun.
  destruct (enable_spec _ _ _ _ Hen Hp N1 N2 Ha Hr) as (code & n & Hp1 & Hm1 & Hcode & Hn).
  pose proof (read_bytes_length _ _ _ _ Hcode) as Hlc. pose proof (@patch_len_range A L) as Hpl.
  destruct (install_spec _ _ _ _ _ Hin Hp1) as [Hp2 Hm2]; [done|done|]. rewrite Hp2 in Hsame.
  set (p2 := probe_set_installed tramp (probe_set_prepared code n p)) in *.
  assert (Hsaved : take (Z.to_nat (pr_orig_len p2)) (pr_orig_code p2) = take (Z.to_nat n) code)
    by (apply (prepared_code code n p); [done|done|lia]).
  destruct (uninstall_spec _ _ _ _ Hun Hsame) as [Hp3 Hm3]; [done|rewrite Hsaved, length_take; cbn; lia|].
  rewrite Hsaved in Hm3. assert (Hlt : length (take (Z.to_nat n) code) = Z.to_nat n) by (rewrite length_take; lia).
  rewrite Hlt in Hm3. exists (Z.to_nat n). split_and!; [lia|lia|done| | |].
  - rewrite Hm1 in Hm2. exact Hm2.
  - intros x. rewrite Hm3. change (tgt_remote_addr (pr_target p2)) with a. destruct (decide _) as [Hx|]; [|done].
    unfold in_range in Hx. rewrite lookup_take_lt by lia.
    rewrite <- (read_bytes_get _ _ _ _ (Z.to_nat (x - a)) Hcode) by lia. f_equal. lia.
  - by rewrite Hp3.
Qed.
End roundtrip.

(** ** Witnesses *)

Definition sample_resolved (id : Z) : zt_probe_info_t := new_probe id (mk_target (lit "f") [] 4096).

(** One stopped thread outside the patched page, and two probes at 4096. *)
Definition sample_inj : inj_t :=
  mk_inj (mk_session 100 3 2 1 0 [mk_thread 100 1 0] [sample_resolved 1; sample_resolved 2]) zero_page sample_kstate.

(** C33 for probe 1 on AArch64. *)
Lemma probe_patch_roundtrip_witness :
  let enable := zt_enable_probe (A := A64.aarch64_arch) plain_kernel 1 in
  let install := zt_install_probe_patch (A := A64.aarch64_arch) plain_kernel sample_thread_kernel 1 0x500000 in
  let uninstall := zt_uninstall_probe_patch plain_kernel sample_thread_kernel 1 in
  let w3 := snd (uninstall (snd (install (snd (enable sample_inj))))) in
  exists n, forall x, wm w3 x = if decide (in_range 4096 n x) then wm sample_inj x
    else wm (snd (install (snd (enable sample_inj)))) x.
Proof.
  intros enable install uninstall w3.
  destruct (probe_patch_roundtrip (L := aarch64_laws) plain_kernel sample_thread_kernel 1 0x500000 (sample_resolved 1)
    sample_inj (snd (enable sample_inj)) (snd (install (snd (enable sample_inj))))
    (snd (install (snd (enable sample_inj)))) w3) as (n & _ & _ & _ & H & _).
  - reflexivity.
  - discriminate.
  - discriminate.
  - reflexivity.
  - discriminate.
  - discriminate.
  - rewrite (surjective_pairing (zt_enable_probe plain_kernel 1 sample_inj)). f_equal.
  - rewrite (surjective_pairing (zt_install_probe_patch _ _ _ _ _)). f_equal.
  - reflexivity.
  - rewrite (surjective_pairing (zt_uninstall_probe_patch _ _ _ _)). f_equal.
  - exists n. exact H.
Defined.

(** Two probes at one address (two names of a function) that are removed in the order
    they were installed leave the first one's jump in the code: the second one saved
    the patched bytes as its original code. *)
Lemma alias_probes_stale_jump :
  let K := plain_kernel in let TK := sample_thread_kernel in
  let en id w := snd (zt_enable_probe (A := A64.aarch64_arch) K id w) in
  let ins id t w := snd (zt_install_probe_patch (A := A64.aarch64_arch) K TK id t w) in
  let un id w := snd (zt_uninstall_probe_patch K TK id w) in
  let w := un 2 (un 1 (ins 2 0x600000 (en 2 (ins 1 0x500000 (en 1 sample_inj))))) in
  read_bytes (wm sample_inj) 4096 16 = Some (replicate 16 0) /\
  read_bytes (wm w) 4096 16 = Some (A64.a64_jump_patch 0x500000).
Proof. vm_compute. done. Qed.
