(* ===== verification/SigConf.v ===== *)
(** * Function signatures (src/zt_sigconf.c)

    The parser of conf/zttrace.conf: [zt_trim], the identifier scan, the type
    table, [zt_parse_sig_line], [zt_sigconf_load] and [zt_sigconf_find].  The
    parser cuts its line up in place, so a line is a buffer of bytes with NULs in
    it and a [char *] into it is an offset; the private arrays of the structures
    are the C strings they hold. *)

From S2P Require Import Prelude CLib Types.

(** ** Types *)

Definition ZT_SIGCONF_MAX_FUNCS : Z := 256.
Definition ZT_SIGCONF_MAX_PARAMS : Z := 6.

Inductive zt_sig_type_t :=
| ZT_SIG_TYPE_UNKNOWN
| ZT_SIG_TYPE_INT
| ZT_SIG_TYPE_LONG
| ZT_SIG_TYPE_ULONG
| ZT_SIG_TYPE_SIZE
| ZT_SIG_TYPE_SSIZE
| ZT_SIG_TYPE_PTR
| ZT_SIG_TYPE_CSTR
| ZT_SIG_TYPE_BUF
| ZT_SIG_TYPE_CONST_BUF
| ZT_SIG_TYPE_FLOAT
| ZT_SIG_TYPE_DOUBLE
| ZT_SIG_TYPE_VOID.

#[export] Instance sig_type_eq_dec : EqDecision zt_sig_type_t.
Proof. solve_decision. Defined.

(** [char decl[64]; char name[32]; zt_sig_type_t type]. *)
Record zt_sig_param_t := mk_param { sp_decl : cstr; sp_name : cstr; sp_type : zt_sig_type_t }.

(** [params] holds the first [param_count] entries of the array. *)
Record zt_func_sig_t := mk_sig {
  sg_symbol : cstr;
  sg_ret : zt_sig_param_t;
  sg_params : list zt_sig_param_t;
  sg_variadic : bool
}.

#[export] Instance sig_param_eq_dec : EqDecision zt_sig_param_t.
Proof. solve_decision. Defined.
#[export] Instance func_sig_eq_dec : EqDecision zt_func_sig_t.
Proof. solve_decision. Defined.

Definition sizeof_decl : nat := 64.
Definition sizeof_name : nat := 32.
Definition sizeof_symbol : nat := Z.to_nat ZT_PROBE_SYMBOL_MAX.

(** ** Strings in a buffer *)

(** The C string a pointer into a buffer denotes. *)
Fixpoint until_nul (bs : list Z) : cstr :=
  match bs with
  | [] => []
  | c :: bs => if c =? 0 then [] else c :: until_nul bs
  end.

Definition cstr_at (buf : list Z) (p : nat) : cstr := until_nul (drop p buf).

(** strchr, strrchr and strstr, as the offset in the string. *)
Fixpoint strchr (s : cstr) (c : Z) : option nat :=
  match s with
  | [] => None
  | d :: s => if d =? c then Some O else S <$> strchr s c
  end.

Fixpoint strrchr (s : cstr) (c : Z) : option nat :=
  match s with
  | [] => None
  | d :: s =>
      match strrchr s c with
      | Some i => Some (S i)
      | None => if d =? c then Some O else None
      end
  end.

Fixpoint strstr (s text : cstr) : option nat :=
  if starts_with text s then Some O
  else match s with [] => None | _ :: s => S <$> strstr s text end.

(** strtok with the one delimiter [d], from the saved pointer [save]: the token's
    offset, the buffer with the delimiter overwritten, and the next saved pointer. *)
Definition strtok (d : Z) (buf : list Z) (save : nat) : option (nat * list Z * nat) :=
  let s := cstr_at buf save in
  let rest := skip_while (Z.eqb d) s in
  let start := (save + (length s - length rest))%nat in
  match rest with
  | [] => None
  | _ =>
      match strchr rest d with
      | Some n => Some (start, <[(start + n)%nat := 0]> buf, S (start + n))
      | None => Some (start, buf, (start + length rest)%nat)
      end
  end.

(** ** Trimming and copying *)

(** while (end > s && isspace( *end)) *end-- = '\0' *)
Fixpoint trim_tail (buf : list Z) (s e : nat) : list Z :=
  match e with
  | O => buf
  | S e' =>
      if (s <? e)%nat && isspace (buf !!! e) then trim_tail (<[e := 0]> buf) s e' else buf
  end.

Definition zt_trim (buf : list Z) (s : nat) : list Z * nat :=
  let str := cstr_at buf s in
  let rest := skip_while isspace str in
  let s := (s + (length str - length rest))%nat in
  match rest with
  | [] => (buf, s)
  | _ => (trim_tail buf s (s + length rest - 1), s)
  end.

(** The string [dst] holds afterwards. *)
Definition zt_copy_str (dst_size : nat) (src : cstr) : cstr := take (dst_size - 1) src.

(** ** Parameter names *)

(** while (end > 0 && f(spec[end - 1])) --end *)
Fixpoint back_while (f : Z -> bool) (spec : cstr) (e : nat) : nat :=
  match e with
  | O => O
  | S e' => if f (spec !!! e') then back_while f spec e' else e
  end.

Definition ident_char (c : Z) : bool := isalnum c || (c =? 95).

Definition zt_find_trailing_ident_span (spec : cstr) : option (nat * nat) :=
  let e := back_while isspace spec (length spec) in
  let start := back_while ident_char spec e in
  if (start =? e)%nat || (start =? 0)%nat then None else Some (start, e).

Definition zt_strip_param_name (spec : cstr) : cstr :=
  match zt_find_trailing_ident_span spec with
  | None => spec
  | Some (start, _) =>
      if spec !!! (start - 1)%nat =? 42 then take start spec
      else take (back_while isspace spec start) spec
  end.

Definition zt_extract_param_name (spec : cstr) (name_size : nat) : cstr :=
  match zt_find_trailing_ident_span spec with
  | None => []
  | Some (start, e) =>
      let len := (e - start)%nat in
      let len := if (name_size <=? len)%nat then (name_size - 1)%nat else len in
      take len (drop start spec)
  end.

(** ** Type names *)

Definition kExactSigTypes : list (cstr * zt_sig_type_t) :=
  [ (lit "void", ZT_SIG_TYPE_VOID);
    (lit "buffer", ZT_SIG_TYPE_BUF);
    (lit "const buffer", ZT_SIG_TYPE_CONST_BUF);
    (lit "float", ZT_SIG_TYPE_FLOAT);
    (lit "double", ZT_SIG_TYPE_DOUBLE);
    (lit "size_t", ZT_SIG_TYPE_SIZE);
    (lit "ssize_t", ZT_SIG_TYPE_SSIZE);
    (lit "unsigned long", ZT_SIG_TYPE_ULONG);
    (lit "time_t", ZT_SIG_TYPE_ULONG);
    (lit "long", ZT_SIG_TYPE_LONG);
    (lit "off_t", ZT_SIG_TYPE_LONG);
    (lit "int", ZT_SIG_TYPE_INT);
    (lit "unsigned int", ZT_SIG_TYPE_INT);
    (lit "pid_t", ZT_SIG_TYPE_INT);
    (lit "mode_t", ZT_SIG_TYPE_INT);
    (lit "uid_t", ZT_SIG_TYPE_INT);
    (lit "gid_t", ZT_SIG_TYPE_INT);
    (lit "socklen_t", ZT_SIG_TYPE_INT) ].

Definition streq (a b : cstr) : bool := bool_decide (a = b).

Definition zt_parse_sig_type (decl : cstr) : zt_sig_type_t :=
  match decl with
  | [] => ZT_SIG_TYPE_UNKNOWN
  | _ =>
      match List.find (fun e => streq decl (fst e)) kExactSigTypes with
      | Some e => snd e
      | None =>
          match strstr decl (lit "char *"), strchr decl 42 with
          | Some _, _ => ZT_SIG_TYPE_CSTR
          | None, Some _ => ZT_SIG_TYPE_PTR
          | None, None => ZT_SIG_TYPE_UNKNOWN
          end
      end
  end.

(** ** One line *)

(** The entry of one parameter: its text is copied to [char param_buf[64]], whose
    name is taken off in place. *)
Definition parse_param (trimmed : cstr) : zt_sig_param_t :=
  let param_buf := zt_copy_str 64 trimmed in
  let name := zt_extract_param_name param_buf sizeof_name in
  let '(b, p) := zt_trim (zt_strip_param_name param_buf ++ [0]) 0 in
  let decl := zt_copy_str sizeof_decl (cstr_at b p) in
  mk_param decl name (zt_parse_sig_type decl).

(** The strtok loop; each token is longer than nothing, so the buffer's length is
    enough fuel. *)
Fixpoint param_loop (fuel : nat) (buf : list Z) (save : nat) (params : list zt_sig_param_t) (variadic : bool)
    : list Z * list zt_sig_param_t * bool :=
  match fuel with
  | O => (buf, params, variadic)
  | S fuel =>
      match strtok 44 buf save with
      | None => (buf, params, variadic)
      | Some (token, buf, save) =>
          let '(buf, t) := zt_trim buf token in
          let trimmed := cstr_at buf t in
          if streq trimmed (lit "...") then param_loop fuel buf save params true
          else if negb (chr trimmed =? 0) && (Z.of_nat (length params) <? ZT_SIGCONF_MAX_PARAMS)
          then param_loop fuel buf save (params ++ [parse_param trimmed]) variadic
          else param_loop fuel buf save params variadic
      end
  end.

(** [None] for -1; [line] is the offset of the text in [buf]. *)
Definition zt_parse_sig_line (buf : list Z) (line : nat) : option zt_func_sig_t :=
  let s := cstr_at buf line in
  match strchr s 40, strrchr s 41, strstr s (lit "->") with
  | Some open_paren, Some close_paren, Some arrow =>
      if (close_paren <? open_paren)%nat then None
      else
        let buf := <[(line + open_paren)%nat := 0]> buf in
        let '(buf, sym) := zt_trim buf line in
        let symbol := zt_copy_str sizeof_symbol (cstr_at buf sym) in
        if chr symbol =? 0 then None
        else
          let buf := <[(line + close_paren)%nat := 0]> buf in
          let '(buf, params, variadic) :=
            param_loop (length buf) buf (line + open_paren + 1)%nat [] false in
          let '(buf, r) := zt_trim buf (line + arrow + 2)%nat in
          let decl := zt_copy_str sizeof_decl (cstr_at buf r) in
          Some (mk_sig symbol (mk_param decl [] (zt_parse_sig_type decl)) params variadic)
  | _, _, _ => None
  end.

(** ** The file *)

(** fgets into [char line[512]]: up to 511 bytes, a newline included; the line read
    and the rest of the file. *)
Fixpoint fgets_upto (n : nat) (f : list Z) : list Z * list Z :=
  match n, f with
  | O, _ => ([], f)
  | _, [] => ([], [])
  | S n, c :: f =>
      if c =? 10 then ([c], f) else let '(l, r) := fgets_upto n f in (c :: l, r)
  end.

Definition fgets (size : nat) (f : list Z) : option (list Z * list Z) :=
  match f with [] => None | _ => Some (fgets_upto (size - 1) f) end.

(** [g_sig_table] up to [g_sig_count], and [g_sigconf_loaded]. *)
Record sigconf_t := mk_sigconf { sc_table : list zt_func_sig_t; sc_loaded : bool }.

Definition sizeof_line : nat := 512.

(** Every call of fgets consumes a byte, so the file's length is enough fuel. *)
Fixpoint load_loop (fuel : nat) (f : list Z) (table : list zt_func_sig_t) : list zt_func_sig_t :=
  match fuel with
  | O => table
  | S fuel =>
      match fgets sizeof_line f with
      | None => table
      | Some (line, f) =>
          let '(buf, p) := zt_trim (line ++ [0]) 0 in
          let c := chr (cstr_at buf p) in
          if (c =? 0) || (c =? 35) || (c =? 59) then load_loop fuel f table
          else if ZT_SIGCONF_MAX_FUNCS <=? Z.of_nat (length table) then table
          else
            match zt_parse_sig_line buf p with
            | Some sig => load_loop fuel f (table ++ [sig])
            | None => load_loop fuel f table
            end
      end
  end.

(** [fopen]: the contents of the file, if it can be opened. *)
Definition zt_sigconf_load (fopen : cstr -> option (list Z)) (path : cstr) (st : sigconf_t) : Z * sigconf_t :=
  match fopen path with
  | None => (-1, st)
  | Some f => (0, mk_sigconf (load_loop (S (length f)) f []) true)
  end.

Definition zt_sigconf_load_default (fopen : cstr -> option (list Z)) (st : sigconf_t) : Z * sigconf_t :=
  if sc_loaded st then (0, st) else zt_sigconf_load fopen (lit "conf/zttrace.conf") st.

Definition zt_sigconf_find (st : sigconf_t) (symbol : cstr) : option zt_func_sig_t :=
  List.find (fun sig => streq (sg_symbol sig) symbol) (sc_table st).
