(* ===== verification/SigConfSpec.v ===== *)
(** * What the signature parser computes

    The in-place parser against a reference that only splits strings
    ([sig_ref]), the well-formedness of what it produces, and the round trip from
    a printed configuration to the table. *)

From S2P Require Import Prelude CLib Types SigConf.

(** ** Reference functions on strings *)

Fixpoint rtrim (s : cstr) : cstr :=
  match s with
  | [] => []
  | c :: s =>
      match rtrim s with
      | [] => if isspace c then [] else [c]
      | r => c :: r
      end
  end.

Definition trim (s : cstr) : cstr := rtrim (skip_while isspace s).

(** The pieces between delimiters, empty ones included. *)
Fixpoint split_on (d : Z) (s : cstr) : list cstr :=
  match s with
  | [] => [[]]
  | c :: s =>
      if c =? d then [] :: split_on d s
      else match split_on d s with [] => [[c]] | p :: ps => (c :: p) :: ps end
  end.

Definition param_texts (s : cstr) : list cstr :=
  filter (fun t => t <> []) (trim <$> split_on 44 s).

Definition ref_params (texts : list cstr) : list zt_sig_param_t :=
  take 6 (parse_param <$> filter (fun t => t <> lit "...") texts).

Definition ref_variadic (texts : list cstr) : bool := existsb (fun t => streq t (lit "...")) texts.

(** The signature of a line whose arrow follows the closing parenthesis. *)
Definition sig_ref (s : cstr) : option zt_func_sig_t :=
  match strchr s 40, strrchr s 41, strstr s (lit "->") with
  | Some o, Some c, Some a =>
      if (c <? o)%nat then None
      else
        match trim (take o s) with
        | [] => None
        | symbol =>
            let texts := param_texts (take (c - o - 1) (drop (S o) s)) in
            let decl := take 63 (trim (drop (a + 2) s)) in
            Some (mk_sig (take 63 symbol) (mk_param decl [] (zt_parse_sig_type decl))
                    (ref_params texts) (ref_variadic texts))
        end
  | _, _, _ => None
  end.

(** ** Strings in buffers *)

Definition nul_free (s : cstr) : Prop := Forall (fun c => c <> 0) s.

Lemma until_nul_app s post : nul_free s -> until_nul (s ++ 0 :: post) = s.
Proof. induction 1 as [|c s Hc _ IH]; cbn; [done|]. rewrite IH. by destruct (Z.eqb_spec c 0). Qed.

Lemma cstr_at_app pre s post p :
  p = length pre -> nul_free s -> cstr_at (pre ++ s ++ 0 :: post) p = s.
Proof. intros -> Hs. unfold cstr_at. by rewrite drop_app_length, until_nul_app. Qed.

(** A line that fits is read whole. *)
Lemma fgets_line size text rest :
  Forall (fun c => c <> 10) text -> (S (length text) < size)%nat ->
  fgets size (text ++ 10 :: rest) = Some (text ++ [10], rest).
Proof.
  intros Ht Hl. assert (H : forall n, (length text < n)%nat -> fgets_upto n (text ++ 10 :: rest) = (text ++ [10], rest)).
  { clear Hl. induction Ht as [|c text Hc _ IH]; intros [|n] Hn; cbn in *; try lia; [done|].
    destruct (Z.eqb_spec c 10); [done|]. by rewrite IH by lia. }
  unfold fgets. destruct (text ++ 10 :: rest) eqn:E; [by destruct text|]. f_equal. apply H. lia.
Qed.

Lemma until_nul_nul_free bs : nul_free (until_nul bs).
Proof. induction bs as [|c bs IH]; cbn; [constructor|]. destruct (Z.eqb_spec c 0); by constructor. Qed.

Lemma skip_while_split f s :
  exists w, s = w ++ skip_while f s /\ Forall (fun c => f c = true) w /\
    (skip_while f s = [] \/ f (chr (skip_while f s)) = false).
Proof.
  induction s as [|c s (w & Hs & Hw & Hh)]; [exists []; cbn; auto|]. cbn.
  destruct (f c) eqn:Hc; [|by exists []; cbn; auto].
  exists (c :: w). cbn. split_and!; [congruence|by constructor|done].
Qed.

Lemma rtrim_split s :
  exists w, s = rtrim s ++ w /\ Forall (fun c => isspace c = true) w /\
    forall r c, rtrim s = r ++ [c] -> isspace c = false.
Proof.
  induction s as [|c s (w & Hs & Hw & Hl)].
  { exists []. split_and!; [done|constructor|]. by intros [|? ?] ?. }
  cbn. destruct (rtrim s) as [|d r] eqn:E.
  - cbn in Hs. subst w. destruct (isspace c) eqn:Hc.
    + exists (c :: s). split_and!; [done|by constructor|by intros [|? ?] ?].
    + exists s. split_and!; [done|done|]. intros [|? [|? ?]] ? ?; simplify_eq/=; done.
  - exists w. split_and!; [by rewrite Hs at 1|done|].
    intros [|e r'] x ?; simplify_eq/=. by eapply Hl.
Qed.

Lemma rtrim_empty s : rtrim s = [] -> Forall (fun c => isspace c = true) s.
Proof. intros E. destruct (rtrim_split s) as (w & Hs & Hw & _). rewrite E in Hs. by subst. Qed.

Lemma rtrim_head s : rtrim s <> [] -> chr (rtrim s) = chr s.
Proof. destruct s as [|c s]; [done|]. cbn. destruct (rtrim s); [destruct (isspace c)|]; done. Qed.

Lemma insert_at (pre post : list Z) x y i : i = length pre -> <[i := y]> (pre ++ x :: post) = pre ++ y :: post.
Proof. intros ->. by rewrite insert_app_r_alt, Nat.sub_diag by lia. Qed.

Lemma nul_free_app s t : nul_free (s ++ t) <-> nul_free s /\ nul_free t.
Proof. apply Forall_app. Qed.

(** ** zt_trim is [trim] *)

Lemma trim_tail_blanks pre t w post x :
  isspace x = false -> Forall (fun c => isspace c = true) w ->
  trim_tail (pre ++ (t ++ [x]) ++ w ++ post) (length pre) (length pre + (length t + length w)) =
  pre ++ (t ++ [x]) ++ replicate (length w) 0 ++ post.
Proof.
  intros Hx Hw. revert post. induction w as [|c w IH] using rev_ind; intros post.
  - cbn [length replicate]. rewrite Nat.add_0_r.
    destruct (length pre + length t)%nat as [|e] eqn:E; [done|]. cbn [trim_tail].
    rewrite (list_lookup_total_alt _ (S e)), <- E.
    rewrite lookup_app_r, Nat.add_comm, Nat.add_sub by lia.
    rewrite lookup_app_l, lookup_app_r, Nat.sub_diag by (rewrite ?length_app; cbn; lia). cbn.
    by rewrite Hx, andb_false_r.
  - apply Forall_app in Hw as [Hw Hc]. inversion_clear Hc as [|? ? Hsp _]. rewrite length_app. cbn [length].
    replace (length pre + (length t + (length w + 1)))%nat with (S (length pre + (length t + length w))) by lia.
    cbn [trim_tail]. set (i := S _).
    assert (Hi : i = (length (pre ++ (t ++ [x]) ++ w) + 0)%nat) by (rewrite !length_app; cbn; lia).
    replace (pre ++ (t ++ [x]) ++ (w ++ [c]) ++ post) with ((pre ++ (t ++ [x]) ++ w) ++ c :: post)
      by app_eq.
    rewrite list_lookup_total_alt, Hi, lookup_app_r, Nat.add_0_r, Nat.sub_diag by lia.
    change (default inhabitant ((c :: post) !! 0%nat)) with c. rewrite Hsp. replace (length pre <? _)%nat with true by (symmetry; apply Nat.ltb_lt; rewrite !length_app; cbn; lia).
    cbn [andb]. rewrite insert_at by done.
    replace ((pre ++ (t ++ [x]) ++ w) ++ 0 :: post) with (pre ++ (t ++ [x]) ++ w ++ 0 :: post)
      by app_eq.
    by rewrite (IH Hw), replicate_add, <- !app_assoc.
Qed.

Lemma trim_nil s : skip_while isspace s = [] -> trim s = [].
Proof. unfold trim. by intros ->. Qed.

Lemma cstr_at_split b p t :
  nul_free t -> (exists pre' post', b = pre' ++ t ++ 0 :: post' /\ p = length pre') ->
  cstr_at b p = t /\ exists pre' post', b = pre' ++ t ++ 0 :: post' /\ p = length pre'.
Proof. intros Ht (pre' & post' & -> & ->). split; [by apply cstr_at_app|eauto]. Qed.

Lemma zt_trim_spec pre s post :
  nul_free s ->
  exists m p, zt_trim (pre ++ s ++ 0 :: post) (length pre) = (pre ++ m ++ 0 :: post, p) /\
    length m = length s /\ cstr_at (pre ++ m ++ 0 :: post) p = trim s /\
    exists pre' post', pre ++ m ++ 0 :: post = pre' ++ trim s ++ 0 :: post' /\ p = length pre'.
Proof.
  intros Hs. unfold zt_trim. rewrite cstr_at_app by done.
  destruct (skip_while_split isspace s) as (w1 & Hs1 & Hw1 & Hh).
  destruct (skip_while isspace s) as [|c r] eqn:Hr.
  { exists s, (length pre + (length s - 0))%nat. split; [done|]. split; [done|]. rewrite trim_nil by done.
    apply cstr_at_split; [constructor|]. exists (pre ++ s), post. split; [app_eq|rewrite length_app; lia]. }
  destruct Hh as [?|Hc]; [done|]. cbn [chr] in Hc. set (q := c :: r) in *.
  assert (Hq : rtrim q <> []).
  { intros E. apply rtrim_empty in E. inversion_clear E. congruence. }
  destruct (rtrim_split q) as (w2 & Hq2 & Hw2 & Hl).
  destruct (exists_last Hq) as (t & x & Ht). specialize (Hl _ _ Ht).
  assert (Ht' : trim s = t ++ [x]) by (unfold trim; by rewrite Hr).
  assert (Hwq : s = w1 ++ (t ++ [x]) ++ w2) by (by rewrite Hs1, <- Ht, <- Hq2).
  assert (Hql : length q = (length t + length w2 + 1)%nat) by (rewrite Hq2, Ht, !length_app; cbn; lia).
  assert (Hsl : length s = (length w1 + length q)%nat) by (rewrite Hwq, !length_app, Hql; cbn; lia).
  rewrite Ht'. clear Hs1 Hr. rewrite Hsl, Hql. clear Hsl. 
  replace (length pre + (length w1 + (length t + length w2 + 1) - (length t + length w2 + 1)))%nat
    with (length (pre ++ w1)) by (rewrite length_app; lia).
  replace (length (pre ++ w1) + (length t + length w2 + 1) - 1)%nat
    with (length (pre ++ w1) + (length t + length w2))%nat by lia.
  exists (w1 ++ (t ++ [x]) ++ replicate (length w2) 0), (length (pre ++ w1)). split; [|split].
  - f_equal. rewrite Hwq.
    replace (pre ++ (w1 ++ (t ++ [x]) ++ w2) ++ 0 :: post)
      with ((pre ++ w1) ++ (t ++ [x]) ++ w2 ++ 0 :: post) by app_eq.
    rewrite trim_tail_blanks by done. by rewrite <- !app_assoc.
  - rewrite !length_app, length_replicate. cbn. lia.
  - rewrite Hwq in Hs. apply nul_free_app in Hs as [_ Hs]. apply nul_free_app in Hs as [Hs _].
    apply cstr_at_split; [done|]. exists (pre ++ w1).
    destruct (length w2) as [|n]; cbn [replicate]; eexists; (split; [app_eq|done]).
Qed.

(** ** The strtok loop collects [param_texts] *)

Lemma strchr_some s d n :
  strchr s d = Some n ->
  exists rest, s = take n s ++ d :: rest /\ Forall (fun c => c <> d) (take n s) /\ length (take n s) = n.
Proof.
  revert n. induction s as [|c s IH]; intros n; cbn; [done|].
  destruct (Z.eqb_spec c d) as [->|Hne]; [intros [= <-]; exists s; cbn; auto|].
  destruct (strchr s d) as [k|]; [|done]. intros [= <-].
  destruct (IH k eq_refl) as (rest & E & Hf & Hl). exists rest. cbn. rewrite Hl. split_and!; [by rewrite E at 1|by constructor|done].
Qed.

Lemma strchr_none s d : strchr s d = None -> Forall (fun c => c <> d) s.
Proof.
  induction s as [|c s IH]; cbn; [constructor|]. destruct (Z.eqb_spec c d); [done|].
  destruct (strchr s d); [done|]. auto.
Qed.

(** What a call of strtok leaves to the next: nothing but delimiters, a token that
    ends at a delimiter, or the last token. *)
Inductive strtok_result (d : Z) (pre s post : list Z) : option (nat * list Z * nat) -> Prop :=
| strtok_end : Forall (fun c => c = d) s -> strtok_result d pre s post None
| strtok_mid ds tok rest :
    s = ds ++ tok ++ d :: rest -> Forall (fun c => c = d) ds -> Forall (fun c => c <> d) tok ->
    strtok_result d pre s post
      (Some (length (pre ++ ds), (pre ++ ds) ++ tok ++ 0 :: (rest ++ 0 :: post), S (length (pre ++ ds ++ tok))))
| strtok_last ds tok :
    s = ds ++ tok -> Forall (fun c => c = d) ds -> Forall (fun c => c <> d) tok ->
    strtok_result d pre s post
      (Some (length (pre ++ ds), (pre ++ ds) ++ tok ++ 0 :: post, length (pre ++ ds ++ tok))).

Lemma strtok_spec d pre s post :
  nul_free s -> strtok_result d pre s post (strtok d (pre ++ s ++ 0 :: post) (length pre)).
Proof.
  intros Hs. unfold strtok. rewrite cstr_at_app by done.
  destruct (skip_while_split (Z.eqb d) s) as (ds & Hsp & Hds & _).
  assert (Hd : Forall (fun c => c = d) ds) by (eapply Forall_impl; [exact Hds|]; intros ? ?%Z.eqb_eq; congruence).
  set (r := skip_while (Z.eqb d) s) in *. clearbody r. subst s. clear Hds.
  destruct r as [|c r0]; [rewrite app_nil_r; by constructor|]. set (r := c :: r0) in *.
  replace (length pre + (length (ds ++ r) - length r))%nat with (length (pre ++ ds)) by (rewrite !length_app; lia).
  destruct (strchr r d) as [n|] eqn:Hn.
  - destruct (strchr_some _ _ _ Hn) as (rest & Hr & Hf & Hl). set (tok := take n r) in *. clearbody tok.
    rewrite Hr. replace (pre ++ (ds ++ tok ++ d :: rest) ++ 0 :: post)
      with ((pre ++ ds ++ tok) ++ d :: rest ++ 0 :: post) by app_eq.
    replace (length (pre ++ ds) + n)%nat with (length (pre ++ ds ++ tok)) by (rewrite !length_app; lia).
    rewrite insert_at by done.
    replace ((pre ++ ds ++ tok) ++ 0 :: rest ++ 0 :: post)
      with ((pre ++ ds) ++ tok ++ 0 :: (rest ++ 0 :: post)) by app_eq.
    by constructor.
  - apply strchr_none in Hn.
    replace (pre ++ (ds ++ r) ++ 0 :: post) with ((pre ++ ds) ++ r ++ 0 :: post) by app_eq.
    replace (length (pre ++ ds) + length r)%nat with (length (pre ++ ds ++ r)) by (rewrite !length_app; lia).
    by constructor.
Qed.

Lemma split_on_none d s : Forall (fun c => c <> d) s -> split_on d s = [s].
Proof. induction 1 as [|c s Hc _ IH]; cbn; [done|]. rewrite IH. by destruct (Z.eqb_spec c d). Qed.

Lemma split_on_delim d s rest :
  Forall (fun c => c <> d) s -> split_on d (s ++ d :: rest) = s :: split_on d rest.
Proof.
  induction 1 as [|c s Hc _ IH]; cbn; [by rewrite Z.eqb_refl|]. rewrite IH. by destruct (Z.eqb_spec c d).
Qed.

Definition text_list (t : cstr) : list cstr := if decide (t <> []) then [t] else [].

Lemma param_texts_skip ds s : Forall (fun c => c = 44) ds -> param_texts (ds ++ s) = param_texts s.
Proof.
  induction 1 as [|c ds -> _ IH]; [done|]. rewrite <- IH. unfold param_texts. cbn [app split_on].
  rewrite Z.eqb_refl. cbn [fmap list_fmap trim]. done.
Qed.

Lemma param_texts_mid tok rest :
  Forall (fun c => c <> 44) tok -> param_texts (tok ++ 44 :: rest) = text_list (trim tok) ++ param_texts rest.
Proof.
  intros Ht. unfold param_texts, text_list. rewrite split_on_delim by done. cbn [fmap list_fmap].
  rewrite filter_cons. by destruct (decide _).
Qed.

Lemma param_texts_last tok : Forall (fun c => c <> 44) tok -> param_texts tok = text_list (trim tok).
Proof.
  intros Ht. unfold param_texts, text_list. rewrite split_on_none by done. cbn [fmap list_fmap].
  rewrite filter_cons, filter_nil. by destruct (decide _).
Qed.

Lemma param_texts_end s : Forall (fun c => c = 44) s -> param_texts s = [].
Proof. intros. rewrite <- (app_nil_r s), param_texts_skip by done. done. Qed.

(** The effect of one token on the parameters and the variadic flag. *)
Definition add_param (t : cstr) (params : list zt_sig_param_t) : list zt_sig_param_t :=
  if streq t (lit "...") then params
  else if negb (chr t =? 0) && (Z.of_nat (length params) <? ZT_SIGCONF_MAX_PARAMS)
       then params ++ [parse_param t] else params.

Definition collect (params : list zt_sig_param_t) (texts : list cstr) : list zt_sig_param_t :=
  take 6 (params ++ (parse_param <$> filter (fun t => t <> lit "...") texts)).

Lemma chr_nul_free s : nul_free s -> chr s = 0 -> s = [].
Proof. destruct 1; [done|]. cbn. by intros ->. Qed.

Lemma collect_add t params texts :
  nul_free t -> (length params <= 6)%nat ->
  collect (add_param t params) texts = collect params (text_list t ++ texts) /\
  (length (add_param t params) <= 6)%nat.
Proof.
  intros Ht Hl. unfold add_param, collect, text_list, streq.
  case_bool_decide as Hd.
  { subst t. rewrite decide_True by done. by rewrite filter_app. }
  destruct (Z.eqb_spec (chr t) 0) as [Hc|Hc]; cbn [negb andb].
  { apply chr_nul_free in Hc as ->; [|done]. by rewrite decide_False by (intros H; by apply H). }
  rewrite decide_True by (by intros ->). rewrite filter_app, filter_cons, filter_nil.
  rewrite decide_True by done. rewrite fmap_app, app_assoc. cbn [fmap list_fmap].
  destruct (Z.ltb_spec (Z.of_nat (length params)) ZT_SIGCONF_MAX_PARAMS) as [Hlt|Hge];
    unfold ZT_SIGCONF_MAX_PARAMS in *.
  - split; [done|]. rewrite length_app. cbn. lia.
  - split; [|lia]. rewrite <- app_assoc, !take_app_le by lia. done.
Qed.

Lemma variadic_add t v texts :
  nul_free t ->
  (if streq t (lit "...") then true else v) || ref_variadic texts = v || ref_variadic (text_list t ++ texts).
Proof.
  intros Ht. unfold ref_variadic, text_list. rewrite existsb_app. unfold streq.
  case_bool_decide as Hd.
  - subst t. rewrite decide_True by done. cbn. by rewrite orb_true_r.
  - destruct (decide (t <> [])); cbn; [|done]. rewrite bool_decide_eq_false_2 by done. done.
Qed.

Lemma param_loop_step fuel buf buf' buf'' save save' tok t params v :
  strtok 44 buf save = Some (tok, buf', save') ->
  zt_trim buf' tok = (buf'', t) ->
  param_loop (S fuel) buf save params v =
  param_loop fuel buf'' save' (add_param (cstr_at buf'' t) params)
    (if streq (cstr_at buf'' t) (lit "...") then true else v).
Proof.
  intros H1 H2. cbn [param_loop]. rewrite H1, H2. unfold add_param.
  destruct (streq _ _); [done|]. by destruct (_ && _).
Qed.

Lemma trim_nul_free s : nul_free s -> nul_free (trim s).
Proof.
  intros Hs. unfold trim. destruct (skip_while_split isspace s) as (w & E & _).
  rewrite E in Hs. apply nul_free_app in Hs as [_ Hs].
  destruct (rtrim_split (skip_while isspace s)) as (w2 & E2 & _). rewrite E2 in Hs.
  by apply nul_free_app in Hs as [? _].
Qed.

Lemma param_loop_end fuel pre post p params v :
  p = length pre -> param_loop fuel (pre ++ 0 :: post) p params v = (pre ++ 0 :: post, params, v).
Proof.
  intros ->. destruct fuel; [done|]. cbn [param_loop]. unfold strtok.
  by rewrite (cstr_at_app pre [] post) by (done || constructor).
Qed.

Lemma param_loop_spec fuel pre s post params v :
  (length s < fuel)%nat -> nul_free s -> (length params <= 6)%nat ->
  exists m, length m = length s /\
    param_loop fuel (pre ++ s ++ 0 :: post) (length pre) params v =
    (pre ++ m ++ 0 :: post, collect params (param_texts s), v || ref_variadic (param_texts s)).
Proof.
  revert pre s params v. induction fuel as [|fuel IH]; intros pre s params v Hf Hs Hp; [lia|].
  assert (Hpt : collect params [] = params) by (unfold collect; rewrite app_nil_r; by apply take_ge).
  destruct (strtok 44 (pre ++ s ++ 0 :: post) (length pre)) as [[[tok buf] save]|] eqn:Htok;
    pose proof (strtok_spec 44 pre s post Hs) as Hr; rewrite Htok in Hr; inversion Hr as [He|ds tk rest Es Hd Ht|ds tk Es Hd Ht].
  - subst. apply nul_free_app in Hs as [Hs1 Hs2]. apply nul_free_app in Hs2 as [Hs2 Hs3].
    apply Forall_cons in Hs3 as [_ Hs3].
    destruct (zt_trim_spec (pre ++ ds) tk (rest ++ 0 :: post) Hs2) as (m1 & p & Etr & Hm1 & Hc & _).
    rewrite (param_loop_step _ _ _ _ _ _ _ _ _ _ Htok Etr), Hc.
    destruct (collect_add (trim tk) params (param_texts rest) (trim_nul_free _ Hs2) Hp) as [Hcol Hlen].
    replace ((pre ++ ds) ++ m1 ++ 0 :: rest ++ 0 :: post)
      with ((pre ++ ds ++ m1 ++ [0]) ++ rest ++ 0 :: post) by app_eq.
    replace (S (length (pre ++ ds ++ tk))) with (length (pre ++ ds ++ m1 ++ [0]))
      by (rewrite !length_app; cbn; lia).
    destruct (IH (pre ++ ds ++ m1 ++ [0]) rest (add_param (trim tk) params)
                (if streq (trim tk) (lit "...") then true else v)) as (m & Hm & ->);
      [rewrite !length_app in Hf; cbn in Hf; lia|done|done|].
    exists (ds ++ m1 ++ [0] ++ m). split; [rewrite !length_app; cbn; lia|].
    rewrite Hcol, variadic_add by (by apply trim_nul_free).
    rewrite param_texts_skip, param_texts_mid by done. by rewrite <- !app_assoc.
  - subst. apply nul_free_app in Hs as [Hs1 Hs2].
    destruct (zt_trim_spec (pre ++ ds) tk post Hs2) as (m1 & p & Etr & Hm1 & Hc & _).
    rewrite (param_loop_step _ _ _ _ _ _ _ _ _ _ Htok Etr), Hc.
    destruct (collect_add (trim tk) params [] (trim_nul_free _ Hs2) Hp) as [Hcol Hlen].
    exists (ds ++ m1). split; [rewrite !length_app; lia|].
    replace ((pre ++ ds) ++ m1 ++ 0 :: post) with ((pre ++ ds ++ m1) ++ 0 :: post) by app_eq.
    rewrite param_loop_end by (rewrite !length_app; lia). rewrite param_texts_skip, param_texts_last by done.
    rewrite app_nil_r in Hcol. rewrite <- Hcol.
    pose proof (variadic_add (trim tk) v [] (trim_nul_free _ Hs2)) as Hv. rewrite app_nil_r in Hv.
    rewrite <- Hv. cbn. rewrite orb_false_r. unfold collect. rewrite app_nil_r, take_ge by done.
    by rewrite <- !app_assoc.
  - exists s. split; [done|]. cbn [param_loop]. rewrite Htok, param_texts_end by done.
    rewrite Hpt. cbn. by rewrite orb_false_r.
Qed.

(** ** A line *)

Lemma strrchr_some s d n :
  strrchr s d = Some n -> exists rest, s = take n s ++ d :: rest /\ length (take n s) = n.
Proof.
  revert n. induction s as [|c s IH]; intros n; cbn; [done|].
  destruct (strrchr s d) as [k|].
  - intros [= <-]. destruct (IH k eq_refl) as (rest & E & Hl). exists rest. cbn. rewrite Hl. split; [by rewrite E at 1|done].
  - destruct (Z.eqb_spec c d) as [->|]; [|done]. intros [= <-]. by exists s.
Qed.

Lemma starts_with_length text s : starts_with text s = true -> (length text <= length s)%nat.
Proof.
  revert s. induction text as [|t text IH]; intros [|c s] H; cbn in *; try done; [lia|].
  zbool. apply IH in H0. lia.
Qed.

Lemma strstr_bound s text n : strstr s text = Some n -> (n + length text <= length s)%nat.
Proof.
  revert n. induction s as [|c s IH]; intros n; cbn [strstr];
    destruct (starts_with text _) eqn:E; [apply starts_with_length in E; intros; simplify_eq; done|done| |].
  - apply starts_with_length in E. intros; simplify_eq. done.
  - destruct (strstr s text) as [k|]; [|done]. intros [= <-]. specialize (IH k eq_refl). cbn. lia.
Qed.

(** The pieces of a line with its parentheses in order. *)
Lemma line_split s o c :
  strchr s 40 = Some o -> strrchr s 41 = Some c -> (o <= c)%nat ->
  exists sym ps tail, s = sym ++ 40 :: ps ++ 41 :: tail /\ length sym = o /\ length ps = (c - o - 1)%nat /\ (o < c)%nat.
Proof.
  intros Ho Hc Hle. destruct (strchr_some _ _ _ Ho) as (r1 & E1 & _ & L1).
  destruct (strrchr_some _ _ _ Hc) as (r2 & E2 & L2).
  assert (o <> c).
  { intros ->. rewrite E1 in E2 at 1. apply app_inv_head in E2. by simplify_eq. }
  exists (take o s), (drop (S o) (take c s)), r2. split_and!; [|done|rewrite length_drop; lia|lia].
  rewrite E1 at 1. do 2 f_equal.
  assert (Hr : drop (S o) s = r1) by (rewrite E1; by rewrite drop_app_ge, L1, Nat.sub_succ_l, Nat.sub_diag by lia).
  rewrite <- Hr, E2 at 1. by rewrite drop_app_le by lia.
Qed.

(** The same with the text after the arrow split off. *)
Lemma arrow_split s o c a :
  strchr s 40 = Some o -> strrchr s 41 = Some c -> strstr s (lit "->") = Some a -> (o <= c < a)%nat ->
  exists sym ps t1 t2, s = sym ++ 40 :: ps ++ 41 :: t1 ++ t2 /\
    length sym = o /\ c = (o + 1 + length ps)%nat /\ (a + 2 = c + 1 + length t1)%nat.
Proof.
  intros Ho Hc Ha Hle. apply strstr_bound in Ha. cbn in Ha.
  destruct (line_split _ _ _ Ho Hc ltac:(lia)) as (sym & ps & tail & -> & Hlo & Hlp & Hoc).
  rewrite !length_app in Ha. cbn [length] in Ha. rewrite length_app in Ha. cbn [length] in Ha.
  exists sym, ps, (take (a + 1 - c) tail), (drop (a + 1 - c) tail).
  rewrite take_drop, length_take. split_and!; [done|done|lia|lia].
Qed.

(** What is left of a line: its symbol, its parameters and its return type. *)
Definition build_sig (sym ps ret : cstr) : option zt_func_sig_t :=
  match trim sym with
  | [] => None
  | symbol =>
      let decl := take 63 (trim ret) in
      Some (mk_sig (take 63 symbol) (mk_param decl [] (zt_parse_sig_type decl))
              (ref_params (param_texts ps)) (ref_variadic (param_texts ps)))
  end.

Lemma sig_ref_pieces sym ps t1 t2 o c a :
  let s := sym ++ 40 :: ps ++ 41 :: t1 ++ t2 in
  strchr s 40 = Some o -> strrchr s 41 = Some c -> strstr s (lit "->") = Some a -> (o <= c)%nat ->
  length sym = o -> c = (o + 1 + length ps)%nat -> (a + 2 = c + 1 + length t1)%nat ->
  sig_ref s = build_sig sym ps t2.
Proof.
  intros s Ho Hc Ha Hle Hlo Hlp Ht1. unfold sig_ref, build_sig. rewrite Ho, Hc, Ha.
  destruct (Nat.ltb_spec c o) as [|_]; [lia|].
  assert (E1 : take o s = sym) by (by apply take_app_length').
  assert (E2 : take (c - o - 1) (drop (S o) s) = ps).
  { unfold s. replace (sym ++ 40 :: ps ++ 41 :: t1 ++ t2) with ((sym ++ [40]) ++ ps ++ 41 :: t1 ++ t2) by app_eq.
    rewrite drop_app_length' by (rewrite length_app; cbn; lia). apply take_app_length'. lia. }
  assert (E3 : drop (a + 2) s = t2).
  { unfold s. replace (sym ++ 40 :: ps ++ 41 :: t1 ++ t2) with ((sym ++ 40 :: ps ++ 41 :: t1) ++ t2) by app_eq.
    apply drop_app_length'. rewrite !length_app; cbn; rewrite length_app; cbn; lia. }
  by rewrite E1, E2, E3.
Qed.

(** The parser that cuts the line up in place computes [sig_ref], which only splits it. *)
Lemma parse_sig_line_ref pre s post :
  nul_free s ->
  (forall c a, strrchr s 41 = Some c -> strstr s (lit "->") = Some a -> (c < a)%nat) ->
  zt_parse_sig_line (pre ++ s ++ 0 :: post) (length pre) = sig_ref s.
Proof.
  intros Hs Harrow. unfold zt_parse_sig_line. rewrite cstr_at_app by done.
  destruct (strchr s 40) as [o|] eqn:Ho; [|by unfold sig_ref; rewrite Ho].
  destruct (strrchr s 41) as [c|] eqn:Hc; [|by unfold sig_ref; rewrite Ho, Hc].
  destruct (strstr s (lit "->")) as [a|] eqn:Ha; [|by unfold sig_ref; rewrite Ho, Hc, Ha].
  specialize (Harrow c a eq_refl eq_refl).
  destruct (Nat.ltb_spec c o) as [Hlt|Hle].
  { unfold sig_ref. rewrite Ho, Hc, Ha. by apply Nat.ltb_lt in Hlt as ->. }
  destruct (arrow_split _ _ _ _ Ho Hc Ha ltac:(lia)) as (sym & ps & t1 & t2 & -> & Hlo & Hlp & Ht1).
  rewrite (sig_ref_pieces _ _ _ _ _ _ _ Ho Hc Ha Hle Hlo Hlp Ht1). clear Ho Hc Ha Hle. unfold build_sig.
  apply nul_free_app in Hs as [Hsym Hs]. apply Forall_cons in Hs as [_ Hs].
  apply nul_free_app in Hs as [Hps Hs]. apply Forall_cons in Hs as [_ Hs]. apply nul_free_app in Hs as [_ Ht2].
  replace (pre ++ (sym ++ 40 :: ps ++ 41 :: t1 ++ t2) ++ 0 :: post)
    with ((pre ++ sym) ++ 40 :: (ps ++ 41 :: t1 ++ t2 ++ 0 :: post)) by app_eq.
  rewrite (insert_at (pre ++ sym)) by (rewrite length_app; lia). rewrite <- app_assoc.
  destruct (zt_trim_spec pre sym (ps ++ 41 :: t1 ++ t2 ++ 0 :: post) Hsym) as (m & p & -> & Hm & -> & _).
  pose proof (trim_nul_free _ Hsym) as Hts. unfold zt_copy_str. 
  destruct (trim sym) as [|x xs]; [done|]. apply Forall_cons in Hts as [Hx _].
  change (sizeof_symbol - 1)%nat with 63%nat. cbn [take chr]. destruct (Z.eqb_spec x 0) as [|_]; [done|].
  replace (pre ++ m ++ 0 :: ps ++ 41 :: t1 ++ t2 ++ 0 :: post)
    with ((pre ++ m ++ 0 :: ps) ++ 41 :: t1 ++ t2 ++ 0 :: post) by app_eq.
  rewrite insert_at by (rewrite !length_app; cbn; lia). set (fuel := length _).
  replace ((pre ++ m ++ 0 :: ps) ++ 0 :: t1 ++ t2 ++ 0 :: post)
    with ((pre ++ m ++ [0]) ++ ps ++ 0 :: (t1 ++ t2 ++ 0 :: post)) by app_eq.
  replace (length pre + o + 1)%nat with (length (pre ++ m ++ [0])) by (rewrite !length_app; cbn; lia).
  destruct (param_loop_spec fuel (pre ++ m ++ [0]) ps (t1 ++ t2 ++ 0 :: post) [] false) as (m2 & Hm2 & ->);
    [subst fuel; rewrite !length_app; cbn; lia|done|cbn; lia|].
  replace ((pre ++ m ++ [0]) ++ m2 ++ 0 :: t1 ++ t2 ++ 0 :: post)
    with ((pre ++ m ++ [0] ++ m2 ++ 0 :: t1) ++ t2 ++ 0 :: post) by app_eq.
  replace (length pre + a + 2)%nat with (length (pre ++ m ++ [0] ++ m2 ++ 0 :: t1)) by (rewrite !length_app; cbn; lia).
  by destruct (zt_trim_spec (pre ++ m ++ [0] ++ m2 ++ 0 :: t1) t2 post Ht2) as (m3 & q & -> & _ & -> & _).
Qed.

#[local] Arguments zt_copy_str : simpl never.

(** ** Well-formed signatures *)

(** The bounds of the arrays, names made of identifier characters, and the type the
    declaration has in the table. *)
Definition param_wf (p : zt_sig_param_t) : Prop :=
  (length (sp_decl p) < sizeof_decl)%nat /\ (length (sp_name p) < sizeof_name)%nat /\
  Forall (fun c => ident_char c = true) (sp_name p) /\ sp_type p = zt_parse_sig_type (sp_decl p).

Definition sig_wf (s : zt_func_sig_t) : Prop :=
  sg_symbol s <> [] /\ (length (sg_symbol s) < sizeof_symbol)%nat /\
  param_wf (sg_ret s) /\ Forall param_wf (sg_params s) /\ Z.of_nat (length (sg_params s)) <= ZT_SIGCONF_MAX_PARAMS.

Definition sigconf_wf (st : sigconf_t) : Prop :=
  Forall sig_wf (sc_table st) /\ Z.of_nat (length (sc_table st)) <= ZT_SIGCONF_MAX_FUNCS.

Lemma zt_copy_str_length n s : (0 < n)%nat -> (length (zt_copy_str n s) < n)%nat.
Proof. intros. unfold zt_copy_str. rewrite length_take. lia. Qed.

Lemma back_while_spec f s e :
  (back_while f s e <= e)%nat /\ forall i, (back_while f s e <= i < e)%nat -> f (s !!! i) = true.
Proof.
  induction e as [|e [IH1 IH2]]; cbn; [split; [done|lia]|].
  destruct (f (s !!! e)) eqn:E; [|split; [done|lia]].
  split; [lia|]. intros i Hi. destruct (decide (i = e)) as [->|]; [done|]. apply IH2. lia.
Qed.

Lemma extract_name_wf spec :
  (length (zt_extract_param_name spec sizeof_name) < sizeof_name)%nat /\
  Forall (fun c => ident_char c = true) (zt_extract_param_name spec sizeof_name).
Proof.
  unfold zt_extract_param_name, zt_find_trailing_ident_span.
  set (e := back_while isspace spec (length spec)). set (b := back_while ident_char spec e).
  destruct (back_while_spec isspace spec (length spec)) as [He _]. fold e in He.
  destruct (back_while_spec ident_char spec e) as [Hb Hf]. fold b in Hb, Hf.
  destruct (_ || _); [split; [cbn; unfold sizeof_name; lia|constructor]|].
  set (len := if (sizeof_name <=? e - b)%nat then _ else _).
  assert (Hlen : (len < sizeof_name /\ len <= e - b)%nat).
  { subst len. destruct (Nat.leb_spec sizeof_name (e - b)); unfold sizeof_name in *; lia. }
  split; [rewrite length_take; lia|]. apply Forall_lookup_2. intros i c Hi.
  apply lookup_take_Some in Hi as [Hi Hil]. rewrite lookup_drop in Hi.
  specialize (Hf (b + i)%nat ltac:(lia)). by rewrite (list_lookup_total_correct _ _ _ Hi) in Hf.
Qed.

Lemma parse_param_wf t : param_wf (parse_param t).
Proof.
  unfold parse_param. destruct (zt_trim _ _) as [b p].
  destruct (extract_name_wf (zt_copy_str 64 t)) as [? ?].
  split_and!; cbn; [|done..]. apply zt_copy_str_length. unfold sizeof_decl. lia.
Qed.

Lemma param_loop_wf fuel buf save params v b ps v' :
  param_loop fuel buf save params v = (b, ps, v') ->
  Forall param_wf params -> Z.of_nat (length params) <= ZT_SIGCONF_MAX_PARAMS ->
  Forall param_wf ps /\ Z.of_nat (length ps) <= ZT_SIGCONF_MAX_PARAMS.
Proof.
  revert buf save params v. induction fuel as [|fuel IH]; cbn [param_loop]; intros buf save params v H Hp Hl; [by simplify_eq|].
  destruct (strtok 44 buf save) as [[[tok buf'] save']|]; [|by simplify_eq].
  destruct (zt_trim buf' tok) as [buf'' t]. destruct (streq _ _); [by eapply IH|].
  destruct (negb _ && _) eqn:E; [|by eapply IH]. zbool. eapply IH; [exact H| |].
  - apply Forall_app. auto using parse_param_wf.
  - rewrite length_app. cbn. lia.
Qed.

Lemma parse_sig_line_wf buf line sig : zt_parse_sig_line buf line = Some sig -> sig_wf sig.
Proof.
  unfold zt_parse_sig_line. do 3 (destruct (_ : option nat); [|done]). destruct (_ <? _)%nat; [done|].
  destruct (zt_trim _ line) as [b1 sym]. destruct (Z.eqb_spec (chr (zt_copy_str sizeof_symbol (cstr_at b1 sym))) 0) as [|Hc]; [done|].
  destruct (param_loop _ _ _ _ _) as [[b2 ps] v] eqn:Hp. destruct (zt_trim b2 _) as [b3 r]. intros [= <-].
  apply param_loop_wf in Hp as [Hps Hpl]; [|constructor|by unfold ZT_SIGCONF_MAX_PARAMS].
  split_and!; cbn; [by intros E; rewrite E in Hc|apply zt_copy_str_length; cbv; lia| |done|done].
  split_and!; cbn; [apply zt_copy_str_length; unfold sizeof_decl; lia|unfold sizeof_name; lia|constructor|done].
Qed.

Lemma load_loop_wf fuel f table :
  sigconf_wf (mk_sigconf table true) -> sigconf_wf (mk_sigconf (load_loop fuel f table) true).
Proof.
  revert f table. induction fuel as [|fuel IH]; cbn [load_loop]; intros f table H; [done|].
  destruct (fgets sizeof_line f) as [[line f']|]; [|done]. destruct (zt_trim _ _) as [buf p].
  destruct (_ || _); [by apply IH|]. destruct (Z.leb_spec ZT_SIGCONF_MAX_FUNCS (Z.of_nat (length table))) as [|Hlt]; [done|].
  destruct (zt_parse_sig_line buf p) as [sig|] eqn:Hs; [|by apply IH].
  apply IH. destruct H as [H1 H2]. cbn in *. apply parse_sig_line_wf in Hs. split; cbn.
  - apply Forall_app. auto.
  - rewrite length_app. cbn. lia.
Qed.

(** C34: whatever the file holds, loading it leaves a table within its 256 entries in
    which every signature respects the sizes of its arrays (symbol, declarations,
    names, six parameters), has identifier names and the types of its declarations; a
    file that cannot be opened changes nothing; and a lookup yields an entry with the
    symbol asked for. *)
Theorem zt_sigconf_load_wf fopen path st symbol :
  sigconf_wf st ->
  let '(rc, st') := zt_sigconf_load fopen path st in
  sigconf_wf st' /\ (rc = -1 <-> fopen path = None) /\ (rc = -1 -> st' = st) /\
  (forall sig, zt_sigconf_find st' symbol = Some sig ->
     sig_wf sig /\ sg_symbol sig = symbol /\ sig ∈ sc_table st') /\
  (zt_sigconf_find st' symbol = None -> Forall (fun sig => sg_symbol sig <> symbol) (sc_table st')).
Proof.
  intros Hwf. destruct (zt_sigconf_load fopen path st) as [rc st'] eqn:E.
  assert (Hrc : sigconf_wf st' /\ (rc = -1 <-> fopen path = None) /\ (rc = -1 -> st' = st)).
  { unfold zt_sigconf_load in E. destruct (fopen path); simplify_eq; [|done].
    split_and!; [|done|done]. apply load_loop_wf. by split; [constructor|]. }
  destruct Hrc as (Hst & Hrc). split; [done|]. split; [apply Hrc|]. split; [apply Hrc|].
  unfold zt_sigconf_find. split.
  - intros sig Hf. apply find_some in Hf as [Hin Heq]. unfold streq in Heq. rewrite bool_decide_eq_true in Heq.
    apply list_elem_of_In in Hin. split_and!; [|done|done].
    destruct Hst as [Hall _]. by eapply Forall_forall in Hall.
  - intros Hf. apply Forall_forall. intros sig Hin%list_elem_of_In. 
    apply (find_none _ _ Hf) in Hin. unfold streq in Hin. by rewrite bool_decide_eq_false in Hin.
Qed.

(** Witness of C34: an empty table and a file that is not there. *)
Lemma zt_sigconf_load_wf_witness :
  sigconf_wf (mk_sigconf [] false) /\
  sigconf_wf (snd (zt_sigconf_load (fun _ => Some (lit "a(int) -> int")) [] (mk_sigconf [] false))).
Proof.
  assert (H : sigconf_wf (mk_sigconf [] false)) by (split; [constructor|done]). split; [done|].
  pose proof (zt_sigconf_load_wf (fun _ => Some (lit "a(int) -> int")) [] (mk_sigconf [] false) (lit "a") H) as Hw.
  destruct (zt_sigconf_load _ _ _) as [rc st]. apply Hw.
Defined.
