(* ===== verification/SigConfPrint.v ===== *)
(** * Printing a configuration and loading it back

    A printer for signatures in the syntax of conf/zttrace.conf
    (symbol(type name, ...) -> type) and the round trip through
    [zt_sigconf_load]. *)

From S2P Require Import Prelude CLib Types SigConf SigConfSpec.

(** ** The printer *)

Definition last_chr (s : cstr) : Z := default 0 (last s).

Definition print_param (p : zt_sig_param_t) : cstr :=
  match sp_name p with
  | [] => sp_decl p
  | name => sp_decl p ++ (if last_chr (sp_decl p) =? 42 then [] else [32]) ++ name
  end.

Fixpoint join (texts : list cstr) : cstr :=
  match texts with
  | [] => []
  | [t] => t
  | t :: texts => t ++ 44 :: 32 :: join texts
  end.

Definition sig_texts (s : zt_func_sig_t) : list cstr :=
  (print_param <$> sg_params s) ++ (if sg_variadic s then [lit "..."] else []).

Definition print_sig (s : zt_func_sig_t) : cstr :=
  sg_symbol s ++ 40 :: join (sig_texts s) ++ 41 :: lit " ->" ++ 32 :: sp_decl (sg_ret s).

(** ** What can be printed *)

Definition decl_char (c : Z) : bool := ident_char c || (c =? 32) || (c =? 42).

(** No blanks at either end. *)
Definition trimmed (s : cstr) : Prop := isspace (chr s) = false /\ isspace (last_chr s) = false.

Definition printable_decl (d : cstr) : Prop :=
  d <> [] /\ trimmed d /\ Forall (fun c => decl_char c = true) d /\ (length d <= 63)%nat.

(** A parameter without a name must not end in a word that reads like one. *)
Definition printable_param (p : zt_sig_param_t) : Prop :=
  printable_decl (sp_decl p) /\
  Forall (fun c => ident_char c = true) (sp_name p) /\ (length (sp_name p) <= 31)%nat /\
  (length (print_param p) <= 63)%nat /\ sp_type p = zt_parse_sig_type (sp_decl p) /\
  (sp_name p = [] -> last_chr (sp_decl p) = 42 \/ Forall (fun c => ident_char c = true) (sp_decl p)).

Definition printable_sig (s : zt_func_sig_t) : Prop :=
  sg_symbol s <> [] /\ Forall (fun c => ident_char c = true) (sg_symbol s) /\ (length (sg_symbol s) <= 63)%nat /\
  printable_decl (sp_decl (sg_ret s)) /\ sp_name (sg_ret s) = [] /\
  sp_type (sg_ret s) = zt_parse_sig_type (sp_decl (sg_ret s)) /\
  Forall printable_param (sg_params s) /\ (length (sg_params s) <= 6)%nat.

(** A line of the file: a blank line or comment, or a signature between blanks. *)
Inductive conf_line :=
| Skip (text : cstr)
| Sig (before : cstr) (s : zt_func_sig_t) (after : cstr).

Definition print_line (l : conf_line) : cstr :=
  match l with
  | Skip text => text
  | Sig before s after => before ++ print_sig s ++ after
  end.

Definition blanks (w : cstr) : Prop := Forall (fun c => isspace c = true) w.

Definition line_ok (l : conf_line) : Prop :=
  Forall (fun c => c <> 0 /\ c <> 10) (print_line l) /\ (length (print_line l) <= 510)%nat /\
  match l with
  | Skip text => chr (trim text) = 0 \/ chr (trim text) = 35 \/ chr (trim text) = 59
  | Sig before s after => blanks before /\ blanks after /\ printable_sig s
  end.

#[export] Instance trimmed_dec s : Decision (trimmed s).
Proof. unfold trimmed. apply _. Defined.
#[export] Instance printable_decl_dec d : Decision (printable_decl d).
Proof. unfold printable_decl. apply _. Defined.
#[export] Instance printable_param_dec p : Decision (printable_param p).
Proof. unfold printable_param. apply _. Defined.
#[export] Instance printable_sig_dec s : Decision (printable_sig s).
Proof. unfold printable_sig. apply _. Defined.
#[export] Instance line_ok_dec l : Decision (line_ok l).
Proof. unfold line_ok, blanks. destruct l; apply _. Defined.

Definition print_conf (ls : list conf_line) : list Z := concat (map (fun l => print_line l ++ [10]) ls).

Definition line_sig (l : conf_line) : option zt_func_sig_t :=
  match l with Skip _ => None | Sig _ s _ => Some s end.

(** ** Trimming *)

Lemma last_chr_snoc s c : last_chr (s ++ [c]) = c.
Proof. unfold last_chr. by rewrite last_snoc. Qed.

Lemma last_chr_app s t : t <> [] -> last_chr (s ++ t) = last_chr t.
Proof. intros Ht. destruct (exists_last Ht) as (t' & x & ->). by rewrite app_assoc, !last_chr_snoc. Qed.

Lemma blanks_end_unique (a b x y : cstr) :
  a ++ x = b ++ y -> blanks y -> blanks x ->
  isspace (last_chr a) = false -> isspace (last_chr b) = false -> a = b.
Proof.
  revert x. induction y as [|c y IH] using rev_ind; intros x E Hy Hx Ha Hb.
  - rewrite app_nil_r in E. subst b. destruct x as [|d x] using rev_ind; [by rewrite app_nil_r|].
    rewrite app_assoc, last_chr_snoc in Hb. apply Forall_app in Hx as [_ Hx]. inversion Hx. congruence.
  - destruct x as [|d x] using rev_ind.
    + rewrite app_nil_r in E. subst a. rewrite app_assoc, last_chr_snoc in Ha.
      apply Forall_app in Hy as [_ Hy]. inversion Hy. congruence.
    + rewrite !app_assoc in E. apply app_inj_tail in E as [E ->].
      apply Forall_app in Hy as [Hy _]. apply Forall_app in Hx as [Hx _]. by eapply (IH x).
Qed.

Lemma rtrim_blanks s w : trimmed s -> blanks w -> rtrim (s ++ w) = s.
Proof.
  intros [_ Hl] Hw. destruct (rtrim_split (s ++ w)) as (w2 & E & Hw2 & Hend).
  symmetry. eapply blanks_end_unique; [exact E|done..|].
  destruct (rtrim (s ++ w)) as [|c r] using rev_ind; [done|]. rewrite last_chr_snoc. by eapply Hend.
Qed.

Lemma trim_blanks w1 s w2 : blanks w1 -> trimmed s -> blanks w2 -> s <> [] -> trim (w1 ++ s ++ w2) = s.
Proof.
  intros H1 Hs H2 Hne. unfold trim. rewrite skip_while_app by done.
  rewrite skip_while_idem; [by apply rtrim_blanks|]. destruct s; [done|]. apply Hs.
Qed.

Lemma trim_trimmed s : trimmed s -> s <> [] -> trim s = s.
Proof. intros. rewrite <- (trim_blanks [] s []) at 2; [|constructor|done|constructor|done]. by rewrite app_nil_r. Qed.

(** ** One parameter *)

Lemma back_while_app f a w rest :
  Forall (fun c => f c = true) w -> f (last_chr a) = false ->
  back_while f (a ++ w ++ rest) (length a + length w) = length a.
Proof.
  intros Hw Ha. revert rest. induction w as [|c w IH] using rev_ind; intros rest.
  - cbn. rewrite Nat.add_0_r. destruct a as [|x a] using rev_ind; [done|]. rewrite last_chr_snoc in Ha.
    rewrite length_app, Nat.add_1_r. cbn [back_while length].
    rewrite <- app_assoc, list_lookup_total_alt, lookup_app_r, Nat.sub_diag by lia. cbn. by rewrite Ha.
  - apply Forall_app in Hw as [Hw Hc]. inversion_clear Hc as [|? ? Hx _].
    rewrite length_app, Nat.add_1_r, Nat.add_succ_r. cbn [back_while length].
    replace (a ++ (w ++ [c]) ++ rest) with ((a ++ w) ++ c :: rest) by app_eq.
    rewrite list_lookup_total_alt, lookup_app_r, <- (length_app a w), Nat.sub_diag by (rewrite ?length_app; lia).
    cbn. rewrite Hx, length_app. rewrite <- app_assoc. by apply IH.
Qed.

Lemma back_while_stop f a : f (last_chr a) = false -> back_while f a (length a) = length a.
Proof.
  intros Ha. pose proof (back_while_app f a [] [] ltac:(constructor) Ha) as H. cbn in H.
  by rewrite Nat.add_0_r, app_nil_r in H.
Qed.

Lemma ident_not_space c : ident_char c = true -> isspace c = false.
Proof.
  unfold ident_char, isalnum, isalpha, isdigit, isspace. intros H.
  apply not_true_iff_false. intros Hs. lia.
Qed.

Lemma decl_char_nonzero c : decl_char c = true -> c <> 0.
Proof. by intros H ->. Qed.

Lemma last_chr_forall (P : Z -> Prop) s : Forall P s -> s <> [] -> P (last_chr s).
Proof. intros Hs Hne. destruct (exists_last Hne) as (r & c & ->). rewrite last_chr_snoc. apply Forall_app in Hs as [_ Hs]. by inversion Hs. Qed.

Lemma zt_trim_id d : trimmed d -> d <> [] -> nul_free d ->
  exists b p, zt_trim (d ++ [0]) 0 = (b, p) /\ cstr_at b p = d.
Proof.
  intros Ht Hne Hn. destruct (zt_trim_spec [] d [] Hn) as (m & p & E & _ & Hc & _).
  cbn [app length] in E. rewrite E. eexists _, _. split; [done|]. cbn [app] in Hc. rewrite Hc. by apply trim_trimmed.
Qed.

(** The text of a named parameter, around its separator. *)
Lemma ident_span_named d sep n :
  n <> [] -> Forall (fun c => ident_char c = true) n -> d <> [] ->
  ident_char (last_chr (d ++ sep)) = false ->
  zt_find_trailing_ident_span ((d ++ sep) ++ n) = Some (length (d ++ sep), length ((d ++ sep) ++ n)).
Proof.
  intros Hn Hid Hd Hsep. unfold zt_find_trailing_ident_span.
  pose proof (last_chr_forall _ _ Hid Hn) as Hl.
  replace (back_while isspace ((d ++ sep) ++ n) (length ((d ++ sep) ++ n))) with (length ((d ++ sep) ++ n)).
  2: { symmetry. apply back_while_stop. rewrite last_chr_app by done. by apply ident_not_space. }
  pose proof (back_while_app ident_char (d ++ sep) n [] Hid Hsep) as Hb. rewrite app_nil_r in Hb.
  rewrite length_app, Hb. destruct n as [|c n]; [done|]. destruct d as [|x d]; [done|].
  replace (_ || _) with false; [done|]. symmetry. apply orb_false_iff. split; apply Nat.eqb_neq; cbn; lia.
Qed.

Lemma strip_named d n :
  n <> [] -> Forall (fun c => ident_char c = true) n -> d <> [] -> trimmed d ->
  let sep := if last_chr d =? 42 then [] else [32] in
  zt_find_trailing_ident_span ((d ++ sep) ++ n) = Some (length (d ++ sep), length ((d ++ sep) ++ n)) /\
  zt_strip_param_name ((d ++ sep) ++ n) = d.
Proof.
  intros Hn Hid Hd Ht sep.
  assert (Hspan : zt_find_trailing_ident_span ((d ++ sep) ++ n) = Some (length (d ++ sep), length ((d ++ sep) ++ n))).
  { apply ident_span_named; [done..|]. subst sep. destruct (Z.eqb_spec (last_chr d) 42) as [E|_].
    - by rewrite app_nil_r, E.
    - by rewrite last_chr_app. }
  split; [done|]. unfold zt_strip_param_name. rewrite Hspan.
  destruct (exists_last (l := d ++ sep)) as (r & c & E); [by destruct d|].
  assert (Hc : ((d ++ sep) ++ n) !!! (length (d ++ sep) - 1)%nat = last_chr (d ++ sep)).
  { rewrite E, last_chr_snoc, length_app, Nat.add_sub, <- app_assoc.
    by rewrite list_lookup_total_alt, lookup_app_r, Nat.sub_diag by lia. }
  rewrite Hc. subst sep. destruct (Z.eqb_spec (last_chr d) 42) as [E42|_].
  - rewrite app_nil_r, E42. cbn. by rewrite take_app_length.
  - rewrite last_chr_app by done. cbn.
    replace ((d ++ [32]) ++ n) with (d ++ [32] ++ n) by app_eq.
    rewrite length_app, back_while_app; [by rewrite take_app_length|by repeat constructor|apply Ht].
Qed.

Lemma printable_decl_nul_free d : printable_decl d -> nul_free d.
Proof. intros (_ & _ & Hd & _). eapply Forall_impl; [exact Hd|]. intros. by apply decl_char_nonzero. Qed.

Lemma parse_param_print p : printable_param p -> parse_param (print_param p) = p.
Proof.
  destruct p as [d n ty]. unfold printable_param, print_param. cbn [sp_decl sp_name sp_type].
  intros (Hd & Hn & Hnl & Hl & -> & Hanon). pose proof (printable_decl_nul_free _ Hd) as Hnf.
  destruct Hd as (Hne & Ht & _ & Hdl). destruct (zt_trim_id d Ht Hne Hnf) as (b & q & Htr & Hat).
  assert (Hcopy : forall t, (length t <= 63)%nat -> zt_copy_str 64 t = t) by (intros; by apply take_ge).
  unfold parse_param. rewrite Hcopy by done. destruct n as [|c n].
  - assert (Hspan : zt_find_trailing_ident_span d = None).
    { unfold zt_find_trailing_ident_span. rewrite back_while_stop by apply Ht. destruct (Hanon eq_refl) as [Hs|Hid].
      - rewrite back_while_stop by (by rewrite Hs). by rewrite Nat.eqb_refl.
      - pose proof (back_while_app ident_char [] d [] Hid eq_refl) as Hb. cbn in Hb. rewrite app_nil_r in Hb.
        rewrite Hb. cbn. by rewrite orb_true_r. }
    unfold zt_strip_param_name, zt_extract_param_name. rewrite Hspan, Htr, Hat, Hcopy by done. done.
  - set (nm := c :: n) in *. rewrite app_assoc.
    destruct (strip_named d nm ltac:(done) Hn Hne Ht) as [Hspan ->].
    unfold zt_extract_param_name. rewrite Hspan, Htr, Hat, Hcopy by done.
    rewrite length_app, (Nat.add_comm (length (d ++ _))), Nat.add_sub.
    destruct (Nat.leb_spec sizeof_name (length nm)); [unfold sizeof_name in *; lia|].
    rewrite drop_app_length, take_ge by done. done.
Qed.

(** ** The parameter list *)

Definition text_ok (t : cstr) : Prop := t <> [] /\ trimmed t /\ Forall (fun c => c <> 44) t.

Lemma param_texts_cons t s :
  Forall (fun c => c <> 44) t -> trim t <> [] -> param_texts (t ++ 44 :: s) = trim t :: param_texts s.
Proof. intros Hc Ht. rewrite param_texts_mid by done. unfold text_list. by rewrite decide_True. Qed.

Lemma split_on_cons d x s : x <> d ->
  exists p ps, split_on d s = p :: ps /\ split_on d (x :: s) = (x :: p) :: ps.
Proof.
  intros Hx. assert (H : exists p ps, split_on d s = p :: ps).
  { destruct s as [|c s]; cbn; [eauto|]. destruct (c =? d); [eauto|]. destruct (split_on d s); eauto. }
  destruct H as (p & ps & E). exists p, ps. split; [done|]. cbn. rewrite E. by destruct (Z.eqb_spec x d).
Qed.

Lemma param_texts_space s : param_texts (32 :: s) = param_texts s.
Proof.
  destruct (split_on_cons 44 32 s) as (p & ps & E1 & E2); [done|].
  unfold param_texts. rewrite E1, E2. done.
Qed.

Lemma param_texts_join texts : Forall text_ok texts -> param_texts (join texts) = texts.
Proof.
  induction 1 as [|t texts (Hne & Ht & Hc) Hts IH]; [done|].
  destruct texts as [|t2 texts].
  - cbn [join]. rewrite param_texts_last by done. rewrite trim_trimmed by done. unfold text_list. by rewrite decide_True.
  - change (join (t :: t2 :: texts)) with (t ++ 44 :: 32 :: join (t2 :: texts)).
    rewrite param_texts_cons by (rewrite ?trim_trimmed by done; done).
    rewrite trim_trimmed, param_texts_space, IH by done. done.
Qed.

(** The characters of a printed parameter. *)
Definition text_char (c : Z) : bool := decl_char c || (c =? 46).

Lemma decl_of_ident c : ident_char c = true -> decl_char c = true.
Proof. unfold decl_char. by intros ->. Qed.

Lemma print_param_chars p : printable_param p -> Forall (fun c => decl_char c = true) (print_param p).
Proof.
  intros ((_ & _ & Hd & _) & Hn & _). unfold print_param. destruct (sp_name p); [done|].
  apply Forall_app; split; [done|]. apply Forall_app; split.
  - destruct (_ =? _); repeat constructor.
  - eapply Forall_impl; [exact Hn|]. apply decl_of_ident.
Qed.

Lemma print_param_ok p : printable_param p -> text_ok (print_param p).
Proof.
  intros Hp. pose proof (print_param_chars p Hp) as Hc.
  destruct Hp as ((Hne & [Hh Hl] & _ & _) & Hn & _). split_and!.
  - unfold print_param. destruct (sp_name p); [done|]. by destruct (sp_decl p).
  - unfold print_param in *. destruct (sp_name p) as [|x n] eqn:E; [done|]. split.
    + by destruct (sp_decl p).
    + rewrite !last_chr_app by (try done; by destruct (_ =? _)). apply ident_not_space.
      apply (last_chr_forall (fun c => ident_char c = true)); [|done]. done.
  - eapply Forall_impl; [exact Hc|]. by intros ? ? ->.
Qed.

Lemma sig_texts_ok s : printable_sig s -> Forall text_ok (sig_texts s).
Proof.
  intros (_ & _ & _ & _ & _ & _ & Hps & _). unfold sig_texts. apply Forall_app. split.
  - apply Forall_fmap. eapply Forall_impl; [exact Hps|]. apply print_param_ok.
  - destruct (sg_variadic s); [|constructor]. repeat constructor; done.
Qed.

Lemma filter_print ps :
  Forall printable_param ps -> filter (fun t => t <> lit "...") (print_param <$> ps) = print_param <$> ps.
Proof.
  induction 1 as [|p ps Hp _ IH]; [done|]. rewrite fmap_cons, filter_cons_True; [by rewrite IH|].
  intros E. pose proof (print_param_chars p Hp) as Hc. rewrite E in Hc. inversion Hc; done.
Qed.

Lemma ref_params_print s : printable_sig s -> ref_params (sig_texts s) = sg_params s.
Proof.
  intros (_ & _ & _ & _ & _ & _ & Hps & Hl). unfold ref_params, sig_texts. rewrite filter_app, filter_print by done.
  replace (filter _ (if sg_variadic s then _ else _)) with (@nil cstr) by (by destruct (sg_variadic s)).
  rewrite app_nil_r, take_ge by (by rewrite !length_fmap). rewrite <- list_fmap_compose.
  clear Hl. induction Hps as [|p ps Hp _ IH]; [done|]. cbn. rewrite IH. f_equal. by apply parse_param_print.
Qed.

Lemma ref_variadic_print s : printable_sig s -> ref_variadic (sig_texts s) = sg_variadic s.
Proof.
  intros (_ & _ & _ & _ & _ & _ & Hps & _). unfold ref_variadic, sig_texts. rewrite existsb_app.
  replace (existsb _ (print_param <$> _)) with false; [by destruct (sg_variadic s)|]. symmetry.
  apply not_true_iff_false. intros (t & Hin & Ht)%existsb_exists. unfold streq in Ht. rewrite bool_decide_eq_true in Ht. subst t.
  apply list_elem_of_In, list_elem_of_fmap in Hin as (p & E & Hin).
  eapply Forall_forall in Hps; [|exact Hin]. apply print_param_chars in Hps. rewrite <- E in Hps. inversion Hps; done.
Qed.

(** ** The line *)

Lemma strchr_app a d b : Forall (fun c => c <> d) a -> strchr (a ++ d :: b) d = Some (length a).
Proof.
  induction 1 as [|c a Hc _ IH]; cbn; [by rewrite Z.eqb_refl|]. rewrite IH. by destruct (Z.eqb_spec c d).
Qed.

Lemma strrchr_none b d : Forall (fun c => c <> d) b -> strrchr b d = None.
Proof. induction 1 as [|c b Hc _ IH]; cbn; [done|]. rewrite IH. by destruct (Z.eqb_spec c d). Qed.

Lemma strrchr_app a d b : Forall (fun c => c <> d) b -> strrchr (a ++ d :: b) d = Some (length a).
Proof.
  intros Hb. induction a as [|c a IH]; cbn; [by rewrite strrchr_none, Z.eqb_refl|]. by rewrite IH.
Qed.

Lemma strstr_app a x text b :
  Forall (fun c => c <> x) a -> strstr (a ++ (x :: text) ++ b) (x :: text) = Some (length a).
Proof.
  induction 1 as [|c a Hc _ IH].
  - cbn [app length]. destruct b; cbn [strstr app]; by rewrite app_comm_cons, starts_with_app.
  - cbn [app strstr starts_with]. destruct (Z.eqb_spec x c) as [->|_]; [done|].
    cbn [andb]. change (x :: text ++ b) with ((x :: text) ++ b). rewrite IH. done.
Qed.

Lemma join_chars (P : Z -> Prop) texts : P 44 -> P 32 -> Forall (Forall P) texts -> Forall P (join texts).
Proof.
  intros H1 H2. induction 1 as [|t texts Ht Hts IH]; [constructor|].
  destruct texts as [|t2 texts]; [done|]. cbn [join]. apply Forall_app. split; [done|].
  constructor; [done|]. by constructor.
Qed.

(** None of the delimiters of a line occurs in its parts. *)
Lemma sig_texts_chars s : printable_sig s ->
  Forall (fun c => text_char c || (c =? 44) = true) (join (sig_texts s)).
Proof.
  intros (_ & _ & _ & _ & _ & _ & Hps & _). apply join_chars; [done|done|].
  unfold sig_texts. apply Forall_app. split.
  - apply Forall_fmap. eapply Forall_impl; [exact Hps|]. intros p Hp%print_param_chars. cbn.
    eapply Forall_impl; [exact Hp|]. intros c. unfold text_char. by intros ->.
  - destruct (sg_variadic s); [|constructor]. repeat constructor.
Qed.

(** Where strchr, strrchr and strstr find the delimiters of a printed line. *)
Lemma print_sig_delims s :
  printable_sig s ->
  let sym := sg_symbol s in
  let ps := join (sig_texts s) in
  strchr (print_sig s) 40 = Some (length sym) /\
  strrchr (print_sig s) 41 = Some (length (sym ++ 40 :: ps)) /\
  strstr (print_sig s) (lit "->") = Some (length (sym ++ 40 :: ps ++ [41; 32])).
Proof.
  intros Hs sym ps. pose proof (sig_texts_chars s Hs) as Hj.
  destruct Hs as (Hne & Hsym & Hsl & (_ & _ & Hrc & _) & _). unfold print_sig. fold sym ps. set (d := sp_decl (sg_ret s)) in *.
  assert (Hsym_ne : forall x, ident_char x = false -> Forall (fun c => c <> x) sym).
  { intros x Hx. eapply Forall_impl; [exact Hsym|]. cbn. congruence. }
  split_and!.
  - by apply strchr_app, Hsym_ne.
  - replace (sym ++ 40 :: ps ++ 41 :: lit " ->" ++ 32 :: d)
      with ((sym ++ 40 :: ps) ++ 41 :: (lit " ->" ++ 32 :: d)) by app_eq.
    apply strrchr_app. repeat (constructor; [done|]). eapply Forall_impl; [exact Hrc|]. by intros ? ? ->.
  - replace (sym ++ 40 :: ps ++ 41 :: lit " ->" ++ 32 :: d)
      with ((sym ++ 40 :: ps ++ [41; 32]) ++ lit "->" ++ 32 :: d) by app_eq.
    apply strstr_app. apply Forall_app; split; [by apply Hsym_ne|]. constructor; [done|].
    apply Forall_app; split; [|repeat (constructor; [done|]); constructor].
    eapply Forall_impl; [exact Hj|]. by intros ? ? ->.
Qed.

Lemma symbol_trimmed sym : sym <> [] -> Forall (fun c => ident_char c = true) sym -> trimmed sym.
Proof.
  intros Hne Hsym. split; apply ident_not_space; [destruct sym; [done|]; by inversion Hsym|].
  by apply (last_chr_forall (fun c => ident_char c = true)).
Qed.

Lemma sig_ref_print s : printable_sig s -> sig_ref (print_sig s) = Some s.
Proof.
  intros Hs. destruct (print_sig_delims s Hs) as (Ho & Hc & Ha).
  pose proof Hs as (Hne & Hsym & Hsl & (Hrne & Hrt & Hrc & Hrl) & Hrn & Hrty & _).
  pose proof (symbol_trimmed _ Hne Hsym) as Hst.
  assert (Hd : trim (32 :: sp_decl (sg_ret s)) = sp_decl (sg_ret s)).
  { rewrite <- (trim_blanks [32] (sp_decl (sg_ret s)) []) at 2;
      [by rewrite app_nil_r|by repeat constructor|done|constructor|done]. }
  unfold print_sig in *.
  rewrite (sig_ref_pieces _ _ (lit " ->") _ _ _ _ Ho Hc Ha);
    [|rewrite ?length_app; cbn; rewrite ?length_app; cbn; lia..].
  unfold build_sig. rewrite (trim_trimmed (sg_symbol s)), Hd by done.
  rewrite param_texts_join by (by apply sig_texts_ok).
  rewrite ref_params_print, ref_variadic_print by done.
  rewrite (take_ge (sp_decl (sg_ret s))), <- Hrty by done.
  destruct s as [[|x sym] [rd rn rt] pp v]; cbn [sg_symbol sg_ret sp_decl sp_name sp_type sg_params sg_variadic] in *; [done|].
  rewrite take_ge by done. by rewrite Hrn.
Qed.

(** ** The file *)

Lemma print_sig_trimmed s : printable_sig s -> trimmed (print_sig s) /\ print_sig s <> [].
Proof.
  intros (Hne & Hsym & _ & (Hrne & Hrt & _) & _). destruct (symbol_trimmed _ Hne Hsym) as [Hh _].
  unfold print_sig. split; [split|by destruct (sg_symbol s)]; [by destruct (sg_symbol s)|].
  replace (sg_symbol s ++ 40 :: join (sig_texts s) ++ 41 :: lit " ->" ++ 32 :: sp_decl (sg_ret s))
    with ((sg_symbol s ++ 40 :: join (sig_texts s) ++ 41 :: lit " -> ") ++ sp_decl (sg_ret s)) by app_eq.
  rewrite last_chr_app by done. apply Hrt.
Qed.

(** A signature line, read as the loader reads it: trimmed, then parsed in place. *)
Lemma load_sig_line before s after :
  line_ok (Sig before s after) ->
  exists buf p, zt_trim ((print_line (Sig before s after) ++ [10]) ++ [0]) 0 = (buf, p) /\
    cstr_at buf p = print_sig s /\ zt_parse_sig_line buf p = Some s.
Proof.
  intros (Hchars & _ & Hb & Ha & Hs). cbn [print_line] in *.
  assert (Hnf : nul_free (before ++ print_sig s ++ (after ++ [10]))).
  { rewrite !app_assoc, <- (app_assoc before). apply nul_free_app. split; [|by repeat constructor].
    eapply Forall_impl; [exact Hchars|]. by intros ? [? ?]. }
  destruct (print_sig_trimmed s Hs) as [Ht Hne]. pose proof Hnf as Hnf'.
  destruct (zt_trim_spec [] _ [] Hnf) as (m & p & E & _ & Hc & pre' & post' & Eb & ->).
  assert (Htr : trim (before ++ print_sig s ++ after ++ [10]) = print_sig s).
  { apply trim_blanks; [done|done| |done]. apply Forall_app. split; [done|by repeat constructor]. }
  rewrite Htr in Hc, Eb. cbn [app length] in E, Hc, Eb.
  replace (((before ++ print_sig s ++ after) ++ [10]) ++ [0]) with ((before ++ print_sig s ++ after ++ [10]) ++ [0]) by app_eq.
  rewrite E. eexists _, _. split; [done|]. split; [done|]. rewrite Eb.
  apply nul_free_app in Hnf' as [_ Hnf']. apply nul_free_app in Hnf' as [Hnf' _].
  destruct (print_sig_delims s Hs) as (_ & Hcl & Har).
  rewrite parse_sig_line_ref; [by apply sig_ref_print|done|].
  rewrite Hcl, Har. intros c a [= <-] [= <-]. rewrite !length_app. cbn. rewrite length_app. cbn. lia.
Qed.

Lemma load_skip_line text :
  line_ok (Skip text) ->
  exists buf p, zt_trim ((text ++ [10]) ++ [0]) 0 = (buf, p) /\ cstr_at buf p = trim (text ++ [10]).
Proof.
  intros (Hchars & _). cbn [print_line] in *.
  assert (Hnf : nul_free (text ++ [10])).
  { apply nul_free_app. split; [|by repeat constructor]. eapply Forall_impl; [exact Hchars|]. by intros ? [? ?]. }
  destruct (zt_trim_spec [] _ [] Hnf) as (m & p & E & _ & Hc & _). cbn [app length] in E, Hc. eauto.
Qed.

Lemma trim_snoc_space s c : isspace c = true -> trim (s ++ [c]) = trim s.
Proof.
  intros Hc. assert (Hr : forall t, rtrim (t ++ [c]) = rtrim t).
  { induction t as [|x t IH]; cbn [app rtrim]; [by rewrite Hc|]. by rewrite IH. }
  unfold trim. destruct (skip_while_split isspace s) as (w & Es & Hw & Hh).
  set (r := skip_while isspace s) in *. clearbody r. subst s. rewrite <- app_assoc, !skip_while_app by done.
  destruct r as [|x r]; [cbn [app skip_while]; by rewrite Hc|].
  destruct Hh as [?|Hx]; [done|]. cbn in Hx. rewrite !skip_while_idem by done. apply Hr.
Qed.

Lemma load_loop_print fuel ls table :
  (length (print_conf ls) < fuel)%nat -> Forall line_ok ls -> (length table <= 256)%nat ->
  load_loop fuel (print_conf ls) table = take 256 (table ++ omap line_sig ls).
Proof.
  revert ls table. induction fuel as [|fuel IH]; intros ls table Hf Hls Hl; [lia|].
  destruct Hls as [|l ls Hok Hls]; cbn [load_loop].
  { cbn. by rewrite app_nil_r, take_ge. }
  assert (E : print_conf (l :: ls) = print_line l ++ 10 :: print_conf ls) by (unfold print_conf; cbn; by rewrite <- app_assoc).
  rewrite E in Hf |- *. rewrite length_app in Hf. cbn in Hf. pose proof Hok as (Hch & Hlen & _).
  rewrite fgets_line by (unfold sizeof_line; lia || (eapply Forall_impl; [exact Hch|]; by intros ? [? ?])).
  destruct l as [text|before s after].
  - destruct (load_skip_line _ Hok) as (buf & p & Etr & Hat). cbn [print_line]. rewrite Etr, Hat, trim_snoc_space by done.
    destruct Hok as (_ & _ & Hk). replace (_ || _) with true; [by rewrite IH by (done || lia)|].
    symmetry. destruct Hk as [-> | [-> | ->]]; done.
  - destruct (load_sig_line _ _ _ Hok) as (buf & p & Etr & Hat & Hparse). rewrite Etr, Hat, Hparse.
    destruct Hok as (_ & _ & _ & _ & Hs). destruct Hs as (Hne & Hsym & _).
    assert (Hc : ident_char (chr (print_sig s)) = true).
    { unfold print_sig. destruct (sg_symbol s); [done|]. by inversion Hsym. }
    replace (_ || _) with false.
    2: { symmetry. rewrite !orb_false_iff. split_and!; apply Z.eqb_neq; intros E0; by rewrite E0 in Hc. }
    unfold ZT_SIGCONF_MAX_FUNCS. destruct (Z.leb_spec 256 (Z.of_nat (length table))).
    + by rewrite take_app_le, take_ge by lia.
    + cbn [omap list_omap line_sig]. rewrite IH by (done || lia || (rewrite length_app; cbn; lia)). by rewrite <- app_assoc.
Qed.

(** C35: a configuration printed in the file's syntax (comments, blank lines, signatures
    between blanks, named and unnamed parameters, variadic ones) loads back as the
    first 256 signatures in it, and each symbol is found as its first signature. *)
Theorem zt_sigconf_load_print fopen path ls st :
  fopen path = Some (print_conf ls) -> Forall line_ok ls ->
  let '(rc, st') := zt_sigconf_load fopen path st in
  rc = 0 /\ sc_loaded st' = true /\ sc_table st' = take 256 (omap line_sig ls) /\
  forall sigs1 sig sigs2, sc_table st' = sigs1 ++ sig :: sigs2 ->
    Forall (fun s => sg_symbol s <> sg_symbol sig) sigs1 ->
    zt_sigconf_find st' (sg_symbol sig) = Some sig.
Proof.
  intros Hf Hls. unfold zt_sigconf_load. rewrite Hf. split; [done|]. split; [done|]. split.
  - cbn [sc_table]. rewrite load_loop_print by (done || (cbn; lia)). done.
  - intros sigs1 sig sigs2 E Hfirst. unfold zt_sigconf_find. rewrite E. clear E.
    induction Hfirst as [|s sigs1 Hs _ IH]; cbn [app List.find]; unfold streq in *.
    + by rewrite bool_decide_eq_true_2.
    + by rewrite bool_decide_eq_false_2.
Qed.

(** A file with a comment, a blank line and three signatures. *)
Definition demo_conf : list conf_line :=
  [ Skip (lit "# demo"); Skip [];
    Sig [] (mk_sig (lit "fread") (mk_param (lit "size_t") [] ZT_SIG_TYPE_SIZE)
              [ mk_param (lit "buffer") (lit "p") ZT_SIG_TYPE_BUF; mk_param (lit "size_t") (lit "n") ZT_SIG_TYPE_SIZE;
                mk_param (lit "void *") [] ZT_SIG_TYPE_PTR ] false) [32];
    Sig [9] (mk_sig (lit "printf") (mk_param (lit "int") [] ZT_SIG_TYPE_INT)
              [ mk_param (lit "const char *") (lit "fmt") ZT_SIG_TYPE_CSTR ] true) [] ].

Lemma zt_sigconf_load_print_witness :
  snd (zt_sigconf_load (fun _ => Some (print_conf demo_conf)) [] (mk_sigconf [] false)) =
  mk_sigconf (omap line_sig demo_conf) true.
Proof.
  pose proof (zt_sigconf_load_print (fun _ => Some (print_conf demo_conf)) [] demo_conf (mk_sigconf [] false) eq_refl) as H.
  destruct (zt_sigconf_load _ _ _) as [rc [table loaded]]. destruct H as (_ & Hl & Ht & _).
  - apply (bool_decide_unpack _). by vm_compute.
  - cbn in *. by rewrite Hl, Ht.
Defined.
