(* ===== verification/SigFormat.v ===== *)
(** * Formatting events with a signature (src/zt_sigconf.c)

    The text of one event: typed values, remote strings and buffers, the
    arguments of a variadic call by its format string.  [out] is the string
    written so far; [None] is the result -1.  The target's memory is read with
    RemoteMem's [zt_read_remote_memory]. *)

From S2P Require Import Prelude CLib Types RemoteMem SigConf.

(** ** printf conversions *)

(** "%lld" *)
Definition sdec_str (z : Z) : cstr := if z <? 0 then 45 :: dec_str (- z) else dec_str z.

Definition hex_digit (d : Z) : Z := if d <? 10 then 48 + d else 87 + d.

Fixpoint hex_aux (fuel : nat) (z : Z) (acc : cstr) : cstr :=
  match fuel with
  | O => acc
  | S fuel' =>
      let acc' := hex_digit (z mod 16) :: acc in
      if z <? 16 then acc' else hex_aux fuel' (z / 16) acc'
  end.

(** "0x%llx": 16 digits hold every 64-bit value. *)
Definition hex_str (z : Z) : cstr := lit "0x" ++ hex_aux 16 z [].

(** A floating-point number: sign and magnitude m * 2^e. *)
Inductive fp_class :=
| FpNan (neg : bool)
| FpInf (neg : bool)
| FpFinite (neg : bool) (m e : Z).

(** The number IEEE 754 bits denote, of [eb] exponent and [mb] fraction bits. *)
Definition fp_decode (eb mb : Z) (bits : Z) : fp_class :=
  let neg := Z.testbit bits (eb + mb) in
  let ex := Z.shiftr bits mb mod 2 ^ eb in
  let frac := bits mod 2 ^ mb in
  let bias := 2 ^ (eb - 1) - 1 in
  if ex =? 2 ^ eb - 1 then (if frac =? 0 then FpInf neg else FpNan neg)
  else if ex =? 0 then FpFinite neg frac (1 - bias - mb)
  else FpFinite neg (2 ^ mb + frac) (ex - bias - mb).

(** [n / d] rounded to an integer, ties to even. *)
Definition round_half_even (n d : Z) : Z :=
  let q := n / d in
  let r := n mod d in
  if 2 * r <? d then q else if d <? 2 * r then q + 1 else if Z.even q then q else q + 1.

(** [n / d * 10^k] as a fraction. *)
Definition scale10 (n d k : Z) : Z * Z := if 0 <=? k then (n * 10 ^ k, d) else (n, d * 10 ^ (- k)).

(** The decimal exponent of [n / d]: the largest k with 10^k <= n / d, between those
    of the smallest and the largest double. *)
Definition dec_exponent (n d : Z) : Z :=
  default (-324) (List.find (fun k => let '(n, d) := scale10 n d (- k) in d <=? n) (reverse (seqZ (-324) 633))).

(** Six significant digits, as a six-digit integer and the exponent of the first. *)
Definition six_digits (n d : Z) : Z * Z :=
  let x := dec_exponent n d in
  let '(n, d) := scale10 n d (5 - x) in
  let q := round_half_even n d in
  if q =? 10 ^ 6 then (10 ^ 5, x + 1) else (q, x).

Definition strip_zeros (s : cstr) : cstr := reverse (skip_while (Z.eqb 48) (reverse s)).

(** A fraction without its trailing zeros, and without the point if nothing is left. *)
Definition fraction (s : cstr) : cstr := match strip_zeros s with [] => [] | s => 46 :: s end.

(** "%g" of a positive number. *)
Definition fmt_g_pos (n d : Z) : cstr :=
  let '(q, x) := six_digits n d in
  let ds := dec_str q in
  if (-4 <=? x) && (x <? 6) then
    if 0 <=? x then take (Z.to_nat (x + 1)) ds ++ fraction (drop (Z.to_nat (x + 1)) ds)
    else 48 :: fraction (replicate (Z.to_nat (- x - 1)) 48 ++ ds)
  else
    take 1 ds ++ fraction (drop 1 ds) ++ 101 :: (if x <? 0 then 45 else 43) ::
      (if Z.abs x <? 10 then [48] else []) ++ dec_str (Z.abs x).

Definition fmt_g (v : fp_class) : cstr :=
  let sign (neg : bool) := if neg then [45] else [] in
  match v with
  | FpNan neg => sign neg ++ lit "nan"
  | FpInf neg => sign neg ++ lit "inf"
  | FpFinite neg m e =>
      sign neg ++ (if m =? 0 then [48] else fmt_g_pos (m * 2 ^ Z.max e 0) (2 ^ Z.max (- e) 0))
  end.

(** ** Event arguments *)

Definition zt_event_arg_value (event : option zt_trace_event_t) (index : Z) : Z :=
  match event with
  | None => 0
  | Some e => if (index <? 0) || (ZT_TRACE_GP_ARG_COUNT <=? index) then 0 else arr_get (ev_args e) index
  end.

Definition zt_event_fp_arg_value (event : option zt_trace_event_t) (index : Z) : Z :=
  match event with
  | None => 0
  | Some e => if (index <? 0) || (ZT_TRACE_FP_ARG_COUNT <=? index) then 0 else arr_get (ev_fp_args e) index
  end.

Definition zt_event_arg_value_ext (event : zt_trace_event_t) (index : Z) : option Z :=
  if index <? 0 then None
  else if index <? ZT_TRACE_GP_ARG_COUNT then Some (zt_event_arg_value (Some event) index)
  else None.

(** ** Types *)

Definition zt_sig_type_is_numeric (type : zt_sig_type_t) : bool :=
  match type with
  | ZT_SIG_TYPE_INT | ZT_SIG_TYPE_LONG | ZT_SIG_TYPE_ULONG | ZT_SIG_TYPE_SIZE | ZT_SIG_TYPE_SSIZE => true
  | _ => false
  end.

Definition zt_sig_param_is_numeric (sig : zt_func_sig_t) (index : Z) : bool :=
  (0 <=? index) && (index <? Z.of_nat (length (sg_params sig))) &&
  match sg_params sig !! Z.to_nat index with
  | Some p => zt_sig_type_is_numeric (sp_type p)
  | None => false
  end.

Definition zt_sig_type_is_fp (type : zt_sig_type_t) : bool :=
  match type with ZT_SIG_TYPE_FLOAT | ZT_SIG_TYPE_DOUBLE => true | _ => false end.

Definition zt_cap_preview_len (len : Z) : Z := if 32 <? len then 32 else len.

(** ** The output *)

(** [out] up to [offset]; the terminating NUL must fit as well. *)
Definition zt_append_raw (out_size : Z) (out : cstr) (text : cstr) : option cstr :=
  if out_size <=? Z.of_nat (length out) + Z.of_nat (length text) then None else Some (out ++ text).

(** The result of a function that scans an array: its value, -1, or a read past the
    end of the array. *)
Inductive scan (A : Type) :=
| Done (a : A)
| Failed
| Overrun.
Arguments Done {A} a.
Arguments Failed {A}.
Arguments Overrun {A}.

Definition of_option {A} (o : option A) : scan A := match o with Some a => Done a | None => Failed end.

Section formatting.
Context (K : kernel_t).

(** ** Reading strings and buffers *)

Definition zt_read_remote_chunk_or_byte (remote_addr len : Z) (s : proc_t) : option (list Z) * proc_t :=
  if len =? 0 then (None, s)
  else
    match zt_read_remote_memory K remote_addr len s with
    | (Some bs, s) => (Some bs, s)
    | (None, s) => zt_read_remote_memory K remote_addr 1 s
    end.

Fixpoint byte_loop (n : nat) (remote_addr : Z) (s : proc_t) : option (list Z) * proc_t :=
  match n with
  | O => (Some [], s)
  | S n =>
      match zt_read_remote_memory K remote_addr 1 s with
      | (None, s) => (None, s)
      | (Some b, s) =>
          match byte_loop n (remote_addr +64 1) s with
          | (None, s) => (None, s)
          | (Some bs, s) => (Some (b ++ bs), s)
          end
      end
  end.

Definition zt_read_remote_bytes_with_fallback (remote_addr len : Z) (s : proc_t) : option (list Z) * proc_t :=
  if len =? 0 then (Some [], s)
  else
    match zt_read_remote_memory K remote_addr len s with
    | (Some bs, s) => (Some bs, s)
    | (None, s) => byte_loop (Z.to_nat len) remote_addr s
    end.

Definition printable (ch : Z) : Z := if isprint ch then ch else 46.

(** The inner loop: the string is finished ([true]) or goes on after the chunk. *)
Fixpoint take_chunk (chunk : list Z) (room : nat) : cstr * bool :=
  match chunk, room with
  | ch :: chunk, S room =>
      if ch =? 0 then ([], true) else let '(str, fin) := take_chunk chunk room in (printable ch :: str, fin)
  | _, _ => ([], false)
  end.

(** [while (i + 1 < buffer_size)]: [room] is buffer_size - 1 - i.  Every pass stores a
    byte or ends, so buffer_size passes are enough. *)
Fixpoint cstr_loop (fuel : nat) (remote_addr : Z) (room : nat) (s : proc_t) : option cstr * proc_t :=
  match fuel, room with
  | O, _ => (Some [], s)
  | _, O => (Some [], s)
  | S fuel, _ =>
      let chunk_len := Z.min 64 (Z.of_nat room) in
      match zt_read_remote_chunk_or_byte remote_addr chunk_len s with
      | (None, s) => (None, s)
      | (Some chunk, s) =>
          match take_chunk chunk room with
          | (str, true) => (Some str, s)
          | (str, false) =>
              match cstr_loop fuel (remote_addr +64 Z.of_nat (length str)) (room - length str) s with
              | (None, s) => (None, s)
              | (Some rest, s) => (Some (str ++ rest), s)
              end
          end
      end
  end.

Definition zt_read_remote_cstr (remote_addr : Z) (buffer_size : nat) (s : proc_t) : option cstr * proc_t :=
  if (buffer_size =? 0)%nat then (None, s)
  else if remote_addr =? 0 then (Some (zt_copy_str buffer_size (lit "NULL")), s)
  else cstr_loop buffer_size remote_addr (buffer_size - 1) s.

(** "\\x%02x" *)
Definition escape (ch : Z) : cstr := lit "\x" ++ [hex_digit (ch / 16); hex_digit (ch mod 16)].

Definition plain_byte (ch : Z) : bool := isprint ch && negb (ch =? 34) && negb (ch =? 92).

(** The loop that fills the preview; [buffer] holds what is written so far. *)
Fixpoint preview_loop (bytes : list Z) (buffer_size : Z) (buffer : cstr) : option cstr :=
  match bytes with
  | [] => Some buffer
  | ch :: bytes =>
      let offset := Z.of_nat (length buffer) in
      if plain_byte ch then
        if buffer_size <=? offset + 1 then None else preview_loop bytes buffer_size (buffer ++ [ch])
      else if buffer_size - offset <=? Z.of_nat (length (escape ch)) then None
      else preview_loop bytes buffer_size (buffer ++ escape ch)
  end.

Definition zt_read_remote_buf_preview (remote_addr len buffer_size : Z) (s : proc_t) : option cstr * proc_t :=
  if buffer_size =? 0 then (None, s)
  else if remote_addr =? 0 then (Some (zt_copy_str (Z.to_nat buffer_size) (lit "NULL")), s)
  else if buffer_size <=? 1 then (None, s)
  else
    match zt_read_remote_bytes_with_fallback remote_addr (zt_cap_preview_len len) s with
    | (None, s) => (None, s)
    | (Some bytes, s) =>
        match preview_loop bytes buffer_size [34] with
        | None => (None, s)
        | Some buffer =>
            if buffer_size <=? Z.of_nat (length buffer) + 2 then (None, s) else (Some (buffer ++ [34]), s)
        end
    end.

(** ** How long a buffer is *)

Definition zt_buffer_preview_len (sig : zt_func_sig_t) (args_event ret_event : option zt_trace_event_t)
    (param_index : Z) (for_return : bool) : Z :=
  match args_event with
  | None => 0
  | Some _ =>
      if (param_index <? 0) || (Z.of_nat (length (sg_params sig)) <=? param_index) then 0
      else
        let num1 := zt_sig_param_is_numeric sig (param_index + 1) in
        let num2 := zt_sig_param_is_numeric sig (param_index + 2) in
        let next := zt_event_arg_value args_event (param_index + 1) in
        let next2 := zt_event_arg_value args_event (param_index + 2) in
        if for_return then
          match ret_event with
          | None => 0
          | Some r =>
              let value0 := arr_get (ev_args r) 0 in
              if i64 value0 <=? 0 then 0
              else if num1 && num2 then zt_cap_preview_len (value0 *64 next)
              else if num1 then zt_cap_preview_len (if value0 <? next then value0 else next)
              else zt_cap_preview_len value0
          end
        else if num1 && num2 then zt_cap_preview_len (next *64 next2)
        else if num1 then zt_cap_preview_len next
        else 0
  end.

(** ** Values *)

(** The text of a value; a string argument is read from the target. *)
Definition value_text (type : zt_sig_type_t) (value : Z) (s : proc_t) : cstr * proc_t :=
  match type with
  | ZT_SIG_TYPE_INT => (sdec_str (i32 value), s)
  | ZT_SIG_TYPE_LONG | ZT_SIG_TYPE_SSIZE => (sdec_str (i64 value), s)
  | ZT_SIG_TYPE_ULONG | ZT_SIG_TYPE_SIZE => (dec_str value, s)
  | ZT_SIG_TYPE_FLOAT => (fmt_g (fp_decode 8 23 (u32 value)), s)
  | ZT_SIG_TYPE_DOUBLE => (fmt_g (fp_decode 11 52 value), s)
  | ZT_SIG_TYPE_CSTR =>
      match zt_read_remote_cstr value 64 s with
      | (None, s) => (hex_str value, s)
      | (Some str, s) => (34 :: str ++ [34], s)
      end
  | ZT_SIG_TYPE_VOID => (lit "void", s)
  | _ => (hex_str value, s)
  end.

(** snprintf into [char text[96]], then the append. *)
Definition zt_append_value (out_size : Z) (out : cstr) (type : zt_sig_type_t) (value : Z) (s : proc_t)
    : option cstr * proc_t :=
  let '(text, s) := value_text type value s in
  if 96 <=? Z.of_nat (length text) then (None, s) else (zt_append_raw out_size out text, s).

(** ** Variadic arguments *)

Definition zt_find_format_param_index (sig : zt_func_sig_t) : Z :=
  if negb (sg_variadic sig) then -1
  else
    let is_fmt i :=
      match sg_params sig !! Z.to_nat i with
      | Some p => bool_decide (sp_type p = ZT_SIG_TYPE_CSTR) && streq (sp_name p) (lit "fmt")
      | None => false
      end in
    default (-1) (List.find is_fmt (reverse (seqZ 0 (Z.of_nat (length (sg_params sig)))))).

Definition zt_count_fixed_param_regs (sig : zt_func_sig_t) : Z * Z :=
  foldl (fun '(gp, fp) p => if zt_sig_type_is_fp (sp_type p) then (gp, fp + 1) else (gp + 1, fp))
    (0, 0) (sg_params sig).

(** [strchr(set, c) != NULL], which also holds for the terminating NUL. *)
Definition strchr_hit (set : cstr) (c : Z) : bool := (c =? 0) || existsb (Z.eqb c) set.

(** while (f( *p)) ++p, in an array whose end is the end of the list. *)
Fixpoint scan_while (f : Z -> bool) (p : list Z) : option (list Z) :=
  match p with
  | [] => None
  | c :: p' => if f c then scan_while f p' else Some p
  end.

(** A "*" that takes an argument, or digits. *)
Definition skip_number (p : list Z) (arg_index : Z) : option (list Z * Z) :=
  match p with
  | [] => None
  | c :: p' =>
      if c =? 42 then Some (p', arg_index + 1)
      else match scan_while isdigit p with None => None | Some p => Some (p, arg_index) end
  end.

Definition zt_skip_format_flags (p : list Z) (arg_index : Z) : option (list Z * Z) :=
  match scan_while (fun c => negb (c =? 0) && strchr_hit (lit "-+ #0'") c) p with
  | None => None
  | Some p =>
      match skip_number p arg_index with
      | None => None
      | Some (p, arg_index) =>
          match p with
          | [] => None
          | c :: p' => if c =? 46 then skip_number p' arg_index else Some (p, arg_index)
          end
      end
  end.

Definition zt_skip_format_length (p : list Z) : option (list Z) :=
  match p with
  | [] => None
  | c :: p' =>
      let single := if strchr_hit (lit "hljztL") c then p' else p in
      if (c =? 104) || (c =? 108)
      then match p' with
           | [] => None
           | d :: p'' => if d =? c then Some p'' else Some single
           end
      else Some single
  end.

(** The type a conversion character is shown as. *)
Definition conv_type (conv : Z) : option zt_sig_type_t :=
  if existsb (Z.eqb conv) (lit "di") then Some ZT_SIG_TYPE_LONG
  else if existsb (Z.eqb conv) (lit "uoxX") then Some ZT_SIG_TYPE_ULONG
  else if existsb (Z.eqb conv) (lit "pn") then Some ZT_SIG_TYPE_PTR
  else if conv =? 115 then Some ZT_SIG_TYPE_CSTR
  else if conv =? 99 then Some ZT_SIG_TYPE_INT
  else None.

(** The output with the argument appended, and the indices afterwards. *)
Definition zt_append_variadic_arg (out_size : Z) (out : cstr) (event : zt_trace_event_t) (gp_index fp_index conv : Z)
    (s : proc_t) : option cstr * Z * Z * proc_t :=
  if strchr_hit (lit "aAeEfFgG") conv then
    let value := zt_event_fp_arg_value (Some event) fp_index in
    match zt_append_raw out_size out (lit ", ") with
    | None => (None, gp_index, fp_index + 1, s)
    | Some out =>
        let '(r, s) := zt_append_value out_size out ZT_SIG_TYPE_DOUBLE value s in (r, gp_index, fp_index + 1, s)
    end
  else
    match zt_event_arg_value_ext event gp_index with
    | None => (zt_append_raw out_size out (lit ", <unreadable>"), gp_index, fp_index, s)
    | Some value =>
        match zt_append_raw out_size out (lit ", ") with
        | None => (None, gp_index + 1, fp_index, s)
        | Some out =>
            let '(r, s) :=
              match conv_type conv with
              | Some type => zt_append_value out_size out type value s
              | None => (zt_append_raw out_size out (lit "<arg>"), s)
              end in
            (r, gp_index + 1, fp_index, s)
        end
    end.

(** The walk over the format; every pass consumes a byte of the array, so its length is
    enough fuel. *)
Fixpoint variadic_loop (fuel : nat) (out_size : Z) (event : zt_trace_event_t) (p : list Z) (gp_index fp_index : Z)
    (out : cstr) (s : proc_t) : scan cstr * proc_t :=
  match fuel, p with
  | O, _ | _, [] => (Overrun, s)
  | S fuel, c :: p =>
      if c =? 0 then (Done out, s)
      else if negb (c =? 37) then variadic_loop fuel out_size event p gp_index fp_index out s
      else if chr p =? 37 then variadic_loop fuel out_size event (tail p) gp_index fp_index out s
      else
        match zt_skip_format_flags p gp_index with
        | None => (Overrun, s)
        | Some (p, gp_index) =>
            match zt_skip_format_length p with
            | None | Some [] => (Overrun, s)
            | Some (conv :: p) =>
                if conv =? 0 then (Done out, s)
                else if conv =? 109 then variadic_loop fuel out_size event p gp_index fp_index out s
                else
                  match zt_append_variadic_arg out_size out event gp_index fp_index conv s with
                  | (None, _, _, s) => (Failed, s)
                  | (Some out, gp_index, fp_index, s) =>
                      variadic_loop fuel out_size event p gp_index fp_index out s
                  end
            end
        end
  end.

(** [char fmt[192]], whose bytes after the string are what [stack] held before. *)
Definition sizeof_fmt : nat := 192.
Definition fmt_array (stack : list Z) (fmt : cstr) : list Z := fmt ++ 0 :: drop (S (length fmt)) stack.

Definition zt_append_variadic_args (stack : list Z) (out_size : Z) (out : cstr) (sig : zt_func_sig_t)
    (event : zt_trace_event_t) (s : proc_t) : scan cstr * proc_t :=
  let fmt_index := zt_find_format_param_index sig in
  let unknown s := (of_option (zt_append_raw out_size out (lit ", ...")), s) in
  if fmt_index <? 0 then unknown s
  else
    match zt_event_arg_value_ext event fmt_index with
    | None => unknown s
    | Some fmt_addr =>
        match zt_read_remote_cstr fmt_addr sizeof_fmt s with
        | (None, s) => unknown s
        | (Some fmt, s) =>
            let '(gp_index, fp_index) := zt_count_fixed_param_regs sig in
            variadic_loop sizeof_fmt out_size event (fmt_array stack fmt) gp_index fp_index out s
        end
    end.

(** ** Events *)

(** The preview of a buffer behind a separator; a failed preview is left out. *)
Definition append_preview (out_size : Z) (out sep : cstr) (addr preview_len : Z) (s : proc_t) : option cstr * proc_t :=
  if 0 <? preview_len then
    match zt_read_remote_buf_preview addr preview_len 192 s with
    | (None, s) => (Some out, s)
    | (Some preview, s) =>
        (match zt_append_raw out_size out sep with
         | None => None
         | Some out => zt_append_raw out_size out preview
         end, s)
    end
  else (Some out, s).

(** The loop over the parameters of an entry event, from parameter [i] on. *)
Fixpoint entry_params (out_size : Z) (sig : zt_func_sig_t) (event : zt_trace_event_t) (params : list zt_sig_param_t)
    (i gp_index fp_index : Z) (out : cstr) (s : proc_t) : option cstr * proc_t :=
  match params with
  | [] => (Some out, s)
  | p :: params =>
      match (if 0 <? i then zt_append_raw out_size out (lit ", ") else Some out) with
      | None => (None, s)
      | Some out =>
          let is_fp := zt_sig_type_is_fp (sp_type p) in
          let raw_value :=
            if is_fp then zt_event_fp_arg_value (Some event) fp_index else zt_event_arg_value (Some event) gp_index in
          let gp_index := if is_fp then gp_index else gp_index + 1 in
          let fp_index := if is_fp then fp_index + 1 else fp_index in
          match zt_append_value out_size out (sp_type p) raw_value s with
          | (None, s) => (None, s)
          | (Some out, s) =>
              let '(r, s) :=
                if bool_decide (sp_type p = ZT_SIG_TYPE_CONST_BUF)
                then append_preview out_size out (lit "=") raw_value
                       (zt_buffer_preview_len sig (Some event) None i false) s
                else (Some out, s) in
              match r with
              | None => (None, s)
              | Some out => entry_params out_size sig event params (i + 1) gp_index fp_index out s
              end
          end
      end
  end.

(** The first buffer parameter of a return event, shown as the call left it. *)
Fixpoint return_buffer (out_size : Z) (sig : zt_func_sig_t) (entry_event : option zt_trace_event_t)
    (event : zt_trace_event_t) (params : list zt_sig_param_t) (i : Z) (out : cstr) (s : proc_t) : option cstr * proc_t :=
  match params with
  | [] => (Some out, s)
  | p :: params =>
      if bool_decide (sp_type p = ZT_SIG_TYPE_BUF)
      then append_preview out_size out (lit " ") (zt_event_arg_value entry_event i)
             (zt_buffer_preview_len sig entry_event (Some event) i true) s
      else return_buffer out_size sig entry_event event params (i + 1) out s
  end.

Definition format_entry (stack : list Z) (out_size : Z) (symbol : cstr) (sig : zt_func_sig_t) (event : zt_trace_event_t)
    (s : proc_t) : scan cstr * proc_t :=
  let head := symbol ++ lit "(" in
  if out_size <=? Z.of_nat (length head) then (Failed, s)
  else
    match entry_params out_size sig event (sg_params sig) 0 0 0 head s with
    | (None, s) => (Failed, s)
    | (Some out, s) =>
        let '(r, s) :=
          if sg_variadic sig then zt_append_variadic_args stack out_size out sig event s else (Done out, s) in
        match r with
        | Done out => (of_option (zt_append_raw out_size out (lit ")" ++ [10])), s)
        | r => (r, s)
        end
    end.

Definition format_return (out_size : Z) (symbol : cstr) (sig : zt_func_sig_t) (entry_event : option zt_trace_event_t)
    (event : zt_trace_event_t) (s : proc_t) : scan cstr * proc_t :=
  let head := symbol ++ lit " -> " in
  if out_size <=? Z.of_nat (length head) then (Failed, s)
  else
    let type := sp_type (sg_ret sig) in
    let value := if zt_sig_type_is_fp type then arr_get (ev_fp_args event) 0 else arr_get (ev_args event) 0 in
    match zt_append_value out_size head type value s with
    | (None, s) => (Failed, s)
    | (Some out, s) =>
        match return_buffer out_size sig entry_event event (sg_params sig) 0 out s with
        | (None, s) => (Failed, s)
        | (Some out, s) => (of_option (zt_append_raw out_size out [10]), s)
        end
    end.

Definition zt_format_trace_event_with_sig (conf : sigconf_t) (stack : list Z) (symbol : cstr)
    (entry_event : option zt_trace_event_t) (event : zt_trace_event_t) (out_size : Z) (s : proc_t) : scan cstr * proc_t :=
  if out_size =? 0 then (Failed, s)
  else
    match zt_sigconf_find conf symbol with
    | None => (Failed, s)
    | Some sig =>
        if ev_event_type event =? ZT_TRACE_EVENT_ENTRY then format_entry stack out_size symbol sig event s
        else if ev_event_type event =? ZT_TRACE_EVENT_RETURN then format_return out_size symbol sig entry_event event s
        else (Failed, s)
    end.
End formatting.
