(* ===== verification/SigFormatSpec.v ===== *)
(** * What a formatted event shows

    The formatter against a reference without buffers or chunks: a remote string
    is read byte by byte, a text is the concatenation of its parts, and the
    output exists exactly when the text and its NUL fit. *)

From S2P Require Import Prelude CLib Types RemoteMem RemoteMemSpec SigConf SigFormat.

(** ** The environment *)

(** process_vm_readv transfers all that is mapped. *)
Definition reliable (K : kernel_t) : Prop := forall n a size, size <= k_vm_readv K n a size.

(** User memory: nothing at the null page, nothing in the kernel's half. *)
Definition user_mem (m : Z -> option Z) : Prop := forall x b, m x = Some b -> 4096 <= x < 2 ^ 63 /\ is_byte b.

Definition same_mem (s s' : proc_t) : Prop := pm s' = pm s.

Lemma same_mem_trans s1 s2 s3 : same_mem s1 s2 -> same_mem s2 s3 -> same_mem s1 s3.
Proof. unfold same_mem. congruence. Qed.

Lemma same_mem_refl s : same_mem s s.
Proof. done. Qed.

#[local] Hint Resolve same_mem_refl same_mem_trans : zt.

(** ** Reads *)

Lemma read_bytes_first_none m a n : m a = None -> (0 < n)%nat -> read_bytes m a n = None.
Proof. intros Ha Hn. destruct n; [lia|]. cbn. by rewrite Ha. Qed.

Lemma read_exact K a size s :
  reliable K -> user_mem (pm s) -> is_u64 a -> 0 < size <= 192 ->
  exists s', zt_read_remote_memory K a size s = (read_bytes (pm s) a (Z.to_nat size), s') /\ same_mem s s'.
Proof.
  intros HK Hm Ha Hs.
  assert (Hfast : process_vm_readv K a size s = (read_bytes (pm s) a (Z.to_nat size), pr_call s)).
  { unfold process_vm_readv, transferred. specialize (HK (pcalls s) a size).
    destruct (Z.ltb_spec (k_vm_readv K (pcalls s) a size) 0); [lia|]. rewrite (Z.min_r (k_vm_readv _ _ _ _)) by lia.
    destruct (read_bytes (pm s) a (Z.to_nat size)) as [bs|] eqn:E; [|by destruct (_ =? _)].
    by rewrite (mapped_prefix_full _ _ _ _ E), Z2Nat.id, Z.min_id, Z.eqb_refl by lia. }
  destruct (read_bytes (pm s) a (Z.to_nat size)) as [bs|] eqn:E.
  { exists (pr_call s). unfold zt_read_remote_memory. rewrite Hfast. by destruct (Z.eqb_spec size 0); [lia|]. }
  destruct (decide (a < 2 ^ 63)) as [Hlow|Hhigh].
  - pose proof (read_remote_spec K a size s ltac:(unfold is_u64 in *; lia) ltac:(lia) ltac:(lia)) as H.
    destruct (zt_read_remote_memory K a size s) as [[bs|] s']; destruct H as [Hpm H]; [|by exists s'].
    specialize (H _ eq_refl). congruence.
  - assert (Hna : pm s a = None).
    { destruct (pm s a) as [b|] eqn:Eb; [|done]. apply Hm in Eb. lia. }
    unfold zt_read_remote_memory. rewrite Hfast. destruct (Z.eqb_spec size 0); [lia|].
    destruct (word_count size) as (k & -> & Hk); [lia|]. destruct k as [|k]; [lia|].
    rewrite offsets_cons. cbn [peek_loop]. unfold ptrace_peek. rewrite u64_small by (unfold is_u64, word_size in *; lia).
    unfold word_size. rewrite Z.mul_0_r, Z.add_0_r. cbn [pr_call pm].
    rewrite read_bytes_first_none by (done || lia). exists (pr_call (pr_call s)). by destruct (k_peek _ _ _).
Qed.

(** ** Remote strings *)

(** A character as it is shown: printable ASCII, or a dot. *)
Definition shown_char (c : Z) : Z := if decide (32 <= c <= 126) then c else 46.

Lemma printable_shown c : printable c = shown_char c.
Proof. unfold printable, shown_char, isprint. case_decide; destruct (Z.leb_spec 32 c), (Z.leb_spec c 126); done || lia. Qed.

Fixpoint remote_string (m : Z -> option Z) (a : Z) (n : nat) : option cstr :=
  match n with
  | O => Some []
  | S n =>
      match m a with
      | None => None
      | Some c => if c =? 0 then Some [] else (cons (shown_char c)) <$> remote_string m (a + 1) n
      end
  end.

Definition remote_cstr (m : Z -> option Z) (a : Z) (size : nat) : option cstr :=
  if a =? 0 then Some (take (size - 1) (lit "NULL")) else remote_string m a (size - 1).

Lemma remote_string_length m a n str : remote_string m a n = Some str -> (length str <= n)%nat.
Proof.
  revert a str. induction n as [|n IH]; cbn; intros a str H; [by simplify_eq|].
  destruct (m a) as [c|]; [|done]. destruct (c =? 0); [simplify_eq; cbn; lia|].
  destruct (remote_string m (a + 1) n) eqn:E; [|done]. apply IH in E. simplify_eq/=. lia.
Qed.

(** One chunk: the string ends in it, or goes on behind it. *)
Lemma take_chunk_string m a chunk room str fin :
  read_bytes m a (length chunk) = Some chunk -> (length chunk <= room)%nat ->
  take_chunk chunk room = (str, fin) ->
  if fin then remote_string m a room = Some str
  else length str = length chunk /\
       remote_string m a room = app str <$> remote_string m (a + Z.of_nat (length chunk)) (room - length chunk).
Proof.
  revert a room str fin. induction chunk as [|c chunk IH]; intros a room str fin Hr Hl Ht.
  - cbn in Ht. simplify_eq. cbn. rewrite Z.add_0_r, Nat.sub_0_r. split; [done|]. by destruct (remote_string m a room).
  - destruct room as [|room]; [cbn in Hl; lia|]. cbn [length read_bytes] in Hr.
    destruct (m a) as [c'|] eqn:Ea; [|done]. destruct (read_bytes m (a + 1) (length chunk)) as [bs|] eqn:Er; [|done].
    simplify_eq. cbn [take_chunk] in Ht. rewrite printable_shown in Ht. cbn [remote_string]. rewrite Ea.
    destruct (c =? 0); [by simplify_eq|]. destruct (take_chunk chunk room) as [str0 fin0] eqn:E0. simplify_eq.
    specialize (IH (a + 1) room str0 fin Er ltac:(cbn in Hl; lia) E0). destruct fin.
    + by rewrite IH.
    + destruct IH as [IHl ->]. cbn [length]. split; [lia|].
      replace (a + 1 + Z.of_nat (length chunk)) with (a + Z.of_nat (S (length chunk))) by lia.
      cbn [Nat.sub]. by destruct (remote_string m _ _).
Qed.

Lemma read_bytes_mapped m a n bs : read_bytes m a n = Some bs -> (0 < n)%nat -> exists b, m a = Some b.
Proof. intros H Hn. destruct n; [lia|]. cbn in H. destruct (m a); [eauto|done]. Qed.

Section reads.
Context (K : kernel_t) (HK : reliable K).

(** A chunk is what fits of the request, or one byte; it fails only at an unmapped byte. *)
Lemma chunk_exact a len s :
  user_mem (pm s) -> is_u64 a -> 0 < len <= 64 ->
  exists r s', zt_read_remote_chunk_or_byte K a len s = (r, s') /\ same_mem s s' /\
    match r with
    | None => pm s a = None
    | Some chunk => read_bytes (pm s) a (length chunk) = Some chunk /\ (0 < Z.of_nat (length chunk) <= len)
    end.
Proof.
  intros Hm Ha Hl. unfold zt_read_remote_chunk_or_byte. destruct (Z.eqb_spec len 0); [lia|].
  destruct (read_exact K a len s HK Hm Ha ltac:(lia)) as (s1 & -> & H1).
  destruct (read_bytes (pm s) a (Z.to_nat len)) as [bs|] eqn:E.
  { pose proof (read_bytes_length _ _ _ _ E) as El. eexists _, _. split; [done|]. split; [done|]. rewrite El. split; [done|lia]. }
  destruct (read_exact K a 1 s1 HK ltac:(by rewrite H1) Ha ltac:(lia)) as (s2 & -> & H2). rewrite H1.
  eexists _, _. split; [reflexivity|]. split; [eauto with zt|]. change (Z.to_nat 1) with 1%nat. cbn [read_bytes].
  destruct (pm s a) as [b|] eqn:Eb; [|done]. cbn. rewrite Eb. split; [done|lia].
Qed.

Lemma cstr_loop_exact fuel a room s :
  user_mem (pm s) -> is_u64 a -> (room <= fuel)%nat ->
  exists s', cstr_loop K fuel a room s = (remote_string (pm s) a room, s') /\ same_mem s s'.
Proof.
  revert a room s. induction fuel as [|fuel IH]; intros a room s Hm Ha Hf.
  { replace room with O by lia. by exists s. }
  destruct room as [|room]; [by exists s|]. cbn [cstr_loop].
  destruct (chunk_exact a (Z.min 64 (Z.of_nat (S room))) s Hm Ha ltac:(lia)) as (r & s1 & -> & H1 & Hr).
  destruct r as [chunk|]; [|exists s1; cbn [remote_string]; by rewrite Hr].
  destruct Hr as [Hr Hlen]. destruct (take_chunk chunk (S room)) as [str fin] eqn:Et.
  pose proof (take_chunk_string (pm s) a chunk (S room) str fin Hr ltac:(lia) Et) as Hs.
  destruct fin; [exists s1; by rewrite Hs|]. destruct Hs as [Hsl ->].
  destruct (read_bytes_mapped (pm s) a (length chunk) chunk Hr ltac:(lia)) as (b & Hb). apply Hm in Hb.
  rewrite u64_small by (unfold is_u64; lia). rewrite Hsl.
  destruct (IH (a + Z.of_nat (length chunk)) (S room - length chunk)%nat s1) as (s2 & -> & H2);
    [by rewrite H1|unfold is_u64; lia|lia|]. rewrite H1.
  exists s2. split; [|eauto with zt]. by destruct (remote_string (pm s) _ _).
Qed.

Lemma cstr_exact a size s :
  user_mem (pm s) -> is_u64 a -> (0 < size)%nat ->
  exists s', zt_read_remote_cstr K a size s = (remote_cstr (pm s) a size, s') /\ same_mem s s'.
Proof.
  intros Hm Ha Hs. unfold zt_read_remote_cstr, remote_cstr.
  destruct (Nat.eqb_spec size 0); [lia|]. destruct (a =? 0); [by exists s|].
  apply cstr_loop_exact; [done|done|lia].
Qed.

(** ** Buffer previews *)

Lemma byte_loop_exact n a s :
  user_mem (pm s) -> is_u64 a ->
  exists s', byte_loop K n a s = (read_bytes (pm s) a n, s') /\ same_mem s s'.
Proof.
  revert a s. induction n as [|n IH]; intros a s Hm Ha; [by exists s|]. cbn [byte_loop].
  destruct (read_exact K a 1 s HK Hm Ha ltac:(lia)) as (s1 & -> & H1).
  change (Z.to_nat 1) with 1%nat. cbn [read_bytes].
  destruct (pm s a) as [b|] eqn:Eb; [|by exists s1]. apply Hm in Eb.
  rewrite u64_small by (unfold is_u64; lia).
  destruct (IH (a + 1) s1) as (s2 & -> & H2); [by rewrite H1|unfold is_u64; lia|]. rewrite H1.
  exists s2. split; [by destruct (read_bytes (pm s) (a + 1) n)|eauto with zt].
Qed.

Lemma bytes_exact a len s :
  user_mem (pm s) -> is_u64 a -> 0 <= len <= 32 ->
  exists s', zt_read_remote_bytes_with_fallback K a len s = (read_bytes (pm s) a (Z.to_nat len), s') /\ same_mem s s'.
Proof.
  intros Hm Ha Hl. unfold zt_read_remote_bytes_with_fallback. destruct (Z.eqb_spec len 0) as [->|]; [by exists s|].
  destruct (read_exact K a len s HK Hm Ha ltac:(lia)) as (s1 & -> & H1).
  destruct (read_bytes (pm s) a (Z.to_nat len)) as [bs|] eqn:E; [by exists s1|].
  destruct (byte_loop_exact (Z.to_nat len) a s1) as (s2 & -> & H2); [by rewrite H1|done|].
  rewrite H1, E. eauto with zt.
Qed.

(** A byte of a preview: printable ASCII other than a quote or a backslash as it is,
    anything else as two hexadecimal digits. *)
Definition show_byte (ch : Z) : cstr :=
  if decide (32 <= ch <= 126 /\ ch <> 34 /\ ch <> 92) then [ch]
  else lit "\x" ++ [hex_digit (ch / 16); hex_digit (ch mod 16)].

Lemma show_byte_eq ch : show_byte ch = if plain_byte ch then [ch] else escape ch.
Proof.
  unfold show_byte, plain_byte, isprint.
  case_decide; destruct (Z.leb_spec 32 ch), (Z.leb_spec ch 126), (Z.eqb_spec ch 34), (Z.eqb_spec ch 92); cbn [andb negb];
    done || lia.
Qed.

Lemma cap_min len : zt_cap_preview_len len = Z.min 32 len.
Proof. unfold zt_cap_preview_len. destruct (Z.ltb_spec 32 len); lia. Qed.

(** At most 32 bytes are shown. *)
Definition preview_text (m : Z -> option Z) (a len : Z) : option cstr :=
  if a =? 0 then Some (lit "NULL")
  else (fun bs => 34 :: concat (map show_byte bs) ++ [34]) <$> read_bytes m a (Z.to_nat (Z.min 32 len)).

Lemma length_show_byte ch : (length (show_byte ch) <= 4)%nat.
Proof. rewrite show_byte_eq. destruct (plain_byte ch); cbn; lia. Qed.

Lemma preview_loop_fits bytes buffer :
  Z.of_nat (length buffer) + 4 * Z.of_nat (length bytes) < 190 ->
  preview_loop bytes 192 buffer = Some (buffer ++ concat (map show_byte bytes)).
Proof.
  revert buffer. induction bytes as [|ch bytes IH]; intros buffer Hl; cbn [preview_loop map concat]; [by rewrite app_nil_r|].
  cbn [length] in Hl. rewrite show_byte_eq. destruct (plain_byte ch).
  - destruct (Z.leb_spec 192 (Z.of_nat (length buffer) + 1)); [lia|].
    rewrite IH by (rewrite length_app; cbn; lia). by rewrite <- app_assoc.
  - change (Z.of_nat (length (escape ch))) with 4. destruct (Z.leb_spec (192 - Z.of_nat (length buffer)) 4); [lia|].
    rewrite IH by (rewrite length_app; cbn; lia). by rewrite <- app_assoc.
Qed.

Lemma length_shown bytes : (length (concat (map show_byte bytes)) <= 4 * length bytes)%nat.
Proof.
  induction bytes as [|ch bytes IH]; [done|]. cbn [map concat length]. rewrite length_app.
  pose proof (length_show_byte ch). lia.
Qed.

Lemma cap_range len : 0 <= len -> 0 <= zt_cap_preview_len len <= 32.
Proof. intros. unfold zt_cap_preview_len. destruct (Z.ltb_spec 32 len); lia. Qed.

Lemma preview_exact a len s :
  user_mem (pm s) -> is_u64 a -> 0 <= len ->
  exists s', zt_read_remote_buf_preview K a len 192 s = (preview_text (pm s) a len, s') /\ same_mem s s'.
Proof.
  intros Hm Ha Hl. unfold zt_read_remote_buf_preview, preview_text. cbn [Z.eqb Z.leb Z.compare].
  destruct (a =? 0); [by exists s|]. rewrite <- cap_min.
  destruct (bytes_exact a (zt_cap_preview_len len) s Hm Ha (cap_range len Hl)) as (s1 & -> & H1).
  destruct (read_bytes (pm s) a (Z.to_nat (zt_cap_preview_len len))) as [bs|] eqn:E; [|by exists s1].
  pose proof (read_bytes_length _ _ _ _ E) as El. pose proof (cap_range len Hl). pose proof (length_shown bs).
  rewrite preview_loop_fits by (cbn; lia). rewrite length_app. cbn [length fmap option_fmap option_map].
  destruct (Z.leb_spec 192 (Z.of_nat (1 + length (concat (map show_byte bs))) + 2)); [lia|].
  exists s1. split; [|done]. done.
Qed.

(** ** Values *)

Definition spec_value (m : Z -> option Z) (type : zt_sig_type_t) (value : Z) : cstr :=
  match type with
  | ZT_SIG_TYPE_CSTR =>
      match remote_cstr m value 64 with None => hex_str value | Some str => 34 :: str ++ [34] end
  | ZT_SIG_TYPE_INT => sdec_str (i32 value)
  | ZT_SIG_TYPE_LONG | ZT_SIG_TYPE_SSIZE => sdec_str (i64 value)
  | ZT_SIG_TYPE_ULONG | ZT_SIG_TYPE_SIZE => dec_str value
  | ZT_SIG_TYPE_FLOAT => fmt_g (fp_decode 8 23 (u32 value))
  | ZT_SIG_TYPE_DOUBLE => fmt_g (fp_decode 11 52 value)
  | ZT_SIG_TYPE_VOID => lit "void"
  | _ => hex_str value
  end.

Lemma value_exact type value s :
  user_mem (pm s) -> is_u64 value ->
  exists s', value_text K type value s = (spec_value (pm s) type value, s') /\ same_mem s s'.
Proof.
  intros Hm Hv. destruct type; cbn [value_text spec_value]; try (by exists s).
  destruct (cstr_exact value 64 s Hm Hv ltac:(lia)) as (s' & -> & H). exists s'.
  by destruct (remote_cstr (pm s) value 64).
Qed.
End reads.

(** ** No value overflows its 96-byte array *)

Lemma length_dec_aux fuel z acc : (length (dec_aux fuel z acc) <= fuel + length acc)%nat.
Proof.
  revert z acc. induction fuel as [|fuel IH]; intros z acc; cbn [dec_aux]; [lia|].
  destruct (z <? 10); [cbn; lia|]. etrans; [apply IH|]. cbn. lia.
Qed.

Lemma length_dec_str z : (length (dec_str z) <= 20)%nat.
Proof. etrans; [apply length_dec_aux|]. cbn. lia. Qed.

Lemma length_hex_aux fuel z acc : (length (hex_aux fuel z acc) <= fuel + length acc)%nat.
Proof.
  revert z acc. induction fuel as [|fuel IH]; intros z acc; cbn [hex_aux]; [lia|].
  destruct (z <? 16); [cbn; lia|]. etrans; [apply IH|]. cbn. lia.
Qed.

Lemma length_hex_str z : (length (hex_str z) <= 18)%nat.
Proof. unfold hex_str. rewrite length_app. pose proof (length_hex_aux 16 z []). cbn in *. lia. Qed.

Lemma length_sdec_str z : (length (sdec_str z) <= 21)%nat.
Proof. unfold sdec_str. destruct (z <? 0); cbn [length]; pose proof (length_dec_str (- z)); pose proof (length_dec_str z); lia. Qed.

Lemma length_fraction s : (length (fraction s) <= S (length s))%nat.
Proof.
  unfold fraction. assert (H : (length (strip_zeros s) <= length s)%nat).
  { unfold strip_zeros. rewrite length_reverse. etrans; [apply skip_while_shorter|]. by rewrite length_reverse. }
  destruct (strip_zeros s); cbn in *; lia.
Qed.

Lemma length_fmt_g v : (length (fmt_g v) <= 50)%nat.
Proof.
  unfold fmt_g. destruct v as [neg|neg|neg m e]; [destruct neg; cbn; lia..|].
  assert (Hp : forall n d, (length (fmt_g_pos n d) <= 49)%nat).
  { intros n d. unfold fmt_g_pos. destruct (six_digits n d) as [q x]. pose proof (length_dec_str q) as Hq.
    destruct ((-4 <=? x) && (x <? 6)) eqn:Ex; [destruct (Z.leb_spec 0 x)|]; zbool.
    - rewrite length_app. pose proof (length_fraction (drop (Z.to_nat (x + 1)) (dec_str q))) as Hf.
      rewrite length_drop in Hf. rewrite length_take. lia.
    - cbn [length]. pose proof (length_fraction (replicate (Z.to_nat (- x - 1)) 48 ++ dec_str q)) as Hf.
      rewrite length_app, length_replicate in Hf. lia.
    - rewrite !length_app. cbn [length]. rewrite length_app. pose proof (length_fraction (drop 1 (dec_str q))) as Hf.
      rewrite length_drop in Hf. pose proof (length_dec_str (Z.abs x)). rewrite length_take.
      destruct (Z.abs x <? 10); cbn [length]; lia. }
  rewrite length_app. specialize (Hp (m * 2 ^ Z.max e 0) (2 ^ Z.max (- e) 0)).
  destruct neg, (m =? 0); cbn [length]; lia.
Qed.

Lemma length_remote_cstr m a size str : remote_cstr m a size = Some str -> (length str <= size - 1)%nat.
Proof.
  unfold remote_cstr. destruct (a =? 0); [|apply remote_string_length]. intros [= <-]. rewrite length_take. lia.
Qed.

Lemma spec_value_fits m type value : Z.of_nat (length (spec_value m type value)) < 96.
Proof.
  pose proof (length_hex_str value). pose proof (length_dec_str value).
  pose proof (length_sdec_str (i32 value)). pose proof (length_sdec_str (i64 value)).
  pose proof (length_fmt_g (fp_decode 8 23 (u32 value))). pose proof (length_fmt_g (fp_decode 11 52 value)).
  destruct type; cbn [spec_value]; try lia; [|cbn; lia].
  destruct (remote_cstr m value 64) as [str|] eqn:E; [|lia].
  apply length_remote_cstr in E. cbn [length]. rewrite length_app. cbn [length]. lia.
Qed.

(** ** Texts that fit *)

Definition fit (out_size : Z) (t : cstr) : option cstr := if Z.of_nat (length t) <? out_size then Some t else None.

Lemma append_fit n out t : zt_append_raw n out t = fit n (out ++ t).
Proof.
  unfold zt_append_raw, fit. rewrite length_app.
  destruct (Z.leb_spec n (Z.of_nat (length out) + Z.of_nat (length t))), (Z.ltb_spec (Z.of_nat (length out + length t)) n);
    done || lia.
Qed.

Lemma fit_some n a out : fit n a = Some out -> out = a /\ fit n a = Some a.
Proof. unfold fit. destruct (_ <? _); [|done]. by intros [= ->]. Qed.

Lemma fit_none_app n a t : fit n a = None -> fit n (a ++ t) = None.
Proof.
  unfold fit. rewrite length_app. destruct (Z.ltb_spec (Z.of_nat (length a)) n); [done|]. intros _.
  destruct (Z.ltb_spec (Z.of_nat (length a + length t)) n); [lia|done].
Qed.

(** Case analysis on whether a prefix of the output fits. *)
Ltac fit_case a :=
  let E := fresh "E" in
  destruct (fit _ a) eqn:E; [apply fit_some in E as [-> E]|].

(** The output is refused once a prefix of the text does not fit. *)
Ltac fit_fail s :=
  exists s; split; [f_equal; symmetry; repeat first [assumption | apply fit_none_app]|eauto with zt].

(** ** Events *)

Definition event_ok (e : zt_trace_event_t) : Prop := Forall is_u64 (ev_args e) /\ Forall is_u64 (ev_fp_args e).

Lemma arr_get_u64 l i : Forall is_u64 l -> is_u64 (arr_get l i).
Proof.
  intros Hl. unfold arr_get. rewrite list_lookup_total_alt. destruct (l !! Z.to_nat i) eqn:E; [|done].
  cbn. by eapply Forall_lookup_1 in Hl.
Qed.

Lemma arg_value_u64 e i : (forall x, e = Some x -> event_ok x) -> is_u64 (zt_event_arg_value e i).
Proof.
  intros He. unfold zt_event_arg_value. destruct e as [e|]; [|done]. destruct (_ || _); [done|].
  apply arr_get_u64. by apply He.
Qed.

Lemma fp_arg_value_u64 e i : event_ok e -> is_u64 (zt_event_fp_arg_value (Some e) i).
Proof. intros He. unfold zt_event_fp_arg_value. destruct (_ || _); [done|]. apply arr_get_u64, He. Qed.

Lemma cap_nonneg len : 0 <= len -> 0 <= zt_cap_preview_len len.
Proof. intros. apply cap_range in H. lia. Qed.

Lemma preview_len_nonneg sig e r i for_return :
  (forall x, e = Some x -> event_ok x) -> (forall x, r = Some x -> event_ok x) ->
  0 <= zt_buffer_preview_len sig e r i for_return.
Proof.
  intros He Hr. pose proof (arg_value_u64 e (i + 1) He) as H1. unfold is_u64 in H1.
  unfold zt_buffer_preview_len. destruct e as [e|]; [|done]. destruct (_ || _); [done|].
  assert (Hu : forall x, 0 <= u64 x) by (intros x; pose proof (u64_range x); unfold is_u64 in *; lia).
  destruct for_return.
  - destruct r as [r|]; [|done]. pose proof (arr_get_u64 (ev_args r) 0 (proj1 (Hr _ eq_refl))) as H0. unfold is_u64 in H0.
    destruct (_ <=? 0); [done|]. destruct (_ && _); [apply cap_nonneg; apply Hu|].
    destruct (zt_sig_param_is_numeric _ _); [|apply cap_nonneg; lia].
    apply cap_nonneg. destruct (_ <? _); lia.
  - destruct (_ && _); [apply cap_nonneg; apply Hu|]. destruct (zt_sig_param_is_numeric _ _); [|done]. apply cap_nonneg. lia.
Qed.

(** ** The text of parameters and buffers *)

Definition preview_part (m : Z -> option Z) (sep : cstr) (addr len : Z) : cstr :=
  if 0 <? len then match preview_text m addr len with None => [] | Some t => sep ++ t end else [].

(** The integer and the floating-point argument registers of an event; 0 for one it
    does not have. *)
Definition gp_reg (e : zt_trace_event_t) (i : Z) : Z := if decide (0 <= i < 6) then ev_args e !!! Z.to_nat i else 0.
Definition fp_reg (e : zt_trace_event_t) (i : Z) : Z := if decide (0 <= i < 8) then ev_fp_args e !!! Z.to_nat i else 0.

Definition fp_type (t : zt_sig_type_t) : bool := bool_decide (t = ZT_SIG_TYPE_FLOAT \/ t = ZT_SIG_TYPE_DOUBLE).
Definition numeric_type (t : zt_sig_type_t) : bool :=
  bool_decide (t ∈ [ZT_SIG_TYPE_INT; ZT_SIG_TYPE_LONG; ZT_SIG_TYPE_ULONG; ZT_SIG_TYPE_SIZE; ZT_SIG_TYPE_SSIZE]).

(** The parameter at a position is a number. *)
Definition numeric_at (sig : zt_func_sig_t) (i : Z) : bool :=
  match sg_params sig !! Z.to_nat i with Some p => numeric_type (sp_type p) | None => false end.

(** The length of the buffer at position [i] at entry: the number behind it, or the
    product of the two numbers behind it, taken from the integer registers of these
    positions. *)
Definition entry_len (sig : zt_func_sig_t) (e : zt_trace_event_t) (i : Z) : Z :=
  if numeric_at sig (i + 1) then
    if numeric_at sig (i + 2) then u64 (gp_reg e (i + 1) * gp_reg e (i + 2)) else gp_reg e (i + 1)
  else 0.

(** At the return: what the call returned (nothing if that is not positive), at most
    the number behind the buffer, or times the first of two numbers behind it. *)
Definition return_len (sig : zt_func_sig_t) (e r : zt_trace_event_t) (i : Z) : Z :=
  let got := gp_reg r 0 in
  if decide (Z.to_nat i < length (sg_params sig))%nat then
    if i64 got <=? 0 then 0
    else if numeric_at sig (i + 1) then
      if numeric_at sig (i + 2) then u64 (got * gp_reg e (i + 1)) else Z.min got (gp_reg e (i + 1))
    else got
  else 0.

Lemma arg_value_reg e i : zt_event_arg_value (Some e) i = gp_reg e i.
Proof.
  unfold zt_event_arg_value, gp_reg, arr_get, ZT_TRACE_GP_ARG_COUNT.
  case_decide; destruct (Z.ltb_spec i 0), (Z.leb_spec 6 i); done || lia.
Qed.

Lemma fp_arg_value_reg e i : zt_event_fp_arg_value (Some e) i = fp_reg e i.
Proof.
  unfold zt_event_fp_arg_value, fp_reg, arr_get, ZT_TRACE_FP_ARG_COUNT.
  case_decide; destruct (Z.ltb_spec i 0), (Z.leb_spec 8 i); done || lia.
Qed.

Lemma is_fp_type t : zt_sig_type_is_fp t = fp_type t.
Proof. by destruct t. Qed.

Lemma is_numeric_at sig i : 0 <= i -> zt_sig_param_is_numeric sig i = numeric_at sig i.
Proof.
  intros Hi. unfold zt_sig_param_is_numeric, numeric_at. destruct (Z.leb_spec 0 i); [cbn [andb]|lia].
  destruct (Z.ltb_spec i (Z.of_nat (length (sg_params sig)))).
  - destruct (sg_params sig !! Z.to_nat i) as [p|]; [|done]. by destruct (sp_type p).
  - by rewrite lookup_ge_None_2 by lia.
Qed.

Lemma buffer_len_entry sig e i :
  0 <= i -> zt_buffer_preview_len sig (Some e) None i false = Z.min 32 (entry_len sig e i).
Proof.
  intros Hi. unfold zt_buffer_preview_len, entry_len. rewrite !is_numeric_at, !arg_value_reg, !cap_min by lia.
  destruct (Z.ltb_spec i 0); [lia|]. cbn [orb].
  destruct (Z.leb_spec (Z.of_nat (length (sg_params sig))) i) as [Hge|].
  - unfold numeric_at at 1. by rewrite lookup_ge_None_2 by lia.
  - by destruct (numeric_at sig (i + 1)), (numeric_at sig (i + 2)).
Qed.

Lemma buffer_len_return sig e r i :
  0 <= i -> zt_buffer_preview_len sig (Some e) (Some r) i true = Z.min 32 (return_len sig e r i).
Proof.
  intros Hi. unfold zt_buffer_preview_len, return_len. rewrite !is_numeric_at, !arg_value_reg, !cap_min by lia.
  change (arr_get (ev_args r) 0) with (gp_reg r 0).
  destruct (Z.ltb_spec i 0); [lia|]. cbn [orb].
  destruct (Z.leb_spec (Z.of_nat (length (sg_params sig))) i); [by rewrite decide_False by lia|rewrite decide_True by lia].
  destruct (_ <=? 0); [done|]. destruct (numeric_at sig (i + 1)), (numeric_at sig (i + 2)); cbn [andb]; try done.
  all: destruct (Z.ltb_spec (gp_reg r 0) (gp_reg e (i + 1))); lia.
Qed.

Definition param_value (event : zt_trace_event_t) (p : zt_sig_param_t) (gp fp : Z) : Z :=
  if fp_type (sp_type p) then fp_reg event fp else gp_reg event gp.

Definition buffer_part (m : Z -> option Z) (sig : zt_func_sig_t) (event : zt_trace_event_t) (p : zt_sig_param_t)
    (i value : Z) : cstr :=
  if bool_decide (sp_type p = ZT_SIG_TYPE_CONST_BUF) then preview_part m (lit "=") value (entry_len sig event i) else [].

(** Each parameter takes the next register of its class. *)
Fixpoint params_text (m : Z -> option Z) (sig : zt_func_sig_t) (event : zt_trace_event_t) (params : list zt_sig_param_t)
    (i gp fp : Z) : cstr :=
  match params with
  | [] => []
  | p :: params =>
      let is_fp := fp_type (sp_type p) in
      let value := param_value event p gp fp in
      (if 0 <? i then lit ", " else []) ++ spec_value m (sp_type p) value ++ buffer_part m sig event p i value ++
      params_text m sig event params (i + 1) (if is_fp then gp else gp + 1) (if is_fp then fp + 1 else fp)
  end.

Fixpoint return_part (m : Z -> option Z) (sig : zt_func_sig_t) (entry : option zt_trace_event_t) (event : zt_trace_event_t)
    (params : list zt_sig_param_t) (i : Z) : cstr :=
  match params with
  | [] => []
  | p :: params =>
      if bool_decide (sp_type p = ZT_SIG_TYPE_BUF)
      then match entry with
           | Some e => preview_part m (lit " ") (gp_reg e i) (return_len sig e event i)
           | None => []
           end
      else return_part m sig entry event params (i + 1)
  end.

Lemma preview_part_cap m sep a len : preview_part m sep a (Z.min 32 len) = preview_part m sep a len.
Proof.
  unfold preview_part, preview_text. rewrite Z.min_assoc, Z.min_id.
  destruct (Z.ltb_spec 0 len), (Z.ltb_spec 0 (Z.min 32 len)); done || lia.
Qed.

Section exact.
Context (K : kernel_t) (HK : reliable K) (n : Z).

Lemma append_value_exact out type value s :
  user_mem (pm s) -> is_u64 value ->
  exists s', zt_append_value K n out type value s = (fit n (out ++ spec_value (pm s) type value), s') /\ same_mem s s'.
Proof.
  intros Hm Hv. unfold zt_append_value. destruct (value_exact K HK type value s Hm Hv) as (s' & -> & H).
  pose proof (spec_value_fits (pm s) type value). destruct (Z.leb_spec 96 (Z.of_nat (length (spec_value (pm s) type value)))); [lia|].
  exists s'. by rewrite append_fit.
Qed.

Lemma append_preview_exact out sep addr len s :
  user_mem (pm s) -> is_u64 addr -> 0 <= len -> fit n out = Some out ->
  exists s', append_preview K n out sep addr len s = (fit n (out ++ preview_part (pm s) sep addr len), s') /\ same_mem s s'.
Proof.
  intros Hm Ha Hl Ho. unfold append_preview, preview_part.
  destruct (Z.ltb_spec 0 len); [|exists s; by rewrite app_nil_r, Ho].
  destruct (preview_exact K HK addr len s Hm Ha Hl) as (s' & -> & H1). exists s'. split; [|done].
  destruct (preview_text (pm s) addr len) as [t|]; [|by rewrite app_nil_r, Ho].
  rewrite app_assoc, append_fit. fit_case (out ++ sep); [by rewrite append_fit|by rewrite fit_none_app].
Qed.

Lemma entry_params_exact sig event params i gp fp out s :
  user_mem (pm s) -> event_ok event -> 0 <= i -> fit n out = Some out ->
  exists s', entry_params K n sig event params i gp fp out s =
    (fit n (out ++ params_text (pm s) sig event params i gp fp), s') /\ same_mem s s'.
Proof.
  revert i gp fp out s. induction params as [|p params IH]; intros i gp fp out s Hm He Hi Ho; cbn [entry_params params_text].
  { exists s. by rewrite app_nil_r, Ho. }
  set (sep := if 0 <? i then lit ", " else []). rewrite is_fp_type, fp_arg_value_reg, arg_value_reg. fold (param_value event p gp fp). set (v := param_value event p gp fp).
  assert (Hv : is_u64 v).
  { subst v. unfold param_value. rewrite <- fp_arg_value_reg, <- arg_value_reg.
    destruct (fp_type _); [by apply fp_arg_value_u64|]. apply arg_value_u64. by intros ? [= <-]. }
  replace (if 0 <? i then zt_append_raw n out (lit ", ") else Some out) with (fit n (out ++ sep)).
  2: { subst sep. destruct (0 <? i); [by rewrite append_fit|by rewrite app_nil_r]. }
  rewrite !app_assoc. fit_case (out ++ sep); [|fit_fail s].
  destruct (append_value_exact (out ++ sep) (sp_type p) v s Hm Hv) as (s1 & -> & H1).
  fit_case ((out ++ sep) ++ spec_value (pm s) (sp_type p) v); [|fit_fail s1].
  set (out2 := (out ++ sep) ++ spec_value (pm s) (sp_type p) v) in *.
  assert (Hb : exists s2, (if bool_decide (sp_type p = ZT_SIG_TYPE_CONST_BUF)
      then append_preview K n out2 (lit "=") v (zt_buffer_preview_len sig (Some event) None i false) s1
      else (Some out2, s1)) = (fit n (out2 ++ buffer_part (pm s) sig event p i v), s2) /\ same_mem s1 s2).
  { unfold buffer_part. destruct (bool_decide _); [|exists s1; by rewrite app_nil_r, E0].
    rewrite <- H1, <- preview_part_cap, <- buffer_len_entry by done. apply append_preview_exact; [by rewrite H1|done| |done].
    apply preview_len_nonneg; [by intros ? [= <-]|done]. }
  destruct Hb as (s2 & -> & H2). fit_case (out2 ++ buffer_part (pm s) sig event p i v); [|fit_fail s2].
  assert (H12 : same_mem s s2) by eauto with zt.
  destruct (IH (i + 1) (if fp_type (sp_type p) then gp else gp + 1)
              (if fp_type (sp_type p) then fp + 1 else fp)
              (out2 ++ buffer_part (pm s) sig event p i v) s2) as (s3 & -> & H3); [by rewrite H12|done|lia|done|].
  rewrite H12. exists s3. split; [done|eauto with zt].
Qed.

Lemma return_buffer_exact sig entry event params i out s :
  user_mem (pm s) -> (forall x, entry = Some x -> event_ok x) -> event_ok event -> 0 <= i -> fit n out = Some out ->
  exists s', return_buffer K n sig entry event params i out s =
    (fit n (out ++ return_part (pm s) sig entry event params i), s') /\ same_mem s s'.
Proof.
  intros Hm Hn He Hi Ho. revert i Hi. induction params as [|p params IH]; intros i Hi; cbn [return_buffer return_part].
  { exists s. by rewrite app_nil_r, Ho. }
  destruct (bool_decide _); [|apply IH; lia]. destruct entry as [e|].
  - rewrite <- preview_part_cap, <- buffer_len_return, <- arg_value_reg by done.
    apply append_preview_exact; [done|by apply arg_value_u64| |done].
    apply preview_len_nonneg; [done|by intros ? [= <-]].
  - exists s. rewrite app_nil_r. by rewrite Ho.
Qed.
End exact.
