(* ===== verification/SigVariadic.v ===== *)
(** * Variadic arguments and the text of an event

    A grammar of printf formats, the arguments each directive takes, and the
    refinement of [zt_format_trace_event_with_sig] to a reference text. *)

From S2P Require Import Prelude CLib Types RemoteMem RemoteMemSpec SigConf SigFormat SigFormatSpec.

(** ** Formats *)

Inductive number := NoNumber | Digits (ds : cstr) | Star.

Record directive := mk_directive {
  d_flags : cstr;
  d_width : number;
  d_prec : option number;
  d_len : cstr;
  d_conv : Z
}.

Inductive fmt_item :=
| Char (c : Z)
| Percent
| Directive (d : directive).

Definition print_number (x : number) : cstr :=
  match x with NoNumber => [] | Digits ds => ds | Star => [42] end.

Definition print_prec (x : option number) : cstr :=
  match x with None => [] | Some x => 46 :: print_number x end.

Definition print_directive (d : directive) : cstr :=
  d_flags d ++ print_number (d_width d) ++ print_prec (d_prec d) ++ d_len d ++ [d_conv d].

Definition print_item (i : fmt_item) : cstr :=
  match i with Char c => [c] | Percent => [37; 37] | Directive d => 37 :: print_directive d end.

Definition print_items (items : list fmt_item) : cstr := concat (map print_item items).

Definition stars (x : number) : Z := match x with Star => 1 | _ => 0 end.
Definition directive_stars (d : directive) : Z := stars (d_width d) + match d_prec d with None => 0 | Some x => stars x end.

(** ** Valid formats *)

Definition flag_char (c : Z) : bool := negb (c =? 0) && strchr_hit (lit "-+ #0'") c.
Definition length_modifiers : list cstr :=
  [[]; lit "h"; lit "hh"; lit "l"; lit "ll"; lit "j"; lit "z"; lit "t"; lit "L"].

(** Leading zeros of a width are flags. *)
Definition number_ok (width : bool) (x : number) : Prop :=
  match x with
  | Digits ds => Forall (fun c => isdigit c = true) ds /\ (width = true -> ds <> [] /\ chr ds <> 48)
  | _ => True
  end.

Definition directive_ok (d : directive) : Prop :=
  Forall (fun c => flag_char c = true) (d_flags d) /\ number_ok true (d_width d) /\
  match d_prec d with None => True | Some x => number_ok false x end /\
  d_len d ∈ length_modifiers /\ isalpha (d_conv d) = true /\ strchr_hit (lit "hljztL") (d_conv d) = false.

Definition item_ok (i : fmt_item) : Prop :=
  match i with
  | Char c => c <> 0 /\ c <> 37
  | Percent => True
  | Directive d => directive_ok d
  end.

#[export] Instance number_ok_dec w x : Decision (number_ok w x).
Proof. destruct x; cbn; apply _. Defined.
#[export] Instance directive_ok_dec d : Decision (directive_ok d).
Proof. unfold directive_ok. destruct (d_prec d); apply _. Defined.
#[export] Instance item_ok_dec i : Decision (item_ok i).
Proof. destruct i; cbn; apply _. Defined.

(** ** The arguments shown *)

(** The floating-point conversions. *)
Definition is_fp_conv (conv : Z) : bool := bool_decide (conv ∈ lit "aAeEfFgG").

(** How a value is shown for a conversion: `d` and `i` as a signed and `u`, `o`, `x` and
    `X` as an unsigned 64-bit decimal number, whatever the length modifier; `p` and `n`
    as an address; `s` as the string it points to; `c` as a signed 32-bit number. *)
Definition conversions : list (Z * zt_sig_type_t) :=
  [(100, ZT_SIG_TYPE_LONG); (105, ZT_SIG_TYPE_LONG);
   (117, ZT_SIG_TYPE_ULONG); (111, ZT_SIG_TYPE_ULONG); (120, ZT_SIG_TYPE_ULONG); (88, ZT_SIG_TYPE_ULONG);
   (112, ZT_SIG_TYPE_PTR); (110, ZT_SIG_TYPE_PTR); (115, ZT_SIG_TYPE_CSTR); (99, ZT_SIG_TYPE_INT)].

Definition conversion_text (m : Z -> option Z) (conv value : Z) : cstr :=
  match list_find (fun e => e.1 = conv) conversions with
  | Some (_, (_, type)) => spec_value m type value
  | None => lit "<arg>"
  end.

(** The texts of the directives in order: a floating-point conversion takes the next
    floating-point register, any other one the next integer register (behind one per
    `*`), and `m` none; an argument behind the sixth integer register is not shown. *)
Fixpoint items_text (m : Z -> option Z) (event : zt_trace_event_t) (items : list fmt_item) (gp fp : Z) : cstr :=
  match items with
  | [] => []
  | Directive d :: items =>
      let gp := gp + directive_stars d in
      if decide (d_conv d = 109) then items_text m event items gp fp
      else if is_fp_conv (d_conv d) then
        lit ", " ++ spec_value m ZT_SIG_TYPE_DOUBLE (fp_reg event fp) ++ items_text m event items gp (fp + 1)
      else if decide (gp < 6) then
        lit ", " ++ conversion_text m (d_conv d) (gp_reg event gp) ++ items_text m event items (gp + 1) fp
      else lit ", <unreadable>" ++ items_text m event items gp fp
  | _ :: items => items_text m event items gp fp
  end.

(** One directive that takes an argument, and the registers used behind it. *)
Definition arg_text (m : Z -> option Z) (event : zt_trace_event_t) (gp fp conv : Z) : cstr :=
  if is_fp_conv conv then lit ", " ++ spec_value m ZT_SIG_TYPE_DOUBLE (fp_reg event fp)
  else if decide (gp < 6) then lit ", " ++ conversion_text m conv (gp_reg event gp)
  else lit ", <unreadable>".

Definition next_gp (gp conv : Z) : Z := if is_fp_conv conv then gp else if decide (gp < 6) then gp + 1 else gp.
Definition next_fp (fp conv : Z) : Z := if is_fp_conv conv then fp + 1 else fp.

Lemma items_text_arg m event d items gp fp :
  d_conv d <> 109 ->
  items_text m event (Directive d :: items) gp fp =
  arg_text m event (gp + directive_stars d) fp (d_conv d) ++
  items_text m event items (next_gp (gp + directive_stars d) (d_conv d)) (next_fp fp (d_conv d)).
Proof.
  intros H. cbn [items_text]. rewrite decide_False by done. unfold arg_text, next_gp, next_fp.
  destruct (is_fp_conv _); [by rewrite <- app_assoc|]. case_decide; [by rewrite <- app_assoc|done].
Qed.

Lemma fp_conv_hit conv : conv <> 0 -> strchr_hit (lit "aAeEfFgG") conv = is_fp_conv conv.
Proof.
  intros H. unfold strchr_hit, is_fp_conv. destruct (Z.eqb_spec conv 0); [done|]. cbn [orb].
  case_bool_decide as Hin.
  - apply existsb_exists. exists conv. split; [by apply list_elem_of_In|apply Z.eqb_refl].
  - apply not_true_iff_false. intros (c & Hc & ->%Z.eqb_eq)%existsb_exists. by apply Hin, list_elem_of_In.
Qed.

(** The code's switch is this table. *)
Lemma conv_type_text m conv value :
  match conv_type conv with Some type => spec_value m type value | None => lit "<arg>" end =
  conversion_text m conv value.
Proof.
  unfold conv_type, conversion_text, conversions. change (lit "di") with [100; 105].
  change (lit "uoxX") with [117; 111; 120; 88]. change (lit "pn") with [112; 110]. cbn [existsb list_find fst].
  repeat (case_decide; [subst; reflexivity|]).
  repeat match goal with |- context [?a =? ?b] => destruct (Z.eqb_spec a b); [congruence|] end. reflexivity.
Qed.

(** ** Scanning a directive *)

Lemma scan_while_app f w p :
  Forall (fun c => f c = true) w -> f (chr p) = false -> p <> [] -> scan_while f (w ++ p) = Some p.
Proof.
  intros Hw Hp Hne. induction Hw as [|c w Hc _ IH]; cbn.
  - destruct p; [done|]. cbn in *. by rewrite Hp.
  - by rewrite Hc.
Qed.

Lemma skip_number_ok w x p ai :
  number_ok w x -> isdigit (chr p) = false -> chr p <> 42 -> p <> [] ->
  skip_number (print_number x ++ p) ai = Some (p, ai + stars x).
Proof.
  intros Hx Hd Hs Hne.
  assert (Hscan : forall ds, Forall (fun c => isdigit c = true) ds -> skip_number (ds ++ p) ai = Some (p, ai)).
  { intros ds Hds. unfold skip_number. rewrite (scan_while_app isdigit ds p) by done.
    assert (Hc : chr (ds ++ p) <> 42).
    { destruct Hds as [|c ds Hc _]; [done|]. cbn. by intros ->. }
    destruct (ds ++ p) as [|c q] eqn:E; [by destruct ds|]. cbn in Hc. by destruct (Z.eqb_spec c 42). }
  destruct x as [|ds|]; cbn [print_number stars]; rewrite ?Z.add_0_r.
  - apply (Hscan []). constructor.
  - apply Hscan, Hx.
  - cbn. done.
Qed.

Lemma flag_char_eq c :
  flag_char c = negb (c =? 0) && ((c =? 0) || ((c =? 45) || ((c =? 43) || ((c =? 32) || ((c =? 35) || ((c =? 48) || ((c =? 39) || false))))))).
Proof. reflexivity. Qed.

Definition letter_start (p : cstr) : Prop := isalpha (chr p) = true /\ p <> [].

Lemma letter_facts c : isalpha c = true -> isdigit c = false /\ c <> 42 /\ c <> 46 /\ c <> 37 /\ c <> 0 /\ flag_char c = false.
Proof.
  intros H. assert (Hr : 65 <= c <= 122) by (unfold isalpha in H; lia).
  split_and!; try lia; [unfold isdigit; lia|]. rewrite flag_char_eq. lia.
Qed.

(** What follows the width: a precision or a letter. *)
Lemma prec_ok x p ai :
  match x with None => True | Some x => number_ok false x end -> letter_start p ->
  let q := print_prec x ++ p in
  (isdigit (chr q) = false /\ chr q <> 42 /\ flag_char (chr q) = false /\ q <> []) /\
  match q with
  | [] => None
  | c :: q' => if c =? 46 then skip_number q' ai else Some (q, ai)
  end = Some (p, ai + match x with None => 0 | Some x => stars x end).
Proof.
  intros Hx [Hp Hne]. destruct (letter_facts _ Hp) as (Hd & Hs & Hdot & _ & _ & Hf).
  destruct x as [x|]; cbn [print_prec app].
  - split; [done|]. cbn [Z.eqb Pos.eqb]. by apply (skip_number_ok false).
  - split; [done|]. destruct p as [|c p]; [done|]. cbn in Hdot |- *. destruct (Z.eqb_spec c 46); [done|]. by rewrite Z.add_0_r.
Qed.

Lemma skip_flags_ok d p ai :
  directive_ok d -> letter_start p ->
  zt_skip_format_flags (d_flags d ++ print_number (d_width d) ++ print_prec (d_prec d) ++ p) ai =
  Some (p, ai + directive_stars d).
Proof.
  intros (Hf & Hw & Hp & _) Hl. unfold zt_skip_format_flags, directive_stars.
  destruct (prec_ok (d_prec d) p (ai + stars (d_width d)) Hp Hl) as [(Hd & Hs & Hfl & Hne) Hprec].
  set (q := print_prec (d_prec d) ++ p) in *.
  assert (Hq : flag_char (chr (print_number (d_width d) ++ q)) = false /\ print_number (d_width d) ++ q <> []).
  { destruct (d_width d) as [|ds|]; cbn [print_number]; [done| |done]. destruct Hw as [Hds Hw].
    destruct (Hw eq_refl) as [Hdne Hz]. destruct ds as [|c ds]; [done|]. split; [|done]. cbn in *.
    inversion_clear Hds as [|? ? Hc _]. unfold isdigit in Hc. rewrite flag_char_eq. lia. }
  fold flag_char. rewrite scan_while_app by (done || apply Hq).
  rewrite (skip_number_ok true) by done. rewrite Hprec, Z.add_assoc. done.
Qed.

Lemma skip_length_ok len conv p :
  len ∈ length_modifiers -> isalpha conv = true -> strchr_hit (lit "hljztL") conv = false ->
  zt_skip_format_length (len ++ conv :: p) = Some (conv :: p) /\ letter_start (len ++ conv :: p).
Proof.
  intros Hl Ha Hc.
  assert (Hlh : (conv =? 104) = false /\ (conv =? 108) = false).
  { change (lit "hljztL") with [104; 108; 106; 122; 116; 76] in Hc. unfold strchr_hit in Hc. cbn [existsb] in Hc. lia. }
  destruct Hlh as [Hh Hll].
  change length_modifiers with [[]; [104]; [104; 104]; [108]; [108; 108]; [106]; [122]; [116]; [76]] in Hl.
  repeat (apply elem_of_cons in Hl as [-> | Hl]); [..|by apply not_elem_of_nil in Hl];
    (split; [|by split]); cbn [app]; unfold zt_skip_format_length; by rewrite ?Hh, ?Hll, ?Hc.
Qed.

(** ** The walk *)

Section walk.
Context (K : kernel_t) (HK : reliable K) (n : Z) (event : zt_trace_event_t) (He : event_ok event).

Lemma variadic_arg_exact out gp fp conv s :
  user_mem (pm s) -> 0 <= gp -> conv <> 0 ->
  exists s', zt_append_variadic_arg K n out event gp fp conv s =
    (fit n (out ++ arg_text (pm s) event gp fp conv), next_gp gp conv, next_fp fp conv, s') /\ same_mem s s'.
Proof.
  intros Hm Hgp Hc. unfold zt_append_variadic_arg, arg_text, next_gp, next_fp. rewrite fp_conv_hit by done.
  destruct (is_fp_conv conv).
  - rewrite app_assoc, append_fit, fp_arg_value_reg. fit_case (out ++ lit ", "); [|exists s; by rewrite fit_none_app].
    destruct (append_value_exact K HK n (out ++ lit ", ") ZT_SIG_TYPE_DOUBLE (fp_reg event fp) s Hm)
      as (s' & -> & H); [rewrite <- fp_arg_value_reg; by apply fp_arg_value_u64|]. by exists s'.
  - unfold zt_event_arg_value_ext, ZT_TRACE_GP_ARG_COUNT. rewrite arg_value_reg. destruct (Z.ltb_spec gp 0); [lia|].
    destruct (Z.ltb_spec gp 6); [rewrite !decide_True by done|rewrite !decide_False by lia; exists s; by rewrite append_fit].
    rewrite app_assoc, append_fit. fit_case (out ++ lit ", "); [|exists s; by rewrite fit_none_app].
    rewrite <- conv_type_text. destruct (conv_type conv) as [type|]; [|exists s; by rewrite append_fit].
    destruct (append_value_exact K HK n (out ++ lit ", ") type (gp_reg event gp) s Hm)
      as (s' & -> & Hs); [rewrite <- arg_value_reg; apply arg_value_u64; by intros ? [= <-]|]. by exists s'.
Qed.

Lemma directive_start d p : directive_ok d -> chr (print_directive d ++ p) <> 37.
Proof.
  intros Hd. pose proof Hd as (Hf & Hw & Hp & Hl & Ha & Hc). unfold print_directive.
  destruct (skip_length_ok (d_len d) (d_conv d) p Hl Ha Hc) as [_ Hs].
  destruct (prec_ok (d_prec d) _ 0 Hp Hs) as [(Hdg & _ & _ & Hne) _].
  intros E. destruct (d_flags d) as [|c fs]; [|cbn in E; subst c; by inversion Hf]. cbn [app] in E.
  rewrite <- !app_assoc in E. cbn [app] in E.
  destruct (d_width d) as [|[|c ds]|]; cbn in E; [| |subst c; destruct Hw as [Hw _]; by inversion Hw|done].
  - destruct (d_prec d); [done|]. cbn in E. destruct Hs as [Hs _]. by rewrite E in Hs.
  - by destruct Hw as [_ [? _]].
Qed.

Lemma variadic_loop_exact fuel items junk gp fp out s :
  (length (print_items items) < fuel)%nat -> Forall item_ok items -> user_mem (pm s) -> 0 <= gp -> fit n out = Some out ->
  exists s', variadic_loop K fuel n event (print_items items ++ 0 :: junk) gp fp out s =
    (of_option (fit n (out ++ items_text (pm s) event items gp fp)), s') /\ same_mem s s'.
Proof.
  revert items gp fp out s. induction fuel as [|fuel IH]; intros items gp fp out s Hf Hok Hm Hgp Ho; [lia|].
  destruct Hok as [|i items Hi Hok]; [exists s; cbn; by rewrite app_nil_r, Ho|].
  unfold print_items in *. cbn [map concat] in *. rewrite length_app in Hf. rewrite <- app_assoc.
  destruct i as [c| |d]; cbn [print_item app variadic_loop length] in *.
  - destruct Hi as [H0 H37]. destruct (Z.eqb_spec c 0); [done|]. destruct (Z.eqb_spec c 37); [done|]. cbn [negb items_text].
    apply IH; [lia|done..].
  - cbn. apply IH; [lia|done..].
  - pose proof (directive_start d (concat (map print_item items) ++ 0 :: junk) Hi) as H37.
    cbn [Z.eqb Pos.eqb negb]. destruct (Z.eqb_spec (chr (print_directive d ++ concat (map print_item items) ++ 0 :: junk)) 37); [done|].
    unfold print_directive in Hf |- *. rewrite <- !app_assoc. cbn [app].
    pose proof Hi as (_ & _ & _ & Hl & Ha & Hc).
    destruct (skip_length_ok (d_len d) (d_conv d) (concat (map print_item items) ++ 0 :: junk) Hl Ha Hc) as [Hlen Hs].
    rewrite skip_flags_ok by done. rewrite Hlen. destruct (letter_facts _ Ha) as (_ & _ & _ & _ & H0 & _).
    destruct (Z.eqb_spec (d_conv d) 0); [done|]. rewrite !length_app in Hf. cbn [length] in Hf.
    assert (Hst : 0 <= gp + directive_stars d).
    { unfold directive_stars, stars. destruct (d_width d), (d_prec d) as [[| |]|]; lia. }
    destruct (Z.eqb_spec (d_conv d) 109) as [Hmc|Hmc].
    { cbn [items_text]. rewrite decide_True by done. apply IH; [lia|done..]. }
    rewrite items_text_arg by done.
    destruct (variadic_arg_exact out (gp + directive_stars d) fp (d_conv d) s Hm Hst) as (s1 & -> & H1); [done|].
    rewrite app_assoc. fit_case (out ++ arg_text (pm s) event (gp + directive_stars d) fp (d_conv d)).
    2: { exists s1. by rewrite fit_none_app. }
    rewrite <- H1. edestruct (IH items) as (s2 & -> & H2); [lia|done|by rewrite H1| |by rewrite H1|eauto with zt].
    + unfold next_gp. destruct (is_fp_conv _); [lia|]. case_decide; lia.
    + exists s2. split; [by rewrite H1|]. unfold same_mem in *. congruence.
Qed.
End walk.

(** ** The text of an event *)

(** The position of the last parameter that is a format. *)
Definition is_fmt (p : zt_sig_param_t) : bool := bool_decide (sp_type p = ZT_SIG_TYPE_CSTR /\ sp_name p = lit "fmt").

Fixpoint fmt_position (ps : list zt_sig_param_t) : option nat :=
  match ps with
  | [] => None
  | p :: ps =>
      match fmt_position ps with
      | Some i => Some (S i)
      | None => if is_fmt p then Some 0%nat else None
      end
  end.

(** How many of the fixed parameters are passed in floating-point registers, and how
    many in integer registers. *)
Definition fp_params (ps : list zt_sig_param_t) : Z := Z.of_nat (length (List.filter (fun p => fp_type (sp_type p)) ps)).
Definition gp_params (ps : list zt_sig_param_t) : Z := Z.of_nat (length ps) - fp_params ps.

(** The format is read at the address in the integer register of its position. *)
Definition format_addr (sig : zt_func_sig_t) (event : zt_trace_event_t) : option Z :=
  match fmt_position (sg_params sig) with
  | Some i => if decide (i < 6)%nat then Some (gp_reg event (Z.of_nat i)) else None
  | None => None
  end.

Definition variadic_part (m : Z -> option Z) (sig : zt_func_sig_t) (event : zt_trace_event_t) (items : list fmt_item) : cstr :=
  match format_addr sig event with
  | None => lit ", ..."
  | Some fmt_addr =>
      match remote_cstr m fmt_addr 192 with
      | None => lit ", ..."
      | Some _ => items_text m event items (gp_params (sg_params sig)) (fp_params (sg_params sig))
      end
  end.

Definition entry_text (m : Z -> option Z) (symbol : cstr) (sig : zt_func_sig_t) (event : zt_trace_event_t)
    (items : list fmt_item) : cstr :=
  (((symbol ++ lit "(") ++ params_text m sig event (sg_params sig) 0 0 0) ++
   (if sg_variadic sig then variadic_part m sig event items else [])) ++ lit ")" ++ [10].

Definition return_text (m : Z -> option Z) (symbol : cstr) (sig : zt_func_sig_t) (entry : option zt_trace_event_t)
    (event : zt_trace_event_t) : cstr :=
  let type := sp_type (sg_ret sig) in
  let value := if fp_type type then fp_reg event 0 else gp_reg event 0 in
  (((symbol ++ lit " -> ") ++ spec_value m type value) ++ return_part m sig entry event (sg_params sig) 0) ++ [10].

(** The format of a variadic call, if it can be read, consists of complete directives. *)
Definition format_ok (m : Z -> option Z) (sig : zt_func_sig_t) (event : zt_trace_event_t) (items : list fmt_item) : Prop :=
  forall a fmt, format_addr sig event = Some a ->
    remote_cstr m a 192 = Some fmt -> fmt = print_items items /\ Forall item_ok items.

Lemma fmt_position_snoc ps p :
  fmt_position (ps ++ [p]) = if is_fmt p then Some (length ps) else fmt_position ps.
Proof.
  induction ps as [|q ps IH]; cbn [app fmt_position length]; [by destruct (is_fmt p)|].
  rewrite IH. by destruct (is_fmt p).
Qed.

(** The code's search from the end finds this position. *)
Lemma find_format_position sig :
  sg_variadic sig = true ->
  zt_find_format_param_index sig = match fmt_position (sg_params sig) with Some i => Z.of_nat i | None => -1 end.
Proof.
  intros Hv. unfold zt_find_format_param_index. rewrite Hv. cbn [negb]. set (f := fun i => _).
  assert (Hf : forall i p, sg_params sig !! i = Some p -> f (Z.of_nat i) = is_fmt p).
  { intros i p Hp. unfold f, is_fmt, streq. rewrite Nat2Z.id, Hp. by rewrite <- bool_decide_and. }
  assert (Hn : forall n, (n <= length (sg_params sig))%nat ->
    default (-1) (List.find f (reverse (seqZ 0 (Z.of_nat n)))) =
    match fmt_position (take n (sg_params sig)) with Some i => Z.of_nat i | None => -1 end).
  { induction n as [|n IH]; intros Hle; [done|].
    destruct (lookup_lt_is_Some_2 (sg_params sig) n ltac:(lia)) as [p Hp].
    rewrite (take_S_r _ _ _ Hp), fmt_position_snoc, length_take, Nat.min_l by lia.
    replace (seqZ 0 (Z.of_nat (S n))) with (seqZ 0 (Z.of_nat n) ++ [Z.of_nat n]).
    2:{ rewrite Nat2Z.inj_succ. rewrite <- (Z.add_1_r (Z.of_nat n)), seqZ_app by lia. by rewrite Z.add_0_l. }
    rewrite reverse_app. cbn [reverse rev_append app List.find]. rewrite (Hf n p Hp).
    destruct (is_fmt p); [done|]. apply IH. lia. }
  rewrite <- (firstn_all (sg_params sig)) at 2. apply Hn. done.
Qed.

Lemma fp_params_cons p ps : fp_params (p :: ps) = (if fp_type (sp_type p) then 1 else 0) + fp_params ps.
Proof. unfold fp_params. cbn [List.filter]. destruct (fp_type (sp_type p)); cbn [length]; lia. Qed.

Lemma count_fixed_params sig :
  zt_count_fixed_param_regs sig = (gp_params (sg_params sig), fp_params (sg_params sig)).
Proof.
  unfold zt_count_fixed_param_regs.
  assert (H : forall ps gp fp, foldl (fun '(gp, fp) p =>
      if zt_sig_type_is_fp (sp_type p) then (gp, fp + 1) else (gp + 1, fp)) (gp, fp) ps =
      (gp + gp_params ps, fp + fp_params ps)).
  { induction ps as [|p ps IH]; intros gp fp; [cbn; f_equal; unfold gp_params, fp_params; cbn; lia|].
    cbn [foldl]. rewrite is_fp_type. unfold gp_params in *. rewrite fp_params_cons. cbn [length].
    destruct (fp_type (sp_type p)); rewrite IH; f_equal; lia. }
  rewrite H. by rewrite !Z.add_0_l.
Qed.

Lemma gp_params_nonneg ps : 0 <= gp_params ps.
Proof.
  unfold gp_params, fp_params. pose proof (List.filter_length_le (fun p => fp_type (sp_type p)) ps). lia.
Qed.

Section texts.
Context (K : kernel_t) (HK : reliable K) (n : Z).

Lemma variadic_args_exact stack out sig event items s :
  sg_variadic sig = true -> user_mem (pm s) -> event_ok event -> format_ok (pm s) sig event items -> fit n out = Some out ->
  exists s', zt_append_variadic_args K stack n out sig event s =
    (of_option (fit n (out ++ variadic_part (pm s) sig event items)), s') /\ same_mem s s'.
Proof.
  intros Hv Hm He Hfmt Ho. unfold zt_append_variadic_args, variadic_part, format_ok, format_addr in *.
  rewrite find_format_position by done. destruct (fmt_position (sg_params sig)) as [i|];
    [|exists s; cbn; by rewrite append_fit].
  destruct (Z.ltb_spec (Z.of_nat i) 0) as [?|_]; [lia|]. unfold zt_event_arg_value_ext, ZT_TRACE_GP_ARG_COUNT.
  destruct (Z.ltb_spec (Z.of_nat i) 0) as [?|_]; [lia|]. rewrite arg_value_reg.
  destruct (Z.ltb_spec (Z.of_nat i) 6) as [Hlt|Hge]; [rewrite decide_True in * by lia|
    rewrite decide_False by lia; exists s; by rewrite append_fit].
  set (a := gp_reg event (Z.of_nat i)) in *.
  assert (Ha : is_u64 a) by (subst a; rewrite <- arg_value_reg; apply arg_value_u64; by intros ? [= <-]).
  destruct (cstr_exact K HK a sizeof_fmt s Hm Ha ltac:(unfold sizeof_fmt; lia)) as (s1 & -> & H1).
  change 192%nat with sizeof_fmt in *.
  destruct (remote_cstr (pm s) a sizeof_fmt) as [fmt|] eqn:Ec; [|exists s1; by rewrite append_fit].
  destruct (Hfmt a fmt eq_refl Ec) as [-> Hok]. apply length_remote_cstr in Ec.
  rewrite count_fixed_params. unfold fmt_array. rewrite <- H1.
  destruct (variadic_loop_exact K HK n event He sizeof_fmt items (drop (S (length (print_items items))) stack)
    (gp_params (sg_params sig)) (fp_params (sg_params sig)) out s1)
    as (s2 & -> & H2); [unfold sizeof_fmt in *; lia|done|by rewrite H1|apply gp_params_nonneg|done|].
  exists s2. split; [done|]. unfold same_mem in *. congruence.
Qed.

Lemma head_fit t : (n <=? Z.of_nat (length t)) = false -> fit n t = Some t.
Proof. intros H. unfold fit. zbool. by destruct (Z.ltb_spec (Z.of_nat (length t)) n); [|lia]. Qed.

Lemma head_unfit t : (n <=? Z.of_nat (length t)) = true -> fit n t = None.
Proof. intros H. unfold fit. zbool. by destruct (Z.ltb_spec (Z.of_nat (length t)) n); [lia|]. Qed.

(** Once a prefix does not fit the text does not. *)
Ltac fit_refuse :=
  match goal with
  | |- context [of_option (fit ?n ?t)] =>
      replace (fit n t) with (@None cstr) by (symmetry; repeat first [assumption | apply fit_none_app]); done
  end.

Lemma format_entry_exact stack symbol sig event items s :
  user_mem (pm s) -> event_ok event -> format_ok (pm s) sig event items ->
  fst (format_entry K stack n symbol sig event s) = of_option (fit n (entry_text (pm s) symbol sig event items)).
Proof.
  intros Hm He Hfmt. unfold format_entry, entry_text. set (head := symbol ++ lit "(").
  destruct (n <=? Z.of_nat (length head)) eqn:Hh; [apply head_unfit in Hh; fit_refuse|].
  apply head_fit in Hh.
  destruct (entry_params_exact K HK n sig event (sg_params sig) 0 0 0 head s Hm He ltac:(done) Hh) as (s1 & -> & H1).
  set (ps := head ++ params_text (pm s) sig event (sg_params sig) 0 0 0). fit_case ps; [|fit_refuse].
  destruct (sg_variadic sig) eqn:Hv; [|by rewrite app_nil_r; cbn; rewrite append_fit].
  destruct (variadic_args_exact stack ps sig event items s1) as (s2 & -> & H2); [done|by rewrite H1|done|by rewrite H1|done|].
  rewrite H1. set (vs := ps ++ variadic_part (pm s) sig event items).
  fit_case vs; cbn; [by rewrite append_fit|by rewrite fit_none_app].
Qed.

Lemma format_return_exact symbol sig entry event s :
  user_mem (pm s) -> (forall x, entry = Some x -> event_ok x) -> event_ok event ->
  fst (format_return K n symbol sig entry event s) = of_option (fit n (return_text (pm s) symbol sig entry event)).
Proof.
  intros Hm Hn He. unfold format_return, return_text. set (head := symbol ++ lit " -> ").
  destruct (n <=? Z.of_nat (length head)) eqn:Hh; [apply head_unfit in Hh; fit_refuse|].
  rewrite is_fp_type. change (arr_get (ev_fp_args event) 0) with (fp_reg event 0).
  change (arr_get (ev_args event) 0) with (gp_reg event 0). set (v := if _ : bool then _ else _).
  assert (Hv : is_u64 v) by (subst v; destruct (fp_type _); [apply (arr_get_u64 _ 0 (proj2 He))|apply (arr_get_u64 _ 0 (proj1 He))]).
  destruct (append_value_exact K HK n head (sp_type (sg_ret sig)) v s Hm Hv) as (s1 & -> & H1).
  set (t1 := head ++ spec_value (pm s) (sp_type (sg_ret sig)) v). fit_case t1; [|fit_refuse].
  destruct (return_buffer_exact K HK n sig entry event (sg_params sig) 0 t1 s1) as (s2 & -> & H2); [by rewrite H1|done..|].
  rewrite H1. set (t2 := t1 ++ return_part (pm s) sig entry event (sg_params sig) 0).
  fit_case t2; cbn; [by rewrite append_fit|by rewrite fit_none_app].
Qed.
End texts.

(** C36: on a kernel that reads mapped memory, formatting an event of a function with a
    signature yields exactly the reference text when the text and its NUL fit into the
    output, and -1 otherwise; no intermediate array overflows and nothing is read past
    an array.  The reference text of an entry shows each parameter from the next
    register of its class by its type, the first bytes of a const buffer (the length
    from the numbers behind it), and the arguments of a variadic call by its format,
    when that consists of complete directives; that of a return shows the value by the
    return type and the buffer the call filled.  It follows the program
    in what the lemmas below report as wrong: `%d` shows all 64 bits, and the buffer, the
    lengths and the format are taken from the integer register of the parameter's
    position even behind a floating-point parameter. *)
Theorem zt_format_trace_event_with_sig_text K conf stack symbol sig entry event items n s :
  reliable K -> user_mem (pm s) -> event_ok event -> (forall x, entry = Some x -> event_ok x) -> 0 <= n ->
  zt_sigconf_find conf symbol = Some sig -> format_ok (pm s) sig event items ->
  fst (zt_format_trace_event_with_sig K conf stack symbol entry event n s) =
  of_option
    (if ev_event_type event =? ZT_TRACE_EVENT_ENTRY then fit n (entry_text (pm s) symbol sig event items)
     else if ev_event_type event =? ZT_TRACE_EVENT_RETURN then fit n (return_text (pm s) symbol sig entry event)
     else None).
Proof.
  intros HK Hm He Hn Hz Hfind Hfmt. unfold zt_format_trace_event_with_sig. rewrite Hfind.
  destruct (Z.eqb_spec n 0) as [->|].
  { assert (H0 : forall t, fit 0 t = None) by (intros t; unfold fit; destruct (Z.ltb_spec (Z.of_nat (length t)) 0); [lia|done]).
    rewrite !H0. by repeat destruct (ev_event_type event =? _). }
  destruct (_ =? ZT_TRACE_EVENT_ENTRY); [by apply format_entry_exact|].
  destruct (_ =? ZT_TRACE_EVENT_RETURN); [by apply format_return_exact|done].
Qed.

(** Printf("%d\n", 7) with the format at address 0x5000. *)
Definition fmt_mem (x : Z) : option Z :=
  if (0x5000 <=? x) && (x <? 0x6000) then Some (nth (Z.to_nat (x - 0x5000)) (lit "n=%-3ld" ++ [10]) 0) else None.

Definition printf_sig : zt_func_sig_t :=
  mk_sig (lit "printf") (mk_param (lit "int") [] ZT_SIG_TYPE_INT)
    [mk_param (lit "const char *") (lit "fmt") ZT_SIG_TYPE_CSTR] true.

Definition printf_entry (arg : Z) : zt_trace_event_t :=
  mk_event 1 1 ZT_TRACE_EVENT_ENTRY 1 0 0 0 [0x5000; arg; 0; 0; 0; 0] (replicate 8 0).

Definition printf_items : list fmt_item :=
  [Char 110; Char 61; Directive (mk_directive (lit "-") (Digits (lit "3")) None (lit "l") 100); Char 46].

Definition sure_kernel : kernel_t := mk_kernel (fun _ _ n => n) (fun _ _ _ => -1) (fun _ _ => false) (fun _ _ => false).

Lemma zt_format_trace_event_with_sig_text_witness :
  fst (zt_format_trace_event_with_sig sure_kernel (mk_sigconf [printf_sig] true) (replicate 192 0) (lit "printf")
         None (printf_entry 7) 64 (mk_proc fmt_mem 0)) =
  Done (lit "printf(" ++ 34 :: lit "n=%-3ld." ++ [34] ++ lit ", 7)" ++ [10]).
Proof.
  rewrite (zt_format_trace_event_with_sig_text sure_kernel (mk_sigconf [printf_sig] true) (replicate 192 0)
             (lit "printf") printf_sig None (printf_entry 7) printf_items 64 (mk_proc fmt_mem 0)).
  - by vm_compute.
  - intros k a size. cbn. lia.
  - intros x b. cbn [pm]. unfold fmt_mem. destruct (_ && _) eqn:E; [|done]. intros Hx%(inj Some). subst b. zbool. split; [lia|].
    assert (Hall : Forall is_byte (lit "n=%-3ld" ++ [10])) by (apply (bool_decide_unpack _); by vm_compute).
    destruct (nth_in_or_default (Z.to_nat (x - 0x5000)) (lit "n=%-3ld" ++ [10]) 0) as [Hin| ->]; [|done].
    apply list_elem_of_In in Hin. by eapply Forall_forall in Hall.
  - split; apply (bool_decide_unpack _); by vm_compute.
  - done.
  - lia.
  - by vm_compute.
  - intros a fmt Ha. vm_compute in Ha. simplify_eq. intros Hf. vm_compute in Hf. simplify_eq.
    split; [by vm_compute|]. apply (bool_decide_unpack _). by vm_compute.
Defined.

(** ** What the formatter gets wrong *)

(** A format that ends inside a directive: strchr finds the NUL among the length
    modifiers and the walk goes on behind it, over what the stack held. *)
Lemma dangling_percent_reads_stack :
  let run junk := fst (variadic_loop sure_kernel sizeof_fmt 64 (printf_entry 7) (fmt_array (replicate 192 junk) (lit "%")) 1 0
                         (lit "printf(") (mk_proc fmt_mem 0)) in
  run 0 = Done (lit "printf(") /\ run 120 = Overrun.
Proof. by vm_compute. Qed.

(** "%d" is shown as 64 bits wide, so a negative int in a zero-extended register is
    shown as a positive number, unlike a declared int parameter. *)
Lemma variadic_int_not_sign_extended s :
  fst (fst (fst (zt_append_variadic_arg sure_kernel 64 [] (printf_entry (u32 (-1))) 1 0 100 s))) =
    Some (lit ", 4294967295") /\
  fst (zt_append_value sure_kernel 64 [] ZT_SIG_TYPE_INT (u32 (-1)) s) = Some (lit "-1").
Proof. by vm_compute. Qed.

(** The buffer of a return event and the lengths next to it are taken from the integer
    register of the parameter's position, even behind a floating-point parameter. *)
Lemma buffer_register_ignores_fp :
  let params := [mk_param (lit "double") (lit "x") ZT_SIG_TYPE_DOUBLE; mk_param (lit "buffer") (lit "b") ZT_SIG_TYPE_BUF] in
  let sig := mk_sig (lit "f") (mk_param (lit "int") [] ZT_SIG_TYPE_INT) params false in
  let entry := mk_event 1 1 ZT_TRACE_EVENT_ENTRY 1 0 0 0 [0x5000; 0; 0; 0; 0; 0] (replicate 8 0) in
  let ret := mk_event 2 1 ZT_TRACE_EVENT_RETURN 1 0 0 0 [2; 0; 0; 0; 0; 0] (replicate 8 0) in
  return_part fmt_mem sig (Some entry) ret params 0 = lit " NULL" /\
  return_part fmt_mem sig (Some entry) ret (drop 1 params) 0 = 32 :: 34 :: lit "n=" ++ [34].
Proof. by vm_compute. Qed.
