(* ===== verification/Symbols.v ===== *)
(** * Images, symbols and attachment (src/zt_injector.c)

    The injector reads ELF files and the target's /proc files: the header check, the
    load address from /proc/<pid>/maps, the symbol tables, the resolution of a
    symbol, the exit and mapping queries, and attaching to a process.  Files are
    lists of bytes; reads of a buffer outside it are [Undefined]. *)

From S2P Require Import Prelude CLib Types RemoteMem Arch Threads SigConf SigFormat.

(** ** Files *)

Definition ENOENT : Z := 2.
Definition ESRCH : Z := 3.
Definition EINVAL : Z := 22.
Definition PATH_MAX : Z := 4096.

(** Opening and reading a file gives its contents or an errno; likewise readlink.  [fs_kill]
    is the errno of kill(pid, 0), 0 for success.  [fs_malloc]: whether an allocation
    succeeds. *)
Record files_t := mk_files {
  fs_open : cstr -> list Z + Z;
  fs_readlink : cstr -> cstr + Z;
  fs_kill : Z -> Z;
  fs_malloc : Z -> bool
}.

(** The outcome of reading untrusted tables. *)
Inductive outcome (A : Type) :=
| Undefined
| Failed
| Ok (a : A).
Arguments Undefined {A}.
Arguments Failed {A}.
Arguments Ok {A} a.

(** A field of [n] bytes in a buffer, if it is inside. *)
Definition field (buf : list Z) (off n : Z) : option Z :=
  if (0 <=? off) && (off + n <=? Z.of_nat (length buf))
  then Some (le_word (take (Z.to_nat n) (drop (Z.to_nat off) buf))) else None.

(** pread of [n] bytes at [off] into a buffer of its own: the bytes, if it returns [n].  One
    call transfers at most 0x7ffff000 bytes. *)
Definition pread (f : list Z) (n off : Z) : option (list Z) :=
  if i64 off <? 0 then None
  else if n =? 0 then Some []
  else if (0x7ffff000 <? n) || (Z.of_nat (length f) <? off + n) then None
  else Some (take (Z.to_nat n) (drop (Z.to_nat off) f)).

(** ** The ELF header *)

Definition sizeof_Elf64_Ehdr : Z := 64.
Definition sizeof_Elf64_Shdr : Z := 64.
Definition sizeof_Elf64_Sym : Z := 24.

(** The members the injector uses. *)
Record Elf64_Ehdr := mk_ehdr { e_type : Z; e_shoff : Z; e_shentsize : Z; e_shnum : Z }.

Definition ET_EXEC : Z := 2.
Definition ET_DYN : Z := 3.

Definition get (buf : list Z) (off n : Z) : Z := default 0 (field buf off n).

(** 0 and the header, or the negative code. *)
Definition zt_read_elf_header (fs : files_t) (exe_path : cstr) : Elf64_Ehdr + Z :=
  match fs_open fs exe_path with
  | inr errno => inr (- errno)
  | inl f =>
      let header := take (Z.to_nat sizeof_Elf64_Ehdr) f in
      if negb (Z.of_nat (length header) =? sizeof_Elf64_Ehdr) then inr (- EINVAL)
      else if negb (bool_decide (take 4 header = [127; 69; 76; 70])) then inr (- EINVAL)
      else if negb (get header 4 1 =? 2) || negb (get header 5 1 =? 1) || negb (get header 6 1 =? 1) then inr (- EINVAL)
      else inl (mk_ehdr (get header 16 2) (get header 40 8) (get header 58 2) (get header 60 2))
  end.

Definition zt_check_is_pie (fs : files_t) (exe_path : cstr) : bool + Z :=
  match zt_read_elf_header fs exe_path with
  | inr rc => inr rc
  | inl header =>
      if e_type header =? ET_DYN then inl true
      else if e_type header =? ET_EXEC then inl false
      else inr (- EINVAL)
  end.

(** ** Scanning lines of /proc/<pid>/maps *)

Definition ishex (c : Z) : bool := bool_decide (is_Some (digit_in 16 c)).

(** A literal character, "%*[0-9a-fA-F]", "%s" with an optional width, and "%lx". *)
Definition scan_char (c : Z) (p : cstr) : option cstr :=
  match p with d :: p => if d =? c then Some p else None | [] => None end.

Definition scan_set (f : Z -> bool) (p : cstr) : option cstr :=
  if f (chr p) then Some (skip_while f p) else None.

Fixpoint span_word (width : nat) (p : cstr) : cstr * cstr :=
  match width, p with
  | S width, c :: p' => if isspace c then ([], p) else let '(w, r) := span_word width p' in (c :: w, r)
  | _, _ => ([], p)
  end.

Definition scan_word (width : nat) (p : cstr) : option (cstr * cstr) :=
  match span_word width (skip_while isspace p) with
  | ([], _) => None
  | r => Some r
  end.

Definition scan_hex (p : cstr) : option (Z * cstr) :=
  let p := skip_while isspace p in
  let '(neg, p) := match p with 45 :: q => (true, q) | 43 :: q => (false, q) | _ => (false, p) end in
  let p := match p with
           | 48 :: x :: q => if (x =? 120) || (x =? 88) then q else p
           | _ => p
           end in
  if ishex (chr p) then
    let '(v, rest) := strto_digits 16 0 p in
    Some (if ULLONG_MAX <? v then ULLONG_MAX else if neg : bool then u64 (- v) else v, rest)
  else None.

(** "%lx-%*[0-9a-fA-F] %*7s %lx %*s %*s %s" with three conversions: start, offset, path. *)
Definition scan_image_line (p : cstr) : option (Z * Z * cstr) :=
  '(start, p) ← scan_hex p;
  p ← scan_char 45 p;
  p ← scan_set ishex p;
  '(_, p) ← scan_word 7 p;
  '(offset, p) ← scan_hex p;
  '(_, p) ← scan_word (length p) p;
  '(_, p) ← scan_word (length p) p;
  '(path, _) ← scan_word (length p) p;
  Some (start, offset, path).

(** "%llx-%llx" with two conversions. *)
Definition scan_range (p : cstr) : option (Z * Z) :=
  '(start, p) ← scan_hex p;
  p ← scan_char 45 p;
  '(end_, _) ← scan_hex p;
  Some (start, end_).

(** "%*[0-9a-fA-F]-%*[0-9a-fA-F] %*7s %*[0-9a-fA-F] %*s %*s %s" with its conversion. *)
Definition scan_path (p : cstr) : option cstr :=
  p ← scan_set ishex p;
  p ← scan_char 45 p;
  p ← scan_set ishex p;
  '(_, p) ← scan_word 7 p;
  p ← scan_set ishex (skip_while isspace p);
  '(_, p) ← scan_word (length p) p;
  '(_, p) ← scan_word (length p) p;
  '(path, _) ← scan_word (length p) p;
  Some path.

Definition maps_path (pid : Z) : cstr := lit "/proc/" ++ sdec_str pid ++ lit "/maps".
Definition sizeof_maps_line : nat := Z.to_nat (PATH_MAX + 128).

(** The first line that gives a result.  Every fgets consumes a byte: the file's length is
    enough fuel. *)
Fixpoint lines_loop {A} (try : cstr -> option A) (fuel : nat) (f : list Z) : option A :=
  match fuel with
  | O => None
  | S fuel =>
      match fgets sizeof_maps_line f with
      | None => None
      | Some (line, f) => match try (until_nul line) with Some a => Some a | None => lines_loop try fuel f end
      end
  end.

Definition zt_read_image_base (fs : files_t) (pid : Z) (image_path : cstr) : Z + Z :=
  match fs_open fs (maps_path pid) with
  | inr errno => inr (- errno)
  | inl f =>
      match lines_loop (fun line =>
              match scan_image_line line with
              | Some (start, offset, path) => if (offset =? 0) && bool_decide (path = image_path) then Some start else None
              | None => None
              end) (S (length f)) f with
      | Some base => inl base
      | None => inr (- ENOENT)
      end
  end.

(** ** Questions about the target *)

Definition stat_path (pid : Z) : cstr := lit "/proc/" ++ sdec_str pid ++ lit "/stat".
Definition sizeof_stat_buf : nat := 512.

Definition zt_process_is_exited (fs : files_t) (pid : Z) : bool :=
  if pid <=? 0 then true
  else if negb (fs_kill fs pid =? 0) then fs_kill fs pid =? ESRCH
  else
    match fs_open fs (stat_path pid) with
    | inr errno => (errno =? ENOENT) || (errno =? ESRCH)
    | inl f =>
        match fgets sizeof_stat_buf f with
        | None => false
        | Some (line, _) =>
            let buf := until_nul line in
            match strrchr buf 41 with
            | None => false
            | Some i =>
                match drop (S i) buf with
                | 32 :: state :: _ => (state =? 90) || (state =? 88) || (state =? 120)
                | _ => false
                end
            end
        end
    end.

Definition zt_remote_addr_is_mapped (fs : files_t) (pid addr : Z) : bool :=
  if (pid <=? 0) || (addr =? 0) then false
  else
    match fs_open fs (maps_path pid) with
    | inr _ => false
    | inl f =>
        bool_decide (is_Some (lines_loop (fun line =>
          match scan_range line with
          | Some (start, end_) => if (start <=? addr) && (addr <? end_) then Some tt else None
          | None => None
          end) (S (length f)) f))
    end.

(** ** Symbol tables *)

Definition SHT_SYMTAB : Z := 2.
Definition SHT_DYNSYM : Z := 11.
Definition STT_NOTYPE : Z := 0.
Definition STT_FUNC : Z := 2.
Definition STT_GNU_IFUNC : Z := 10.
Definition SHN_UNDEF : Z := 0.

(** strcmp(strings + off, s) == 0, [None] if it runs off the buffer. *)
Fixpoint strcmp_eq (buf : list Z) (s : cstr) : option bool :=
  match buf, s with
  | [], _ => None
  | b :: _, [] => Some (b =? 0)
  | b :: buf, c :: s => if b =? c then strcmp_eq buf s else Some false
  end.

(** One entry of the symbol buffer: [None] for a read outside, [Some None] for the next
    entry, or the value of the symbol. *)
Definition try_symbol (symbols strings : list Z) (symbol_name : cstr) (j : Z) : option (option Z) :=
  let at_ := sizeof_Elf64_Sym * j in
  st_name ← field symbols at_ 4;
  if st_name >=? Z.of_nat (length strings) then Some None
  else
    st_info ← field symbols (at_ + 4) 1;
    same ← strcmp_eq (drop (Z.to_nat st_name) strings) symbol_name;
    if negb same then Some None
    else
      st_shndx ← field symbols (at_ + 6) 2;
      if st_shndx =? SHN_UNDEF then Some None
      else
      st_value ← field symbols (at_ + 8) 8;
      let type := Z.land st_info 15 in
      if st_value =? 0 then Some None
      else if negb (type =? STT_FUNC) && negb (type =? STT_GNU_IFUNC) && negb (type =? STT_NOTYPE) then Some None
      else Some (Some st_value).

(** [Failed]: no entry matched. *)
Fixpoint symbol_loop (symbols strings : list Z) (symbol_name : cstr) (js : list Z) : outcome Z :=
  match js with
  | [] => Failed
  | j :: js =>
      match try_symbol symbols strings symbol_name j with
      | None => Undefined
      | Some (Some v) => Ok v
      | Some None => symbol_loop symbols strings symbol_name js
      end
  end.

(** The result of one section: go on, or return. *)
Inductive section_result := NextSection | Return (r : outcome Z).

(** A read of a section header, and the rest of the iteration. *)
Definition reading (x : option Z) (k : Z -> section_result) : section_result :=
  match x with None => Return Undefined | Some v => k v end.

Definition try_section (fs : files_t) (f shdrs : list Z) (e_shnum : Z) (symbol_name : cstr) (i : Z)
    : section_result :=
  let sh k off n := field shdrs (sizeof_Elf64_Shdr * k + off) n in
  reading (sh i 4 4) (fun sh_type =>
  if negb (sh_type =? SHT_SYMTAB) && negb (sh_type =? SHT_DYNSYM) then NextSection else
  reading (sh i 40 4) (fun sh_link =>
  if sh_link >=? e_shnum then NextSection else
  reading (sh i 56 8) (fun sh_entsize =>
  if sh_entsize =? 0 then NextSection else
  reading (sh i 32 8) (fun sh_size =>
  reading (sh sh_link 32 8) (fun str_size =>
  if negb (fs_malloc fs sh_size) || negb (fs_malloc fs str_size) then Return Failed else
  reading (sh i 24 8) (fun sh_offset =>
  match pread f sh_size sh_offset with
  | None => NextSection
  | Some symbols =>
      reading (sh sh_link 24 8) (fun str_offset =>
      match pread f str_size str_offset with
      | None => NextSection
      | Some strings =>
          match symbol_loop symbols strings symbol_name (seqZ 0 (sh_size / sh_entsize)) with
          | Failed => NextSection
          | r => Return r
          end
      end)
  end)))))).

Fixpoint section_loop (fs : files_t) (f shdrs : list Z) (e_shnum : Z) (symbol_name : cstr) (idx : list Z) : outcome Z :=
  match idx with
  | [] => Failed
  | i :: idx =>
      match try_section fs f shdrs e_shnum symbol_name i with
      | Return r => r
      | NextSection => section_loop fs f shdrs e_shnum symbol_name idx
      end
  end.

(** e_shentsize * e_shnum is computed as an int. *)
Definition zt_find_symbol_addr (fs : files_t) (elf_path symbol_name : cstr) : outcome Z :=
  match zt_read_elf_header fs elf_path with
  | inr _ => Failed
  | inl ehdr =>
      match fs_open fs elf_path with
      | inr _ => Failed
      | inl f =>
          let size := e_shentsize ehdr * e_shnum ehdr in
          if 2 ^ 31 <=? size then Undefined
          else if negb (fs_malloc fs size) then Failed
          else
            match pread f size (e_shoff ehdr) with
            | None => Failed
            | Some shdrs => section_loop fs f shdrs (e_shnum ehdr) symbol_name (seqZ 0 (e_shnum ehdr))
            end
      end
  end.

Definition zt_find_remote_symbol_addr (fs : files_t) (pid : Z) (module_path symbol_name : cstr) : outcome Z :=
  match zt_find_symbol_addr fs module_path symbol_name with
  | Undefined => Undefined
  | Failed => Failed
  | Ok symbol_value =>
      match zt_check_is_pie fs module_path with
      | inr _ => Failed
      | inl false => Ok symbol_value
      | inl true =>
          match zt_read_image_base fs pid module_path with
          | inr _ => Failed
          | inl module_base => Ok (module_base +64 symbol_value)
          end
      end
  end.

(** ** Resolution *)

(** The session's exe_path, image_base and is_pie. *)
Record image_t := mk_image { im_exe_path : cstr; im_base : Z; im_is_pie : bool }.

Definition zero_image : image_t := mk_image [] 0 false.

(** The first mapped file that has the symbol. *)
Fixpoint modules_loop (fs : files_t) (pid : Z) (symbol_name : cstr) (fuel : nat) (f : list Z)
    : outcome (cstr * Z) :=
  match fuel with
  | O => Failed
  | S fuel =>
      match fgets sizeof_maps_line f with
      | None => Failed
      | Some (line, f) =>
          match scan_path (until_nul line) with
          | Some path =>
              if negb (chr path =? 47) then modules_loop fs pid symbol_name fuel f
              else
                match zt_find_remote_symbol_addr fs pid path symbol_name with
                | Undefined => Undefined
                | Failed => modules_loop fs pid symbol_name fuel f
                | Ok addr => Ok (path, addr)
                end
          | None => modules_loop fs pid symbol_name fuel f
          end
      end
  end.

Definition zt_resolve_symbol_target (fs : files_t) (pid : Z) (im : image_t) (symbol_name : cstr)
    : outcome zt_symbol_target_t :=
  let symbol := take (Z.to_nat (ZT_PROBE_SYMBOL_MAX - 1)) symbol_name in
  match zt_find_symbol_addr fs (im_exe_path im) symbol_name with
  | Undefined => Undefined
  | Ok addr => Ok (mk_target symbol (take 511 (im_exe_path im)) (if im_is_pie im then addr +64 im_base im else addr))
  | Failed =>
      match fs_open fs (maps_path pid) with
      | inr _ => Failed
      | inl f =>
          match modules_loop fs pid symbol_name (S (length f)) f with
          | Undefined => Undefined
          | Failed => Failed
          | Ok (path, addr) => Ok (mk_target symbol (take 511 path) addr)
          end
      end
  end.

(** ** Attaching *)

Definition exe_link (pid : Z) : cstr := lit "/proc/" ++ sdec_str pid ++ lit "/exe".

(** readlink's result is a size_t: an error is not seen, and stores a zero in the byte before
    exe_path, the most significant one of the pid. *)
Definition zt_injector_attach (TK : thread_kernel) (fs : files_t) (pid : Z) (k : kstate)
    : Z * zt_injector_session_t * image_t * kstate :=
  let s := mk_session pid 1 0 0 0 [] (replicate (Z.to_nat ZT_PROBES_CAPACITY) zero_probe) in
  let fail rc s k := let '(s, k) := zt_injector_detach TK s k in (rc, s, zero_image, k) in
  let '(rc, s, k) := zt_injector_refresh_threads TK s k in
  let '(rc, s, k) := if rc =? 0 then zt_injector_interrupt_all TK s k else (rc, s, k) in
  if negb (rc =? 0) then fail (-1) s k
  else
    let '(exe_path, s) :=
      match fs_readlink fs (exe_link pid) with
      | inl path => (take 511 path, s)
      | inr _ => ([], mk_session (ses_pid s mod 2 ^ 24) (ses_next_probe_id s) (ses_probe_count s)
                        (ses_threads_stopped s) (ses_target_exited s) (ses_threads s) (ses_probes s))
      end in
    if bool_decide (fs_readlink fs (exe_link pid) = inl []) then fail (-1) s k
    else
      match zt_check_is_pie fs exe_path with
      | inr _ => fail (-1) s k
      | inl is_pie =>
          match zt_read_image_base fs pid exe_path with
          | inr ret => fail ret s k
          | inl base => (0, s, mk_image exe_path base is_pie, k)
          end
      end.

Definition zt_probe_state_name (state : zt_probe_state_t) : cstr :=
  match state with
  | ZT_PROBE_EMPTY => lit "empty"
  | ZT_PROBE_RESOLVED => lit "resolved"
  | ZT_PROBE_PREPARED => lit "prepared"
  | ZT_PROBE_INSTALLED => lit "installed"
  | ZT_PROBE_DISABLED => lit "disabled"
  end.
