(* ===== verification/TraceRunner.v ===== *)
(** * The trace runner (src/zt_trace_runner.c)

    The orchestration layer: payload setup, installation with rollback, call
    actions, pause and resume, polling, removal and shutdown.  It composes the
    probe table and the patches (Probes), the thread group (Threads), the target's
    memory (RemoteMem), the trampoline pool (Pool), a trampoline builder, the ring
    reader (Reader) and the signature table (SigConf).  Its static state and the
    session it works on are one [world]; every function is a computation on it. *)

From S2P Require Import Prelude CLib Types Reader RemoteMem Arch Threads Probes Pool SigConf.

(** ** State *)

Record zt_runtime_state_t := mk_runtime {
  rt_payload_so_path : cstr;
  rt_remote_dlopen_addr : Z;
  rt_remote_payload_path_addr : Z;
  rt_remote_entry_stub_addr : Z;
  rt_remote_payload_init_addr : Z;
  rt_remote_trace_buffer_addr : Z;
  rt_remote_payload_config_addr : Z;
  rt_trampoline_pool : zt_trampoline_pool_t
}.

Definition zero_runtime : zt_runtime_state_t := mk_runtime [] 0 0 0 0 0 0 zero_pool.

Record zt_call_symbol_cache_entry_t := mk_call_symbol { cs_addr : Z; cs_symbol : cstr }.

Definition ZT_TRACE_CALL_SYMBOL_CACHE_CAP : Z := ZT_PAYLOAD_PROBE_ACTION_CAP * 2.

Inductive zt_trace_runtime_status_t :=
| ZT_TRACE_RUNTIME_INACTIVE
| ZT_TRACE_RUNTIME_STOPPED
| ZT_TRACE_RUNTIME_RUNNING.

#[export] Instance runtime_status_eq_dec : EqDecision zt_trace_runtime_status_t.
Proof. solve_decision. Defined.

(** [at_session]: the pointer to the program's one session is set.  [at_call_symbols]
    holds the first call_symbol_count entries. *)
Record zt_active_trace_t := mk_active {
  at_session : bool;
  at_runtime : zt_runtime_state_t;
  at_log_open : bool;
  at_last_seq : Z;
  at_state : zt_trace_runtime_status_t;
  at_call_symbols : list zt_call_symbol_cache_entry_t;
  at_call_action_epoch : Z
}.

Definition zero_active : zt_active_trace_t := mk_active false zero_runtime false 0 ZT_TRACE_RUNTIME_INACTIVE [] 0.

(** The session with the target, and the static variables of the tracer. *)
Record world := mk_world {
  w_inj : inj_t;
  g_active_trace : zt_active_trace_t;
  g_trace_exit_observed : Z;
  w_reader : reader_t;
  w_sigconf : sigconf_t
}.

Definition w_ses (w : world) : zt_injector_session_t := in_ses (w_inj w).
Definition w_probes (w : world) : list zt_probe_info_t := ses_probes (w_ses w).
Definition w_runtime (w : world) : zt_runtime_state_t := at_runtime (g_active_trace w).

(** ** Computations *)

(** Computations on a state. *)
Definition ret {S A} (a : A) : S -> A * S := fun w => (a, w).
Definition bind {S A B} (c : S -> A * S) (f : A -> S -> B * S) : S -> B * S := fun w => let '(a, w) := c w in f a w.

Notation "'let*' x := c 'in' k" := (bind c (fun x => k)) (at level 100, x name, c at level 99, k at level 100, right associativity).
(** Go on if the code is 0, otherwise return -1. *)
Notation "'check' c ;; k" :=
  (bind c (fun rc => if Z.eqb rc 0 then k else ret (-1))) (at level 100, c at level 99, k at level 100, right associativity).

Definition gets {S A} (f : S -> A) : S -> A * S := fun w => (f w, w).
Definition modify {S} (f : S -> S) : S -> unit * S := fun w => (tt, f w).

Definition M (A : Type) : Type := world -> A * world.

Definition with_inj {A} (c : inj_t -> A * inj_t) : M A := fun w =>
  let '(a, i) := c (w_inj w) in
  (a, mk_world i (g_active_trace w) (g_trace_exit_observed w) (w_reader w) (w_sigconf w)).

Definition with_ses {A} (c : zt_injector_session_t -> A * zt_injector_session_t) : M A :=
  with_inj (fun i => let '(a, s) := c (in_ses i) in (a, mk_inj s (in_proc i) (in_k i))).

Definition with_proc {A} (c : proc_t -> A * proc_t) : M A :=
  with_inj (fun i => let '(a, p) := c (in_proc i) in (a, mk_inj (in_ses i) p (in_k i))).

Definition with_threads {A} (c : zt_injector_session_t -> kstate -> A * zt_injector_session_t * kstate) : M A :=
  with_inj (fun i => let '(a, s, k) := c (in_ses i) (in_k i) in (a, mk_inj s (in_proc i) k)).

Definition set_active (f : zt_active_trace_t -> zt_active_trace_t) : M unit :=
  modify (fun w => mk_world (w_inj w) (f (g_active_trace w)) (g_trace_exit_observed w) (w_reader w) (w_sigconf w)).

Definition at_set_state (st : zt_trace_runtime_status_t) (a : zt_active_trace_t) : zt_active_trace_t :=
  mk_active (at_session a) (at_runtime a) (at_log_open a) (at_last_seq a) st (at_call_symbols a) (at_call_action_epoch a).
Definition at_set_runtime (r : zt_runtime_state_t) (a : zt_active_trace_t) : zt_active_trace_t :=
  mk_active (at_session a) r (at_log_open a) (at_last_seq a) (at_state a) (at_call_symbols a) (at_call_action_epoch a).
Definition at_set_symbols (cs : list zt_call_symbol_cache_entry_t) (a : zt_active_trace_t) : zt_active_trace_t :=
  mk_active (at_session a) (at_runtime a) (at_log_open a) (at_last_seq a) (at_state a) cs (at_call_action_epoch a).
Definition at_set_epoch (e : Z) (a : zt_active_trace_t) : zt_active_trace_t :=
  mk_active (at_session a) (at_runtime a) (at_log_open a) (at_last_seq a) (at_state a) (at_call_symbols a) e.
Definition at_set_last_seq (q : Z) (a : zt_active_trace_t) : zt_active_trace_t :=
  mk_active (at_session a) (at_runtime a) (at_log_open a) q (at_state a) (at_call_symbols a) (at_call_action_epoch a).
Definition at_start (a : zt_active_trace_t) : zt_active_trace_t :=
  mk_active true (at_runtime a) true (at_last_seq a) ZT_TRACE_RUNTIME_STOPPED (at_call_symbols a) (at_call_action_epoch a).

Definition rt_set_path (x : cstr) (r : zt_runtime_state_t) : zt_runtime_state_t :=
  mk_runtime x (rt_remote_dlopen_addr r) (rt_remote_payload_path_addr r) (rt_remote_entry_stub_addr r)
    (rt_remote_payload_init_addr r) (rt_remote_trace_buffer_addr r) (rt_remote_payload_config_addr r) (rt_trampoline_pool r).
Definition rt_set_dlopen (x : Z) (r : zt_runtime_state_t) : zt_runtime_state_t :=
  mk_runtime (rt_payload_so_path r) x (rt_remote_payload_path_addr r) (rt_remote_entry_stub_addr r)
    (rt_remote_payload_init_addr r) (rt_remote_trace_buffer_addr r) (rt_remote_payload_config_addr r) (rt_trampoline_pool r).
Definition rt_set_path_addr (x : Z) (r : zt_runtime_state_t) : zt_runtime_state_t :=
  mk_runtime (rt_payload_so_path r) (rt_remote_dlopen_addr r) x (rt_remote_entry_stub_addr r)
    (rt_remote_payload_init_addr r) (rt_remote_trace_buffer_addr r) (rt_remote_payload_config_addr r) (rt_trampoline_pool r).
Definition rt_set_entry_stub (x : Z) (r : zt_runtime_state_t) : zt_runtime_state_t :=
  mk_runtime (rt_payload_so_path r) (rt_remote_dlopen_addr r) (rt_remote_payload_path_addr r) x
    (rt_remote_payload_init_addr r) (rt_remote_trace_buffer_addr r) (rt_remote_payload_config_addr r) (rt_trampoline_pool r).
Definition rt_set_payload_init (x : Z) (r : zt_runtime_state_t) : zt_runtime_state_t :=
  mk_runtime (rt_payload_so_path r) (rt_remote_dlopen_addr r) (rt_remote_payload_path_addr r) (rt_remote_entry_stub_addr r)
    x (rt_remote_trace_buffer_addr r) (rt_remote_payload_config_addr r) (rt_trampoline_pool r).
Definition rt_set_trace_buffer (x : Z) (r : zt_runtime_state_t) : zt_runtime_state_t :=
  mk_runtime (rt_payload_so_path r) (rt_remote_dlopen_addr r) (rt_remote_payload_path_addr r) (rt_remote_entry_stub_addr r)
    (rt_remote_payload_init_addr r) x (rt_remote_payload_config_addr r) (rt_trampoline_pool r).
Definition rt_set_payload_config (x : Z) (r : zt_runtime_state_t) : zt_runtime_state_t :=
  mk_runtime (rt_payload_so_path r) (rt_remote_dlopen_addr r) (rt_remote_payload_path_addr r) (rt_remote_entry_stub_addr r)
    (rt_remote_payload_init_addr r) (rt_remote_trace_buffer_addr r) x (rt_trampoline_pool r).
Definition rt_set_pool (x : zt_trampoline_pool_t) (r : zt_runtime_state_t) : zt_runtime_state_t :=
  mk_runtime (rt_payload_so_path r) (rt_remote_dlopen_addr r) (rt_remote_payload_path_addr r) (rt_remote_entry_stub_addr r)
    (rt_remote_payload_init_addr r) (rt_remote_trace_buffer_addr r) (rt_remote_payload_config_addr r) x.

Definition set_runtime (f : zt_runtime_state_t -> zt_runtime_state_t) : M unit :=
  set_active (fun a => at_set_runtime (f (at_runtime a)) a).

(** Change the probe with the id, through the pointer the code holds. *)
Definition set_probe (probe_id : Z) (f : zt_probe_info_t -> zt_probe_info_t) : M unit :=
  with_inj (fun i => (tt, in_update_probe probe_id f i)).

(** The probe behind that pointer. *)
Definition get_probe (probe_id : Z) : M (option zt_probe_info_t) :=
  gets (fun w => zt_probe_find_by_id (w_probes w) probe_id).

(** ** What the runner calls *)

(** Remote system calls and calls of two arguments in the stopped target. *)
Class Remote := {
  remote_mmap : Z -> Z -> Z -> proc_t -> option Z * proc_t;
  remote_munmap : Z -> Z -> proc_t -> Z * proc_t;
  remote_call2 : Z -> Z -> Z -> proc_t -> Z * option Z * proc_t
}.

(** The trampoline builder of the target's instruction set: the buffer and how much
    of it is used. *)
Class Builder := {
  build_trampoline : zt_probe_info_t -> Z -> Z -> list Z -> option (list Z * Z)
}.

(** Files and processes: symbol resolution, the payload's path and symbols, whether a
    log file can be created, the signature file, and what /proc says about the target at
    the n-th question. *)
Record env_t := mk_env {
  e_resolve : cstr -> option zt_symbol_target_t;
  e_realpath : option cstr;
  e_payload_symbol : cstr -> cstr -> option Z;
  e_log_opens : cstr -> bool;
  e_fopen : cstr -> option (list Z);
  e_process_is_exited : nat -> bool;
  e_addr_is_mapped : nat -> Z -> bool
}.

Section runner.
Context `{A : Arch} `{Rm : Remote} `{Bd : Builder} (K : kernel_t) (TK : thread_kernel) (R : remote_t) (E : env_t).
Context (sig_formats : zt_probe_info_t -> option zt_trace_event_t -> zt_trace_event_t -> bool).

Definition write_mem (addr : Z) (bs : list Z) : M Z := with_proc (zt_write_remote_memory K addr bs).

(** ** Reset and cleanup *)

(** The log, if open, is closed. *)
Definition zt_trace_reset_active (exit_observed : Z) : M unit :=
  modify (fun w => mk_world (w_inj w) zero_active exit_observed
                     (rd_set_cache (replicate (Z.to_nat ZT_TRACE_EVENT_CAPACITY) zero_entry_slot) (w_reader w)) (w_sigconf w)).

Definition zt_trace_mark_target_exited : M unit := zt_trace_reset_active 1.

(** [get] and [set] are the field whose address the caller passes. *)
Definition zt_trace_munmap_region (get : zt_runtime_state_t -> Z) (set : Z -> zt_runtime_state_t -> zt_runtime_state_t)
    (size : Z) : M Z :=
  let* remote_addr := gets (fun w => get (w_runtime w)) in
  if remote_addr =? 0 then ret 0
  else
    let* rc := with_proc (remote_munmap remote_addr size) in
    if negb (rc =? 0) then ret (-1)
    else let* _ := set_runtime (set 0) in ret 0.

Definition sizeof_zt_payload_config_t : Z := 16.

Definition zt_trace_cleanup_runtime : M Z :=
  let* path := gets (fun w => rt_payload_so_path (w_runtime w)) in
  let* rc1 := zt_trace_munmap_region rt_remote_payload_path_addr rt_set_path_addr (Z.of_nat (length path) + 1) in
  let* rc2 := zt_trace_munmap_region rt_remote_payload_config_addr rt_set_payload_config sizeof_zt_payload_config_t in
  let* rc3 := zt_trace_munmap_region rt_remote_trace_buffer_addr rt_set_trace_buffer sizeof_zt_trace_buffer_t in
  ret (if (rc1 =? 0) && (rc2 =? 0) && (rc3 =? 0) then 0 else -1).

(** ** Exit windows *)

(** A question to /proc. *)
Definition ask (f : nat -> bool) : M bool :=
  with_inj (fun i => (f (ks_calls (in_k i)), mk_inj (in_ses i) (in_proc i) (ks_tick (in_k i)))).

Fixpoint exit_window_loop (attempts : nat) (remote_addr : Z) : M bool :=
  let* exited := ask (e_process_is_exited E) in
  if exited then ret true
  else
    let* mapped := ask (fun n => e_addr_is_mapped E n remote_addr) in
    if negb mapped then ret true
    else match attempts with O => ret false | S attempts => exit_window_loop attempts remote_addr end.

(** Fifty attempts and the question after the loop. *)
Definition zt_trace_is_exit_window (remote_addr : Z) : M bool := exit_window_loop 50 remote_addr.

Definition zt_trace_mark_exit_window_if_needed (trace_buffer_addr : Z) : M bool :=
  let* window := zt_trace_is_exit_window trace_buffer_addr in
  if window then let* _ := zt_trace_mark_target_exited in ret true else ret false.

(** ** Call actions *)

Definition zt_trace_call_action_slot_valid (slot : Z) : bool := (0 <=? slot) && (slot <? ZT_PAYLOAD_PROBE_ACTION_CAP).

Definition encode_call_action (a : zt_probe_call_action_t) : list Z :=
  concat (map (le_bytes 8) [act_enabled a; act_probe_id a; act_callee_addr a; act_arg_count a]) ++
  concat (map (fun x => le_bytes 8 (ca_kind x) ++ le_bytes 8 (ca_value x)) (act_args a)).

Definition set_enabled (e : Z) (a : zt_probe_call_action_t) : zt_probe_call_action_t :=
  mk_call_action e (act_probe_id a) (act_callee_addr a) (act_arg_count a) (act_args a).

Definition zt_trace_write_call_action (probe : zt_probe_info_t) : M Z :=
  let* buffer := gets (fun w => rt_remote_trace_buffer_addr (w_runtime w)) in
  if (buffer =? 0) || (pr_probe_id probe =? 0) || negb (zt_trace_call_action_slot_valid (pr_call_action_slot probe))
  then ret (-1)
  else
    let action_addr := buffer +64 offsetof_call_actions +64 (pr_call_action_slot probe * sizeof_zt_probe_call_action_t) in
    check (write_mem action_addr (le_bytes 8 0)) ;;
    check (write_mem action_addr (encode_call_action (set_enabled 0 (pr_call_action probe)))) ;;
    if act_enabled (pr_call_action probe) =? 0 then ret 0
    else write_mem action_addr (le_bytes 8 (act_enabled (pr_call_action probe))).

Definition zt_trace_count_call_actions (probes : list zt_probe_info_t) : Z :=
  Z.of_nat (length (filter (fun p => pr_probe_id p <> 0 /\ act_enabled (pr_call_action p) <> 0) probes)).

Definition zt_trace_next_call_action_epoch : M Z :=
  let* e := gets (fun w => at_call_action_epoch (g_active_trace w)) in
  let e := e +64 1 in
  let e := if e =? 0 then 1 else e in
  let* _ := set_active (at_set_epoch e) in
  ret e.

Definition offsetof_call_action_count : Z := 16.

Definition zt_trace_write_call_action_count : M Z :=
  let* buffer := gets (fun w => rt_remote_trace_buffer_addr (w_runtime w)) in
  if buffer =? 0 then ret (-1)
  else
    let* count := gets (fun w => zt_trace_count_call_actions (w_probes w)) in
    write_mem (buffer +64 offsetof_call_action_count) (le_bytes 8 count).

Definition zt_trace_set_call_symbol_entry (addr : Z) (symbol : cstr) : zt_call_symbol_cache_entry_t :=
  mk_call_symbol addr (take 63 symbol).

(** Replace the entry of the address, or add one while there is room. *)
Fixpoint remember_loop (addr : Z) (symbol : cstr) (room : Z) (cs : list zt_call_symbol_cache_entry_t)
    : list zt_call_symbol_cache_entry_t :=
  match cs with
  | [] => if room <=? 0 then [] else [zt_trace_set_call_symbol_entry addr symbol]
  | c :: cs =>
      if cs_addr c =? addr then zt_trace_set_call_symbol_entry addr symbol :: cs
      else c :: remember_loop addr symbol (room - 1) cs
  end.

Definition zt_trace_remember_call_symbol (addr : Z) (symbol : cstr) : M unit :=
  if (addr =? 0) || (length symbol =? 0)%nat then ret tt
  else set_active (fun a => at_set_symbols (remember_loop addr symbol ZT_TRACE_CALL_SYMBOL_CACHE_CAP (at_call_symbols a)) a).

Definition zt_trace_find_call_symbol (cs : list zt_call_symbol_cache_entry_t) (addr : Z) : option cstr :=
  if addr =? 0 then None else cs_symbol <$> List.find (fun c => cs_addr c =? addr) cs.

(** Another probe than the one with the id [owner] holds the slot. *)
Definition zt_trace_probe_uses_call_slot (probes : list zt_probe_info_t) (owner slot : Z) : bool :=
  (0 <=? slot) &&
  existsb (fun p => negb (pr_probe_id p =? owner) && negb (pr_probe_id p =? 0) &&
                    negb (act_enabled (pr_call_action p) =? 0) && (pr_call_action_slot p =? slot)) probes.

(** The return code and the probe's slot afterwards. *)
Definition zt_trace_assign_call_action_slot (probes : list zt_probe_info_t) (probe : zt_probe_info_t) : Z * Z :=
  let uses := zt_trace_probe_uses_call_slot probes (pr_probe_id probe) in
  let own := pr_call_action_slot probe in
  if pr_probe_id probe =? 0 then (-1, own)
  else if zt_trace_call_action_slot_valid own && negb (uses own) then (0, own)
  else
    let home_slot := pr_probe_id probe mod ZT_PAYLOAD_PROBE_ACTION_CAP in
    match List.find (fun slot => negb (uses slot))
            (map (fun offset => (home_slot + offset) mod ZT_PAYLOAD_PROBE_ACTION_CAP)
               (seqZ 0 ZT_PAYLOAD_PROBE_ACTION_CAP)) with
    | Some slot => (0, slot)
    | None => (-1, if zt_trace_call_action_slot_valid own then -1 else own)
    end.

(** ** Fields of a probe *)

Definition pr_set_filter (f : zt_probe_filter_t) (p : zt_probe_info_t) : zt_probe_info_t :=
  mk_probe (pr_probe_id p) (pr_target p) (pr_trampoline_addr p) (pr_trampoline_slot p) (pr_orig_code p) (pr_orig_len p)
    (pr_state p) f (pr_call_action p) (pr_call_action_slot p) (pr_call_symbol p).

Definition pr_set_action (a : zt_probe_call_action_t) (symbol : cstr) (p : zt_probe_info_t) : zt_probe_info_t :=
  mk_probe (pr_probe_id p) (pr_target p) (pr_trampoline_addr p) (pr_trampoline_slot p) (pr_orig_code p) (pr_orig_len p)
    (pr_state p) (pr_filter p) a (pr_call_action_slot p) symbol.

Definition pr_set_action_slot (slot : Z) (p : zt_probe_info_t) : zt_probe_info_t :=
  mk_probe (pr_probe_id p) (pr_target p) (pr_trampoline_addr p) (pr_trampoline_slot p) (pr_orig_code p) (pr_orig_len p)
    (pr_state p) (pr_filter p) (pr_call_action p) slot (pr_call_symbol p).

Definition flt_set_probe_id (id : Z) (f : zt_probe_filter_t) : zt_probe_filter_t :=
  mk_filter id (flt_enabled f) (flt_token_count f) (flt_expr f) (flt_tokens f).

Definition zt_trace_set_probe_filter (filter : option zt_probe_filter_t) (p : zt_probe_info_t) : zt_probe_info_t :=
  pr_set_filter (flt_set_probe_id (pr_probe_id p) (default zero_filter filter)) p.

(** ** Installation *)

Record zt_probe_install_snapshot_t := mk_snapshot {
  sn_existed : bool;
  sn_state : zt_probe_state_t;
  sn_trampoline_addr : Z;
  sn_trampoline_slot : Z;
  sn_orig_code : list Z;
  sn_orig_len : Z;
  sn_filter : zt_probe_filter_t
}.

Definition zt_trace_capture_probe_install_snapshot (probe : zt_probe_info_t) (existed : bool) : zt_probe_install_snapshot_t :=
  mk_snapshot existed (pr_state probe) (pr_trampoline_addr probe) (pr_trampoline_slot probe) (pr_orig_code probe)
    (pr_orig_len probe) (pr_filter probe).

Definition restore_snapshot (sn : zt_probe_install_snapshot_t) (p : zt_probe_info_t) : zt_probe_info_t :=
  mk_probe (pr_probe_id p) (pr_target p) (sn_trampoline_addr sn) (sn_trampoline_slot sn) (sn_orig_code sn) (sn_orig_len sn)
    (sn_state sn) (sn_filter sn) (pr_call_action p) (pr_call_action_slot p) (pr_call_symbol p).

(** The pool's operations on the world: the mapping is made or removed in the target
    when the operation asks for it. *)
Definition pool_alloc (probe_id : Z) : M (option Z) :=
  let* probe := get_probe probe_id in
  let* pool := gets (fun w => rt_trampoline_pool (w_runtime w)) in
  match probe with
  | None => ret None
  | Some probe =>
      let* addr :=
        if pool_remote_addr pool =? 0
        then with_proc (remote_mmap ZT_TRAMPOLINE_POOL_SIZE 7 0x22) else ret None in
      let '(r, pool, probe) := zt_trampoline_pool_alloc (mk_pool_env addr false) pool probe in
      let* _ := set_runtime (rt_set_pool pool) in
      let* _ := set_probe probe_id (fun _ => probe) in
      ret r
  end.

Definition pool_release (probe_id : Z) : M unit :=
  let* probe := get_probe probe_id in
  let* pool := gets (fun w => rt_trampoline_pool (w_runtime w)) in
  match probe with
  | None => ret tt
  | Some probe =>
      let '(freed, _) := zt_trampoline_pool_release (mk_pool_env None true) pool probe in
      let* unmapped :=
        if negb (pool_remote_addr pool =? 0) && (pool_remote_addr freed =? 0)
        then let* rc := with_proc (remote_munmap (pool_remote_addr pool) (pool_remote_size pool)) in ret (rc =? 0)
        else ret false in
      let '(pool, probe) := zt_trampoline_pool_release (mk_pool_env None unmapped) pool probe in
      let* _ := set_runtime (rt_set_pool pool) in
      set_probe probe_id (fun _ => probe)
  end.

Definition zt_trace_rollback_probe_install (probe_id : Z) (sn : zt_probe_install_snapshot_t) : M unit :=
  let* probe := get_probe probe_id in
  let allocated_addr := from_option pr_trampoline_addr 0 probe in
  let* _ :=
    if negb (allocated_addr =? 0) && negb (allocated_addr =? sn_trampoline_addr sn)
    then pool_release probe_id else ret tt in
  if negb (sn_existed sn) then let* _ := with_ses (fun s => zt_unregister_probe s probe_id) in ret tt
  else set_probe probe_id (restore_snapshot sn).

(** From the trampoline slot on. *)
Definition install_trampoline (probe_id : Z) : M Z :=
  let* addr := pool_alloc probe_id in
  let* probe := get_probe probe_id in
  let* entry_stub := gets (fun w => rt_remote_entry_stub_addr (w_runtime w)) in
  match addr, probe with
  | Some addr, Some probe =>
      match build_trampoline probe entry_stub addr (replicate (Z.to_nat ZT_TRAMPOLINE_MAX_SIZE) 0) with
      | None => ret (-1)
      | Some (trampoline_buf, trampoline_size) =>
          check (write_mem addr (take (Z.to_nat trampoline_size) trampoline_buf)) ;;
          with_inj (zt_install_probe_patch K TK probe_id addr)
      end
  | _, _ => ret (-1)
  end.

Definition zt_trace_install_probe (symbol : cstr) (filter : option zt_probe_filter_t) : M Z :=
  let* existing := gets (fun w => zt_probe_find_by_symbol (w_probes w) symbol) in
  let* probe := with_ses (fun s => zt_register_probe (e_resolve E) s symbol) in
  match probe with
  | None => ret (-1)
  | Some probe =>
      let probe_id := pr_probe_id probe in
      let sn := zt_trace_capture_probe_install_snapshot probe (bool_decide (is_Some existing)) in
      if bool_decide (pr_state probe = ZT_PROBE_INSTALLED) then
        let* _ := match filter with Some _ => set_probe probe_id (zt_trace_set_probe_filter filter) | None => ret tt end in
        ret 0
      else
        let* _ := set_probe probe_id (zt_trace_set_probe_filter filter) in
        let* rc := with_inj (zt_enable_probe K probe_id) in
        let* rc := if negb (rc =? 0) then ret (-1) else install_trampoline probe_id in
        if negb (rc =? 0) then let* _ := zt_trace_rollback_probe_install probe_id sn in ret (-1)
        else ret 0
  end.

(** ** Payload setup *)

Definition RTLD_NOW_GLOBAL : Z := 0x102.

(** A mapping whose address goes to a field of the runtime. *)
Definition map_region (size : Z) (set : Z -> zt_runtime_state_t -> zt_runtime_state_t) : M Z :=
  let* addr := with_proc (remote_mmap size 3 0x22) in
  match addr with
  | None => ret (-1)
  | Some addr => let* _ := set_runtime (set addr) in ret 0
  end.

(** A remote call of two arguments: 0 or -1, and the value returned. *)
Definition call2 (func arg1 arg2 : Z) : M (Z * Z) :=
  let* r := with_proc (fun p => let '(rc, v, p) := remote_call2 func arg1 arg2 p in ((rc, default 0 v), p)) in ret r.

Definition payload_symbol (name : cstr) (set : Z -> zt_runtime_state_t -> zt_runtime_state_t) : M Z :=
  let* path := gets (fun w => rt_payload_so_path (w_runtime w)) in
  match e_payload_symbol E path name with
  | None => ret (-1)
  | Some addr => let* _ := set_runtime (set addr) in ret 0
  end.

Definition encode_payload_config (buffer_addr : Z) : list Z := le_bytes 8 buffer_addr ++ le_bytes 8 sizeof_zt_trace_buffer_t.

(** Load the payload: its path is mapped, written and passed to dlopen. *)
Definition load_payload : M Z :=
  match e_realpath E with
  | None => ret (-1)
  | Some path =>
      let* _ := set_runtime (rt_set_path path) in
      match e_resolve E (lit "dlopen") with
      | None => ret (-1)
      | Some target =>
          let* _ := set_runtime (rt_set_dlopen (tgt_remote_addr target)) in
          check (map_region (Z.of_nat (length path) + 1) rt_set_path_addr) ;;
          let* path_addr := gets (fun w => rt_remote_payload_path_addr (w_runtime w)) in
          check (write_mem path_addr (path ++ [0])) ;;
          let* r := call2 (tgt_remote_addr target) path_addr RTLD_NOW_GLOBAL in
          ret (if (fst r =? 0) && negb (snd r =? 0) then 0 else -1)
      end
  end.

(** Map the ring and its configuration and initialise the payload with them. *)
Definition init_payload : M Z :=
  check (map_region sizeof_zt_trace_buffer_t rt_set_trace_buffer) ;;
  check (map_region sizeof_zt_payload_config_t rt_set_payload_config) ;;
  let* config := gets (fun w => rt_remote_payload_config_addr (w_runtime w)) in
  let* buffer := gets (fun w => rt_remote_trace_buffer_addr (w_runtime w)) in
  check (write_mem config (encode_payload_config buffer)) ;;
  let* init := gets (fun w => rt_remote_payload_init_addr (w_runtime w)) in
  let* r := call2 init config 0 in
  ret (if fst r =? 0 then 0 else -1).

Definition zt_setup_remote_payload : M Z :=
  check load_payload ;;
  check (payload_symbol (lit "entry_stub") rt_set_entry_stub) ;;
  check (payload_symbol (lit "zt_payload_init") rt_set_payload_init) ;;
  init_payload.

(** ** Running and stopping *)

Definition zt_trace_session_is_active : M bool :=
  gets (fun w => negb (bool_decide (at_state (g_active_trace w) = ZT_TRACE_RUNTIME_INACTIVE)) &&
                 at_session (g_active_trace w)).

Definition trace_state : M zt_trace_runtime_status_t := gets (fun w => at_state (g_active_trace w)).

Definition zt_trace_ensure_stopped : M Z :=
  let* active := zt_trace_session_is_active in
  if negb active then ret (-1)
  else
    let* st := trace_state in
    if bool_decide (st = ZT_TRACE_RUNTIME_STOPPED) then ret 0
    else
      check (with_threads (zt_injector_interrupt_all TK)) ;;
      let* _ := set_active (at_set_state ZT_TRACE_RUNTIME_STOPPED) in
      ret 0.

Definition zt_trace_ensure_running : M Z :=
  let* active := zt_trace_session_is_active in
  if negb active then ret (-1)
  else
    let* st := trace_state in
    if bool_decide (st = ZT_TRACE_RUNTIME_RUNNING) then ret 0
    else
      check (with_threads (zt_injector_continue_all TK)) ;;
      let* _ := set_active (at_set_state ZT_TRACE_RUNTIME_RUNNING) in
      ret 0.

Definition zt_trace_install_active_probe (symbol : cstr) (filter : option zt_probe_filter_t) : M Z :=
  check zt_trace_ensure_stopped ;;
  check (zt_trace_install_probe symbol filter) ;;
  zt_trace_ensure_running.

Definition zt_trace_pause : M Z := zt_trace_ensure_stopped.
Definition zt_trace_resume : M Z := zt_trace_ensure_running.

(** ** Polling *)

Definition buffer_addr : M Z := gets (fun w => rt_remote_trace_buffer_addr (w_runtime w)).

Definition zt_trace_check_exit_event : M Z :=
  let* st := trace_state in
  let* has_session := gets (fun w => at_session (g_active_trace w)) in
  if negb (bool_decide (st = ZT_TRACE_RUNTIME_RUNNING)) || negb has_session then ret 0
  else
    let* r := with_threads (fun s k => let '(rc, out, s, k) := zt_injector_poll_events TK s k in ((rc, out), s, k)) in
    if negb (fst r =? 0) then
      let* addr := buffer_addr in
      let* window := zt_trace_mark_exit_window_if_needed addr in
      ret (if window then 1 else -1)
    else if negb (snd r =? 0) then let* _ := zt_trace_mark_target_exited in ret 1
    else ret 0.

Definition zt_trace_handle_read_failure (trace_buffer_addr : Z) : M Z :=
  let* exit_status := zt_trace_check_exit_event in
  if exit_status <? 0 then
    let* window := zt_trace_mark_exit_window_if_needed trace_buffer_addr in ret (if window then 1 else -1)
  else if 0 <? exit_status then ret 1
  else let* window := zt_trace_mark_exit_window_if_needed trace_buffer_addr in ret (if window then 1 else -1).

(** The ring reader on the world: [None] if its fuel ran out. *)
Definition dump_events (fuel : nat) : M (option Z) := fun w =>
  let a := g_active_trace w in
  match zt_dump_trace_events_since R sig_formats (w_probes w) (rt_remote_trace_buffer_addr (at_runtime a))
          fuel (at_last_seq a) (w_reader w) with
  | (None, r) => (None, mk_world (w_inj w) a (g_trace_exit_observed w) r (w_sigconf w))
  | (Some (rc, last_seq), r) =>
      (Some rc, mk_world (w_inj w) (at_set_last_seq last_seq a) (g_trace_exit_observed w) r (w_sigconf w))
  end.

Definition zt_trace_poll (fuel : nat) : M (option Z) :=
  let* st := trace_state in
  let* observed := gets g_trace_exit_observed in
  match st with
  | ZT_TRACE_RUNTIME_INACTIVE => ret (Some (if truthy observed then 1 else -1))
  | ZT_TRACE_RUNTIME_STOPPED => ret (Some 0)
  | ZT_TRACE_RUNTIME_RUNNING =>
      let* exit_status := zt_trace_check_exit_event in
      if exit_status <? 0 then ret (Some (-1))
      else if 0 <? exit_status then ret (Some 1)
      else
        let* rc := dump_events fuel in
        match rc with
        | None => ret None
        | Some rc =>
            if negb (rc =? 0)
            then let* addr := buffer_addr in let* r := zt_trace_handle_read_failure addr in ret (Some r)
            else ret (Some 0)
        end
  end.

(** ** Updates *)

Definition zt_trace_disable_probe (probe_id : Z) : M Z :=
  let* active := zt_trace_session_is_active in
  let* probe := get_probe probe_id in
  match probe with
  | Some probe =>
      if negb active || negb (bool_decide (pr_state probe = ZT_PROBE_INSTALLED)) then ret (-1)
      else
        check zt_trace_ensure_stopped ;;
        check (with_inj (zt_uninstall_probe_patch K TK probe_id)) ;;
        zt_trace_ensure_running
  | None => ret (-1)
  end.

Definition zt_trace_update_probe_filter (probe_id : Z) (filter : option zt_probe_filter_t) : M Z :=
  let* active := zt_trace_session_is_active in
  let* probe := get_probe probe_id in
  match probe with
  | Some _ =>
      if negb active then ret (-1)
      else let* _ := set_probe probe_id (zt_trace_set_probe_filter filter) in ret 0
  | None => ret (-1)
  end.

Definition call_arg_valid (a : zt_call_action_arg_t) : bool :=
  ((ca_kind a =? ZT_CALL_ACTION_ARG_CONST) || (ca_kind a =? ZT_CALL_ACTION_ARG_ENTRY_ARG)) &&
  negb ((ca_kind a =? ZT_CALL_ACTION_ARG_ENTRY_ARG) && (ZT_TRACE_GP_ARG_COUNT <=? ca_value a)).

(** [args] are the first arg_count entries; a null pointer passes none. *)
Definition zt_trace_validate_call_action_args (args : list zt_call_action_arg_t) : Z :=
  if ZT_CALL_ACTION_ARG_CAP <? Z.of_nat (length args) then -1
  else if forallb call_arg_valid args then 0 else -1.

Definition new_call_action (epoch probe_id callee_addr : Z) (args : list zt_call_action_arg_t) : zt_probe_call_action_t :=
  mk_call_action epoch probe_id callee_addr (Z.of_nat (length args)) (args ++ replicate (6 - length args) zero_call_arg).

(** Write the probe's action as it now is in the table. *)
Definition write_probe_action (probe_id : Z) : M Z :=
  let* probe := get_probe probe_id in
  match probe with Some probe => zt_trace_write_call_action probe | None => ret (-1) end.

Definition zt_trace_update_probe_call_action_args (probe_id : Z) (callee_symbol : cstr) (args : list zt_call_action_arg_t)
    : M Z :=
  let* active := zt_trace_session_is_active in
  let* probe := get_probe probe_id in
  if negb active || negb (zt_trace_validate_call_action_args args =? 0) then ret (-1)
  else
    match probe, e_resolve E callee_symbol with
    | Some probe, Some target =>
        let* probes := gets w_probes in
        let '(rc, slot) := zt_trace_assign_call_action_slot probes probe in
        let* _ := set_probe probe_id (pr_set_action_slot slot) in
        if negb (rc =? 0) then ret (-1)
        else
          let* epoch := zt_trace_next_call_action_epoch in
          let* _ := set_probe probe_id
                      (pr_set_action (new_call_action epoch probe_id (tgt_remote_addr target) args) (take 63 callee_symbol)) in
          let* _ := zt_trace_remember_call_symbol (tgt_remote_addr target) callee_symbol in
          check (write_probe_action probe_id) ;;
          zt_trace_write_call_action_count
    | _, _ => ret (-1)
    end.

Definition zt_trace_update_probe_call_action (probe_id : Z) (callee_symbol : cstr) : M Z :=
  zt_trace_update_probe_call_action_args probe_id callee_symbol [].

Definition zt_trace_clear_probe_call_action (probe_id : Z) : M Z :=
  let* active := zt_trace_session_is_active in
  let* probe := get_probe probe_id in
  match probe with
  | Some probe =>
      if negb active then ret (-1)
      else
        let old_slot := pr_call_action_slot probe in
        let* _ := set_probe probe_id (pr_set_action zero_call_action []) in
        let* rc := if 0 <=? old_slot then write_probe_action probe_id else ret 0 in
        if negb (rc =? 0) then ret (-1)
        else
          let* _ := set_probe probe_id (pr_set_action_slot (-1)) in
          zt_trace_write_call_action_count
  | None => ret (-1)
  end.

Definition zt_trace_enable_probe (probe_id : Z) : M Z :=
  let* active := zt_trace_session_is_active in
  let* probe := get_probe probe_id in
  match probe with
  | Some probe =>
      if negb active then ret (-1)
      else if bool_decide (pr_state probe = ZT_PROBE_INSTALLED) then ret 0
      else zt_trace_install_active_probe (tgt_symbol (pr_target probe)) (Some (pr_filter probe))
  | None => ret (-1)
  end.

(** ** Start, removal and shutdown *)

(** The loop of zt_trace_stop over the table's entries. *)
Fixpoint stop_loop (ids : list Z) (rc : Z) : M Z :=
  match ids with
  | [] => ret rc
  | probe_id :: ids =>
      if probe_id =? 0 then stop_loop ids rc
      else
        let* probe := get_probe probe_id in
        let* rc :=
          if match probe with Some p => bool_decide (pr_state p = ZT_PROBE_INSTALLED) | None => false end
          then let* r := with_inj (zt_uninstall_probe_patch K TK probe_id) in ret (if r =? 0 then rc else -1)
          else ret rc in
        let* _ := pool_release probe_id in
        let* _ := with_ses (fun s => zt_unregister_probe s probe_id) in
        stop_loop ids rc
  end.

Definition zt_trace_stop : M Z :=
  let* st := trace_state in
  if bool_decide (st = ZT_TRACE_RUNTIME_INACTIVE) then ret (-1)
  else
    check zt_trace_ensure_stopped ;;
    let* ids := gets (fun w => map pr_probe_id (w_probes w)) in
    let* rc := stop_loop ids 0 in
    let* rc2 := zt_trace_cleanup_runtime in
    let* _ := zt_trace_reset_active 0 in
    ret (if rc2 =? 0 then rc else -1).

Definition zt_trace_is_active : M bool :=
  gets (fun w => negb (bool_decide (at_state (g_active_trace w) = ZT_TRACE_RUNTIME_INACTIVE))).

Definition set_exit_observed (x : Z) : M unit :=
  modify (fun w => mk_world (w_inj w) (g_active_trace w) x (w_reader w) (w_sigconf w)).

Definition zt_trace_shutdown : M Z :=
  let* st := trace_state in
  if bool_decide (st = ZT_TRACE_RUNTIME_INACTIVE) then let* _ := set_exit_observed 0 in ret 0
  else zt_trace_stop.

Definition load_sigconf : M unit := modify (fun w =>
  mk_world (w_inj w) (g_active_trace w) (g_trace_exit_observed w) (w_reader w)
    (snd (zt_sigconf_load_default (e_fopen E) (w_sigconf w)))).

Definition zt_trace_start_filtered_in_session (symbol log_path : cstr) (filter : option zt_probe_filter_t) : M Z :=
  let* st := trace_state in
  if negb (bool_decide (st = ZT_TRACE_RUNTIME_INACTIVE)) then
    let* active := zt_trace_session_is_active in
    if negb active then ret (-1) else zt_trace_install_active_probe symbol filter
  else if negb (e_log_opens E log_path) then ret (-1)
  else
    let* _ := load_sigconf in
    let* _ := zt_trace_reset_active 0 in
    let* rc := zt_setup_remote_payload in
    if negb (rc =? 0) then let* _ := zt_trace_cleanup_runtime in ret (-1)
    else
      let* rc := zt_trace_install_probe symbol filter in
      if negb (rc =? 0) then let* _ := zt_trace_cleanup_runtime in ret (-1)
      else
        let* _ := set_active at_start in
        let* rc := zt_trace_ensure_running in
        if negb (rc =? 0) then let* _ := zt_trace_stop in ret (-1)
        else ret 0.

Definition zt_trace_start_in_session (symbol log_path : cstr) : M Z :=
  zt_trace_start_filtered_in_session symbol log_path None.

Definition zt_trace_remove_probe (probe_id : Z) : M Z :=
  let* found := get_probe probe_id in
  match found with
  | None => ret (-1)
  | Some probe =>
      let* st := trace_state in
      let* active := zt_trace_session_is_active in
      if bool_decide (st = ZT_TRACE_RUNTIME_INACTIVE) then with_ses (fun s => zt_unregister_probe s probe_id)
      else if negb active then ret (-1)
      else
        check zt_trace_ensure_stopped ;;
        let* rc :=
          if bool_decide (pr_state probe = ZT_PROBE_INSTALLED)
          then with_inj (zt_uninstall_probe_patch K TK probe_id) else ret 0 in
        if negb (rc =? 0) then ret (-1)
        else
          let* _ :=
            if negb (act_enabled (pr_call_action probe) =? 0)
            then let* _ := zt_trace_clear_probe_call_action probe_id in ret tt else ret tt in
          let* _ := pool_release probe_id in
          check (with_ses (fun s => zt_unregister_probe s probe_id)) ;;
          let* count := gets (fun w => ses_probe_count (w_ses w)) in
          if count =? 0 then
            let* cleanup_ret := zt_trace_cleanup_runtime in
            let* _ := zt_trace_reset_active 0 in
            ret cleanup_ret
          else zt_trace_ensure_running
  end.
End runner.
