(* ===== verification/TraceSample.v ===== *)
(** * The trace runner put together

    Instances of its interfaces from the components that implement them, and a small
    target on which whole sessions of the tracer are evaluated. *)

From S2P Require Import Prelude CLib Types Reader RemoteMem RemoteMemSpec Emit X86Trampoline A64Machine A64Trampoline A64Spec A64Build Arch RemoteExec Threads ThreadsSpec Probes Pool SigConf TraceRunner.

(** ** Instances *)

(** Remote system calls by borrowing the stopped main thread, whose registers at the
    n-th call are [regs_of n]. *)
Definition exec_remote `{A : Arch} (EK : exec_kernel) (regs_of : nat -> regs_t) : Remote :=
  let on p := mk_tracee p (regs_of (pcalls p)) in
  {| remote_mmap size prot flags p := let '(r, s) := zt_remote_mmap EK size prot flags (on p) in (r, tr_proc s);
     remote_munmap a size p := let '(rc, s) := zt_remote_munmap EK a size (on p) in (rc, tr_proc s);
     remote_call2 f a b p := let '(rc, v, s) := zt_remote_call2 EK f a b (on p) in (rc, v, tr_proc s) |}.

Definition x86_builder (cs_disasm : list Z -> Z -> option (list cs_insn)) : Builder :=
  {| build_trampoline := zt_build_trampoline cs_disasm |}.

Definition a64_builder (cs_disasm : list Z -> Z -> option (list a64_insn)) : Builder :=
  {| build_trampoline := a64_build_trampoline cs_disasm |}.

(** ** A target *)

(** Mappings from 0x7f0000000000 on, one every 16 megabytes; calls return 1. *)
Definition sample_mmap (size : Z) (p : proc_t) : Z * proc_t :=
  let a := 0x7f0000000000 + 0x1000000 * Z.of_nat (pcalls p) in
  (a, pr_store (fun x => if (a <=? x) && (x <? a + size) then Some 0 else pm p x) p).

Definition sample_munmap (a size : Z) (p : proc_t) : proc_t :=
  pr_store (fun x => if (a <=? x) && (x <? a + Z.of_nat (Z.to_nat size)) then None else pm p x) p.

Definition sample_remote : Remote :=
  {| remote_mmap size _ _ p := let '(a, p) := sample_mmap size p in (Some a, p);
     remote_munmap a size p := (0, sample_munmap a size p);
     remote_call2 _ _ _ p := (0, Some 1, pr_call p) |}.

(** A page of code at 0x401000 that begins with A64Build's sample prologue. *)
Definition sample_prologue : list Z := words_bytes [0xB0000000; 0xB40000E1; 0xD503201F; 0xD503201F].

Definition sample_text : proc_t :=
  mk_proc (fun x =>
    if (0x401000 <=? x) && (x <? 0x402000)
    then Some (default 0 (sample_prologue !! Z.to_nat (x - 0x401000)))
    else None) 0.

Definition sample_env : env_t :=
  mk_env (fun symbol => Some (mk_target (take 63 symbol) (lit "/bin/t") 0x401000)) (Some (lit "/opt/payload.so"))
    (fun _ _ => Some 0x600000) (fun _ => true) (fun _ => None) (fun _ => false) (fun _ _ => true).

(** Attached and stopped. *)
Definition fresh_inj : inj_t :=
  mk_inj (mk_session 100 1 0 1 0 [mk_thread 100 1 0; mk_thread 101 1 0] (replicate (Z.to_nat ZT_PROBES_CAPACITY) zero_probe)) sample_text
    (mk_kstate 0 (fun _ => 0x700000) [] (fun _ => false) (0%nat, [])).

Definition sample_world : world :=
  mk_world fresh_inj zero_active 0 zero_reader (mk_sigconf [] false).

Definition start_on (K : kernel_t) (symbol : cstr) : M Z :=
  zt_trace_start_filtered_in_session (A := A64.aarch64_arch) (Rm := sample_remote) (Bd := a64_builder sample_a64_disasm)
    K sample_thread_kernel sample_env symbol (lit "/tmp/log") None.

Definition sample_start : M Z := start_on plain_kernel (lit "write").

(** Tracing `write` on the target: it is started, its prologue holds the jump to the
    trampoline at the pool's first slot, and shutting down puts the prologue back. *)
Definition sample_stop : M Z :=
  zt_trace_shutdown (Rm := sample_remote) plain_kernel sample_thread_kernel.

Lemma sample_session_run :
  let '(rc, w) := sample_start sample_world in
  let '(rc', w') := sample_stop w in
  rc = 0 /\ at_state (g_active_trace w) = ZT_TRACE_RUNTIME_RUNNING /\ ses_probe_count (w_ses w) = 1 /\
  read_bytes (pm (in_proc (w_inj w))) 0x401000 16 =
    Some (A64.a64_jump_patch (pool_remote_addr (rt_trampoline_pool (w_runtime w)))) /\
  rc' = 0 /\ ses_probe_count (w_ses w') = 0 /\
  read_bytes (pm (in_proc (w_inj w'))) 0x401000 16 = read_bytes (pm sample_text) 0x401000 16.
Proof. vm_compute. done. Qed.
