(* ===== verification/TableInv.v ===== *)
(** * The probe table's invariant

    Entries are free or registered, ids and symbols are unique, the count is the
    number of registered probes, and enabled call actions have slots of their own.
    Every operation of the injector on the table keeps it; the thread operations
    do not touch it. *)

From S2P Require Import Prelude CLib Types Reader RemoteMem Arch Threads Probes.

(** ** The invariant *)

Definition registered (ps : list zt_probe_info_t) (i : nat) (p : zt_probe_info_t) : Prop :=
  ps !! i = Some p /\ pr_probe_id p <> 0.

Record table_inv (s : zt_injector_session_t) : Prop := {
  ti_length : length (ses_probes s) = Z.to_nat ZT_PROBES_CAPACITY;
  ti_next : 0 <= ses_next_probe_id s < 2 ^ 64;
  ti_free : forall i p, ses_probes s !! i = Some p -> pr_probe_id p = 0 -> p = zero_probe;
  ti_id : forall i p, registered (ses_probes s) i p -> 0 < pr_probe_id p < ses_next_probe_id s;
  ti_ids : forall i j p q, registered (ses_probes s) i p -> registered (ses_probes s) j q ->
    pr_probe_id p = pr_probe_id q -> i = j;
  ti_symbol : forall i p, registered (ses_probes s) i p -> tgt_symbol (pr_target p) <> [];
  ti_symbols : forall i j p q, registered (ses_probes s) i p -> registered (ses_probes s) j q ->
    tgt_symbol (pr_target p) = tgt_symbol (pr_target q) -> i = j;
  ti_count : ses_probe_count s = Z.of_nat (length (filter (fun p => pr_probe_id p <> 0) (ses_probes s)))
}.

(** An enabled action has a slot of the shared table to itself. *)
Definition has_action (p : zt_probe_info_t) : Prop := pr_probe_id p <> 0 /\ act_enabled (pr_call_action p) <> 0.

Definition slots_inv (ps : list zt_probe_info_t) : Prop :=
  (forall i p, ps !! i = Some p -> has_action p -> 0 <= pr_call_action_slot p < ZT_PAYLOAD_PROBE_ACTION_CAP) /\
  (forall i j p q, ps !! i = Some p -> ps !! j = Some q -> has_action p -> has_action q ->
     pr_call_action_slot p = pr_call_action_slot q -> i = j).

(** What installing and removing a patch does not change; the invariants depend on no more. *)
Definition ident (p : zt_probe_info_t) : Z * zt_symbol_target_t * zt_probe_call_action_t * Z * cstr :=
  (pr_probe_id p, pr_target p, pr_call_action p, pr_call_action_slot p, pr_call_symbol p).

(** ** Lookups and updates *)

Lemma find_by_id_lookup ps id p :
  zt_probe_find_by_id ps id = Some p -> exists i, registered ps i p /\ pr_probe_id p = id.
Proof.
  unfold zt_probe_find_by_id. destruct (Z.eqb_spec id 0) as [|Hid]; [done|].
  intros [Hin Heq]%find_some. zbool. apply list_elem_of_In, list_elem_of_lookup in Hin as [i Hi].
  exists i. subst id. by split; [split|].
Qed.

(** The first entry with the id is the one updated. *)
Lemma update_probe_insert id f ps :
  update_probe id f ps = ps /\ Forall (fun p => pr_probe_id p <> id) ps \/
  exists i p, ps !! i = Some p /\ pr_probe_id p = id /\ update_probe id f ps = <[i := f p]> ps /\
    (id <> 0 -> zt_probe_find_by_id ps id = Some p).
Proof.
  induction ps as [|q ps IH]; [by left|]. cbn [update_probe].
  destruct (Z.eqb_spec (pr_probe_id q) id) as [Hq|Hq].
  - right. exists O, q. split_and!; [done|done|done|]. intros Hid. unfold zt_probe_find_by_id. cbn.
    destruct (Z.eqb_spec id 0); [done|]. by rewrite (proj2 (Z.eqb_eq _ _) Hq).
  - destruct IH as [[-> Hn]|(i & p & Hi & Hp & -> & Hf)]; [left; auto|]. right. exists (S i), p. split_and!; [done|done|done|].
    intros Hid. specialize (Hf Hid). unfold zt_probe_find_by_id in *. cbn. destruct (id =? 0); [done|].
    by rewrite (proj2 (Z.eqb_neq _ _) Hq).
Qed.

Lemma registered_update ps i p f j q :
  ps !! i = Some p -> registered (<[i := f p]> ps) j q ->
  (j = i /\ q = f p /\ pr_probe_id (f p) <> 0) \/ (j <> i /\ registered ps j q).
Proof.
  intros Hi [Hj Hq]. destruct (decide (j = i)) as [->|Hne].
  - left. rewrite list_lookup_insert_eq in Hj by (by eapply lookup_lt_Some). simplify_eq. done.
  - right. rewrite list_lookup_insert_ne in Hj by done. done.
Qed.

Lemma filter_insert_length (P : zt_probe_info_t -> Prop) `{forall x, Decision (P x)} ps i p q :
  ps !! i = Some p ->
  (length (filter P (<[i := q]> ps)) + (if decide (P p) then 1 else 0) =
   length (filter P ps) + (if decide (P q) then 1 else 0))%nat.
Proof.
  revert i. induction ps as [|x ps IH]; intros i Hi; [done|]. destruct i as [|i]; cbn [lookup list_lookup] in Hi.
  - simplify_eq. change (<[0%nat := q]> (p :: ps)) with (q :: ps). rewrite !filter_cons.
    destruct (decide (P p)), (decide (P q)); cbn [length]; lia.
  - change (<[S i := q]> (x :: ps)) with (x :: <[i := q]> ps). rewrite !filter_cons. specialize (IH i Hi).
    destruct (decide (P x)); cbn [length]; lia.
Qed.

(** The session with other probes. *)
Definition with_probes (s : zt_injector_session_t) (ps : list zt_probe_info_t) : zt_injector_session_t := ses_set_probes ps s.

(** A change of one entry that keeps what identifies it. *)
Lemma table_inv_insert s i p q :
  table_inv s -> ses_probes s !! i = Some p -> pr_probe_id p <> 0 -> pr_probe_id q = pr_probe_id p ->
  tgt_symbol (pr_target q) = tgt_symbol (pr_target p) ->
  table_inv (with_probes s (<[i := q]> (ses_probes s))).
Proof.
  intros [Hl Hn Hfree Hid Hids Hsym Hsyms Hc] Hi Hp Hq Hs.
  assert (Hold : forall j r, registered (<[i := q]> (ses_probes s)) j r ->
    exists r', registered (ses_probes s) j r' /\ pr_probe_id r = pr_probe_id r' /\ tgt_symbol (pr_target r) = tgt_symbol (pr_target r')).
  { intros j r Hr. apply (registered_update _ i p (fun _ => q)) in Hr as [(-> & -> & _)|[_ Hr]]; [|by exists r..|done].
    exists p. by split; [split|]. }
  constructor; cbn [with_probes ses_set_probes ses_probes ses_next_probe_id ses_probe_count]; try done.
  - by rewrite length_insert.
  - intros j r Hj H0. destruct (decide (j = i)) as [->|Hne].
    + rewrite list_lookup_insert_eq in Hj by (by eapply lookup_lt_Some). simplify_eq. congruence.
    + rewrite list_lookup_insert_ne in Hj by done. by eapply Hfree.
  - intros j r (r' & Hr' & -> & _)%Hold. by eapply Hid.
  - intros j k r t (r' & Hr' & -> & _)%Hold (t' & Ht' & -> & _)%Hold. by eapply Hids.
  - intros j r (r' & Hr' & _ & ->)%Hold. by eapply Hsym.
  - intros j k r t (r' & Hr' & _ & ->)%Hold (t' & Ht' & _ & ->)%Hold. by eapply Hsyms.
  - rewrite Hc. f_equal. pose proof (filter_insert_length (fun p => pr_probe_id p <> 0) _ _ _ q Hi) as H.
    rewrite !decide_True in H by congruence. lia.
Qed.

Lemma slots_inv_insert ps i p q :
  slots_inv ps -> ps !! i = Some p -> ident q = ident p -> slots_inv (<[i := q]> ps).
Proof.
  intros [Hv Hu] Hi Hid. unfold ident in Hid. injection Hid as Hq _ Ha Hs _.
  assert (Hold : forall j r, <[i := q]> ps !! j = Some r -> has_action r ->
    exists r', ps !! j = Some r' /\ has_action r' /\ pr_call_action_slot r' = pr_call_action_slot r).
  { intros j r Hj Hr. destruct (decide (j = i)) as [->|Hne].
    - rewrite list_lookup_insert_eq in Hj by (by eapply lookup_lt_Some). simplify_eq. exists p. unfold has_action in *.
      rewrite <- Hq, <- Ha, <- Hs. done.
    - rewrite list_lookup_insert_ne in Hj by done. by exists r. }
  split.
  - intros j r Hj Hr. destruct (Hold j r Hj Hr) as (r' & Hj' & Hr' & <-). by eapply Hv.
  - intros j k r t Hj Hk Hr Ht Heq. destruct (Hold j r Hj Hr) as (r' & Hj' & Hr' & Er).
    destruct (Hold k t Hk Ht) as (t' & Hk' & Ht' & Et). eapply Hu; [exact Hj'|exact Hk'|done|done|congruence].
Qed.

(** An update through a pointer that keeps what identifies the probe. *)
Lemma update_probe_inv s id f :
  table_inv s -> slots_inv (ses_probes s) -> id <> 0 ->
  (forall p, zt_probe_find_by_id (ses_probes s) id = Some p -> ident (f p) = ident p) ->
  table_inv (with_probes s (update_probe id f (ses_probes s))) /\ slots_inv (update_probe id f (ses_probes s)).
Proof.
  intros Ht Hs Hid Hf. destruct (update_probe_insert id f (ses_probes s)) as [[-> _]|(i & p & Hi & Hp & -> & Hfind)].
  - split; [|done]. by destruct s.
  - specialize (Hf p (Hfind Hid)). pose proof Hf as Hf'. unfold ident in Hf'. injection Hf' as Hq Hsym _ _ _. split.
    + eapply table_inv_insert; try done; [by rewrite Hp|by rewrite Hsym].
    + by eapply slots_inv_insert.
Qed.

(** ** Registration *)

Lemma fill_free_insert p ps ps' :
  fill_free p ps = Some ps' -> exists i q, ps !! i = Some q /\ pr_probe_id q = 0 /\ ps' = <[i := p]> ps.
Proof.
  revert ps'. induction ps as [|x ps IH]; intros ps' H; cbn [fill_free] in H; [done|].
  destruct (Z.eqb_spec (pr_probe_id x) 0) as [Hx|Hx]; [simplify_eq; by exists O, x|].
  destruct (fill_free p ps) as [ps1|]; [|done]. simplify_eq. destruct (IH ps1 eq_refl) as (i & q & Hi & Hq & ->).
  by exists (S i), q.
Qed.

Lemma find_by_symbol_none ps symbol i p :
  zt_probe_find_by_symbol ps symbol = None -> registered ps i p -> tgt_symbol (pr_target p) <> symbol.
Proof.
  intros Hf [Hi Hp] Hs. apply list_elem_of_lookup_2, list_elem_of_In in Hi.
  apply (find_none _ _ Hf) in Hi. apply andb_false_iff in Hi as [Hi|Hi]; zbool; [done|].
  unfold cstr_eqb in Hi. by rewrite bool_decide_eq_false in Hi.
Qed.

Lemma find_by_symbol_lookup ps symbol p :
  zt_probe_find_by_symbol ps symbol = Some p -> exists i, registered ps i p /\ tgt_symbol (pr_target p) = symbol.
Proof.
  intros [Hin Hp]%find_some. apply andb_true_iff in Hp as [Hp Hs]. zbool. unfold cstr_eqb in Hs. rewrite bool_decide_eq_true in Hs.
  apply list_elem_of_In, list_elem_of_lookup in Hin as [i Hi]. by exists i.
Qed.

Lemma take_probe_id_fresh next id next' :
  take_probe_id next = (id, next') -> 0 <= next < 2 ^ 64 - 2 -> 0 < id < next' /\ next <= id /\ next' < 2 ^ 64.
Proof.
  unfold take_probe_id. intros H Hn. rewrite u64_small in H by (unfold is_u64; lia).
  destruct (Z.eqb_spec next 0) as [->|]; simplify_eq; [by vm_compute|lia].
Qed.

(** A new entry in a free place. *)
Lemma register_inv s i q p next :
  table_inv s -> ses_probes s !! i = Some q -> pr_probe_id q = 0 ->
  ses_next_probe_id s <= pr_probe_id p -> 0 < pr_probe_id p < next -> next < 2 ^ 64 -> tgt_symbol (pr_target p) <> [] ->
  (forall j r, registered (ses_probes s) j r -> tgt_symbol (pr_target r) <> tgt_symbol (pr_target p)) ->
  table_inv (mk_session (ses_pid s) next (ses_probe_count s + 1) (ses_threads_stopped s) (ses_target_exited s)
               (ses_threads s) (<[i := p]> (ses_probes s))).
Proof.
  intros [Hl Hn Hfree Hid Hids Hsym Hsyms Hc] Hi Hq Hnew Hp Hnext Hs Hother.
  assert (Hlt : (i < length (ses_probes s))%nat) by (by eapply lookup_lt_Some).
  assert (Hcase : forall j r, registered (<[i := p]> (ses_probes s)) j r ->
    (j = i /\ r = p) \/ (j <> i /\ registered (ses_probes s) j r)).
  { intros j r Hr. by apply (registered_update _ i q (fun _ => p)) in Hr as [(-> & -> & _)|[? Hr]]; auto. }
  constructor; cbn [ses_probes ses_next_probe_id ses_probe_count].
  - by rewrite length_insert.
  - lia.
  - intros j r Hj H0. destruct (decide (j = i)) as [->|Hne].
    + rewrite list_lookup_insert_eq in Hj by done. simplify_eq. lia.
    + rewrite list_lookup_insert_ne in Hj by done. by eapply Hfree.
  - intros j r [[-> ->]|[_ Hr]]%Hcase; [done|]. apply Hid in Hr. lia.
  - intros j k r t [[-> ->]|[Hj Hr]]%Hcase [[-> ->]|[Hk Ht]]%Hcase Heq; [done|..].
    + apply Hid in Ht. lia.
    + apply Hid in Hr. lia.
    + by eapply Hids.
  - intros j r [[-> ->]|[_ Hr]]%Hcase; [done|]. by eapply Hsym.
  - intros j k r t [[-> ->]|[Hj Hr]]%Hcase [[-> ->]|[Hk Ht]]%Hcase Heq; [done|..].
    + by apply Hother in Ht.
    + by apply Hother in Hr.
    + by eapply Hsyms.
  - rewrite Hc. pose proof (filter_insert_length (fun p => pr_probe_id p <> 0) _ _ _ p Hi) as H.
    rewrite decide_False, decide_True in H by lia. lia.
Qed.

Lemma slots_inv_disable ps i q :
  slots_inv ps -> ~ has_action q -> slots_inv (<[i := q]> ps).
Proof.
  intros [Hv Hu] Hq.
  assert (Hold : forall j r, <[i := q]> ps !! j = Some r -> has_action r -> ps !! j = Some r).
  { intros j r Hj Hr. apply list_lookup_insert_Some in Hj as [(-> & <- & _)|[_ Hj]]; [done|done]. }
  split; eauto 10.
Qed.

Lemma find_registered s i p :
  table_inv s -> registered (ses_probes s) i p -> zt_probe_find_by_id (ses_probes s) (pr_probe_id p) = Some p.
Proof.
  intros Ht Hp. destruct (zt_probe_find_by_id (ses_probes s) (pr_probe_id p)) as [q|] eqn:E.
  - apply find_by_id_lookup in E as (j & Hq & Heq). assert (j = i) as -> by (by eapply (ti_ids s)).
    destruct Hp as [Hp _], Hq as [Hq _]. congruence.
  - destruct Hp as [Hi Hid]. unfold zt_probe_find_by_id in E. destruct (Z.eqb_spec (pr_probe_id p) 0); [done|].
    apply list_elem_of_lookup_2, list_elem_of_In in Hi. apply (find_none _ _ E) in Hi. by zbool.
Qed.

Lemma probe_alloc_inv s target r s' :
  table_inv s -> slots_inv (ses_probes s) -> ses_next_probe_id s < 2 ^ 64 - 2 ->
  zt_probe_alloc s target = (r, s') ->
  table_inv s' /\ slots_inv (ses_probes s') /\
  forall p, r = Some p -> zt_probe_find_by_id (ses_probes s') (pr_probe_id p) = Some p.
Proof.
  intros Ht Hs Hn. unfold zt_probe_alloc.
  destruct (Nat.eqb_spec (length (tgt_symbol target)) 0) as [|Hne]; [by intros [= <- <-]|].
  destruct (zt_probe_find_by_symbol (ses_probes s) (tgt_symbol target)) as [q|] eqn:Hq.
  { intros [= <- <-]. split_and!; [done|done|]. intros p [= <-].
    apply find_by_symbol_lookup in Hq as (i & Hq & _). by eapply find_registered. }
  destruct (take_probe_id (ses_next_probe_id s)) as [id next] eqn:Hid. destruct (ti_next _ Ht) as [Hn0 _].
  apply take_probe_id_fresh in Hid as (Hid & Hge & Hnext); [|lia].
  destruct (fill_free (new_probe id target) (ses_probes s)) as [ps|] eqn:Hff; [|by intros [= <- <-]].
  intros [= <- <-]. destruct (fill_free_insert _ _ _ Hff) as (i & q & Hi & Hq0 & ->).
  assert (Ht' : table_inv (mk_session (ses_pid s) next (ses_probe_count s + 1) (ses_threads_stopped s)
                  (ses_target_exited s) (ses_threads s) (<[i := new_probe id target]> (ses_probes s)))).
  { eapply register_inv; try done; cbn.
    - intros E. by rewrite E in Hne.
    - intros j r Hr. by eapply find_by_symbol_none. }
  split_and!; [done| |].
  - cbn [ses_probes]. apply slots_inv_disable; [done|]. intros [_ H]. done.
  - intros p [= <-]. apply (find_registered _ i (new_probe id target) Ht'). cbn. split; [|cbn; lia].
    rewrite list_lookup_insert_eq; [done|by eapply lookup_lt_Some].
Qed.

Lemma register_probe_inv resolve s symbol r s' :
  table_inv s -> slots_inv (ses_probes s) -> ses_next_probe_id s < 2 ^ 64 - 2 ->
  zt_register_probe resolve s symbol = (r, s') ->
  table_inv s' /\ slots_inv (ses_probes s') /\
  forall p, r = Some p -> zt_probe_find_by_id (ses_probes s') (pr_probe_id p) = Some p.
Proof.
  intros Ht Hs Hn. unfold zt_register_probe.
  destruct (zt_probe_find_by_symbol (ses_probes s) symbol) as [q|] eqn:Hq.
  { intros [= <- <-]. split_and!; [done|done|]. intros p [= <-].
    apply find_by_symbol_lookup in Hq as (i & Hq & _). by eapply find_registered. }
  destruct (resolve symbol); [by apply probe_alloc_inv|]. by intros [= <- <-].
Qed.

Lemma unregister_probe_inv s id rc s' :
  table_inv s -> slots_inv (ses_probes s) -> zt_unregister_probe s id = (rc, s') ->
  table_inv s' /\ slots_inv (ses_probes s') /\ ses_next_probe_id s' = ses_next_probe_id s.
Proof.
  intros Ht Hs. unfold zt_unregister_probe.
  destruct (zt_probe_find_by_id (ses_probes s) id) as [p|] eqn:Hf; [|by intros [= <- <-]]. intros [= <- <-].
  destruct (find_by_id_lookup _ _ _ Hf) as (k & [Hk Hk0] & Hid).
  destruct (update_probe_insert id (fun _ => zero_probe) (ses_probes s)) as [[_ Hn]|(i & q & Hi & Hq & -> & _)].
  { apply list_elem_of_lookup_2 in Hk. by eapply Forall_forall in Hn. }
  cbn [ses_probes ses_next_probe_id]. split_and!; [|apply slots_inv_disable; [done|by intros [? _]]|done].
  pose proof Ht as [Hl Hnx Hfree Hids0 Hids Hsym Hsyms Hc].
  assert (Hqid : pr_probe_id q <> 0) by congruence.
  assert (Hcount : Z.of_nat (length (filter (fun p => pr_probe_id p <> 0) (<[i := zero_probe]> (ses_probes s)))) =
                   ses_probe_count s - 1 /\ 0 < ses_probe_count s).
  { pose proof (filter_insert_length (fun p => pr_probe_id p <> 0) _ _ _ zero_probe Hi) as H.
    rewrite decide_True, decide_False in H by (done || by intros H'; apply H'). rewrite Hc. lia. }
  assert (Hold : forall j r, registered (<[i := zero_probe]> (ses_probes s)) j r -> registered (ses_probes s) j r).
  { intros j r Hr. apply (registered_update _ i q (fun _ => zero_probe)) in Hr as [(_ & _ & Hz)|[_ Hr]]; done. }
  constructor; cbn [ses_probes ses_next_probe_id ses_probe_count].
  - by rewrite length_insert.
  - done.
  - intros j r Hj H0. apply list_lookup_insert_Some in Hj as [(_ & <- & _)|[_ Hj]]; [done|by eapply Hfree].
  - intros j r Hr%Hold. by eapply Hids0.
  - intros j k' r t Hr%Hold Ht'%Hold. by eapply Hids.
  - intros j r Hr%Hold. by eapply Hsym.
  - intros j k' r t Hr%Hold Ht'%Hold. by eapply Hsyms.
  - destruct Hcount as [-> Hpos]. destruct (Z.gtb_spec (ses_probe_count s) 0); lia.
Qed.

(** A table without probes. *)
Lemma zero_table_free i p : replicate (Z.to_nat ZT_PROBES_CAPACITY) zero_probe !! i = Some p -> p = zero_probe.
Proof. by intros [-> _]%lookup_replicate. Qed.

Lemma empty_table_inv s :
  ses_probes s = replicate (Z.to_nat ZT_PROBES_CAPACITY) zero_probe -> 0 <= ses_next_probe_id s < 2 ^ 64 ->
  ses_probe_count s = 0 -> table_inv s /\ slots_inv (ses_probes s).
Proof.
  intros Hp Hn Hc. assert (Hnone : forall i p, ~ registered (ses_probes s) i p).
  { intros i p [Hi Hid]. rewrite Hp in Hi. apply zero_table_free in Hi as ->. done. }
  split; [constructor|split].
  - by rewrite Hp, length_replicate.
  - done.
  - intros i p Hi _. rewrite Hp in Hi. by apply zero_table_free in Hi.
  - by intros i p Hi%Hnone.
  - by intros i j p q Hi%Hnone.
  - by intros i p Hi%Hnone.
  - by intros i j p q Hi%Hnone.
  - by rewrite Hc, Hp.
  - intros i p Hi [Hid _]. by destruct (Hnone i p).
  - intros i j p q Hi _ [Hid _]. by destruct (Hnone i p).
Qed.

(** ** Threads leave the table alone *)

Definition ses_table (s : zt_injector_session_t) : list zt_probe_info_t * Z * Z :=
  (ses_probes s, ses_next_probe_id s, ses_probe_count s).

Lemma table_inv_same s s' : ses_table s' = ses_table s -> table_inv s -> table_inv s'.
Proof.
  unfold ses_table. intros [= Hp Hn Hc] [? ? ? ? ? ? ? ?].
  constructor; rewrite ?Hp, ?Hn, ?Hc; done.
Qed.

Section threads.
Context (K : thread_kernel).

Lemma seize_loop_table tids s k : let '(_, s', _) := seize_loop K tids s k in ses_table s' = ses_table s.
Proof.
  revert s k. induction tids as [|tid tids IH]; intros s k; cbn [seize_loop]; [done|].
  destruct (tid <=? 0); [apply IH|].
  assert (H1 : let '(_, s', _) := zt_injector_seize_thread K s tid k in ses_table s' = ses_table s).
  { unfold zt_injector_seize_thread. destruct (zt_session_find_thread s tid); [done|].
    destruct (tk_seize K (ks_calls k) tid); [|done..]. unfold zt_session_add_thread.
    destruct (tid <=? 0); [done|]. destruct (zt_session_find_thread s tid); [done|]. by destruct (_ >=? _). }
  destruct (zt_injector_seize_thread K s tid k) as [[rc s1] k1]. destruct (rc =? 0); [|done].
  specialize (IH s1 k1). destruct (seize_loop K tids s1 k1) as [[? ?] ?]. congruence.
Qed.

Lemma refresh_table s k : let '(_, s', _) := zt_injector_refresh_threads K s k in ses_table s' = ses_table s.
Proof.
  unfold zt_injector_refresh_threads. destruct (_ <=? 0); [done|]. destruct (tk_tasks K (ks_calls k)); [|done].
  apply seize_loop_table.
Qed.

Lemma stop_passes_table n s k : let '(_, s', _) := stop_passes K n s k in ses_table s' = ses_table s.
Proof.
  revert s k. induction n as [|n IH]; intros s k; cbn [stop_passes]; [done|].
  destruct (for_threads _ (ses_threads s) k) as [[rc1 ths1] k1]. destruct (negb (rc1 =? 0)); [done|].
  destruct (for_threads _ (ses_threads _) k1) as [[rc2 ths2] k2]. destruct (negb (rc2 =? 0)); [done|].
  set (s2 := zt_compact_threads _). pose proof (refresh_table s2 k2) as Hr.
  destruct (zt_injector_refresh_threads K s2 k2) as [[rc3 s3] k3]. destruct (negb (rc3 =? 0)); [done|].
  destruct (negb _); [done|]. specialize (IH s3 k3). destruct (stop_passes K n s3 k3) as [[? ?] ?].
  rewrite IH. exact Hr.
Qed.

Lemma interrupt_all_table s k : let '(_, s', _) := zt_injector_interrupt_all K s k in ses_table s' = ses_table s.
Proof.
  unfold zt_injector_interrupt_all. destruct (_ <=? 0); [done|]. pose proof (refresh_table s k) as Hr.
  destruct (zt_injector_refresh_threads K s k) as [[rc s1] k1]. destruct (negb _); [done|].
  pose proof (stop_passes_table 16 s1 k1) as H. destruct (stop_passes K 16 s1 k1) as [[? ?] ?]. congruence.
Qed.

Lemma continue_all_table s k : let '(_, s', _) := zt_injector_continue_all K s k in ses_table s' = ses_table s.
Proof.
  unfold zt_injector_continue_all. destruct (_ <=? 0); [done|].
  destruct (for_threads _ _ k) as [[rc ths] k1]. by destruct (negb _).
Qed.

Lemma poll_loop_table events fin s out k : let '(_, _, s', _) := poll_loop K events fin s out k in ses_table s' = ses_table s.
Proof.
  assert (Hnote : forall s tid out, let '(s', _) := zt_session_note_thread_exit s tid out in ses_table s' = ses_table s)
    by (intros s' tid o; unfold zt_session_note_thread_exit; by destruct (_ =? _)).
  revert s out k. induction events as [|[tid status] events IH]; intros s out k; cbn [poll_loop].
  { destruct fin; [..|done]; unfold zt_session_report_if_target_exited; by destruct (_ || _). }
  assert (IH' : forall s1 out1 k1, ses_table s1 = ses_table s ->
    let '(_, _, s', _) := poll_loop K events fin s1 out1 k1 in ses_table s' = ses_table s).
  { intros s1 out1 k1 H1. specialize (IH s1 out1 k1). destruct (poll_loop K events fin s1 out1 k1) as [[[? ?] ?] ?]. congruence. }
  specialize (Hnote s tid out). destruct (zt_session_find_thread s tid).
  - destruct (zt_wait_status_is_thread_exit status).
    + destruct (zt_session_note_thread_exit s tid out) as [s1 out1]. set (s2 := zt_compact_threads _).
      destruct (length (ses_threads s2) =? 0)%nat; by apply IH'.
    + destruct status; try (by apply IH'). destruct (tk_cont K _ tid); [by apply IH'|by apply IH'|done].
  - destruct (zt_wait_status_is_thread_exit status); [|by apply IH'].
    destruct (zt_session_note_thread_exit s tid out) as [s1 out1]. by apply IH'.
Qed.

Lemma poll_events_table s k : let '(_, _, s', _) := zt_injector_poll_events K s k in ses_table s' = ses_table s.
Proof.
  unfold zt_injector_poll_events. destruct (_ <=? 0); [done|]. destruct (negb _); [done|].
  pose proof (refresh_table s k) as Hr. destruct (zt_injector_refresh_threads K s k) as [[rc s1] k1].
  destruct (negb _); [by destruct (tk_exited _ _)|]. destruct (tk_events K (ks_calls k1)) as [ev fin].
  pose proof (poll_loop_table ev fin s1 0 k1) as H. destruct (poll_loop K ev fin s1 0 k1) as [[[? ?] ?] ?]. congruence.
Qed.

Lemma ensure_safe_table w : ses_table (in_ses (snd (ensure_safe K w))) = ses_table (in_ses w).
Proof.
  unfold ensure_safe, zt_ensure_patch_regions_are_safe. destruct (_ =? 0); [done|].
  destruct (for_threads _ _ _) as [[rc ths] k]. by destruct (negb _).
Qed.
End threads.
