(* ===== verification/TraceInv.v ===== *)
(** * The trace runner keeps its invariant

    The public operations of include/zt_trace_runner.h as the steps of a state
    machine, and the invariant of every world they reach: the probe table's, one
    slot per enabled call action, a bounded symbol cache without duplicates, and a
    session and a log exactly while a trace is active. *)

From stdpp Require Import relations.
From S2P Require Import Prelude CLib Types Reader RemoteMem RemoteMemSpec A64Build Arch Threads ThreadsSpec Probes ProbesSpec Pool SigConf TraceRunner TraceSample TableInv.
#[local] Open Scope Z_scope.

(** ** The invariant *)

Definition active_inv (a : zt_active_trace_t) : Prop :=
  at_session a = negb (bool_decide (at_state a = ZT_TRACE_RUNTIME_INACTIVE)) /\ at_log_open a = at_session a /\
  Z.of_nat (length (at_call_symbols a)) <= ZT_TRACE_CALL_SYMBOL_CACHE_CAP /\ NoDup (cs_addr <$> at_call_symbols a).

(** [fresh]: ids are left for a registration. *)
Record world_inv (fresh : bool) (w : world) : Prop := {
  wi_table : table_inv (w_ses w);
  wi_slots : slots_inv (w_probes w);
  wi_active : active_inv (g_active_trace w);
  wi_fresh : fresh = true -> ses_next_probe_id (w_ses w) < 2 ^ 64 - 2
}.

(** A computation that keeps the invariant, and one that may register a probe. *)
Definition keeps {A} (c : M A) : Prop := forall b w, world_inv b w -> world_inv b (snd (c w)).
Definition installs {A} (c : M A) : Prop := forall w, world_inv true w -> world_inv false (snd (c w)).

Lemma inv_weaken w b : world_inv b w -> world_inv false w.
Proof. intros []. by constructor. Qed.

Lemma keeps_installs {A} (c : M A) : keeps c -> installs c.
Proof. intros H w Hw. eapply inv_weaken. by apply H. Qed.

Lemma keeps_ret {A} (a : A) : keeps (ret a).
Proof. by intros b w. Qed.

Lemma keeps_gets {A} (f : world -> A) : keeps (gets f).
Proof. by intros b w. Qed.

Lemma keeps_bind {A B} (c : M A) (f : A -> M B) : keeps c -> (forall a, keeps (f a)) -> keeps (bind c f).
Proof. intros Hc Hf b w Hw. unfold bind. specialize (Hc b w Hw). destruct (c w) as [a w1]. by apply Hf. Qed.

Lemma installs_bind_after {A B} (c : M A) (f : A -> M B) : keeps c -> (forall a, installs (f a)) -> installs (bind c f).
Proof. intros Hc Hf w Hw. unfold bind. specialize (Hc true w Hw). destruct (c w) as [a w1]. by apply Hf. Qed.

Lemma installs_bind_before {A B} (c : M A) (f : A -> M B) : installs c -> (forall a, keeps (f a)) -> installs (bind c f).
Proof. intros Hc Hf w Hw. unfold bind. specialize (Hc w Hw). destruct (c w) as [a w1]. by apply Hf. Qed.

(** ** Primitives *)

Lemma keeps_with_proc {A} (c : proc_t -> A * proc_t) : keeps (with_proc c).
Proof.
  intros b w [Ht Hs Ha Hf]. unfold with_proc, with_inj. destruct (c (in_proc (w_inj w))) as [a p]. by constructor.
Qed.

Lemma keeps_with_inj {A} (c : inj_t -> A * inj_t) :
  (forall i, ses_table (in_ses (snd (c i))) = ses_table (in_ses i)) -> keeps (with_inj c).
Proof.
  intros Hc b w [Ht Hs Ha Hf]. specialize (Hc (w_inj w)). unfold with_inj. destruct (c (w_inj w)) as [a i]. cbn in Hc.
  pose proof Hc as Hc'. unfold ses_table in Hc'. injection Hc' as Hp Hn _.
  constructor; cbn [snd]; unfold w_probes, w_ses in *; cbn [w_inj g_active_trace]; rewrite ?Hp, ?Hn; try done.
  by eapply table_inv_same.
Qed.

Lemma keeps_with_threads {A} (c : zt_injector_session_t -> kstate -> A * zt_injector_session_t * kstate) :
  (forall s k, let '(_, s', _) := c s k in ses_table s' = ses_table s) -> keeps (with_threads c).
Proof.
  intros Hc. apply keeps_with_inj. intros i. specialize (Hc (in_ses i) (in_k i)).
  by destruct (c (in_ses i) (in_k i)) as [[a s] k].
Qed.

Lemma keeps_set_active f : (forall a, active_inv a -> active_inv (f a)) -> keeps (set_active f).
Proof. intros Hf b w [Ht Hs Ha Hn]. constructor; cbn; auto. Qed.

Lemma keeps_set_runtime f : keeps (set_runtime f).
Proof. by apply keeps_set_active. Qed.

Lemma keeps_reset x : keeps (zt_trace_reset_active x).
Proof.
  intros b w [Ht Hs Ha Hn]. constructor; cbn; try done. split_and!; try done. constructor.
Qed.

(** An update of the probe the code holds a pointer to. *)
Lemma set_probe_inv b id f w :
  world_inv b w -> (forall p, zt_probe_find_by_id (w_probes w) id = Some p -> ident (f p) = ident p) ->
  id <> 0 -> world_inv b (snd (set_probe id f w)).
Proof.
  intros [Ht Hs Ha Hn] Hf Hid. destruct (update_probe_inv (w_ses w) id f Ht Hs Hid Hf) as [Ht' Hs'].
  by constructor.
Qed.

Lemma keeps_set_probe id f : id <> 0 -> (forall p, ident (f p) = ident p) -> keeps (set_probe id f).
Proof. intros Hid Hf b w Hw. by apply set_probe_inv. Qed.

Lemma keeps_unregister id : keeps (with_ses (fun s => zt_unregister_probe s id)).
Proof.
  intros b w [Ht Hs Ha Hn]. unfold with_ses, with_inj.
  destruct (zt_unregister_probe (in_ses (w_inj w)) id) as [rc s] eqn:E.
  destruct (unregister_probe_inv _ _ _ _ Ht Hs E) as (Ht' & Hs' & Hnx).
  constructor; cbn; try done. unfold w_ses. cbn. by rewrite Hnx.
Qed.

(** An operation of the injector that leaves the table alone or updates one probe. *)
Definition table_op (id : Z) (i i' : inj_t) : Prop :=
  exists s1, ses_table s1 = ses_table (in_ses i) /\
    (in_ses i' = s1 \/
     id <> 0 /\ exists f, (forall p, ident (f p) = ident p) /\ in_ses i' = with_probes s1 (update_probe id f (ses_probes s1))).

Lemma keeps_table_op {A} (c : inj_t -> A * inj_t) id : (forall i, table_op id i (snd (c i))) -> keeps (with_inj c).
Proof.
  intros Hc b w [Ht Hs Ha Hn]. destruct (Hc (w_inj w)) as (s1 & Hs1 & Hi). unfold with_inj.
  destruct (c (w_inj w)) as [a i]. cbn [snd] in *. unfold w_probes, w_ses in *.
  pose proof (table_inv_same _ s1 Hs1 Ht) as Ht1. unfold ses_table in Hs1. injection Hs1 as Hp Hnx _.
  rewrite <- Hp in Hs. rewrite <- Hnx in Hn. destruct Hi as [<-|(Hid & f & Hf & Hi)]; [by constructor|].
  destruct (update_probe_inv s1 id f Ht1 Hs Hid (fun p _ => Hf p)) as [Ht2 Hs2].
  constructor; cbn [w_inj g_active_trace]; unfold w_probes, w_ses; cbn [w_inj]; rewrite ?Hi; done.
Qed.

Section patches.
Context `{A : Arch} (K : kernel_t) (TK : thread_kernel).

Lemma table_op_refl id i i' : ses_table (in_ses i') = ses_table (in_ses i) -> table_op id i i'.
Proof. intros H. exists (in_ses i'). auto. Qed.

Lemma enable_probe_table_op id i : table_op id i (snd (zt_enable_probe K id i)).
Proof.
  unfold zt_enable_probe. destruct (zt_probe_find_by_id _ id) as [p|] eqn:Hp; [|by apply table_op_refl].
  destruct (_ || _); [by apply table_op_refl|]. destruct (zt_read_remote_memory K _ _ _) as [[code|] pr]; [|by apply table_op_refl].
  destruct (zt_arch_calc_patch_span _ _) as [n|]; [|by apply table_op_refl]. destruct (_ >? _); [by apply table_op_refl|].
  apply find_by_id_lookup in Hp as (j & [_ Hid] & Hid'). exists (in_ses i). split; [done|]. right. split; [congruence|].
  by exists (probe_set_prepared code n).
Qed.

Lemma install_patch_table_op id addr i : table_op id i (snd (zt_install_probe_patch K TK id addr i)).
Proof.
  unfold zt_install_probe_patch. destruct (addr =? 0); [by apply table_op_refl|].
  destruct (zt_probe_find_by_id _ id) as [p|] eqn:Hp; [|by apply table_op_refl]. destruct (_ || _); [by apply table_op_refl|].
  pose proof (ensure_safe_table TK i) as Hs. destruct (ensure_safe TK i) as [rc i1]. cbn [snd] in Hs.
  destruct (negb _); [by apply table_op_refl|]. destruct (zt_arch_install_jump K _ _ _) as [rc2 pr].
  destruct (negb _); [by apply table_op_refl|]. apply find_by_id_lookup in Hp as (j & [_ Hid] & Hid').
  exists (in_ses i1). split; [done|]. right. split; [congruence|]. by exists (probe_set_installed addr).
Qed.

Lemma uninstall_patch_table_op id i : table_op id i (snd (zt_uninstall_probe_patch K TK id i)).
Proof.
  unfold zt_uninstall_probe_patch. destruct (zt_probe_find_by_id _ id) as [p|] eqn:Hp; [|by apply table_op_refl].
  destruct (_ =? 0); [by apply table_op_refl|]. pose proof (ensure_safe_table TK i) as Hs.
  destruct (ensure_safe TK i) as [rc i1]. cbn [snd] in Hs. destruct (negb _); [by apply table_op_refl|].
  destruct (zt_write_remote_memory K _ _ _) as [rc2 pr]. destruct (negb _); [by apply table_op_refl|].
  apply find_by_id_lookup in Hp as (j & [_ Hid] & Hid').
  exists (in_ses i1). split; [done|]. right. split; [congruence|]. by exists (probe_set_state ZT_PROBE_DISABLED).
Qed.
End patches.

(** A part of the world that a computation does not change. *)
Definition same {A B} (F : world -> B) (c : M A) : Prop := forall w, F (snd (c w)) = F w.

Lemma same_bind {A B C} (F : world -> C) (c : M A) (f : A -> M B) : same F c -> (forall a, same F (f a)) -> same F (bind c f).
Proof. intros Hc Hf w. unfold bind. specialize (Hc w). destruct (c w) as [a w1]. cbn in Hc. by rewrite Hf. Qed.

Lemma same_ret {A C} (F : world -> C) (a : A) : same F (ret a).
Proof. done. Qed.

Lemma same_gets {A C} (F : world -> C) (f : world -> A) : same F (gets f).
Proof. done. Qed.

Lemma same_with_proc {A} (c : proc_t -> A * proc_t) : same w_probes (with_proc c).
Proof. intros w. unfold with_proc, with_inj. by destruct (c (in_proc (w_inj w))). Qed.

Ltac same_step :=
  match goal with
  | |- forall _, _ => intros ?
  | |- same _ (bind _ _) => apply same_bind
  | |- same _ (if ?c then _ else _) => destruct c
  | |- same _ (match ?c with _ => _ end) => destruct c
  | |- same _ (let '(_, _) := ?c in _) => destruct c
  end.
Ltac same_tac := repeat first [apply same_ret | apply same_gets | apply same_with_proc | same_step].

Create HintDb keeps.
#[local] Hint Resolve keeps_ret keeps_gets keeps_with_proc keeps_set_runtime keeps_reset keeps_unregister : keeps.

(** Walk down a computation: split binds and conditions, close the leaves. *)
Ltac keeps_step :=
  match goal with
  | |- forall _, _ => intros ?
  | |- keeps (bind _ _) => apply keeps_bind
  | |- keeps (if ?c then _ else _) => destruct c
  | |- keeps (match ?c with _ => _ end) => destruct c
  | |- keeps (let '(_, _) := ?c in _) => destruct c
  end.
Ltac keeps_tac := repeat first [solve [eauto with keeps] | keeps_step].

Section operations.
Context `{A : Arch} `{Rm : Remote} `{Bd : Builder} (K : kernel_t) (TK : thread_kernel) (R : remote_t) (E : env_t).
Context (sig_formats : zt_probe_info_t -> option zt_trace_event_t -> zt_trace_event_t -> bool).

Lemma keeps_get_probe id : keeps (get_probe id).
Proof. apply keeps_gets. Qed.

Lemma keeps_write_mem a bs : keeps (write_mem K a bs).
Proof. apply keeps_with_proc. Qed.

#[local] Hint Resolve keeps_get_probe keeps_write_mem : keeps.

Lemma keeps_munmap_region get set size : keeps (zt_trace_munmap_region get set size).
Proof. unfold zt_trace_munmap_region. keeps_tac. Qed.

#[local] Hint Resolve keeps_munmap_region : keeps.

Lemma keeps_cleanup : keeps zt_trace_cleanup_runtime.
Proof. unfold zt_trace_cleanup_runtime. keeps_tac. Qed.

Lemma keeps_ask f : keeps (ask f).
Proof. by apply keeps_with_inj. Qed.

#[local] Hint Resolve keeps_cleanup keeps_ask : keeps.

Lemma keeps_exit_window n a : keeps (exit_window_loop E n a).
Proof. induction n as [|n IH]; cbn [exit_window_loop]; keeps_tac. Qed.

#[local] Hint Resolve keeps_exit_window : keeps.

Lemma keeps_mark_exit_window a : keeps (zt_trace_mark_exit_window_if_needed E a).
Proof. unfold zt_trace_mark_exit_window_if_needed, zt_trace_is_exit_window, zt_trace_mark_target_exited. keeps_tac. Qed.

Lemma keeps_write_call_action p : keeps (zt_trace_write_call_action K p).
Proof. unfold zt_trace_write_call_action. keeps_tac. Qed.

Lemma keeps_write_count : keeps (zt_trace_write_call_action_count K).
Proof. unfold zt_trace_write_call_action_count. keeps_tac. Qed.

Lemma keeps_epoch : keeps zt_trace_next_call_action_epoch.
Proof. unfold zt_trace_next_call_action_epoch. keeps_tac. by apply keeps_set_active. Qed.

#[local] Hint Resolve keeps_mark_exit_window keeps_write_call_action keeps_write_count keeps_epoch : keeps.

Lemma remember_loop_spec addr symbol room cs :
  NoDup (cs_addr <$> cs) -> (length cs <= Z.to_nat room)%nat ->
  NoDup (cs_addr <$> remember_loop addr symbol room cs) /\
  (length (remember_loop addr symbol room cs) <= Z.to_nat room)%nat /\
  forall a, a ∈ cs_addr <$> remember_loop addr symbol room cs -> a = addr \/ a ∈ cs_addr <$> cs.
Proof.
  revert room. induction cs as [|c cs IH]; intros room Hn Hl; cbn [remember_loop].
  - destruct (Z.leb_spec room 0).
    + split_and!; [done|done|]. intros a Ha. by right.
    + cbn. split_and!; [apply NoDup_singleton|lia|]. intros a Ha. left. by apply list_elem_of_singleton in Ha.
  - cbn [fmap list_fmap length] in *. apply NoDup_cons in Hn as [Hc Hn].
    destruct (Z.eqb_spec (cs_addr c) addr) as [Ea|Ea].
    + cbn. rewrite <- Ea. split_and!; [by constructor|lia|]. intros a Ha. by right.
    + destruct (IH (room - 1) Hn ltac:(lia)) as (IH1 & IH2 & IH3). cbn. split_and!; [|lia|].
      * constructor; [|done]. intros [?|?]%IH3; done.
      * intros a [-> | Ha]%elem_of_cons; [right; by apply elem_of_cons; left|].
        apply IH3 in Ha as [->|Ha]; [by left|right; by apply elem_of_cons; right].
Qed.

Lemma keeps_remember addr symbol : keeps (zt_trace_remember_call_symbol addr symbol).
Proof.
  unfold zt_trace_remember_call_symbol. destruct (_ || _); [apply keeps_ret|]. apply keeps_set_active.
  intros a (H1 & H2 & H3 & H4).
  destruct (remember_loop_spec addr symbol ZT_TRACE_CALL_SYMBOL_CACHE_CAP (at_call_symbols a) H4) as (H5 & H6 & _).
  { unfold ZT_TRACE_CALL_SYMBOL_CACHE_CAP, ZT_PAYLOAD_PROBE_ACTION_CAP in *. lia. }
  split_and!; try done. cbn [at_call_symbols at_set_symbols].
  unfold ZT_TRACE_CALL_SYMBOL_CACHE_CAP, ZT_PAYLOAD_PROBE_ACTION_CAP in *. lia.
Qed.

(** ** The pool's operations *)

Lemma assign_slot_ident pool p slot : ident (snd (zt_trampoline_pool_assign_slot pool p slot)) = ident p.
Proof. unfold zt_trampoline_pool_assign_slot. destruct (negb _); [done|]. by destruct (_ =? 0). Qed.

Lemma pool_alloc_ident P pool p : ident (snd (zt_trampoline_pool_alloc P pool p)) = ident p.
Proof.
  assert (Hl : forall n slot pool, ident (snd (alloc_loop n slot pool p)) = ident p).
  { induction n as [|n IH]; intros slot pl; cbn [alloc_loop]; [done|].
    destruct (truthy _); [apply IH|apply assign_slot_ident]. }
  unfold zt_trampoline_pool_alloc. destruct (_ && _).
  - destruct (_ && _); [done|apply assign_slot_ident].
  - destruct (zt_trampoline_pool_ensure P pool) as [rc pl]. destruct (negb _); [done|apply Hl].
Qed.

Lemma pool_release_ident P pool p : ident (snd (zt_trampoline_pool_release P pool p)) = ident p.
Proof.
  unfold zt_trampoline_pool_release. destruct (negb _); [done|]. destruct (_ && _); [done|].
  destruct (_ && _); [|done]. by destruct (pe_munmap_ok P).
Qed.

(** The last step of both: the pool and the probe are stored back. *)
Lemma store_back_inv b id pool p p' w :
  world_inv b w -> zt_probe_find_by_id (w_probes w) id = Some p -> ident p' = ident p ->
  world_inv b (snd (set_probe id (fun _ => p') (snd (set_runtime (rt_set_pool pool) w)))).
Proof.
  intros Hw Hp Hi. apply set_probe_inv; [by apply keeps_set_runtime|..].
  - intros q Hq. cbn in Hq. unfold w_probes, w_ses in *. cbn in Hq. congruence.
  - apply find_by_id_lookup in Hp as (j & [_ Hid] & Hid'). congruence.
Qed.

Lemma with_proc_probes {B} (c : proc_t -> B * proc_t) w : w_probes (snd (with_proc c w)) = w_probes w.
Proof. unfold with_proc, with_inj. by destruct (c (in_proc (w_inj w))). Qed.

Lemma keeps_pool_alloc id : keeps (pool_alloc id).
Proof.
  intros b w Hw. unfold pool_alloc, get_probe, gets, bind.
  destruct (zt_probe_find_by_id (w_probes w) id) as [p|] eqn:Hp; [|done].
  set (c := if _ =? 0 then _ else _). assert (Hc : keeps c) by (subst c; keeps_tac).
  specialize (Hc b w Hw). assert (Hwp : w_probes (snd (c w)) = w_probes w).
  { subst c. destruct (_ =? 0); [apply with_proc_probes|done]. }
  destruct (c w) as [addr w1]. cbn [snd] in *.
  pose proof (pool_alloc_ident (mk_pool_env addr false) (rt_trampoline_pool (w_runtime w)) p) as Hi.
  destruct (zt_trampoline_pool_alloc _ _ p) as [[r pool] p']. cbn [snd] in Hi.
  eapply store_back_inv; [done|by rewrite Hwp|done].
Qed.

Lemma keeps_pool_release id : keeps (pool_release id).
Proof.
  intros b w Hw. unfold pool_release, get_probe, gets, bind at 1 2.
  destruct (zt_probe_find_by_id (w_probes w) id) as [p|] eqn:Hp; [|done].
  destruct (zt_trampoline_pool_release (mk_pool_env None true) _ p) as [freed q]. unfold bind at 1.
  set (c := if _ && _ then _ else _). assert (Hc : keeps c) by (subst c; keeps_tac).
  specialize (Hc b w Hw). assert (Hwp : w_probes (snd (c w)) = w_probes w).
  { subst c. destruct (_ && _); [|done]. unfold bind. set (m := remote_munmap _ _). pose proof (with_proc_probes m w) as Hm.
    by destruct (with_proc m w). }
  destruct (c w) as [unmapped w1]. cbn [snd] in *.
  pose proof (pool_release_ident (mk_pool_env None unmapped) (rt_trampoline_pool (w_runtime w)) p) as Hi.
  destruct (zt_trampoline_pool_release _ _ p) as [pool p']. cbn [snd] in Hi.
  eapply store_back_inv; [done|by rewrite Hwp|done].
Qed.

#[local] Hint Resolve keeps_remember keeps_pool_alloc keeps_pool_release : keeps.

(** ** Installation *)

Lemma keeps_enable id : keeps (with_inj (zt_enable_probe K id)).
Proof. apply (keeps_table_op _ id). apply enable_probe_table_op. Qed.

Lemma keeps_install_patch id a : keeps (with_inj (zt_install_probe_patch K TK id a)).
Proof. apply (keeps_table_op _ id). apply install_patch_table_op. Qed.

Lemma keeps_uninstall_patch id : keeps (with_inj (zt_uninstall_probe_patch K TK id)).
Proof. apply (keeps_table_op _ id). apply uninstall_patch_table_op. Qed.

#[local] Hint Resolve keeps_enable keeps_install_patch keeps_uninstall_patch : keeps.

Lemma keeps_install_trampoline id : keeps (install_trampoline K TK id).
Proof. unfold install_trampoline. keeps_tac. Qed.

Lemma keeps_rollback id sn : id <> 0 -> keeps (zt_trace_rollback_probe_install id sn).
Proof. intros Hid. unfold zt_trace_rollback_probe_install. keeps_tac. by apply keeps_set_probe. Qed.

#[local] Hint Resolve keeps_install_trampoline keeps_rollback : keeps.

Lemma installs_register symbol :
  forall w, world_inv true w ->
  let '(r, w1) := with_ses (fun s => zt_register_probe (e_resolve E) s symbol) w in
  world_inv false w1 /\ forall p, r = Some p -> pr_probe_id p <> 0.
Proof.
  intros w [Ht Hs Ha Hn]. unfold with_ses, with_inj.
  destruct (zt_register_probe (e_resolve E) (in_ses (w_inj w)) symbol) as [r s] eqn:Er.
  destruct (register_probe_inv _ _ _ _ _ Ht Hs (Hn eq_refl) Er) as (Ht' & Hs' & Hf). split; [by constructor|].
  intros p ->. specialize (Hf p eq_refl). by apply find_by_id_lookup in Hf as (j & [_ ?] & _).
Qed.

Lemma installs_install_probe symbol filter : installs (zt_trace_install_probe K TK E symbol filter).
Proof.
  intros w Hw. unfold zt_trace_install_probe, gets, bind at 1 2. pose proof (installs_register symbol w Hw) as Hr.
  destruct (with_ses _ w) as [[probe|] w1]; destruct Hr as [Hw1 Hid]; [|done]. specialize (Hid probe eq_refl).
  assert (Hset : forall f, keeps (set_probe (pr_probe_id probe) (zt_trace_set_probe_filter f)))
    by (intros f; by apply keeps_set_probe).
  match goal with |- world_inv _ (snd (?c w1)) => cut (keeps c); [by intros Hc; apply Hc|] end. keeps_tac.
Qed.

(** ** Setup, pause and resume *)

Lemma keeps_setup : keeps (zt_setup_remote_payload K E).
Proof.
  unfold zt_setup_remote_payload, load_payload, init_payload, map_region, call2, payload_symbol. keeps_tac.
Qed.

(** A change between stopped and running, while the trace is active. *)
Lemma set_state_inv b w st :
  world_inv b w -> at_state (g_active_trace w) <> ZT_TRACE_RUNTIME_INACTIVE -> st <> ZT_TRACE_RUNTIME_INACTIVE ->
  world_inv b (snd (set_active (at_set_state st) w)).
Proof.
  intros [Ht Hs (Ha1 & Ha2 & Ha3 & Ha4) Hn] Hst Hne. constructor; cbn; try done. split_and!; try done.
  cbn [at_session at_state at_set_state]. rewrite Ha1, !bool_decide_false by done. done.
Qed.

Lemma ensure_state_keeps (c : zt_injector_session_t -> kstate -> Z * zt_injector_session_t * kstate) st :
  (forall s k, let '(_, s', _) := c s k in ses_table s' = ses_table s) -> st <> ZT_TRACE_RUNTIME_INACTIVE ->
  keeps (let* active := zt_trace_session_is_active in
         if negb active then ret (-1)
         else let* cur := trace_state in
              if bool_decide (cur = st) then ret 0
              else check (with_threads c) ;; let* _ := set_active (at_set_state st) in ret 0).
Proof.
  intros Hc Hst b w Hw. unfold zt_trace_session_is_active, trace_state, gets, bind at 1.
  destruct (bool_decide (at_state (g_active_trace w) = ZT_TRACE_RUNTIME_INACTIVE)) eqn:Es; [done|].
  rewrite bool_decide_eq_false in Es. cbn [negb andb]. destruct (at_session (g_active_trace w)); [|done]. cbn [negb].
  unfold bind at 1. destruct (bool_decide _); [done|]. unfold bind at 1.
  pose proof (keeps_with_threads c Hc b w Hw) as Hw1.
  assert (Ha : g_active_trace (snd (with_threads c w)) = g_active_trace w).
  { unfold with_threads, with_inj. by destruct (c _ _) as [[? ?] ?]. }
  destruct (with_threads c w) as [rc w1]. cbn [snd] in *. destruct (rc =? 0); [|done].
  apply set_state_inv; [done|by rewrite Ha|done].
Qed.

Lemma keeps_ensure_stopped : keeps (zt_trace_ensure_stopped TK).
Proof. apply ensure_state_keeps; [apply interrupt_all_table|done]. Qed.

Lemma keeps_ensure_running : keeps (zt_trace_ensure_running TK).
Proof. apply ensure_state_keeps; [apply continue_all_table|done]. Qed.

#[local] Hint Resolve keeps_setup keeps_ensure_stopped keeps_ensure_running : keeps.

Lemma installs_active_probe symbol filter : installs (zt_trace_install_active_probe K TK E symbol filter).
Proof.
  unfold zt_trace_install_active_probe. apply installs_bind_after; [eauto with keeps|]. intros rc.
  destruct (rc =? 0); [|apply keeps_installs, keeps_ret].
  apply installs_bind_before; [apply installs_install_probe|]. keeps_tac.
Qed.

(** ** Polling *)

Lemma keeps_check_exit : keeps (zt_trace_check_exit_event TK E).
Proof.
  unfold zt_trace_check_exit_event, trace_state, buffer_addr, zt_trace_mark_target_exited. keeps_tac.
  apply keeps_with_threads. intros s k. pose proof (poll_events_table TK s k) as Hp.
  by destruct (zt_injector_poll_events TK s k) as [[[? ?] ?] ?].
Qed.

Lemma keeps_dump fuel : keeps (dump_events R sig_formats fuel).
Proof.
  intros b w [Ht Hs Ha Hn]. unfold dump_events. destruct (zt_dump_trace_events_since _ _ _ _ _ _ _) as [[[rc q]|] r];
    constructor; done.
Qed.

#[local] Hint Resolve keeps_check_exit keeps_dump : keeps.

Lemma keeps_poll fuel : keeps (zt_trace_poll TK R E sig_formats fuel).
Proof. unfold zt_trace_poll, trace_state, buffer_addr, zt_trace_handle_read_failure. keeps_tac. Qed.

(** ** Call actions *)

Lemma slots_inv_assign ps i q :
  slots_inv ps ->
  (has_action q -> 0 <= pr_call_action_slot q < ZT_PAYLOAD_PROBE_ACTION_CAP /\
     forall j r, j <> i -> ps !! j = Some r -> has_action r -> pr_call_action_slot r <> pr_call_action_slot q) ->
  slots_inv (<[i := q]> ps).
Proof.
  intros [Hv Hu] Hq. split.
  - intros j r [(-> & -> & _)|[_ Hj]]%list_lookup_insert_Some Hr; [by apply Hq|by eapply Hv].
  - intros j k r t [(-> & -> & _)|[Hij Hj]]%list_lookup_insert_Some [(-> & -> & _)|[Hik Hk]]%list_lookup_insert_Some Hr Ht Heq;
      [done|..|by eapply Hu].
    + destruct (Hq Hr) as [_ Hne]. by edestruct (Hne k t).
    + destruct (Hq Ht) as [_ Hne]. by edestruct (Hne j r).
Qed.

Lemma uses_spec ps owner slot j r :
  zt_trace_probe_uses_call_slot ps owner slot = false -> 0 <= slot -> ps !! j = Some r -> has_action r ->
  pr_probe_id r <> owner -> pr_call_action_slot r <> slot.
Proof.
  unfold zt_trace_probe_uses_call_slot. intros Hu Hs Hj [Hid Hen] Ho Heq.
  rewrite (proj2 (Z.leb_le 0 slot) Hs) in Hu. cbn [andb] in Hu.
  apply not_true_iff_false in Hu. apply Hu. apply existsb_exists. exists r. split; [by eapply list_elem_of_In, list_elem_of_lookup_2|].
  rewrite !(proj2 (Z.eqb_neq _ _)), (proj2 (Z.eqb_eq _ _) Heq) by done. done.
Qed.

Lemma uses_update ps id f slot :
  (forall p, pr_probe_id (f p) = pr_probe_id p) ->
  zt_trace_probe_uses_call_slot (update_probe id f ps) id slot = zt_trace_probe_uses_call_slot ps id slot.
Proof.
  intros Hf. unfold zt_trace_probe_uses_call_slot. f_equal. induction ps as [|p ps IH]; [done|]. cbn [update_probe].
  destruct (Z.eqb_spec (pr_probe_id p) id) as [Hp|Hp]; cbn [existsb]; [|by rewrite IH].
  by rewrite Hf, (proj2 (Z.eqb_eq _ _) Hp).
Qed.

(** An update that may give the probe another action or slot. *)
Lemma set_probe_assign b id f w p :
  world_inv b w -> zt_probe_find_by_id (w_probes w) id = Some p ->
  pr_probe_id (f p) = pr_probe_id p -> tgt_symbol (pr_target (f p)) = tgt_symbol (pr_target p) ->
  (has_action (f p) -> 0 <= pr_call_action_slot (f p) < ZT_PAYLOAD_PROBE_ACTION_CAP /\
     zt_trace_probe_uses_call_slot (w_probes w) id (pr_call_action_slot (f p)) = false) ->
  world_inv b (snd (set_probe id f w)).
Proof.
  intros [Ht Hs Ha Hn] Hp Hid Hsym Hact. destruct (find_by_id_lookup _ _ _ Hp) as (k & Hk & Hpid).
  destruct (update_probe_insert id f (w_probes w)) as [[_ Hno]|(i & q & Hi & Hq & Eu & Hf)].
  { destruct Hk as [Hk _]. apply list_elem_of_lookup_2 in Hk. by eapply Forall_forall in Hno. }
  assert (Hid0 : id <> 0) by (destruct Hk as [_ ?]; congruence).
  specialize (Hf Hid0). simplify_eq.
  constructor; cbn [snd]; try done.
  - change (w_ses _) with (with_probes (w_ses w) (update_probe (pr_probe_id p) f (w_probes w))). rewrite Eu.
    by eapply table_inv_insert.
  - change (w_probes _) with (update_probe (pr_probe_id p) f (w_probes w)). rewrite Eu.
    apply slots_inv_assign; [done|]. intros Hq'. destruct (Hact Hq') as [Hv Hu]. split; [done|].
    intros j r Hj Hr Hra. eapply uses_spec; [exact Hu|lia|done|done|].
    intros Heq. apply Hj. eapply (ti_ids _ Ht); [split; [exact Hr|apply Hra]|split; [exact Hi|done]|done].
Qed.

Lemma slot_valid_spec slot : zt_trace_call_action_slot_valid slot = true <-> 0 <= slot < ZT_PAYLOAD_PROBE_ACTION_CAP.
Proof. unfold zt_trace_call_action_slot_valid. rewrite andb_true_iff, Z.leb_le, Z.ltb_lt. done. Qed.

Lemma assign_slot_ok ps probe slot :
  zt_trace_assign_call_action_slot ps probe = (0, slot) ->
  0 <= slot < ZT_PAYLOAD_PROBE_ACTION_CAP /\ zt_trace_probe_uses_call_slot ps (pr_probe_id probe) slot = false.
Proof.
  unfold zt_trace_assign_call_action_slot. destruct (pr_probe_id probe =? 0); [done|].
  destruct (_ && _) eqn:Eo.
  - intros [= <-]. apply andb_true_iff in Eo as [Hv Hu]. apply slot_valid_spec in Hv. by zbool.
  - destruct (List.find _ _) as [sl|] eqn:Ef; [|by destruct (zt_trace_call_action_slot_valid _)]. intros [= <-].
    apply find_some in Ef as [Hin Hu]. zbool. split; [|done].
    apply in_map_iff in Hin as (o & <- & _). apply Z.mod_pos_bound. done.
Qed.

Lemma uses_true ps owner slot :
  zt_trace_probe_uses_call_slot ps owner slot = true ->
  exists j r, ps !! j = Some r /\ pr_probe_id r <> owner /\ has_action r /\ pr_call_action_slot r = slot.
Proof.
  unfold zt_trace_probe_uses_call_slot. intros [_ (r & Hin & Hr)%existsb_exists]%andb_true_iff.
  rewrite !andb_true_iff, !negb_true_iff, !Z.eqb_neq, Z.eqb_eq in Hr. destruct Hr as [[[H1 H2] H3] H4].
  apply list_elem_of_In, list_elem_of_lookup in Hin as [j Hj]. by exists j, r.
Qed.

(** A failed assignment leaves the probe without a slot only if it has no action. *)
Lemma assign_slot_failed b w id p rc slot :
  world_inv b w -> zt_probe_find_by_id (w_probes w) id = Some p ->
  zt_trace_assign_call_action_slot (w_probes w) p = (rc, slot) -> rc <> 0 -> ~ has_action p.
Proof.
  intros [_ [Hv Hu] _ _] Hp Has Hrc Hact. destruct (find_by_id_lookup _ _ _ Hp) as (i & [Hi Hid] & Hpid).
  unfold zt_trace_assign_call_action_slot in Has. destruct (Z.eqb_spec (pr_probe_id p) 0); [done|].
  specialize (Hv i p Hi Hact) as Hval. apply slot_valid_spec in Hval. rewrite Hval in Has. cbn [andb] in Has.
  destruct (zt_trace_probe_uses_call_slot _ _ (pr_call_action_slot p)) eqn:Eu; cbn [negb] in Has; [|by simplify_eq].
  apply uses_true in Eu as (j & r & Hj & Hne & Hr & Hs). apply Hne.
  assert (j = i) as -> by (by eapply Hu). congruence.
Qed.

Lemma keeps_update_action id callee args : keeps (zt_trace_update_probe_call_action_args K E id callee args).
Proof.
  intros b w Hw. unfold zt_trace_update_probe_call_action_args, zt_trace_session_is_active, get_probe, gets, bind at 1 2.
  destruct (_ || _); [done|]. destruct (zt_probe_find_by_id (w_probes w) id) as [p|] eqn:Hp; [|done].
  destruct (e_resolve E callee) as [target|]; [|done]. unfold bind at 1.
  destruct (zt_trace_assign_call_action_slot (w_probes w) p) as [rc slot] eqn:Has. unfold bind at 1.
  destruct (find_by_id_spec _ _ _ Hp) as [Hid Hpid].
  destruct (Z.eqb_spec rc 0) as [->|Hrc].
  - apply assign_slot_ok in Has as [Hval Hfree]. rewrite Hpid in Hfree.
    pose proof (set_probe_assign b id (pr_set_action_slot slot) w p Hw Hp eq_refl eq_refl (fun _ => conj Hval Hfree)) as Hw1.
    cbn [negb]. cbn [set_probe with_inj fst snd] in Hw1 |- *. set (w1 := mk_world _ _ _ _ _) in *.
    assert (Hp1 : zt_probe_find_by_id (w_probes w1) id = Some (pr_set_action_slot slot p)).
    { change (w_probes w1) with (update_probe id (pr_set_action_slot slot) (w_probes w)).
      rewrite find_update by done. by rewrite Hp. }
    assert (Hfree1 : zt_trace_probe_uses_call_slot (w_probes w1) id slot = false).
    { change (w_probes w1) with (update_probe id (pr_set_action_slot slot) (w_probes w)). by rewrite uses_update. }
    clearbody w1. unfold bind at 1. pose proof (keeps_epoch b w1 Hw1) as Hw2.
    assert (Hpr : w_probes (snd (zt_trace_next_call_action_epoch w1)) = w_probes w1) by done.
    destruct (zt_trace_next_call_action_epoch w1) as [epoch w2]. cbn [snd] in *. rewrite <- Hpr in Hp1, Hfree1.
    set (action := new_call_action _ _ _ _).
    pose proof (set_probe_assign b id (pr_set_action action (take 63 callee)) w2 _ Hw2 Hp1 eq_refl eq_refl
                  (fun _ => conj Hval Hfree1)) as Hw3.
    unfold bind at 1. cbn [set_probe with_inj fst snd] in Hw3 |- *. set (w3 := mk_world _ _ _ _ _) in *.
    match goal with |- world_inv _ (snd (?c w3)) => cut (keeps c); [by intros Hc; apply Hc|] end.
    unfold write_probe_action. keeps_tac.
  - pose proof (assign_slot_failed b w id p rc slot Hw Hp Has Hrc) as Hno. cbn [negb].
    apply (set_probe_assign b id _ w p); try done.
Qed.

Lemma keeps_clear_action id : keeps (zt_trace_clear_probe_call_action K id).
Proof.
  intros b w Hw. unfold zt_trace_clear_probe_call_action, zt_trace_session_is_active, get_probe, gets, bind at 1 2.
  destruct (zt_probe_find_by_id (w_probes w) id) as [p|] eqn:Hp; [|done]. destruct (negb _); [done|]. unfold bind at 1.
  assert (Hw1 : world_inv b (snd (set_probe id (pr_set_action zero_call_action []) w))).
  { apply (set_probe_assign b id _ w p); try done. by intros [_ ?]. }
  destruct (find_by_id_spec _ _ _ Hp) as [Hid Hpid].
  assert (Hp1 : zt_probe_find_by_id (w_probes (snd (set_probe id (pr_set_action zero_call_action []) w))) id =
                Some (pr_set_action zero_call_action [] p)).
  { change (w_probes _) with (update_probe id (pr_set_action zero_call_action []) (w_probes w)).
    rewrite find_update by done. by rewrite Hp. }
  cbn [set_probe with_inj fst snd] in Hw1, Hp1 |- *. set (w1 := mk_world _ _ _ _ _) in *. clearbody w1. unfold bind at 1.
  set (c := if 0 <=? _ then _ else _).
  assert (Hc : keeps c) by (subst c; unfold write_probe_action; keeps_tac). specialize (Hc b w1 Hw1).
  assert (Hpr : same w_probes c).
  { subst c. unfold write_probe_action, get_probe, zt_trace_write_call_action, write_mem. same_tac. }
  specialize (Hpr w1). destruct (c w1) as [rc w2]. cbn [snd] in *. rewrite <- Hpr in Hp1. destruct (negb _); [done|].
  unfold bind at 1.
  assert (Hw3 : world_inv b (snd (set_probe id (pr_set_action_slot (-1)) w2))).
  { apply (set_probe_assign b id _ w2 (pr_set_action zero_call_action [] p)); try done. by intros [_ ?]. }
  cbn [set_probe with_inj fst snd] in Hw3 |- *. by apply keeps_write_count.
Qed.

#[local] Hint Resolve keeps_update_action keeps_clear_action keeps_poll : keeps.

Lemma keeps_update_filter id filter : keeps (zt_trace_update_probe_filter id filter).
Proof.
  destruct (Z.eqb_spec id 0) as [->|Hid].
  - intros b w Hw. unfold zt_trace_update_probe_filter, get_probe, zt_trace_session_is_active, gets, bind. done.
  - unfold zt_trace_update_probe_filter, zt_trace_session_is_active. keeps_tac. by apply keeps_set_probe.
Qed.

Lemma keeps_disable id : keeps (zt_trace_disable_probe K TK id).
Proof. unfold zt_trace_disable_probe, zt_trace_session_is_active. keeps_tac. Qed.

Lemma installs_enable id : installs (zt_trace_enable_probe K TK E id).
Proof.
  unfold zt_trace_enable_probe, zt_trace_session_is_active.
  apply installs_bind_after; [eauto with keeps|]. intros active. apply installs_bind_after; [eauto with keeps|].
  intros [p|]; [|apply keeps_installs, keeps_ret]. destruct (negb active); [apply keeps_installs, keeps_ret|].
  destruct (bool_decide _); [apply keeps_installs, keeps_ret|]. apply installs_active_probe.
Qed.

(** ** Stop, start and removal *)

Lemma keeps_stop_loop ids rc : keeps (stop_loop K TK ids rc).
Proof. revert rc. induction ids as [|id ids IH]; intros rc; cbn [stop_loop]; keeps_tac. Qed.

#[local] Hint Resolve keeps_stop_loop : keeps.

Lemma keeps_stop : keeps (zt_trace_stop K TK).
Proof. unfold zt_trace_stop, trace_state. keeps_tac. Qed.

#[local] Hint Resolve keeps_stop : keeps.

Lemma keeps_shutdown : keeps (zt_trace_shutdown K TK).
Proof. unfold zt_trace_shutdown, trace_state. keeps_tac. intros b w [? ? ? ?]. by constructor. Qed.

Lemma keeps_load_sigconf : keeps (load_sigconf E).
Proof. intros b w [? ? ? ?]. by constructor. Qed.

Lemma keeps_start_active : keeps (set_active at_start).
Proof. apply keeps_set_active. by intros a (? & ? & ? & ?). Qed.

#[local] Hint Resolve keeps_load_sigconf keeps_start_active : keeps.

Lemma installs_start symbol log_path filter : installs (zt_trace_start_filtered_in_session K TK E symbol log_path filter).
Proof.
  unfold zt_trace_start_filtered_in_session, trace_state, zt_trace_session_is_active.
  apply installs_bind_after; [eauto with keeps|]. intros st. destruct (negb _).
  { apply installs_bind_after; [eauto with keeps|]. intros active. destruct (negb active); [apply keeps_installs, keeps_ret|].
    apply installs_active_probe. }
  destruct (negb _); [apply keeps_installs, keeps_ret|].
  do 3 (apply installs_bind_after; [eauto with keeps|]; intros ?).
  destruct (negb _); [apply keeps_installs; keeps_tac|].
  apply installs_bind_before; [apply installs_install_probe|]. keeps_tac.
Qed.

Lemma keeps_remove id : keeps (zt_trace_remove_probe K TK id).
Proof. unfold zt_trace_remove_probe, trace_state, zt_trace_session_is_active. keeps_tac. Qed.

(** ** Reachable worlds *)

(** The target runs: its memory and its threads change. *)
Definition target_runs (p : proc_t) (k : kstate) (w : world) : world :=
  mk_world (mk_inj (w_ses w) p k) (g_active_trace w) (g_trace_exit_observed w) (w_reader w) (w_sigconf w).

Definition ids_left (w : world) : Prop := ses_next_probe_id (w_ses w) < 2 ^ 64 - 2.

(** The operations of include/zt_trace_runner.h, with any arguments. *)
Inductive api : world -> world -> Prop :=
| api_target p k w : api w (target_runs p k w)
| api_start symbol log_path filter w : ids_left w -> api w (snd (zt_trace_start_filtered_in_session K TK E symbol log_path filter w))
| api_poll fuel w : api w (snd (zt_trace_poll TK R E sig_formats fuel w))
| api_filter id filter w : api w (snd (zt_trace_update_probe_filter id filter w))
| api_action id callee args w : api w (snd (zt_trace_update_probe_call_action_args K E id callee args w))
| api_clear id w : api w (snd (zt_trace_clear_probe_call_action K id w))
| api_enable id w : ids_left w -> api w (snd (zt_trace_enable_probe K TK E id w))
| api_disable id w : api w (snd (zt_trace_disable_probe K TK id w))
| api_remove id w : api w (snd (zt_trace_remove_probe K TK id w))
| api_pause w : api w (snd (zt_trace_pause TK w))
| api_resume w : api w (snd (zt_trace_resume TK w))
| api_shutdown w : api w (snd (zt_trace_shutdown K TK w)).

Lemma api_inv w w' : api w w' -> world_inv false w -> world_inv false w'.
Proof.
  intros Hs Hw.
  assert (Hi : ids_left w -> world_inv true w) by (intros Hl; destruct Hw; by constructor).
  inversion Hs; subst.
  - destruct Hw. by constructor.
  - apply installs_start. auto.
  - by apply keeps_poll.
  - by apply keeps_update_filter.
  - by apply keeps_update_action.
  - by apply keeps_clear_action.
  - apply installs_enable. auto.
  - by apply keeps_disable.
  - by apply keeps_remove.
  - by apply keeps_ensure_stopped.
  - by apply keeps_ensure_running.
  - by apply keeps_shutdown.
Qed.

(** A session as attaching leaves it, and no trace. *)
Definition fresh_world (w : world) : Prop :=
  w_probes w = replicate (Z.to_nat ZT_PROBES_CAPACITY) zero_probe /\ ses_next_probe_id (w_ses w) = 1 /\
  ses_probe_count (w_ses w) = 0 /\ g_active_trace w = zero_active.

Lemma fresh_world_inv w : fresh_world w -> world_inv false w.
Proof.
  intros (Hp & Hn & Hc & Ha). destruct (empty_table_inv (w_ses w)) as [Ht Hs]; [done|by rewrite Hn|done|].
  constructor; [done|done| |done]. rewrite Ha. split_and!; try done. constructor.
Qed.
End operations.

(** C6: in every world the public operations reach from a fresh session, in any order,
    with any arguments and any failures of the kernel, the probe table is well formed
    (unique ids and symbols, free entries zero, the count right), every enabled call
    action has a valid slot of its own, the symbol cache is bounded and without
    duplicates, and a session and an open log are there exactly while a trace is
    active. *)
Theorem trace_reachable_inv `{A : Arch} `{Rm : Remote} `{Bd : Builder} K TK R E sig_formats w0 w :
  fresh_world w0 -> rtc (api K TK R E sig_formats) w0 w -> world_inv false w.
Proof.
  intros Hf Hr. apply fresh_world_inv in Hf. induction Hr as [|x y z Hs _ IH]; [done|].
  apply IH. by eapply api_inv.
Qed.

(** ** A slot is always found *)

(** The other probes cannot hold all the slots. *)
Lemma some_slot_free s i p :
  table_inv s -> registered (ses_probes s) i p ->
  ~ (forall slot, 0 <= slot < ZT_PAYLOAD_PROBE_ACTION_CAP ->
       zt_trace_probe_uses_call_slot (ses_probes s) (pr_probe_id p) slot = true).
Proof.
  intros Ht [Hi Hid] Hall. set (others := filter (fun r => pr_probe_id r <> pr_probe_id p) (ses_probes s)).
  assert (Hlt : (length others < length (ses_probes s))%nat).
  { apply (length_filter_lt _ _ p); [by eapply list_elem_of_lookup_2|auto]. }
  assert (Hsub : seqZ 0 ZT_PAYLOAD_PROBE_ACTION_CAP ⊆+ pr_call_action_slot <$> others).
  { apply NoDup_submseteq; [apply NoDup_seqZ|]. intros slot Hs%elem_of_seqZ.
    destruct (uses_true _ _ _ (Hall slot ltac:(lia))) as (j & r & Hj & Hne & _ & <-).
    apply list_elem_of_fmap_2, list_elem_of_filter. split; [done|by eapply list_elem_of_lookup_2]. }
  apply submseteq_length in Hsub. rewrite length_fmap, length_seqZ in Hsub. rewrite (ti_length _ Ht) in Hlt.
  unfold ZT_PAYLOAD_PROBE_ACTION_CAP, ZT_PROBES_CAPACITY in *. lia.
Qed.

Lemma unused_by_others s i p slot :
  table_inv s -> registered (ses_probes s) i p -> 0 <= slot ->
  zt_trace_probe_uses_call_slot (ses_probes s) (pr_probe_id p) slot = false <->
  (forall j r, j <> i -> ses_probes s !! j = Some r -> has_action r -> pr_call_action_slot r <> slot).
Proof.
  intros Ht Hp Hs. split.
  - intros Hu j r Hj Hr Ha. eapply uses_spec; [exact Hu|done|done|done|]. intros Heq. apply Hj.
    eapply (ti_ids _ Ht); [split; [exact Hr|apply Ha]|exact Hp|done].
  - intros Hno. apply not_true_iff_false. intros (j & r & Hj & Hne & Ha & Heq)%uses_true.
    eapply (Hno j r); [|done|done|done]. intros ->. destruct Hp as [Hp _]. congruence.
Qed.

(** Assigning a call-action slot to a registered probe always succeeds, and the slot
    is one of the shared table's 32 that no other enabled action holds: the probe's own
    if it has a free one, otherwise the first free one from its home slot on. *)
Lemma zt_trace_assign_call_action_slot_total s i p :
  table_inv s -> registered (ses_probes s) i p ->
  exists slot, zt_trace_assign_call_action_slot (ses_probes s) p = (0, slot) /\
    0 <= slot < ZT_PAYLOAD_PROBE_ACTION_CAP /\
    (forall j r, j <> i -> ses_probes s !! j = Some r -> has_action r -> pr_call_action_slot r <> slot) /\
    (0 <= pr_call_action_slot p < ZT_PAYLOAD_PROBE_ACTION_CAP ->
     (forall j r, j <> i -> ses_probes s !! j = Some r -> has_action r -> pr_call_action_slot r <> pr_call_action_slot p) ->
     slot = pr_call_action_slot p).
Proof.
  intros Ht Hp. destruct (zt_trace_assign_call_action_slot (ses_probes s) p) as [rc slot] eqn:Ha.
  assert (Hrc : rc = 0).
  { unfold zt_trace_assign_call_action_slot in Ha. destruct (Z.eqb_spec (pr_probe_id p) 0) as [|Hid]; [by destruct Hp|].
    destruct (_ && _); [by simplify_eq|]. destruct (List.find _ _) eqn:Ef; [by simplify_eq|].
    destruct (some_slot_free s i p Ht Hp). intros k Hk. apply negb_false_iff.
    apply (find_none _ _ Ef). apply in_map_iff. set (h := pr_probe_id p mod ZT_PAYLOAD_PROBE_ACTION_CAP).
    exists ((k - h) mod ZT_PAYLOAD_PROBE_ACTION_CAP). split.
    - rewrite Zplus_mod_idemp_r. replace (h + (k - h)) with k by lia. by apply Z.mod_small.
    - apply list_elem_of_In, elem_of_seqZ. pose proof (Z.mod_pos_bound (k - h) ZT_PAYLOAD_PROBE_ACTION_CAP eq_refl). lia. }
  subst rc. exists slot. destruct (assign_slot_ok _ _ _ Ha) as [Hv Hu]. split_and!; [done|lia|lia| |].
  - by apply (unused_by_others s i p slot Ht Hp (proj1 Hv)).
  - intros Hown Hfree. apply (unused_by_others s i p _ Ht Hp (proj1 Hown)) in Hfree.
    unfold zt_trace_assign_call_action_slot in Ha. destruct (pr_probe_id p =? 0); [done|].
    rewrite (proj2 (slot_valid_spec _) Hown), Hfree in Ha. cbn in Ha. congruence.
Qed.

(** ** Witnesses *)

Definition sample_tracing : world := snd (sample_start sample_world).

Lemma sample_fresh : fresh_world sample_world.
Proof. repeat split. Qed.

Lemma sample_tracing_inv : world_inv false sample_tracing.
Proof. apply installs_start. destruct (fresh_world_inv _ sample_fresh). by constructor. Qed.

(** C6 after a trace of `write` was started and its probe disabled. *)
Lemma trace_reachable_inv_witness :
  world_inv false (snd (zt_trace_disable_probe plain_kernel sample_thread_kernel 1 sample_tracing)).
Proof.
  unfold sample_tracing, sample_start, start_on.
  apply (trace_reachable_inv (A := A64.aarch64_arch) (Rm := sample_remote) (Bd := a64_builder sample_a64_disasm)
    plain_kernel sample_thread_kernel (mk_remote (fun _ _ => None) (fun _ _ => None) (fun _ _ _ => None)) sample_env
    (fun _ _ _ => false) sample_world).
  - exact sample_fresh.
  - eapply rtc_l; [apply (api_start _ _ _ _ _ (lit "write") (lit "/tmp/log") None); reflexivity|].
    eapply rtc_l; [apply api_disable|]. apply rtc_refl.
Defined.

(** For the probe of `write`. *)
Lemma zt_trace_assign_call_action_slot_total_witness :
  match w_probes sample_tracing with
  | p :: _ => exists slot, zt_trace_assign_call_action_slot (w_probes sample_tracing) p = (0, slot) /\
                0 <= slot < ZT_PAYLOAD_PROBE_ACTION_CAP
  | [] => False
  end.
Proof.
  destruct (w_probes sample_tracing) as [|p ps] eqn:E; [vm_compute in E; discriminate E|].
  destruct (zt_trace_assign_call_action_slot_total (w_ses sample_tracing) 0 p) as (slot & H1 & H2 & _).
  - apply (wi_table _ _ sample_tracing_inv).
  - split.
    + change (w_probes sample_tracing !! 0%nat = Some p). rewrite E. reflexivity.
    + assert (Hid : from_option pr_probe_id 0 (head (w_probes sample_tracing)) = 1) by (vm_compute; reflexivity).
      rewrite E in Hid. cbn in Hid. rewrite Hid. discriminate.
  - exists slot. rewrite <- E. split; [exact H1|exact H2].
Defined.

(** Removing the only probe of a running trace ends the trace and leaves the target's threads
    stopped. *)
Lemma untrace_last_leaves_stopped :
  let '(rc, w) := zt_trace_remove_probe (Rm := sample_remote) plain_kernel sample_thread_kernel 1 sample_tracing in
  rc = 0 /\ at_state (g_active_trace w) = ZT_TRACE_RUNTIME_INACTIVE /\
  ses_threads_stopped (w_ses sample_tracing) = 0 /\ ses_threads_stopped (w_ses w) = 1.
Proof. vm_compute. split_and!; reflexivity. Qed.
