(* ===== verification/TraceStop.v ===== *)
(** * Shutting a trace down restores the target

    A shutdown that reports success leaves an empty probe table, no active trace
    and the target's code as it was: every patched prologue holds the saved
    instructions again, and nothing outside the tracer's own mappings changed. *)

From S2P Require Import Prelude CLib Types Reader RemoteMem RemoteMemSpec A64Build Arch Threads ThreadsSpec Probes ProbesSpec Pool SigConf TraceRunner TraceSample TableInv TraceInv.

(** ** What the runner relies on *)

(** Unmapping a region in the target changes nothing outside it. *)
Class RemoteLaws (Rm : Remote) : Prop := {
  munmap_frame : forall a size p x,
    ~ in_range a (Z.to_nat size) x -> pm (snd (remote_munmap a size p)) x = pm p x
}.

Definition wmem (w : world) : Z -> option Z := pm (in_proc (w_inj w)).
Definition probe_at (w : world) (id : Z) : option zt_probe_info_t := zt_probe_find_by_id (w_probes w) id.

(** The instructions an installed probe displaced, and where. *)
Definition displaced (p : zt_probe_info_t) : list Z := take (Z.to_nat (pr_orig_len p)) (pr_orig_code p).
Definition covers (p : zt_probe_info_t) (x : Z) : Prop :=
  pr_state p = ZT_PROBE_INSTALLED /\ in_range (tgt_remote_addr (pr_target p)) (length (displaced p)) x.

#[export] Instance in_range_dec a n x : Decision (in_range a n x).
Proof. unfold in_range. apply _. Defined.
#[export] Instance covers_dec p x : Decision (covers p x).
Proof. unfold covers. apply _. Defined.

(** Saved code that can be written back, at places of its own. *)
Definition saved_ok (p : zt_probe_info_t) : Prop :=
  pr_state p = ZT_PROBE_INSTALLED -> 0 <= tgt_remote_addr (pr_target p) /\
    tgt_remote_addr (pr_target p) + Z.of_nat (length (displaced p)) + 8 <= 2 ^ 64.

Definition disjoint_code (ps : list zt_probe_info_t) : Prop :=
  forall i j p q x, registered ps i p -> registered ps j q -> covers p x -> covers q x -> i = j.

(** The mappings of the tracer in the target, which a shutdown removes. *)
Definition pool_region (w : world) (x : Z) : Prop :=
  let pool := rt_trampoline_pool (w_runtime w) in
  pool_remote_addr pool <> 0 /\ in_range (pool_remote_addr pool) (Z.to_nat (pool_remote_size pool)) x.

Definition tracer_region (w : world) (x : Z) : Prop :=
  pool_region w x \/
  in_range (rt_remote_payload_path_addr (w_runtime w)) (S (length (rt_payload_so_path (w_runtime w)))) x \/
  in_range (rt_remote_payload_config_addr (w_runtime w)) (Z.to_nat sizeof_zt_payload_config_t) x \/
  in_range (rt_remote_trace_buffer_addr (w_runtime w)) (Z.to_nat sizeof_zt_trace_buffer_t) x.

(** ** The table during the loop *)

Lemma find_update_ne ps id id' f :
  id' <> id -> (forall p, pr_probe_id p = id -> pr_probe_id (f p) = id \/ pr_probe_id (f p) = 0) ->
  zt_probe_find_by_id (update_probe id f ps) id' = zt_probe_find_by_id ps id'.
Proof.
  intros Hne Hf. unfold zt_probe_find_by_id. destruct (Z.eqb_spec id' 0) as [|H0]; [done|].
  induction ps as [|p ps IH]; [done|]. cbn [update_probe].
  destruct (Z.eqb_spec (pr_probe_id p) id) as [Hp|Hp]; cbn [List.find].
  - rewrite (proj2 (Z.eqb_neq (pr_probe_id p) id')) by congruence.
    by rewrite (proj2 (Z.eqb_neq (pr_probe_id (f p)) id')) by (destruct (Hf p Hp); congruence).
  - by rewrite IH.
Qed.

(** Unregistering removes the probe with the id and no other. *)
Lemma unregister_find s id rc s' id' :
  table_inv s -> zt_unregister_probe s id = (rc, s') ->
  zt_probe_find_by_id (ses_probes s') id' =
    if decide (id' = id) then None else zt_probe_find_by_id (ses_probes s) id'.
Proof.
  intros Ht. unfold zt_unregister_probe. destruct (zt_probe_find_by_id (ses_probes s) id) as [p|] eqn:Hp.
  2: { intros [= <- <-]. destruct (decide (id' = id)) as [->|]; [done|done]. }
  intros [= <- <-]. cbn [ses_probes]. destruct (find_by_id_lookup _ _ _ Hp) as (i & Hi & Hid).
  destruct (decide (id' = id)) as [->|Hne]; [|apply find_update_ne; [done|by right]].
  destruct (zt_probe_find_by_id (update_probe id (fun _ => zero_probe) (ses_probes s)) id) as [q|] eqn:Hq; [|done].
  apply find_by_id_lookup in Hq as (j & Hj & Hqid).
  destruct (update_probe_insert id (fun _ => zero_probe) (ses_probes s)) as [[_ Hno]|(k & r & Hk & Hrid & Eu & _)].
  - destruct Hi as [Hi _]. apply list_elem_of_lookup_2 in Hi. eapply Forall_forall in Hno; [|exact Hi]. done.
  - rewrite Eu in Hj. apply (registered_update _ _ _ (fun _ => zero_probe) _ _ Hk) in Hj as [(_ & -> & Hz)|[Hjk Hj]];
      [by destruct Hz|].
    destruct Hjk. eapply (ti_ids _ Ht); [exact Hj|split; [exact Hk|destruct Hi as [_ ?]; congruence]|congruence].
Qed.

Section stop.
Context `{A : Arch} `{Rm : Remote} {RL : RemoteLaws Rm} `{Bd : Builder} (K : kernel_t) (TK : thread_kernel).

(** ** One probe *)

(** The parts of the runtime a shutdown unmaps last. *)
Definition regions (w : world) : cstr * Z * Z * Z :=
  (rt_payload_so_path (w_runtime w), rt_remote_payload_path_addr (w_runtime w), rt_remote_payload_config_addr (w_runtime w),
   rt_remote_trace_buffer_addr (w_runtime w)).

Lemma release_pool_addr P pool p :
  let pool' := fst (zt_trampoline_pool_release P pool p) in
  pool_remote_addr pool' = 0 \/ pool_remote_addr pool' = pool_remote_addr pool /\ pool_remote_size pool' = pool_remote_size pool.
Proof.
  unfold zt_trampoline_pool_release. destruct (negb _); [by right|]. destruct (_ && _); [by right|].
  destruct (_ && _); [|by right]. destruct (pe_munmap_ok P); [by left|by right].
Qed.

(** What one step of the loop leaves alone. *)
Record step_frame (id : Z) (w w' : world) : Prop := {
  sf_others : forall id', id' <> id -> probe_at w' id' = probe_at w id';
  sf_pool : forall x, pool_region w' x -> pool_region w x;
  sf_regions : regions w' = regions w;
  sf_mem : forall x, ~ pool_region w x -> wmem w' x = wmem w x
}.

Lemma step_frame_trans id w1 w2 w3 : step_frame id w1 w2 -> step_frame id w2 w3 -> step_frame id w1 w3.
Proof.
  intros [O1 P1 R1 M1] [O2 P2 R2 M2]. constructor.
  - intros id' Hne. by rewrite O2, O1.
  - auto.
  - congruence.
  - intros x Hx. rewrite M2, M1; auto.
Qed.

Lemma pool_release_frame id w : step_frame id w (snd (pool_release id w)).
Proof.
  unfold pool_release, get_probe, gets, bind at 1 2.
  destruct (zt_probe_find_by_id (w_probes w) id) as [p|] eqn:Hp; [|by constructor].
  destruct (zt_trampoline_pool_release (mk_pool_env None true) _ p) as [freed q]. unfold bind at 1.
  set (c := if _ && _ then _ else _).
  assert (Hc : let w1 := snd (c w) in w_probes w1 = w_probes w /\ w_runtime w1 = w_runtime w /\
            forall x, ~ pool_region w x -> wmem w1 x = wmem w x).
  { subst c. destruct (negb (pool_remote_addr (rt_trampoline_pool (w_runtime w)) =? 0) && _) eqn:Eb; [|done].
    apply andb_true_iff in Eb as [Ha _]. zbool. unfold bind, with_proc, with_inj.
    pose proof (munmap_frame (pool_remote_addr (rt_trampoline_pool (w_runtime w)))
                  (pool_remote_size (rt_trampoline_pool (w_runtime w))) (in_proc (w_inj w))) as Hm.
    destruct (remote_munmap _ _ _) as [rc pr]. cbn [snd] in *. split; [done|]. split; [done|].
    intros x Hx. apply Hm. intros Hin. apply Hx. by split. }
  destruct (c w) as [unmapped w1]. cbn [snd] in Hc. destruct Hc as (Hpr & Hrt & Hm). cbn [fst snd].
  pose proof (release_pool_addr (mk_pool_env None unmapped) (rt_trampoline_pool (w_runtime w)) p) as Hpool.
  pose proof (pool_release_ident (mk_pool_env None unmapped) (rt_trampoline_pool (w_runtime w)) p) as Hi.
  destruct (zt_trampoline_pool_release _ _ p) as [pool p']. cbn [fst snd] in Hpool, Hi.
  unfold ident in Hi. injection Hi as Hi _ _ _ _. destruct (find_by_id_spec _ _ _ Hp) as [Hid Hpid].
  constructor.
  - intros id' Hne. unfold probe_at.
    match goal with |- zt_probe_find_by_id ?ps _ = _ => change ps with (update_probe id (fun _ => p') (w_probes w1)) end. rewrite Hpr.
    apply find_update_ne; [done|]. intros _ _. left. congruence.
  - intros x [Hx1 Hx2]. cbn in Hx1, Hx2. destruct Hpool as [?|[Ea Es]]; [done|]. rewrite Ea, Es in Hx2. rewrite Ea in Hx1. by split.
  - transitivity (regions w1); [reflexivity|]. unfold regions. by rewrite Hrt.
  - intros x Hx. transitivity (wmem w1 x); [reflexivity|]. by apply Hm.
Qed.

(** The first step for an entry: an installed probe is uninstalled. *)
Definition uninstall_step (id : Z) (p : option zt_probe_info_t) (rc : Z) : M Z :=
  if match p with Some p => bool_decide (pr_state p = ZT_PROBE_INSTALLED) | None => false end
  then let* r := with_inj (zt_uninstall_probe_patch K TK id) in ret (if r =? 0 then rc else -1)
  else ret rc.

Lemma stop_loop_cons id ids rc :
  id <> 0 ->
  stop_loop K TK (id :: ids) rc =
  (let* p := get_probe id in
   let* rc := uninstall_step id p rc in
   let* _ := pool_release id in
   let* _ := with_ses (fun s => zt_unregister_probe s id) in
   stop_loop K TK ids rc).
Proof. intros Hid. cbn [stop_loop]. by rewrite (proj2 (Z.eqb_neq id 0) Hid). Qed.

Lemma keeps_uninstall_step id p rc : keeps (uninstall_step id p rc).
Proof.
  unfold uninstall_step. destruct (match p with Some _ => _ | None => _ end); [|apply keeps_ret].
  apply keeps_bind; [apply keeps_uninstall_patch|]. intros r. apply keeps_ret.
Qed.

Lemma uninstall_others i i' rc id id' :
  zt_uninstall_probe_patch K TK id i = (rc, i') -> id' <> id -> wprobe i' id' = wprobe i id'.
Proof.
  intros H Hne. unfold zt_uninstall_probe_patch in H. destruct (zt_probe_find_by_id _ id); [|by simplify_eq].
  destruct (_ =? 0); [by simplify_eq|]. destruct (ensure_safe TK i) as [rc1 i1] eqn:Hs.
  apply ensure_safe_keeps in Hs as [_ Hs]. destruct (negb _); [simplify_eq; apply Hs|].
  destruct (zt_write_remote_memory K _ _ _) as [rc2 pr]. destruct (negb _); simplify_eq; [apply Hs|].
  rewrite <- Hs. unfold wprobe. cbn. apply find_update_ne; [done|]. intros q Hq. by left.
Qed.

Lemma uninstall_step_spec id w p rc :
  probe_at w id = Some p -> saved_ok p -> fst (uninstall_step id (Some p) rc w) = 0 ->
  let w' := snd (uninstall_step id (Some p) rc w) in
  rc = 0 /\ (forall id', id' <> id -> probe_at w' id' = probe_at w id') /\ w_runtime w' = w_runtime w /\
  forall x, wmem w' x = if decide (covers p x) then displaced p !! Z.to_nat (x - tgt_remote_addr (pr_target p)) else wmem w x.
Proof.
  intros Hp Hok H0. unfold uninstall_step in *. case_bool_decide as Hst.
  - unfold bind, with_inj in *. destruct (zt_uninstall_probe_patch K TK id (w_inj w)) as [r i] eqn:Hu. cbn [fst snd ret] in *.
    destruct (Z.eqb_spec r 0) as [->|]; [|done]. subst rc. destruct (Hok Hst) as [Ha Hr].
    destruct (uninstall_spec K TK id (w_inj w) i p Hu Hp Ha Hr) as [_ Hm]. split_and!; [done| |done|].
    + intros id' Hne. by apply (uninstall_others _ _ _ _ _ Hu).
    + intros x. unfold wmem. cbn [w_inj]. change (pm (in_proc i)) with (wm i). rewrite Hm.
      unfold covers, displaced. destruct (decide (in_range _ _ x)) as [Hx|Hx], (decide (_ /\ _)) as [Hy|Hy]; try done; tauto.
  - cbn [fst snd ret] in *. split_and!; [done|done|done|]. intros x.
    destruct (decide (covers p x)) as [[? _]|]; done.
Qed.

Lemma unregister_frame id w :
  table_inv (w_ses w) ->
  let w' := snd (with_ses (fun s => zt_unregister_probe s id) w) in
  (forall id', probe_at w' id' = if decide (id' = id) then None else probe_at w id') /\
  g_active_trace w' = g_active_trace w /\ wmem w' = wmem w.
Proof.
  intros Ht. unfold with_ses, with_inj. destruct (zt_unregister_probe (in_ses (w_inj w)) id) as [rc s] eqn:Hu. cbn.
  split; [|done]. intros id'. unfold probe_at, w_probes, w_ses. cbn. by eapply unregister_find.
Qed.

(** ** The loop *)

(** Once a removal failed the loop reports it. *)
Lemma stop_loop_rc ids rc w : fst (stop_loop K TK ids rc w) = 0 -> rc = 0.
Proof.
  revert rc w. induction ids as [|id ids IH]; intros rc w H0; [done|].
  destruct (Z.eqb_spec id 0) as [->|Hid]; [by apply (IH rc w)|]. rewrite stop_loop_cons in H0 by done.
  unfold bind at 1 2 3 4, get_probe, gets in H0. destruct (uninstall_step id _ rc w) as [rc1 w1] eqn:Hu.
  destruct (pool_release id w1) as [[] w2]. destruct (with_ses _ w2) as [rc3 w3]. apply IH in H0. subst rc1.
  unfold uninstall_step in Hu. destruct (match _ with Some _ => _ | None => _ end); [|unfold ret in Hu; congruence].
  unfold bind, with_inj, ret in Hu. destruct (zt_uninstall_probe_patch K TK id (w_inj w)) as [r i].
  destruct (r =? 0); congruence.
Qed.

(** The effect of removing the probe [p]: it is gone, its saved code is back. *)
Record removed (id : Z) (p : zt_probe_info_t) (w w1 : world) : Prop := {
  rm_probes : forall id', probe_at w1 id' = if decide (id' = id) then None else probe_at w id';
  rm_pool : forall x, pool_region w1 x -> pool_region w x;
  rm_regions : regions w1 = regions w;
  rm_mem : forall x, ~ pool_region w x ->
    wmem w1 x = if decide (covers p x) then displaced p !! Z.to_nat (x - tgt_remote_addr (pr_target p)) else wmem w x
}.

Lemma stop_loop_step id ids p w w' :
  world_inv false w -> id <> 0 -> probe_at w id = Some p -> saved_ok p ->
  stop_loop K TK (id :: ids) 0 w = (0, w') ->
  exists w1, removed id p w w1 /\ world_inv false w1 /\ stop_loop K TK ids 0 w1 = (0, w').
Proof.
  intros Hw Hid Hp Hok Hrun. rewrite stop_loop_cons in Hrun by done.
  unfold bind at 1 2 3 4, get_probe, gets in Hrun. unfold probe_at in Hp. rewrite Hp in Hrun.
  pose proof (keeps_uninstall_step id (Some p) 0 false w Hw) as Hw1.
  pose proof (uninstall_step_spec id w p 0 Hp Hok) as Hu.
  destruct (uninstall_step id (Some p) 0 w) as [rc1 w1]. cbn [fst snd] in Hw1, Hu.
  pose proof (keeps_pool_release id false w1 Hw1) as Hw2. pose proof (pool_release_frame id w1) as Hrel.
  destruct (pool_release id w1) as [[] w2]. cbn [snd] in Hw2, Hrel.
  pose proof (keeps_unregister id false w2 Hw2) as Hw3. pose proof (unregister_frame id w2 (wi_table _ _ Hw2)) as Hun.
  destruct (with_ses _ w2) as [rc3 w3]. cbn [snd] in Hw3, Hun.
  assert (rc1 = 0) as -> by (by eapply (stop_loop_rc ids _ w3); rewrite Hrun).
  destruct (Hu eq_refl) as (_ & Hu1 & Hu2 & Hu3). destruct Hrel as [Hr1 Hr2 Hr3 Hr4]. destruct Hun as (Hn1 & Hn2 & Hn3).
  assert (Hpool1 : forall x, pool_region w1 x <-> pool_region w x) by (intros x; unfold pool_region; by rewrite Hu2).
  assert (Hrt : w_runtime w3 = w_runtime w2) by (unfold w_runtime; by rewrite Hn2).
  exists w3. split_and!; [constructor|done|done].
  - intros id'. rewrite Hn1. destruct (decide (id' = id)) as [|Hne]; [done|]. by rewrite Hr1, Hu1.
  - intros x. unfold pool_region at 1. rewrite Hrt. intros Hx. by apply Hpool1, Hr2.
  - transitivity (regions w2); [unfold regions; by rewrite Hrt|]. rewrite Hr3. unfold regions. by rewrite Hu2.
  - intros x Hx. rewrite Hn3, Hr4 by (by rewrite Hpool1). apply Hu3.
Qed.

(** Nothing but the saved code of the removed probes is written. *)
Record all_removed (ids : list Z) (w w' : world) : Prop := {
  ar_probes : forall id, probe_at w' id = if decide (id ∈ ids) then None else probe_at w id;
  ar_regions : regions w' = regions w;
  ar_mem : forall x, ~ pool_region w x ->
    (forall id p, id ∈ ids -> probe_at w id = Some p -> ~ covers p x) -> wmem w' x = wmem w x;
  ar_code : forall x id p, ~ pool_region w x -> id ∈ ids -> probe_at w id = Some p -> covers p x ->
    (forall id' q, id' ∈ ids -> probe_at w id' = Some q -> covers q x -> id' = id) ->
    wmem w' x = displaced p !! Z.to_nat (x - tgt_remote_addr (pr_target p))
}.

Lemma probe_at_zero w : probe_at w 0 = None.
Proof. done. Qed.

Lemma all_removed_zero ids w w' : all_removed ids w w' -> all_removed (0 :: ids) w w'.
Proof.
  intros [H1 H2 H3 H4].
  assert (Hin : forall id p, id ∈ 0 :: ids -> probe_at w id = Some p -> id ∈ ids).
  { intros id p [->|?]%elem_of_cons Hp; [by rewrite probe_at_zero in Hp|done]. }
  constructor; [|done| |].
  - intros id. rewrite H1. destruct (decide (id ∈ ids)) as [Hi|Hi], (decide (id ∈ 0 :: ids)) as [Hj|Hj]; try done.
    + destruct Hj. by apply elem_of_cons; right.
    + apply elem_of_cons in Hj as [->|?]; done.
  - intros x Hx Hno. apply H3; [done|]. intros id p Hi. apply Hno. by apply elem_of_cons; right.
  - intros x id p Hx Hi Hp Hc Hu. apply (H4 x id p); try done; [by eapply Hin|].
    intros id' q Hi'. apply Hu. by apply elem_of_cons; right.
Qed.

Lemma all_removed_cons id p ids w w1 w' :
  probe_at w id = Some p -> id ∉ ids -> removed id p w w1 -> all_removed ids w1 w' -> all_removed (id :: ids) w w'.
Proof.
  intros Hp Hni [R1 R2 R3 R4] [H1 H2 H3 H4].
  assert (Hsame : forall id', id' ∈ ids -> probe_at w1 id' = probe_at w id').
  { intros id' Hi. rewrite R1. by destruct (decide (id' = id)) as [->|]. }
  constructor; [|congruence| |].
  - intros id'. rewrite H1, R1. pose proof (elem_of_cons ids id' id) as Hin.
    destruct (decide (id' ∈ ids)), (decide (id' = id)), (decide (id' ∈ id :: ids)); try done; tauto.
  - intros x Hx Hno. rewrite H3; [|by intros Hy; apply Hx, R2|].
    + rewrite R4 by done. rewrite decide_False; [done|]. apply (Hno id); [by apply elem_of_cons; left|done].
    + intros id' q Hi. rewrite Hsame by done. apply Hno. by apply elem_of_cons; right.
  - intros x id' q Hx [Hi|Hi]%elem_of_cons Hq Hc Hu.
    + subst id'. simplify_eq. rewrite H3; [|by intros Hy; apply Hx, R2|].
      * rewrite R4 by done. by rewrite decide_True.
      * intros id'' r Hi. rewrite Hsame by done. intros Hr Hcr. apply Hni.
        assert (id'' = id) as <- by (apply (Hu id'' r); [by apply elem_of_cons; right|done|done]). done.
    + apply (H4 x id' q); try done; [by intros Hy; apply Hx, R2|by rewrite Hsame|].
      intros id'' r Hi'. rewrite Hsame by done. apply Hu. by apply elem_of_cons; right.
Qed.

Lemma stop_loop_spec ids w w' :
  world_inv false w -> NoDup (filter (fun id => id <> 0) ids) ->
  (forall id, id ∈ ids -> id <> 0 -> exists p, probe_at w id = Some p /\ saved_ok p) ->
  stop_loop K TK ids 0 w = (0, w') -> all_removed ids w w'.
Proof.
  revert w. induction ids as [|id ids IH]; intros w Hw Hnd Hall Hrun.
  { cbn [stop_loop] in Hrun. unfold ret in Hrun. assert (w' = w) as -> by congruence. constructor; [|done|done|by intros x id p _ Hin%not_elem_of_nil].
    intros id. by rewrite decide_False by apply not_elem_of_nil. }
  rewrite filter_cons in Hnd. destruct (decide (id <> 0)) as [Hid|Hid].
  - apply NoDup_cons in Hnd as [Hni Hnd].
    assert (Hni' : id ∉ ids) by (intros Hi; apply Hni, list_elem_of_filter; done).
    destruct (Hall id) as (p & Hp & Hok); [by apply elem_of_cons; left|done|].
    destruct (stop_loop_step id ids p w w' Hw Hid Hp Hok Hrun) as (w1 & Hrm & Hw1 & Hrun1).
    apply (all_removed_cons id p ids w w1 w'); try done. apply IH; try done.
    intros id' Hi Hid'. destruct (Hall id') as (q & Hq & Hqok); [by apply elem_of_cons; right|done|].
    exists q. split; [|done]. destruct Hrm as [R1 _ _ _]. rewrite R1. by destruct (decide (id' = id)) as [->|].
  - assert (id = 0) as -> by (destruct (decide (id = 0)); [done|tauto]).
    apply all_removed_zero, IH; try done. intros id' Hi. apply Hall. by apply elem_of_cons; right.
Qed.

(** ** Before and after the loop *)

Lemma ensure_stopped_frame w rc w1 :
  zt_trace_ensure_stopped TK w = (rc, w1) ->
  w_probes w1 = w_probes w /\ wmem w1 = wmem w /\ w_runtime w1 = w_runtime w.
Proof.
  unfold zt_trace_ensure_stopped, zt_trace_session_is_active, trace_state, gets, bind at 1 2.
  destruct (negb _); [by intros [= <- <-]|]. destruct (bool_decide _); [by intros [= <- <-]|].
  unfold bind, with_threads, with_inj. pose proof (interrupt_all_table TK (in_ses (w_inj w)) (in_k (w_inj w))) as Ht.
  destruct (zt_injector_interrupt_all TK _ _) as [[r s] k]. unfold ses_table in Ht. injection Ht as Hp _ _.
  cbn. destruct (r =? 0); intros [= <- <-]; split_and!; [exact Hp|done|done|exact Hp|done|done].
Qed.

(** Unmapping one region. *)
Lemma munmap_region_frame get set size w x :
  ~ in_range (get (w_runtime w)) (Z.to_nat size) x ->
  let w1 := snd (zt_trace_munmap_region get set size w) in
  wmem w1 x = wmem w x /\
  (w_runtime w1 = w_runtime w \/ w_runtime w1 = set 0 (w_runtime w)).
Proof.
  intros Hx. unfold zt_trace_munmap_region, gets, bind, with_proc, with_inj.
  destruct (_ =? 0); [by split; [|left]|].
  pose proof (munmap_frame (get (w_runtime w)) size (in_proc (w_inj w)) x Hx) as Hm.
  destruct (remote_munmap _ _ _) as [rc p]. cbn [snd] in Hm. destruct (negb _); split; [exact Hm|by left|exact Hm|by right].
Qed.

(** The session is not part of what a cleanup changes. *)
Lemma cleanup_ses : same w_ses zt_trace_cleanup_runtime.
Proof.
  assert (Hp : forall {B} (c : proc_t -> B * proc_t), same w_ses (with_proc c)).
  { intros B c w. unfold with_proc, with_inj. by destruct (c (in_proc (w_inj w))). }
  assert (Hr : forall f, same w_ses (set_runtime f)) by done.
  unfold zt_trace_cleanup_runtime, zt_trace_munmap_region. repeat first [apply Hp | apply Hr | progress same_tac].
Qed.

Lemma cleanup_frame w x :
  let '(path, a1, a2, a3) := regions w in
  ~ in_range a1 (S (length path)) x -> ~ in_range a2 (Z.to_nat sizeof_zt_payload_config_t) x ->
  ~ in_range a3 (Z.to_nat sizeof_zt_trace_buffer_t) x ->
  let w1 := snd (zt_trace_cleanup_runtime w) in wmem w1 x = wmem w x.
Proof.
  unfold regions. intros H1 H2 H3. unfold zt_trace_cleanup_runtime, gets, bind at 1.
  unfold bind at 1. pose proof (munmap_region_frame rt_remote_payload_path_addr rt_set_path_addr
    (Z.of_nat (length (rt_payload_so_path (w_runtime w))) + 1) w x) as F1.
  destruct (zt_trace_munmap_region rt_remote_payload_path_addr _ _ w) as [r1 w1]. cbn [snd] in F1.
  replace (Z.to_nat (Z.of_nat (length (rt_payload_so_path (w_runtime w))) + 1))
    with (S (length (rt_payload_so_path (w_runtime w)))) in F1 by lia.
  destruct (F1 H1) as (M1 & R1).
  unfold bind at 1. pose proof (munmap_region_frame rt_remote_payload_config_addr rt_set_payload_config
    sizeof_zt_payload_config_t w1 x) as F2.
  destruct (zt_trace_munmap_region rt_remote_payload_config_addr _ _ w1) as [r2 w2]. cbn [snd] in F2.
  destruct F2 as (M2 & R2); [by destruct R1 as [->| ->]|].
  unfold bind at 1. pose proof (munmap_region_frame rt_remote_trace_buffer_addr rt_set_trace_buffer
    sizeof_zt_trace_buffer_t w2 x) as F3.
  destruct (zt_trace_munmap_region rt_remote_trace_buffer_addr _ _ w2) as [r3 w3]. cbn [snd] in F3.
  destruct F3 as (M3 & _); [by destruct R2 as [->| ->], R1 as [->| ->]|].
  cbn [ret snd]. congruence.
Qed.
End stop.

Section shutdown.
Context `{A : Arch} `{Rm : Remote} {RL : RemoteLaws Rm} `{Bd : Builder} (K : kernel_t) (TK : thread_kernel).

Lemma ids_nodup s : table_inv s -> NoDup (filter (fun id => id <> 0) (map pr_probe_id (ses_probes s))).
Proof.
  intros Ht. pose proof (ti_ids _ Ht) as Hu. unfold registered in Hu. revert Hu. generalize (ses_probes s) as ps.
  induction ps as [|p ps IH]; intros Hu; [constructor|]. cbn [map]. rewrite filter_cons.
  assert (Htl : NoDup (filter (fun id => id <> 0) (map pr_probe_id ps))).
  { apply IH. intros i j q r Hq Hr He. by apply (inj S), (Hu (S i) (S j) q r). }
  destruct (decide (pr_probe_id p <> 0)) as [Hp|]; [|done]. apply NoDup_cons. split; [|done].
  intros [_ Hin]%list_elem_of_filter. apply list_elem_of_fmap in Hin as (q & Hpq & Hq).
  apply list_elem_of_lookup in Hq as [j Hq]. discriminate (Hu 0%nat (S j) p q); [done|by split; [|congruence]|done].
Qed.

Lemma registered_probe_at w i p :
  world_inv false w -> registered (w_probes w) i p -> probe_at w (pr_probe_id p) = Some p.
Proof. intros Hw Hp. by apply (find_registered _ i p (wi_table _ _ Hw)). Qed.

Lemma probe_at_registered w id p : probe_at w id = Some p -> exists i, registered (w_probes w) i p /\ pr_probe_id p = id.
Proof. apply find_by_id_lookup. Qed.

Lemma probe_at_in w id p : probe_at w id = Some p -> id ∈ map pr_probe_id (w_probes w).
Proof.
  intros (i & [Hi _] & <-)%probe_at_registered. apply list_elem_of_fmap. exists p. split; [done|by eapply list_elem_of_lookup_2].
Qed.

(** With every probe gone the table is zero. *)
Lemma empty_table w :
  world_inv false w -> (forall id, probe_at w id = None) ->
  w_probes w = replicate (Z.to_nat ZT_PROBES_CAPACITY) zero_probe /\ ses_probe_count (w_ses w) = 0.
Proof.
  intros Hw Hno. pose proof (wi_table _ _ Hw) as Ht.
  assert (Hz : forall i p, w_probes w !! i = Some p -> p = zero_probe).
  { intros i p Hi. apply (ti_free _ Ht i p Hi). destruct (decide (pr_probe_id p = 0)) as [|Hid]; [done|].
    specialize (Hno (pr_probe_id p)). by rewrite (registered_probe_at w i p) in Hno. }
  assert (E : w_probes w = replicate (Z.to_nat ZT_PROBES_CAPACITY) zero_probe).
  { rewrite <- (ti_length _ Ht). symmetry. apply replicate_as_Forall. split; [done|].
    apply Forall_lookup. intros i p Hi. symmetry. by eapply Hz. }
  split; [done|]. rewrite (ti_count _ Ht). fold (w_probes w). by rewrite E.
Qed.

(** The three steps of a successful shutdown. *)
Lemma stop_inv w w' :
  zt_trace_stop K TK w = (0, w') ->
  exists w1 w2, zt_trace_ensure_stopped TK w = (0, w1) /\
    stop_loop K TK (map pr_probe_id (w_probes w1)) 0 w1 = (0, w2) /\
    w' = snd (zt_trace_reset_active 0 (snd (zt_trace_cleanup_runtime w2))).
Proof.
  unfold zt_trace_stop, trace_state, gets, bind at 1. destruct (bool_decide _); [done|]. unfold bind at 1.
  destruct (zt_trace_ensure_stopped TK w) as [rc w1]. destruct (Z.eqb_spec rc 0) as [->|]; [|done].
  unfold bind at 1, bind at 1. destruct (stop_loop K TK _ 0 w1) as [rc2 w2] eqn:Hl. unfold bind at 1.
  destruct (zt_trace_cleanup_runtime w2) as [rc3 w3] eqn:Hc. unfold bind, ret. cbn [snd].
  destruct (rc3 =? 0); intros E; [|done]. injection E as -> <-. exists w1, w2. by rewrite Hc.
Qed.

(** C5: a shutdown that reports success, started in a consistent state in which no two
    installed probes cover a common byte and their code lies in the address space, leaves
    no probe and no trace and gives the target its code back: outside the tracer's own
    mappings, every byte under an installed probe is the saved one and every other byte is
    untouched.  Probes on two names of one function do overlap and are excluded: removing
    them in table order leaves a jump behind ([alias_probes_stale_jump]). *)
Theorem zt_trace_stop_restores w w' :
  world_inv false w -> (forall i p, registered (w_probes w) i p -> saved_ok p) -> disjoint_code (w_probes w) ->
  zt_trace_stop K TK w = (0, w') ->
  w_probes w' = replicate (Z.to_nat ZT_PROBES_CAPACITY) zero_probe /\ ses_probe_count (w_ses w') = 0 /\
  g_active_trace w' = zero_active /\
  forall x, ~ tracer_region w x ->
    (forall i p, registered (w_probes w) i p -> covers p x ->
       wmem w' x = displaced p !! Z.to_nat (x - tgt_remote_addr (pr_target p))) /\
    ((forall i p, registered (w_probes w) i p -> ~ covers p x) -> wmem w' x = wmem w x).
Proof.
  intros Hw Hok Hdis (w1 & w2 & H1 & H2 & ->)%stop_inv. pose proof (keeps_ensure_stopped TK false w Hw) as Hw1.
  rewrite H1 in Hw1. cbn [snd] in Hw1. destruct (ensure_stopped_frame _ _ _ _ H1) as (Hp1 & Hm1 & Hr1).
  pose proof (keeps_stop_loop K TK (map pr_probe_id (w_probes w1)) 0 false w1 Hw1) as Hw2. rewrite H2 in Hw2. cbn [snd] in Hw2.
  assert (Hall : all_removed (map pr_probe_id (w_probes w1)) w1 w2).
  { apply (stop_loop_spec K TK); [done|by apply ids_nodup, (wi_table _ _ Hw1)| |done].
    intros id (p & -> & Hp)%list_elem_of_fmap Hid. apply list_elem_of_lookup in Hp as [i Hp].
    exists p. split; [by apply (registered_probe_at w1 i)|]. apply (Hok i). by rewrite <- Hp1. }
  destruct Hall as [A1 A2 A3 A4].
  assert (Hnone : forall id, probe_at w2 id = None).
  { intros id. rewrite A1. destruct (decide _) as [|Hni]; [done|].
    destruct (probe_at w1 id) as [p|] eqn:E; [|done]. by apply probe_at_in in E. }
  pose proof (keeps_cleanup false w2 Hw2) as Hw3.
  assert (Hses : w_ses (snd (zt_trace_cleanup_runtime w2)) = w_ses w2) by apply cleanup_ses.
  destruct (empty_table w2 Hw2 Hnone) as [Ht Hc].
  split_and!; [by rewrite <- Ht; unfold w_probes; rewrite <- Hses|by rewrite <- Hc, <- Hses|done|].
  intros x Hx. unfold tracer_region, pool_region in Hx. rewrite <- Hr1 in Hx.
  assert (Hpool : ~ pool_region w1 x) by (intros ?; apply Hx; by left).
  assert (Hcl : wmem (snd (zt_trace_cleanup_runtime w2)) x = wmem w2 x).
  { pose proof (cleanup_frame w2 x) as F. rewrite A2 in F. unfold regions in F.
    apply F; intros Hr; apply Hx; [right; left|right; right; left|right; right; right]; exact Hr. }
  split.
  - intros i p Hp Hcov. transitivity (wmem w2 x); [exact Hcl|]. rewrite <- Hp1 in Hp.
    pose proof (registered_probe_at w1 i p Hw1 Hp) as Hat. apply (A4 x (pr_probe_id p) p); try done; [by eapply probe_at_in|].
    intros id' q _ (j & Hq & <-)%probe_at_registered Hcq. rewrite Hp1 in Hp, Hq.
    assert (j = i) as -> by (by apply (Hdis j i q p x)). destruct Hp, Hq. congruence.
  - intros Hno. transitivity (wmem w2 x); [exact Hcl|]. rewrite <- Hm1. apply A3; [done|].
    intros id p _ (i & Hp & _)%probe_at_registered. apply (Hno i). by rewrite <- Hp1.
Qed.
End shutdown.

(** ** Witness *)

#[export] Instance sample_remote_laws : RemoteLaws sample_remote.
Proof.
  constructor. intros a size p x Hx. cbn. destruct (_ && _) eqn:E; [|done].
  destruct Hx. unfold in_range. apply andb_true_iff in E as [E1 E2]. zbool. lia.
Qed.

(** The one probe of the sample session. *)
Lemma sample_tracing_probes i p :
  registered (w_probes sample_tracing) i p ->
  i = 0%nat /\ tgt_remote_addr (pr_target p) = 0x401000 /\ pr_state p = ZT_PROBE_INSTALLED /\
  displaced p = sample_prologue.
Proof.
  assert (E : exists q, w_probes sample_tracing = q :: replicate 31 zero_probe /\
    tgt_remote_addr (pr_target q) = 0x401000 /\ pr_state q = ZT_PROBE_INSTALLED /\
    displaced q = sample_prologue).
  { destruct (w_probes sample_tracing) as [|q ps] eqn:E; [vm_compute in E; discriminate E|]. exists q.
    vm_compute in E. injection E as <- <-. by vm_compute. }
  destruct E as (q & -> & Hq). intros [Hi Hp]. destruct i as [|i]; cbn in Hi; [by simplify_eq|].
  apply (lookup_replicate_1 31) in Hi as [-> _]. done.
Qed.

(** C5 for the sample session: the first byte of `write` is the original one again. *)
Lemma zt_trace_stop_restores_witness :
  wmem sample_tracing 0x401003 = Some 0x58 /\
  wmem (snd (zt_trace_stop (Rm := sample_remote) plain_kernel sample_thread_kernel sample_tracing)) 0x401003 = Some 0xB0.
Proof.
  split; [vm_compute; reflexivity|].
  destruct (zt_trace_stop (Rm := sample_remote) plain_kernel sample_thread_kernel sample_tracing) as [rc w'] eqn:E.
  assert (rc = 0) as -> by (change rc with (fst (rc, w')); rewrite <- E; vm_compute; reflexivity).
  destruct (zt_trace_stop_restores (Rm := sample_remote) plain_kernel sample_thread_kernel sample_tracing w')
    as (_ & _ & _ & H).
  - exact sample_tracing_inv.
  - intros i p (_ & Ha & _ & Hd)%sample_tracing_probes _. rewrite Ha, Hd. split; vm_compute; discriminate.
  - intros i j p q x (-> & _)%sample_tracing_probes (-> & _)%sample_tracing_probes _ _. reflexivity.
  - exact E.
  - cbn [snd]. destruct (w_probes sample_tracing) as [|p ps] eqn:Ep; [vm_compute in Ep; discriminate Ep|].
    assert (Hp : registered (p :: ps) 0 p).
    { split; [reflexivity|]. assert (Hid : from_option pr_probe_id 0 (head (w_probes sample_tracing)) = 1) by (vm_compute; reflexivity).
      rewrite Ep in Hid. cbn in Hid. rewrite Hid. discriminate. }
    pose proof Hp as Hp'. rewrite <- Ep in Hp'. apply sample_tracing_probes in Hp' as (_ & Ha & Hs & Hd).
    destruct (H 0x401003) as [H1 _].
    + unfold tracer_region, pool_region, in_range. intros Hr. revert Hr. vm_compute. intuition discriminate.
    + rewrite (H1 0%nat p Hp); [rewrite Ha, Hd; reflexivity|]. unfold covers, in_range. rewrite Ha, Hd. split; [exact Hs|].
      vm_compute. split; [discriminate|reflexivity].
Defined.
