(* ===== verification/TraceInstall.v ===== *)
(** * Installing a probe: rollback and effect

    A failed installation leaves the probe table as it was; a successful one leaves
    the trampoline in its slot, the jump at the function and all else alone. *)

From S2P Require Import Prelude CLib Types Reader RemoteMem RemoteMemSpec A64Build Arch Threads ThreadsSpec Probes ProbesSpec Pool SigConf Symbols TraceRunner TraceSample TableInv TraceInv.

(** ** Computations that touch one probe *)

Lemma update_compose ps id f g :
  id <> 0 -> (forall p, zt_probe_find_by_id ps id = Some p -> pr_probe_id (f p) = id) ->
  update_probe id g (update_probe id f ps) = update_probe id (fun p => g (f p)) ps.
Proof.
  intros Hid. unfold zt_probe_find_by_id. rewrite (proj2 (Z.eqb_neq id 0) Hid).
  induction ps as [|p ps IH]; [done|]. cbn [update_probe List.find].
  destruct (Z.eqb_spec (pr_probe_id p) id) as [Hp|Hp]; intros Hf; cbn [update_probe].
  - by rewrite (proj2 (Z.eqb_eq _ _) (Hf p eq_refl)).
  - rewrite (proj2 (Z.eqb_neq _ _) Hp). by rewrite IH.
Qed.

Lemma find_updated ps id f p :
  zt_probe_find_by_id ps id = Some p -> pr_probe_id (f p) = id -> zt_probe_find_by_id (update_probe id f ps) id = Some (f p).
Proof.
  unfold zt_probe_find_by_id. destruct (Z.eqb_spec id 0); [done|]. intros Hp Hf. revert Hp.
  induction ps as [|q ps IH]; [done|]. cbn [update_probe List.find].
  destruct (Z.eqb_spec (pr_probe_id q) id) as [Hq|Hq]; cbn [List.find].
  - intros [= ->]. by rewrite (proj2 (Z.eqb_eq _ _) Hf).
  - by rewrite (proj2 (Z.eqb_neq _ _) Hq).
Qed.

Lemma update_id ps id f :
  id <> 0 -> (forall p, zt_probe_find_by_id ps id = Some p -> f p = p) -> update_probe id f ps = ps.
Proof.
  intros Hid. unfold zt_probe_find_by_id. rewrite (proj2 (Z.eqb_neq id 0) Hid).
  induction ps as [|p ps IH]; [done|]. cbn [update_probe List.find].
  destruct (Z.eqb_spec (pr_probe_id p) id); intros Hf; [by rewrite Hf|by rewrite IH].
Qed.

(** The table of the session with other probes. *)
Definition table_with (s : zt_injector_session_t) (ps : list zt_probe_info_t) : list zt_probe_info_t * Z * Z :=
  (ps, ses_next_probe_id s, ses_probe_count s).

(** The probe [id] is changed, in what does not identify it, and no other. *)
Definition updates (id : Z) {B} (c : M B) : Prop := forall w, exists f,
  (forall p, zt_probe_find_by_id (w_probes w) id = Some p -> ident (f p) = ident p) /\
  ses_table (w_ses (snd (c w))) = table_with (w_ses w) (update_probe id f (w_probes w)).

Section updates.
Context (id : Z) (Hid : id <> 0).

Lemma updates_table {B} (c : M B) : (forall w, ses_table (w_ses (snd (c w))) = ses_table (w_ses w)) -> updates id c.
Proof.
  intros H w. exists (fun p => p). split; [done|]. rewrite H, update_id by done. done.
Qed.

Lemma updates_ret {B} (b : B) : updates id (ret b).
Proof. by apply updates_table. Qed.

Lemma updates_gets {B} (f : world -> B) : updates id (gets f).
Proof. by apply updates_table. Qed.

Lemma updates_set_runtime f : updates id (set_runtime f).
Proof. by apply updates_table. Qed.

Lemma updates_with_proc {B} (c : proc_t -> B * proc_t) : updates id (with_proc c).
Proof. apply updates_table. intros w. unfold with_proc, with_inj. by destruct (c (in_proc (w_inj w))). Qed.

Lemma updates_set_probe f : (forall p, ident (f p) = ident p) -> updates id (set_probe id f).
Proof. intros Hf w. by exists f. Qed.

Lemma updates_bind {B C} (c : M B) (k : B -> M C) : updates id c -> (forall b, updates id (k b)) -> updates id (bind c k).
Proof.
  intros Hc Hk w. destruct (Hc w) as (f & Hf & Hs). unfold bind. destruct (c w) as [b w1]. cbn [snd] in Hs.
  destruct (Hk b w1) as (g & Hg & Hs2). destruct (k b w1) as [c' w2]. cbn [snd] in *.
  unfold ses_table, table_with in *. injection Hs as Hp Hn Hct. injection Hs2 as Hp2 Hn2 Hct2.
  fold (w_probes w1) in Hp. assert (Hfid : forall p, zt_probe_find_by_id (w_probes w) id = Some p -> pr_probe_id (f p) = id).
  { intros p Hfp. destruct (find_by_id_spec _ _ _ Hfp) as [_ <-]. specialize (Hf p Hfp). unfold ident in Hf. congruence. }
  exists (fun p => g (f p)). split.
  - intros p Hfp. rewrite Hg; [by apply Hf|]. rewrite Hp. apply find_updated; auto.
  - rewrite Hp2, Hn2, Hct2, Hp, Hn, Hct, update_compose by done. done.
Qed.

Lemma updates_table_op {B} (c : inj_t -> B * inj_t) : (forall i, table_op id i (snd (c i))) -> updates id (with_inj c).
Proof.
  intros Hc w. destruct (Hc (w_inj w)) as (s1 & Hs1 & Hi). unfold with_inj. destruct (c (w_inj w)) as [b i].
  cbn [snd] in *. unfold ses_table in Hs1. injection Hs1 as Hp Hn Hct.
  destruct Hi as [Hi|(_ & f & Hf & Hi)].
  - exists (fun p => p). split; [done|]. rewrite update_id by done. unfold w_ses, ses_table, table_with, w_probes, w_ses.
    cbn [w_inj]. by rewrite Hi, Hp, Hn, Hct.
  - exists f. split; [auto|]. unfold w_ses, ses_table, table_with, w_probes, w_ses. cbn [w_inj]. by rewrite Hi, <- Hp, <- Hn, <- Hct.
Qed.

(** A computation on the probe the code holds a pointer to. *)
Lemma updates_found {B} (c : M B) :
  (forall w, zt_probe_find_by_id (w_probes w) id = None -> ses_table (w_ses (snd (c w))) = ses_table (w_ses w)) ->
  (forall w p, zt_probe_find_by_id (w_probes w) id = Some p -> exists p', ident p' = ident p /\
     ses_table (w_ses (snd (c w))) = table_with (w_ses w) (update_probe id (fun _ => p') (w_probes w))) ->
  updates id c.
Proof.
  intros Hnone Hsome w. destruct (zt_probe_find_by_id (w_probes w) id) as [p|] eqn:Hp.
  - destruct (Hsome w p Hp) as (p' & Hi & Ht). exists (fun _ => p'). split; [|done]. by intros q [= <-].
  - exists (fun p => p). split; [done|]. rewrite Hnone, update_id by done. done.
Qed.

Lemma store_back pool p p' w w1 :
  ses_table (w_ses w1) = ses_table (w_ses w) -> ident p' = ident p ->
  exists q, ident q = ident p /\
    ses_table (w_ses (snd (set_probe id (fun _ => p') (snd (set_runtime (rt_set_pool pool) w1))))) =
    table_with (w_ses w) (update_probe id (fun _ => q) (w_probes w)).
Proof.
  intros Ht Hi. unfold ses_table in Ht. injection Ht as H1 H2 H3. exists p'. split; [done|].
  unfold table_with, w_probes. rewrite <- H1, <- H2, <- H3. done.
Qed.
End updates.

Create HintDb updates.
#[local] Hint Resolve updates_ret updates_gets updates_set_runtime updates_with_proc : updates.

Ltac updates_step :=
  match goal with
  | |- forall _, _ => intros ?
  | |- updates _ (bind _ _) => apply updates_bind
  | |- updates _ (if ?c then _ else _) => destruct c
  | |- updates _ (match ?c with _ => _ end) => destruct c
  | |- updates _ (let '(_, _) := ?c in _) => destruct c
  end.
Ltac updates_tac := repeat first [assumption | solve [eauto with updates] | updates_step].

Section install.
Context `{A : Arch} `{Rm : Remote} `{Bd : Builder} (K : kernel_t) (TK : thread_kernel) (E : env_t).
Context (id : Z) (Hid : id <> 0).

Lemma ret_or_proc_table {B} (x : bool) (c : proc_t -> option B * proc_t) w :
  ses_table (w_ses (snd ((if x then with_proc c else ret None) w))) = ses_table (w_ses w).
Proof. destruct x; [|done]. unfold with_proc, with_inj. by destruct (c (in_proc (w_inj w))). Qed.

Lemma updates_pool_alloc : updates id (pool_alloc id).
Proof.
  apply (updates_found id Hid); [intros w Hp|intros w p Hp]; unfold pool_alloc, get_probe, gets, bind; rewrite Hp; [done|].
  set (c := if _ =? 0 then _ else _). pose proof (ret_or_proc_table _ _ w : ses_table (w_ses (snd (c w))) = _) as Hc.
  destruct (c w) as [addr w1]. cbn [snd] in Hc.
  pose proof (pool_alloc_ident (mk_pool_env addr false) (rt_trampoline_pool (w_runtime w)) p) as Hi.
  destruct (zt_trampoline_pool_alloc _ _ p) as [[r pool] p']. cbn [snd] in Hi.
  by eapply store_back.
Qed.

Lemma updates_pool_release : updates id (pool_release id).
Proof.
  apply (updates_found id Hid); [intros w Hp|intros w p Hp]; unfold pool_release, get_probe, gets, bind at 1 2; rewrite Hp; [done|].
  destruct (zt_trampoline_pool_release (mk_pool_env None true) _ p) as [freed q]. unfold bind at 1.
  set (c := if _ && _ then _ else _).
  assert (Hc : ses_table (w_ses (snd (c w))) = ses_table (w_ses w)).
  { subst c. destruct (_ && _); [|done]. unfold bind, with_proc, with_inj. by destruct (remote_munmap _ _ _). }
  destruct (c w) as [unmapped w1]. cbn [snd] in Hc.
  pose proof (pool_release_ident (mk_pool_env None unmapped) (rt_trampoline_pool (w_runtime w)) p) as Hi.
  destruct (zt_trampoline_pool_release _ _ p) as [pool p']. cbn [snd] in Hi.
  by eapply store_back.
Qed.

Lemma updates_enable : updates id (with_inj (zt_enable_probe K id)).
Proof. apply (updates_table_op id Hid), enable_probe_table_op. Qed.

Lemma updates_install_patch a : updates id (with_inj (zt_install_probe_patch K TK id a)).
Proof. apply (updates_table_op id Hid), install_patch_table_op. Qed.

Lemma updates_get_probe id' : updates id (get_probe id').
Proof. by apply updates_gets. Qed.

#[local] Hint Resolve updates_pool_alloc updates_pool_release updates_enable updates_install_patch updates_get_probe : updates.

Lemma updates_install_trampoline : updates id (install_trampoline K TK id).
Proof. unfold install_trampoline, write_mem. updates_tac. Qed.

(** Everything of an installation between the snapshot and the rollback's last step. *)
Definition attempt (filter : option zt_probe_filter_t) : M Z :=
  let* _ := set_probe id (zt_trace_set_probe_filter filter) in
  let* rc := with_inj (zt_enable_probe K id) in
  if negb (rc =? 0) then ret (-1) else install_trampoline K TK id.

Definition release_new (sn : zt_probe_install_snapshot_t) : M unit :=
  let* probe := get_probe id in
  let allocated_addr := from_option pr_trampoline_addr 0 probe in
  if negb (allocated_addr =? 0) && negb (allocated_addr =? sn_trampoline_addr sn) then pool_release id else ret tt.

Lemma updates_attempt filter : updates id (attempt filter).
Proof.
  unfold attempt. apply updates_bind; [done|by apply updates_set_probe|]. intros _.
  pose proof updates_install_trampoline. updates_tac.
Qed.

Lemma updates_release_new sn : updates id (release_new sn).
Proof. unfold release_new. updates_tac. Qed.

(** The snapshot has all an installation changes. *)
Lemma restore_capture p q existed :
  ident q = ident p -> restore_snapshot (zt_trace_capture_probe_install_snapshot p existed) q = p.
Proof. destruct p, q. unfold ident. cbn. intros [= -> -> -> -> ->]. done. Qed.
End install.

Section rollback.
Context `{A : Arch} `{Rm : Remote} `{Bd : Builder} (K : kernel_t) (TK : thread_kernel) (E : env_t).

Definition register (symbol : cstr) : M (option zt_probe_info_t) := with_ses (fun s => zt_register_probe (e_resolve E) s symbol).

(** The last step of a rollback. *)
Definition undo (id : Z) (sn : zt_probe_install_snapshot_t) : M unit :=
  if negb (sn_existed sn) then let* _ := with_ses (fun s => zt_unregister_probe s id) in ret tt
  else set_probe id (restore_snapshot sn).

Lemma rollback_steps id sn w : zt_trace_rollback_probe_install id sn w = undo id sn (snd (release_new id sn w)).
Proof.
  unfold zt_trace_rollback_probe_install, release_new, get_probe, gets, bind. cbv beta zeta.
  set (c := if _ && _ then _ else _). destruct (c w) as [[] w1]. cbn [snd]. unfold undo, bind. done.
Qed.

(** The steps of an installation that fails. *)
Lemma install_fails symbol filter w rc w' :
  zt_trace_install_probe K TK E symbol filter w = (rc, w') -> rc <> 0 ->
  exists r w1, register symbol w = (r, w1) /\
    match r with
    | None => w' = w1
    | Some p =>
        let id := pr_probe_id p in
        let sn := zt_trace_capture_probe_install_snapshot p (bool_decide (is_Some (zt_probe_find_by_symbol (w_probes w) symbol))) in
        w' = snd (undo id sn (snd (release_new id sn (snd (attempt K TK id filter w1)))))
    end.
Proof.
  unfold zt_trace_install_probe, gets, bind at 1 2. fold (register symbol). intros H Hrc.
  destruct (register symbol w) as [[p|] w1]; [|exists None, w1; unfold ret in H; split; [done|congruence]].
  exists (Some p), w1. split; [done|]. cbv zeta. set (sn := zt_trace_capture_probe_install_snapshot _ _) in *.
  destruct (bool_decide _) in H; [unfold bind, ret in H; destruct filter; cbn in H; congruence|].
  unfold attempt. unfold bind at 1 in H. unfold bind at 1. destruct (set_probe _ _ w1) as [[] w2].
  unfold bind at 1 in H. unfold bind at 1. destruct (with_inj _ w2) as [rc1 w3].
  unfold bind at 1 in H. destruct ((if negb (rc1 =? 0) then ret (-1) else _) w3) as [rc2 w4]. cbn [snd].
  destruct (negb (rc2 =? 0)); [|unfold ret in H; congruence].
  unfold bind at 1 in H. rewrite rollback_steps in H. destruct (undo _ _ _) as [[] w5]. unfold ret in H. cbn [snd]. congruence.
Qed.

(** A registration that fails changes nothing; one that finds the symbol's probe returns
    it; otherwise a free entry is filled. *)
Lemma register_cases symbol w r w1 :
  world_inv true w -> (forall t, e_resolve E symbol = Some t -> tgt_symbol t = symbol) ->
  register symbol w = (r, w1) ->
  match r with
  | None => ses_table (w_ses w1) = ses_table (w_ses w)
  | Some p => pr_probe_id p <> 0 /\
      match zt_probe_find_by_symbol (w_probes w) symbol with
      | Some q => q = p /\ w1 = w /\ zt_probe_find_by_id (w_probes w) (pr_probe_id p) = Some p
      | None => exists i, w_probes w !! i = Some zero_probe /\ w_probes w1 = <[i := p]> (w_probes w) /\
          Forall (fun q => pr_probe_id q <> pr_probe_id p) (w_probes w) /\
          ses_probe_count (w_ses w1) = ses_probe_count (w_ses w) + 1
      end
  end.
Proof.
  intros Hw Hsym. pose proof (wi_table _ _ Hw) as Ht. unfold register, with_ses, with_inj, zt_register_probe.
  change (ses_probes (in_ses (w_inj w))) with (w_probes w).
  destruct (zt_probe_find_by_symbol (w_probes w) symbol) as [q|] eqn:Hf.
  { intros E1. injection E1 as <- <-. apply find_by_symbol_lookup in Hf as (i & Hi & _). split; [apply Hi|].
    split_and!; [done|by destruct w as [[] ? ? ? ?]|]. by apply (find_registered _ i). }
  destruct (e_resolve E symbol) as [t|] eqn:Hr; [|intros E1; injection E1 as <- <-; done]. rewrite <- (Hsym t eq_refl) in Hf.
  unfold zt_probe_alloc. destruct (_ =? 0)%nat; [intros E1; injection E1 as <- <-; done|].
  change (ses_probes (in_ses (w_inj w))) with (w_probes w). rewrite Hf.
  destruct (take_probe_id _) as [id next] eqn:Hid. pose proof (ti_next _ Ht). pose proof (wi_fresh _ _ Hw eq_refl).
  apply take_probe_id_fresh in Hid as (Hpos & Hge & _); [|fold (w_ses w); lia]. fold (w_ses w) in Hge.
  destruct (fill_free (new_probe id t) (w_probes w)) as [ps|] eqn:Hff; [|intros E1; injection E1 as <- <-; done].
  intros E1. injection E1 as <- <-. cbn [pr_probe_id new_probe]. split; [lia|].
  destruct (fill_free_insert _ _ _ Hff) as (i & q & Hi & Hq & ->). exists i. split_and!; [|done| |done].
  - by rewrite (ti_free _ Ht i q Hi Hq) in Hi.
  - apply Forall_lookup. intros j r Hj. destruct (decide (pr_probe_id r = 0)); [lia|].
    destruct (ti_id _ Ht j r) as [_ Hlt]; [done|]. lia.
Qed.

(** Undoing a registration empties the entry again. *)
Lemma update_inserted ps i p id f :
  ps !! i = Some zero_probe -> pr_probe_id p = id -> Forall (fun q => pr_probe_id q <> id) ps ->
  update_probe id f (<[i := p]> ps) = <[i := f p]> ps.
Proof.
  revert i. induction ps as [|q ps IH]; intros i Hi Hp Hno; [done|]. apply Forall_cons in Hno as [Hq Hno].
  destruct i as [|i]; cbn in Hi |- *; [by rewrite (proj2 (Z.eqb_eq _ _) Hp)|].
  rewrite (proj2 (Z.eqb_neq _ _) Hq). f_equal. by apply IH.
Qed.

Lemma find_inserted ps i p :
  ps !! i = Some zero_probe -> pr_probe_id p <> 0 -> Forall (fun q => pr_probe_id q <> pr_probe_id p) ps ->
  zt_probe_find_by_id (<[i := p]> ps) (pr_probe_id p) = Some p.
Proof.
  unfold zt_probe_find_by_id. intros Hi Hid. rewrite (proj2 (Z.eqb_neq _ _) Hid). revert i Hi.
  induction ps as [|q ps IH]; intros i Hi Hno; [done|]. apply Forall_cons in Hno as [Hq Hno].
  destruct i as [|i]; cbn in Hi |- *; [by rewrite Z.eqb_refl|]. rewrite (proj2 (Z.eqb_neq _ _) Hq). by apply IH.
Qed.

(** Unregistering a probe that was registered in a free entry. *)
Lemma unregister_new s ps i p f :
  ps !! i = Some zero_probe -> pr_probe_id p <> 0 -> Forall (fun q => pr_probe_id q <> pr_probe_id p) ps ->
  ses_probes s = update_probe (pr_probe_id p) f (<[i := p]> ps) -> ident (f p) = ident p -> 0 < ses_probe_count s ->
  let s' := snd (zt_unregister_probe s (pr_probe_id p)) in
  ses_probes s' = ps /\ ses_probe_count s' = ses_probe_count s - 1.
Proof.
  intros Hi Hid Hno Hs Hf Hc.
  assert (Hfid : pr_probe_id (f p) = pr_probe_id p) by (unfold ident in Hf; congruence).
  pose proof (find_inserted ps i p Hi Hid Hno) as Hfind. unfold zt_unregister_probe.
  rewrite Hs, (find_updated _ _ _ p Hfind Hfid). cbn [snd ses_probes ses_probe_count]. split.
  - rewrite update_compose; [|done|congruence]. rewrite update_inserted by done. by apply list_insert_id.
  - destruct (Z.gtb_spec (ses_probe_count s) 0); lia.
Qed.

(** The attempt and the release, as one update of the probe. *)
Lemma attempt_updates id sn filter w :
  id <> 0 -> exists f,
    (forall p, zt_probe_find_by_id (w_probes w) id = Some p -> ident (f p) = ident p) /\
    ses_table (w_ses (snd (release_new id sn (snd (attempt K TK id filter w))))) =
    table_with (w_ses w) (update_probe id f (w_probes w)).
Proof.
  intros Hid.
  assert (Hu : updates id (let* _ := attempt K TK id filter in release_new id sn)).
  { apply updates_bind; [done|by apply updates_attempt|]. intros _. by apply updates_release_new. }
  specialize (Hu w). unfold bind in Hu. by destruct (attempt K TK id filter w).
Qed.

(** The resolver of zt_injector.c stores the name cut off to the size of its field. *)
Lemma resolve_stores_name fs pid im symbol t :
  zt_resolve_symbol_target fs pid im symbol = Ok t -> tgt_symbol t = take (Z.to_nat (ZT_PROBE_SYMBOL_MAX - 1)) symbol.
Proof. unfold zt_resolve_symbol_target. intros H. repeat case_match; simplify_eq; done. Qed.

(** So does the environment's. *)
Definition stores_name (symbol : cstr) : Prop :=
  forall t, e_resolve E symbol = Some t -> tgt_symbol t = take (Z.to_nat (ZT_PROBE_SYMBOL_MAX - 1)) symbol.

(** C7: an installation of a symbol whose name fits its field (at most 63 characters, as the
    resolver stores no more), tried in a consistent state and failing at any step, leaves
    the probe table exactly as it was: a probe that existed gets back its state, trampoline,
    saved code and filter, and a newly registered one is gone.  Longer names are excluded
    because their rollback removes an existing probe ([long_symbol_rollback_drops_probe]). *)
Theorem zt_trace_install_probe_rollback symbol filter w rc w' :
  world_inv true w -> stores_name symbol -> Z.of_nat (length symbol) < ZT_PROBE_SYMBOL_MAX ->
  zt_trace_install_probe K TK E symbol filter w = (rc, w') -> rc <> 0 ->
  w_probes w' = w_probes w /\ ses_probe_count (w_ses w') = ses_probe_count (w_ses w).
Proof.
  intros Hw Hname Hlen Hrun Hrc. destruct (install_fails _ _ _ _ _ Hrun Hrc) as (r & w1 & Hreg & Hr).
  assert (Hsym : forall t, e_resolve E symbol = Some t -> tgt_symbol t = symbol) by (intros t ->%Hname; apply take_ge; lia).
  pose proof (register_cases _ _ _ _ Hw Hsym Hreg) as Hcases. destruct r as [p|].
  2: { subst w'. unfold ses_table in Hcases. injection Hcases as Hp _ Hc. by split. }
  destruct Hcases as [Hid Hcases]. set (sn := zt_trace_capture_probe_install_snapshot _ _) in Hr. cbv zeta in Hr.
  destruct (attempt_updates (pr_probe_id p) sn filter w1 Hid) as (f & Hf & Ht).
  destruct (release_new _ _ _) as [[] w2]. cbn [snd] in Ht, Hr. unfold ses_table, table_with in Ht. injection Ht as Hp Hn Hc.
  fold (w_probes w2) in Hp. unfold undo in Hr. destruct (zt_probe_find_by_symbol (w_probes w) symbol) as [q|].
  - destruct Hcases as (-> & -> & Hfind). cbn in Hr. subst w'. split; [|done]. unfold w_probes, w_ses. cbn.
    fold (w_ses w2) (w_probes w2). rewrite Hp, update_compose; [|done|].
    + apply update_id; [done|]. intros q' Hq. change (zt_probe_find_by_id (w_probes w) (pr_probe_id p) = Some q') in Hq. rewrite Hfind in Hq.
      simplify_eq. by apply restore_capture, Hf.
    + intros q' Hq. rewrite Hfind in Hq. simplify_eq. specialize (Hf _ Hfind). unfold ident in Hf. congruence.
  - destruct Hcases as (i & Hi & Hp1 & Hno & Hc1). rewrite Hp1 in Hp.
    pose proof (find_inserted _ _ _ Hi Hid Hno) as Hfind. rewrite <- Hp1 in Hfind. specialize (Hf p Hfind).
    pose proof (unregister_new (w_ses w2) (w_probes w) i p f Hi Hid Hno Hp Hf) as Hun.
    assert (Hpos : 0 <= ses_probe_count (w_ses w)) by (rewrite (ti_count _ (wi_table _ _ Hw)); lia).
    rewrite Hc, Hc1 in Hun. specialize (Hun ltac:(lia)).
    cbn [sn_existed sn zt_trace_capture_probe_install_snapshot] in Hr. subst w'. unfold bind, with_ses, with_inj. cbn.
    fold (w_ses w2). destruct (zt_unregister_probe (w_ses w2) (pr_probe_id p)) as [rc1 s]. cbn [snd] in Hun.
    destruct Hun as [Hun1 Hun2]. split; [exact Hun1|]. transitivity (ses_probe_count s); [reflexivity|lia].
Qed.
End rollback.

(** ** Witnesses *)

(** A kernel that refuses writes. *)
Definition no_writes : kernel_t := mk_kernel (fun _ _ size => size) (fun _ _ _ => -1) (fun _ _ => true) (fun _ _ => false).

Definition sample_disabled : world := snd (zt_trace_disable_probe plain_kernel sample_thread_kernel 1 sample_tracing).

Lemma sample_disabled_inv : world_inv true sample_disabled.
Proof.
  assert (H : world_inv false sample_disabled) by (apply keeps_disable, sample_tracing_inv).
  destruct H. constructor; try assumption. intros _. vm_compute. reflexivity.
Qed.

Definition sample_install (K : kernel_t) (symbol : cstr) : M Z :=
  zt_trace_install_probe (A := A64.aarch64_arch) (Rm := sample_remote) (Bd := a64_builder sample_a64_disasm)
    K sample_thread_kernel sample_env symbol None.

(** C7: `write`, traced and disabled, stays as it is when enabling it again fails. *)
Lemma zt_trace_install_probe_rollback_witness :
  let '(rc, w') := sample_install no_writes (lit "write") sample_disabled in
  rc = -1 /\ w_probes w' = w_probes sample_disabled.
Proof.
  unfold sample_install.
  destruct (zt_trace_install_probe no_writes sample_thread_kernel sample_env (lit "write") None sample_disabled)
    as [rc w'] eqn:E.
  assert (Hrc : rc = -1) by (change rc with (fst (rc, w')); rewrite <- E; vm_compute; reflexivity).
  destruct (zt_trace_install_probe_rollback (A := A64.aarch64_arch) (Rm := sample_remote)
    (Bd := a64_builder sample_a64_disasm) no_writes sample_thread_kernel sample_env (lit "write") None
    sample_disabled rc w') as [H _].
  - exact sample_disabled_inv.
  - intros t Ht. injection Ht as <-. reflexivity.
  - reflexivity.
  - exact E.
  - rewrite Hrc. discriminate.
  - split; [exact Hrc|exact H].
Defined.

(** A jump that the kernel cuts short stays: the installation fails, its probe is
    unregistered and its trampoline unmapped, but the first bytes of the jump are left
    in the target's code. *)
Lemma failed_install_leaves_partial_jump :
  let cut := mk_kernel (fun _ _ size => size) (fun _ a size => if a =? 0x401000 then 6 else size) (fun _ _ => true)
               (fun _ _ => false) in
  let '(rc, w') := start_on cut (lit "write") sample_world in
  rc = -1 /\ ses_probe_count (w_ses w') = 0 /\ pool_remote_addr (rt_trampoline_pool (w_runtime w')) = 0 /\
  read_bytes (pm sample_text) 0x401000 6 = Some [0; 0; 0; 0xB0; 0xE1; 0] /\
  read_bytes (pm (in_proc (w_inj w'))) 0x401000 6 = Some [0x50; 0; 0; 0x58; 0; 2].
Proof. vm_compute. done. Qed.

(** Symbols of more than 63 characters are stored cut off, but looked up whole: tracing
    such a function again does not find its probe, registers it anew and gets the old
    entry, which a failure then removes as if it had been new. *)
Definition long_symbol : cstr := replicate 70 97.

Lemma long_symbol_rollback_drops_probe :
  let w := snd (start_on plain_kernel long_symbol sample_world) in
  let '(rc, w') := sample_install no_writes long_symbol (snd (zt_trace_disable_probe plain_kernel sample_thread_kernel 1 w)) in
  ses_probe_count (w_ses w) = 1 /\ rc = -1 /\ ses_probe_count (w_ses w') = 0.
Proof. vm_compute. done. Qed.
