(* ===== verification/TraceEffect.v ===== *)
(** * What a successful installation puts into the target

    The trampoline in its slot of the pool, the jump at the function, and nothing
    else: the composition of the probe table, the pool, the builder, remote memory
    and the patch.  Proved against the interfaces, so for both instruction sets. *)

From S2P Require Import Prelude CLib Types Reader RemoteMem RemoteMemSpec A64Build Arch Threads ThreadsSpec Probes ProbesSpec Pool SigConf TraceRunner TraceSample TableInv TraceInv TraceStop TraceInstall.

(** ** What the installation relies on *)

(** A mapping the kernel chooses lies in the address space, takes none of the memory [text]
    of the program's own code, and leaves the rest alone. *)
Class MmapLaws (Rm : Remote) (text : Z -> Prop) : Prop := {
  mmap_apart : forall size prot flags p a p',
    remote_mmap size prot flags p = (Some a, p') ->
    0 < a /\ a + size + 8 <= 2 ^ 64 /\ forall x, in_range a (Z.to_nat size) x -> ~ text x;
  mmap_frame : forall size prot flags p r p' x,
    remote_mmap size prot flags p = (r, p') ->
    (forall a, r = Some a -> ~ in_range a (Z.to_nat size) x) -> pm p' x = pm p x
}.

(** A trampoline fits its buffer. *)
Class BuilderLaws (Bd : Builder) : Prop := {
  build_fits : forall p entry addr out size,
    0 <= pr_orig_len p ->
    build_trampoline p entry addr (replicate (Z.to_nat ZT_TRAMPOLINE_MAX_SIZE) 0) = Some (out, size) ->
    (length (take (Z.to_nat size) out) <= Z.to_nat ZT_TRAMPOLINE_MAX_SIZE)%nat
}.

(** The pool's mapping. *)
Definition pool_base (w : world) : Z := pool_remote_addr (rt_trampoline_pool (w_runtime w)).
Definition in_pool (w : world) (x : Z) : Prop := in_range (pool_base w) (Z.to_nat ZT_TRAMPOLINE_POOL_SIZE) x.

(** A pool that is mapped is inside the address space and away from the code at [a]. *)
Definition pool_apart (w : world) (a : Z) : Prop :=
  pool_base w <> 0 ->
  0 < pool_base w /\ pool_base w + ZT_TRAMPOLINE_POOL_SIZE + 8 <= 2 ^ 64 /\
  forall x, in_range a (Z.to_nat ZT_PROBE_ORIG_CODE_MAX) x -> ~ in_pool w x.

(** The function a symbol stands for: its probe's, or what the name resolves to. *)
Definition target_of (E : env_t) (w : world) (symbol : cstr) : option zt_symbol_target_t :=
  match zt_probe_find_by_symbol (w_probes w) symbol with
  | Some p => Some (pr_target p)
  | None => e_resolve E symbol
  end.

(** ** The trampoline's slot *)

Lemma assign_result pool p slot addr pool' p' :
  zt_trampoline_pool_assign_slot pool p slot = (Some addr, pool', p') ->
  0 <= slot < ZT_TRAMPOLINE_POOL_SLOTS /\ pool_remote_addr pool' = pool_remote_addr pool /\ addr <> 0 /\
  addr = zt_trampoline_pool_slot_addr pool slot /\ p' = set_probe_slot slot addr p.
Proof.
  unfold zt_trampoline_pool_assign_slot. destruct (zt_trampoline_pool_slot_valid slot) eqn:Hv; [|done].
  apply slot_validP in Hv. cbn [negb]. cbv zeta. destruct (Z.eqb_spec (zt_trampoline_pool_slot_addr pool slot) 0); [done|].
  by intros [= <- <- <-].
Qed.

Lemma alloc_result E pool p addr pool' p' :
  zt_trampoline_pool_alloc E pool p = (Some addr, pool', p') ->
  exists slot, 0 <= slot < ZT_TRAMPOLINE_POOL_SLOTS /\ addr <> 0 /\ addr = zt_trampoline_pool_slot_addr pool' slot /\
    p' = set_probe_slot slot addr p /\
    (pool_remote_addr pool' = pool_remote_addr pool \/
     pool_remote_addr pool = 0 /\ pe_mmap E = Some (pool_remote_addr pool')).
Proof.
  assert (Hs : forall q q' s, pool_remote_addr q' = pool_remote_addr q ->
            zt_trampoline_pool_slot_addr q' s = zt_trampoline_pool_slot_addr q s)
    by (intros q q' s Hq; unfold zt_trampoline_pool_slot_addr; by rewrite Hq).
  unfold zt_trampoline_pool_alloc. destruct (_ && negb (pool_remote_addr pool =? 0)).
  - destruct (_ && _); [done|]. intros (Hv & Hp & Hn & Ha & Hp')%assign_result.
    exists (pr_trampoline_slot p). rewrite (Hs pool) by done. split_and!; auto; apply Hv.
  - unfold zt_trampoline_pool_ensure. destruct (Z.eqb_spec (pool_remote_addr pool) 0) as [H0|H0]; cbn [negb].
    + destruct (pe_mmap E) as [a|] eqn:Hm; [|done]. cbn [Z.eqb negb]. set (q := mk_pool a _ _).
      destruct (alloc_loop_spec q (Z.to_nat ZT_TRAMPOLINE_POOL_SLOTS) 0 p) as [(s & _ & _ & ->)|[-> _]]; [|done].
      intros (Hv & Hp & Hn & Ha & Hp')%assign_result. exists s. rewrite (Hs q) by done. rewrite Hp. split_and!; auto; apply Hv.
    + cbn [Z.eqb negb]. destruct (alloc_loop_spec pool (Z.to_nat ZT_TRAMPOLINE_POOL_SLOTS) 0 p) as [(s & _ & _ & ->)|[-> _]]; [|done].
      intros (Hv & Hp & Hn & Ha & Hp')%assign_result. exists s. rewrite (Hs pool) by done. split_and!; auto; apply Hv.
Qed.

Lemma slot_addr_inside pool slot :
  0 <= slot < ZT_TRAMPOLINE_POOL_SLOTS -> 0 < pool_remote_addr pool ->
  pool_remote_addr pool + ZT_TRAMPOLINE_POOL_SIZE + 8 <= 2 ^ 64 ->
  let addr := zt_trampoline_pool_slot_addr pool slot in
  pool_remote_addr pool <= addr /\ addr + ZT_TRAMPOLINE_MAX_SIZE <= pool_remote_addr pool + ZT_TRAMPOLINE_POOL_SIZE.
Proof.
  intros Hs Hp Hr. unfold zt_trampoline_pool_slot_addr. apply slot_validP in Hs as Hv. rewrite Hv.
  destruct (Z.eqb_spec (pool_remote_addr pool) 0); [lia|]. cbn [negb orb].
  unfold ZT_TRAMPOLINE_POOL_SIZE, ZT_TRAMPOLINE_POOL_SLOTS, ZT_TRAMPOLINE_POOL_SLOT_SIZE, ZT_PROBES_CAPACITY,
    ZT_TRAMPOLINE_MAX_SIZE in *.
  rewrite (u64_small (slot * 512)), u64_small; unfold is_u64; lia.
Qed.

Section effect.
Context `{A : Arch} {L : ArchLaws A} `{Rm : Remote} {text : Z -> Prop} {ML : MmapLaws Rm text} `{Bd : Builder} {BL : BuilderLaws Bd}.
Context (K : kernel_t) (TK : thread_kernel) (E : env_t).

(** The function at [a] is part of the program's code. *)
Definition in_text (a : Z) : Prop := forall x, in_range a (Z.to_nat ZT_PROBE_ORIG_CODE_MAX) x -> text x.

(** The state after a slot was taken. *)
Record slot_taken (id : Z) (p : zt_probe_info_t) (addr : Z) (w w1 : world) : Prop := {
  st_probe : exists slot, probe_at w1 id = Some (set_probe_slot slot addr p);
  st_base : 0 < pool_base w1 /\ pool_base w1 + ZT_TRAMPOLINE_POOL_SIZE + 8 <= 2 ^ 64;
  st_addr : pool_base w1 <= addr /\ addr + ZT_TRAMPOLINE_MAX_SIZE <= pool_base w1 + ZT_TRAMPOLINE_POOL_SIZE;
  st_stub : rt_remote_entry_stub_addr (w_runtime w1) = rt_remote_entry_stub_addr (w_runtime w);
  st_frame : forall x, ~ in_pool w1 x -> wmem w1 x = wmem w x;
  st_pool : pool_base w1 = pool_base w \/ pool_base w = 0 /\ forall x, in_pool w1 x -> ~ text x
}.

(** The mapping for an empty pool. *)
Definition map_pool (pool : zt_trampoline_pool_t) : M (option Z) :=
  if pool_remote_addr pool =? 0 then with_proc (remote_mmap ZT_TRAMPOLINE_POOL_SIZE 7 0x22) else ret None.

Lemma map_pool_effect w addr w1 :
  map_pool (rt_trampoline_pool (w_runtime w)) w = (addr, w1) ->
  w_probes w1 = w_probes w /\ w_runtime w1 = w_runtime w /\
  (forall a, addr = Some a -> pool_base w = 0 /\ 0 < a /\ a + ZT_TRAMPOLINE_POOL_SIZE + 8 <= 2 ^ 64 /\
     forall x, in_range a (Z.to_nat ZT_TRAMPOLINE_POOL_SIZE) x -> ~ text x) /\
  forall x, (forall a, addr = Some a -> ~ in_range a (Z.to_nat ZT_TRAMPOLINE_POOL_SIZE) x) -> wmem w1 x = wmem w x.
Proof.
  unfold map_pool. destruct (Z.eqb_spec (pool_remote_addr (rt_trampoline_pool (w_runtime w))) 0) as [H0|H0].
  2: { unfold ret. intros [= <- <-]. by split_and!. }
  unfold with_proc, with_inj. destruct (remote_mmap _ _ _ (in_proc (w_inj w))) as [r pr] eqn:Hm. intros [= <- <-].
  split_and!; [done|done| |].
  - intros a ->. destruct (mmap_apart _ _ _ _ _ _ Hm) as (? & ? & ?). done.
  - intros x Hx. by apply (mmap_frame _ _ _ _ _ _ _ Hm).
Qed.

Lemma pool_alloc_effect id w w1 addr p a :
  probe_at w id = Some p -> pool_apart w a -> pool_alloc id w = (Some addr, w1) -> slot_taken id p addr w w1.
Proof.
  intros Hp Hap. unfold pool_alloc, get_probe, gets, bind at 1 2. unfold probe_at in Hp. rewrite Hp.
  unfold bind at 1. destruct ((if pool_remote_addr _ =? 0 then _ else _) w) as [ma w2] eqn:Hm. apply map_pool_effect in Hm as (Hpr & Hrt & Hfresh & Hframe).
  destruct (zt_trampoline_pool_alloc _ _ p) as [[r pool'] p'] eqn:Ha. unfold bind, ret. intros E1. injection E1 as -> <-.
  apply alloc_result in Ha as (slot & Hs & Hn & -> & -> & Hbase). cbn [pe_mmap] in Hbase.
  pose proof (find_by_id_spec _ _ _ Hp) as [Hid Hpid].
  assert (Hne : pool_remote_addr pool' <> 0) by (intros H0; apply Hn; unfold zt_trampoline_pool_slot_addr; by rewrite H0).
  assert (Hb : 0 < pool_remote_addr pool' /\ pool_remote_addr pool' + ZT_TRAMPOLINE_POOL_SIZE + 8 <= 2 ^ 64).
  { destruct Hbase as [Hsame|[_ Hmap]]; [|by destruct (Hfresh _ Hmap) as (_ & ? & ? & _)].
    rewrite Hsame in *. by destruct (Hap Hne) as (? & ? & _). }
  constructor.
  - exists slot. unfold probe_at. match goal with |- zt_probe_find_by_id ?ps _ = _ =>
      change ps with (update_probe id (fun _ => set_probe_slot slot (zt_trampoline_pool_slot_addr pool' slot) p) (w_probes w2)) end.
    rewrite Hpr, find_update, Hp; [done|done|]. intros q _. exact Hpid.
  - exact Hb.
  - apply slot_addr_inside; [exact Hs|apply Hb|apply Hb].
  - transitivity (rt_remote_entry_stub_addr (w_runtime w2)); [done|by rewrite Hrt].
  - intros x Hx. apply Hframe. intros b Hmap. destruct Hbase as [Hsame|[_ Hmap']]; [|by rewrite Hmap in Hmap'; injection Hmap' as ->].
    destruct (Hfresh b Hmap) as [H0 _]. unfold pool_base in H0. congruence.
  - destruct Hbase as [Hsame|[H0 Hmap]]; [by left|right]. split; [done|]. by destruct (Hfresh _ Hmap) as (_ & _ & _ & ?).
Qed.

(** ** Writing the trampoline and the jump *)

Lemma write_mem_effect addr bs w w1 :
  0 <= addr -> addr + Z.of_nat (length bs) + 8 <= 2 ^ 64 -> write_mem K addr bs w = (0, w1) ->
  w_probes w1 = w_probes w /\ w_runtime w1 = w_runtime w /\
  forall x, wmem w1 x = if decide (in_range addr (length bs) x) then bs !! Z.to_nat (x - addr) else wmem w x.
Proof.
  intros Ha Hr. unfold write_mem, with_proc, with_inj. pose proof (write_remote_spec K addr bs (in_proc (w_inj w)) Ha Hr) as Hw.
  destruct (zt_write_remote_memory K addr bs (in_proc (w_inj w))) as [rc pr]. destruct Hw as (Hb & Hw & _).
  intros E1. injection E1 as -> <-. split_and!; [done|done|]. intros x. match goal with |- ?l = _ => change l with (pm pr x) end.
  destruct (decide _) as [Hin|Hout]; [by apply Hw; unfold in_range in Hin|]. by destruct (Hb x) as [?|[? _]].
Qed.

(** Bytes that a memory holds at an address. *)
Definition bytes_at (m : Z -> option Z) (a : Z) (bs : list Z) : Prop := read_bytes m a (length bs) = Some bs.

Lemma bytes_at_intro m a bs :
  (forall x, in_range a (length bs) x -> m x = bs !! Z.to_nat (x - a)) -> bytes_at m a bs.
Proof.
  intros H. apply read_bytes_intro. intros i Hi. rewrite H by (unfold in_range; lia). f_equal. lia.
Qed.

(** The result of putting the trampoline and the jump in place for the probe [p]. *)
Record patched (id : Z) (p : zt_probe_info_t) (w w' : world) (slot addr : Z) (tramp : list Z) : Prop := {
  pt_probe : probe_at w' id = Some (probe_set_installed addr (set_probe_slot slot addr p));
  pt_build : exists out size,
    build_trampoline (set_probe_slot slot addr p) (rt_remote_entry_stub_addr (w_runtime w)) addr
      (replicate (Z.to_nat ZT_TRAMPOLINE_MAX_SIZE) 0) = Some (out, size) /\ tramp = take (Z.to_nat size) out;
  pt_range : 0 < addr /\ addr + ZT_TRAMPOLINE_MAX_SIZE + 8 <= 2 ^ 64;
  pt_tramp : bytes_at (wmem w') addr tramp;
  pt_jump : bytes_at (wmem w') (tgt_remote_addr (pr_target p)) (jump_patch addr);
  pt_frame : forall x, ~ in_pool w' x ->
    ~ in_range (tgt_remote_addr (pr_target p)) (Z.to_nat zt_arch_probe_patch_len) x -> wmem w' x = wmem w x
}.

(** The steps of a successful installation from the slot on. *)
Lemma install_trampoline_inv id w w' :
  install_trampoline K TK id w = (0, w') ->
  exists addr w1 p1 out size w2, pool_alloc id w = (Some addr, w1) /\ probe_at w1 id = Some p1 /\
    build_trampoline p1 (rt_remote_entry_stub_addr (w_runtime w1)) addr (replicate (Z.to_nat ZT_TRAMPOLINE_MAX_SIZE) 0)
      = Some (out, size) /\
    write_mem K addr (take (Z.to_nat size) out) w1 = (0, w2) /\
    with_inj (zt_install_probe_patch K TK id addr) w2 = (0, w').
Proof.
  unfold install_trampoline, get_probe, gets, bind at 1 2 3. destruct (pool_alloc id w) as [[addr|] w1]; [|done].
  destruct (zt_probe_find_by_id (w_probes w1) id) as [p1|] eqn:Hp; [|done].
  destruct (build_trampoline p1 _ addr _) as [[out size]|] eqn:Hb; [|done].
  unfold bind. destruct (write_mem K addr _ w1) as [rc w2] eqn:Hw. destruct (Z.eqb_spec rc 0) as [->|]; [|done].
  intros Hi. by exists addr, w1, p1, out, size, w2.
Qed.

(** The pool the code wrote to is away from the function. *)
Lemma pool_stays_apart id p addr a w w1 :
  pool_apart w a -> in_text a -> slot_taken id p addr w w1 ->
  forall x, in_range a (Z.to_nat ZT_PROBE_ORIG_CODE_MAX) x -> ~ in_pool w1 x.
Proof.
  intros Hap Htext [_ [Hb _] _ _ _ Hpool] x Hx Hin. destruct Hpool as [Hsame|[_ Hnone]].
  - unfold in_pool in Hin. rewrite Hsame in Hb, Hin. destruct (Hap ltac:(lia)) as (_ & _ & Hno). by apply (Hno x).
  - by apply (Hnone x), Htext.
Qed.

Lemma install_trampoline_effect id w w' p :
  let a := tgt_remote_addr (pr_target p) in
  probe_at w id = Some p -> 0 <= pr_orig_len p -> 0 <= a -> a + 40 <= 2 ^ 64 -> pool_apart w a -> in_text a ->
  install_trampoline K TK id w = (0, w') ->
  exists slot addr tramp, patched id p w w' slot addr tramp.
Proof.
  intros a Hp Hol Ha Hr Hap Htext (addr & w1 & p1 & out & size & w2 & Hal & Hp1 & Hb & Hw & Hi)%install_trampoline_inv.
  pose proof (pool_alloc_effect _ _ _ _ _ _ Hp Hap Hal) as Hst.
  pose proof (pool_stays_apart _ _ _ _ _ _ Hap Htext Hst) as Haway.
  destruct Hst as [[slot Hq] [B1 B2] [S1 S2] Hstub Hframe _]. rewrite Hq in Hp1. injection Hp1 as <-.
  pose proof (build_fits _ _ _ _ _ (Hol : 0 <= pr_orig_len (set_probe_slot slot addr p)) Hb) as Hlen.
  set (tramp := take (Z.to_nat size) out) in *. unfold ZT_TRAMPOLINE_MAX_SIZE in S2, Hlen.
  apply write_mem_effect in Hw as (Hpr & Hrt & Hm2); [|lia|lia].
  unfold with_inj in Hi. destruct (zt_install_probe_patch K TK id addr (w_inj w2)) as [rc i] eqn:Hpatch.
  injection Hi as -> <-.
  assert (Hp2 : wprobe (w_inj w2) id = Some (set_probe_slot slot addr p))
    by (unfold probe_at in Hq; rewrite <- Hpr in Hq; exact Hq).
  destruct (install_spec K TK _ _ _ _ _ Hpatch Hp2 Ha Hr) as [Hp3 Hm3].
  change (tgt_remote_addr (pr_target (set_probe_slot slot addr p))) with a in Hm3.
  assert (Hpl : Z.to_nat zt_arch_probe_patch_len = length (jump_patch addr)) by (pose proof (jump_patch_length addr); lia).
  assert (Hjump : forall x, in_range a (Z.to_nat zt_arch_probe_patch_len) x -> in_range a (Z.to_nat ZT_PROBE_ORIG_CODE_MAX) x)
    by (pose proof patch_len_range; unfold in_range in *; lia).
  assert (Hslot : forall x, in_range addr (length tramp) x -> in_pool w1 x).
  { unfold in_pool, in_range. intros x Hx. unfold ZT_TRAMPOLINE_POOL_SIZE, ZT_TRAMPOLINE_POOL_SLOTS, ZT_PROBES_CAPACITY,
      ZT_TRAMPOLINE_POOL_SLOT_SIZE, ZT_TRAMPOLINE_MAX_SIZE in *. lia. }
  exists slot, addr, tramp. constructor.
  - exact Hp3.
  - exists out, size. rewrite <- Hstub. done.
  - unfold ZT_TRAMPOLINE_MAX_SIZE. lia.
  - apply bytes_at_intro. intros x Hx. etransitivity; [apply Hm3|]. rewrite decide_False; [|by intros Hy; apply (Haway x); auto].
    change (wm (w_inj w2) x) with (wmem w2 x). by rewrite Hm2, decide_True.
  - apply bytes_at_intro. intros x Hx. fold a in Hx. rewrite <- Hpl in Hx. etransitivity; [apply Hm3|]. by rewrite decide_True.
  - intros x Hpool Hx. etransitivity; [apply Hm3|]. rewrite decide_False by done. change (wm (w_inj w2) x) with (wmem w2 x).
    assert (Hpool1 : ~ in_pool w1 x) by (unfold in_pool, pool_base in Hpool |- *; rewrite <- Hrt; exact Hpool).
    rewrite Hm2, decide_False by auto. by apply Hframe.
Qed.

(** ** The whole installation *)

Lemma install_succeeds symbol filter w w' :
  zt_trace_install_probe K TK E symbol filter w = (0, w') ->
  exists p w1, register E symbol w = (Some p, w1) /\
    (pr_state p <> ZT_PROBE_INSTALLED -> attempt K TK (pr_probe_id p) filter w1 = (0, w')).
Proof.
  unfold zt_trace_install_probe, gets, bind at 1 2. fold (register E symbol). intros H.
  destruct (register E symbol w) as [[p|] w1]; [|done]. exists p, w1. split; [done|]. intros Hst.
  cbv zeta in H. rewrite bool_decide_false in H by done.
  unfold attempt. unfold bind at 1 in H. unfold bind at 1. destruct (set_probe _ _ w1) as [[] w2].
  unfold bind at 1 in H. unfold bind at 1. destruct (with_inj _ w2) as [rc1 w3].
  unfold bind at 1 in H. destruct ((if negb (rc1 =? 0) then ret (-1) else _) w3) as [rc2 w4] eqn:Hr.
  destruct (Z.eqb_spec rc2 0) as [->|]; cbn [negb] in H; [by injection H as <-|].
  unfold bind at 1 in H. by destruct (zt_trace_rollback_probe_install _ _ w4).
Qed.

Lemma register_found symbol w p w1 t :
  world_inv true w -> (forall t, e_resolve E symbol = Some t -> tgt_symbol t = symbol) ->
  target_of E w symbol = Some t -> register E symbol w = (Some p, w1) ->
  probe_at w1 (pr_probe_id p) = Some p /\ pr_target p = t /\ wmem w1 = wmem w /\ w_runtime w1 = w_runtime w /\
  (zt_probe_find_by_symbol (w_probes w) symbol = Some p \/ exists id, p = new_probe id t).
Proof.
  intros Hw Hsym Ht Hreg. pose proof (register_cases _ _ _ _ _ Hw Hsym Hreg) as [Hid Hc].
  assert (Hmem : wmem w1 = wmem w /\ w_runtime w1 = w_runtime w).
  { unfold register, with_ses, with_inj in Hreg. destruct (zt_register_probe _ _ _) as [r s]. by injection Hreg as _ <-. }
  unfold target_of in Ht. destruct (zt_probe_find_by_symbol (w_probes w) symbol) as [q|] eqn:Hf.
  - destruct Hc as (-> & -> & Hp). injection Ht as <-. split_and!; [done|done|done|done|by left].
  - destruct Hc as (i & Hi & Hps & Hno & _).
    assert (Hnew : exists id, p = new_probe id t).
    { unfold register, with_ses, with_inj, zt_register_probe in Hreg. change (ses_probes (in_ses (w_inj w))) with (w_probes w) in Hreg.
      rewrite Hf, Ht in Hreg. unfold zt_probe_alloc in Hreg. destruct (_ =? 0)%nat; [done|].
      change (ses_probes (in_ses (w_inj w))) with (w_probes w) in Hreg. rewrite (Hsym t Ht), Hf in Hreg.
      destruct (take_probe_id _) as [id next]. exists id. destruct (fill_free _ _); [|done]. by injection Hreg as <- _. }
    split_and!; try apply Hmem; [|by destruct Hnew as [id ->]|by right].
    unfold probe_at. rewrite Hps. by apply find_inserted.
Qed.

(** A probe that an installation can start from. *)
Definition installable (p : zt_probe_info_t) : Prop :=
  pr_state p <> ZT_PROBE_PREPARED /\ pr_state p <> ZT_PROBE_INSTALLED /\ length (pr_orig_code p) = Z.to_nat ZT_PROBE_ORIG_CODE_MAX.

(** What installing a probe on the function [t] did. *)
Record hooked (w w' : world) (t : zt_symbol_target_t) (filter : option zt_probe_filter_t) (p : zt_probe_info_t)
    (tramp : list Z) : Prop := {
  hk_probe : probe_at w' (pr_probe_id p) = Some p;
  hk_state : pr_state p = ZT_PROBE_INSTALLED;
  hk_target : pr_target p = t;
  hk_filter : pr_filter p = flt_set_probe_id (pr_probe_id p) (default zero_filter filter);
  hk_len : zt_arch_probe_patch_len <= pr_orig_len p <= ZT_PROBE_ORIG_CODE_MAX;
  hk_saved : read_bytes (wmem w) (tgt_remote_addr t) (Z.to_nat (pr_orig_len p)) = Some (displaced p);
  hk_build : exists out size p0, p = probe_set_installed (pr_trampoline_addr p) p0 /\
    build_trampoline p0 (rt_remote_entry_stub_addr (w_runtime w)) (pr_trampoline_addr p)
      (replicate (Z.to_nat ZT_TRAMPOLINE_MAX_SIZE) 0) = Some (out, size) /\ tramp = take (Z.to_nat size) out;
  hk_range : 0 < pr_trampoline_addr p /\ pr_trampoline_addr p + ZT_TRAMPOLINE_MAX_SIZE + 8 <= 2 ^ 64;
  hk_tramp : bytes_at (wmem w') (pr_trampoline_addr p) tramp;
  hk_jump : bytes_at (wmem w') (tgt_remote_addr t) (jump_patch (pr_trampoline_addr p));
  hk_frame : forall x, ~ in_pool w' x ->
    ~ in_range (tgt_remote_addr t) (Z.to_nat zt_arch_probe_patch_len) x -> wmem w' x = wmem w x
}.

Lemma attempt_effect id filter p w w' :
  let a := tgt_remote_addr (pr_target p) in
  probe_at w id = Some p -> installable p -> 0 <= a -> a + 40 <= 2 ^ 64 -> pool_apart w a -> in_text a ->
  attempt K TK id filter w = (0, w') ->
  exists code n slot addr tramp w3, read_bytes (wmem w) a (Z.to_nat ZT_PROBE_ORIG_CODE_MAX) = Some code /\
    zt_arch_probe_patch_len <= n <= ZT_PROBE_ORIG_CODE_MAX /\ wmem w3 = wmem w /\ w_runtime w3 = w_runtime w /\
    patched id (probe_set_prepared code n (zt_trace_set_probe_filter filter p)) w3 w' slot addr tramp.
Proof.
  intros a Hp (N1 & N2 & _) Ha Hr Hap Htext Hat. unfold attempt in Hat. unfold bind at 1 in Hat.
  destruct (find_by_id_spec _ _ _ Hp) as [Hid Hpid].
  destruct (in_update_spec id (zt_trace_set_probe_filter filter) (w_inj w) p Hp (fun _ => eq_refl)) as [Hp2 Hm2].
  unfold set_probe, with_inj at 1 in Hat. cbv beta iota in Hat. set (i2 := in_update_probe _ _ _) in *.
  unfold bind, with_inj in Hat. cbn [w_inj] in Hat. destruct (zt_enable_probe K id i2) as [rc i3] eqn:Hen.
  destruct (Z.eqb_spec rc 0) as [->|]; cbn [negb] in Hat; [|done]. cbn [g_active_trace g_trace_exit_observed w_reader w_sigconf] in Hat.
  destruct (enable_spec K id i2 i3 _ Hen Hp2 N1 N2 Ha Hr) as (code & n & Hp3 & Hm3 & Hcode & Hn).
  set (w3 := mk_world i3 _ _ _ _) in Hat.
  assert (Hmem : wmem w3 = wmem w) by (transitivity (wm i2); [exact Hm3|exact Hm2]).
  rewrite Hm2 in Hcode. change (wm (w_inj w)) with (wmem w) in Hcode.
  destruct (install_trampoline_effect id w3 w' _ Hp3) as (slot & addr & tramp & Hpt); try done.
  - cbn [probe_set_prepared pr_orig_len]. apply Z.mod_pos_bound. lia.
  - by exists code, n, slot, addr, tramp, w3.
Qed.

Lemma install_effect symbol filter w w' t :
  let a := tgt_remote_addr t in
  world_inv true w -> (forall t, e_resolve E symbol = Some t -> tgt_symbol t = symbol) -> target_of E w symbol = Some t ->
  (forall p, zt_probe_find_by_symbol (w_probes w) symbol = Some p -> installable p) ->
  0 <= a -> a + 40 <= 2 ^ 64 -> pool_apart w a -> in_text a -> zt_trace_install_probe K TK E symbol filter w = (0, w') ->
  exists p tramp, hooked w w' t filter p tramp.
Proof.
  intros a Hw Hsym Ht Hready Ha Hr Hap Htext (p & w1 & Hreg & Hat)%install_succeeds.
  destruct (register_found _ _ _ _ _ Hw Hsym Ht Hreg) as (Hp & Htgt & Hmem & Hrt & Hcase).
  assert (Hin : installable p) by (destruct Hcase as [Hf|[id ->]]; [by apply Hready|done]).
  destruct Hin as (N1 & N2 & Hol). specialize (Hat N2). subst t.
  destruct (attempt_effect (pr_probe_id p) filter p w1 w' Hp (conj N1 (conj N2 Hol)) Ha Hr)
    as (code & n & slot & addr & tramp & w3 & Hcode & Hn & Hm3 & Hrt3 & [P1 P2 P3 P4 P5 P6]).
  { unfold pool_apart, in_pool, pool_base in *. by rewrite Hrt. }
  { exact Htext. }
  { exact Hat. }
  rewrite Hmem in Hcode, Hm3. rewrite Hrt3, Hrt in P2.
  pose proof (read_bytes_length _ _ _ _ Hcode) as Hlc. unfold ZT_PROBE_ORIG_CODE_MAX in Hn, Hlc, Hcode, Hol. pose proof (@patch_len_range A L).
  set (q := probe_set_prepared code n _) in *.
  assert (Hlen : pr_orig_len q = n) by (cbn; rewrite Z.mod_small; lia).
  exists (probe_set_installed addr (set_probe_slot slot addr q)), tramp. constructor; try done.
  - change (pr_orig_len _) with (pr_orig_len q). rewrite Hlen. unfold ZT_PROBE_ORIG_CODE_MAX. lia.
  - change (displaced _) with (displaced q). unfold displaced, q. rewrite prepared_code by (done || lia).
    change (pr_orig_len _) with (pr_orig_len q). rewrite Hlen.
    apply (read_bytes_take _ _ 32); [exact Hcode|lia].
  - destruct P2 as (out & size & Hb & ->). by exists out, size, (set_probe_slot slot addr q).
  - intros x Hx1 Hx2. rewrite P6, Hm3 by done. done.
Qed.
End effect.
