(* ===== verification/TraceCall.v ===== *)
(** * A call of a traced function

    The whole way from the command to the processor: once a probe was installed, a
    thread that calls the function runs the patched prologue and the trampoline,
    arrives in entry_stub with the probe's id, and afterwards goes on with the
    displaced instructions and behind the patch. *)

From S2P Require Import Prelude CLib Types Reader RemoteMem RemoteMemSpec Emit X86Trampoline X86Spec A64Machine A64Trampoline A64Spec A64Build Arch ArchSpec Threads ThreadsSpec Probes ProbesSpec Pool SigConf TraceRunner TraceSample TableInv TraceInv TraceStop TraceInstall TraceEffect.

(** ** The builders as the runner sees them *)

Definition x86_disasm_sound (cs_disasm : list Z -> Z -> option (list cs_insn)) : Prop :=
  forall code addr insns, cs_disasm code addr = Some insns -> Forall insn_ok insns.

Definition a64_disasm_sound (cs_disasm : list Z -> Z -> option (list a64_insn)) : Prop :=
  forall code addr insns, cs_disasm code addr = Some insns -> Forall a64_bytes_ok insns.

(** A build that succeeds had instructions to relocate. *)
Lemma x86_build_disasm cs_disasm p entry addr buf r :
  x86_disasm_sound cs_disasm -> zt_build_trampoline cs_disasm p entry addr buf = Some r ->
  exists insns, disasm_ok cs_disasm p insns.
Proof.
  intros Hs. unfold zt_build_trampoline. destruct (_ || _); [done|]. destruct (_ || _); [done|].
  destruct (zt_emit_bytes _ 0 _) as [[b o]|]; [|done]. unfold zt_emit_relocated_orig_code.
  destruct (cs_disasm _ _) as [insns|] eqn:Hd; [|done]. intros Hb. exists insns.
  split_and!; [done|by intros ->|by eapply Hs].
Qed.

Lemma a64_build_disasm cs_disasm p entry addr buf r :
  a64_disasm_sound cs_disasm -> a64_build_trampoline cs_disasm p entry addr buf = Some r ->
  exists insns, a64_disasm_ok cs_disasm p insns.
Proof.
  intros Hs. unfold a64_build_trampoline. destruct (_ || _); [done|]. destruct (_ || _); [done|]. intros Hb.
  do 5 apply emit_then_some in Hb as (? & ? & Hb). unfold a64_emit_relocated_orig_code in Hb. destruct (_ || _); [done|].
  destruct (cs_disasm _ _) as [insns|] eqn:Hd; [|done]. exists insns.
  split_and!; [done|by intros ->|by eapply Hs].
Qed.

Lemma x86_builder_laws cs_disasm : x86_disasm_sound cs_disasm -> BuilderLaws (x86_builder cs_disasm).
Proof.
  intros Hs. constructor. intros p entry addr out size Hl Hb. cbn [build_trampoline x86_builder] in Hb.
  destruct (x86_build_disasm _ _ _ _ _ _ Hs Hb) as [insns Hd].
  assert (Hbuf : tramp_buf_ok (replicate (Z.to_nat ZT_TRAMPOLINE_MAX_SIZE) 0)) by reflexivity.
  destruct (build_inv _ _ _ _ _ _ _ _ Hd Hbuf Hl Hb) as (code & _ & Hsize & Hmax & _).
  rewrite length_take. unfold ZT_TRAMPOLINE_MAX_SIZE. lia.
Qed.

Lemma a64_builder_laws cs_disasm : a64_disasm_sound cs_disasm -> BuilderLaws (a64_builder cs_disasm).
Proof.
  intros Hs. constructor. intros p entry addr out size Hl Hb. cbn [build_trampoline a64_builder] in Hb.
  destruct (a64_build_disasm _ _ _ _ _ _ Hs Hb) as [insns Hd].
  destruct (a64_build_inv _ _ _ _ _ _ _ _ Hd Hl Hb) as (code & _ & _ & _ & Hlen).
  rewrite length_take, Hlen, length_replicate. lia.
Qed.

(** ** Fetching what was written *)

Lemma sees_code c m a bs : sees c m -> bytes_at m a bs -> code_at c a bs.
Proof.
  intros Hs Hb i b Hi. apply Hs. apply lookup_lt_Some in Hi as Hl.
  by rewrite (read_bytes_get _ _ _ _ i Hb Hl).
Qed.

(** Ids of the table's probes are 64-bit numbers. *)
Lemma probe_id_u64 w b id p : world_inv b w -> probe_at w id = Some p -> is_u64 (pr_probe_id p).
Proof.
  intros Hw (i & Hi & _)%find_by_id_lookup. pose proof (ti_id _ (wi_table _ _ Hw) i p Hi). pose proof (ti_next _ (wi_table _ _ Hw)).
  unfold is_u64, w_ses in *. lia.
Qed.

(** Marking a probe installed keeps what the builder used of it. *)
Lemma installed_fields addr p p0 :
  p = probe_set_installed addr p0 ->
  pr_probe_id p = pr_probe_id p0 /\ pr_target p = pr_target p0 /\ pr_orig_len p = pr_orig_len p0 /\ displaced p = displaced p0.
Proof. by intros ->. Qed.

Section call.
Context `{Rm : Remote} (text : Z -> Prop) {ML : MmapLaws Rm text} (K : kernel_t) (TK : thread_kernel) (E : env_t).
Context (symbol : cstr) (filter : option zt_probe_filter_t) (w w' : world) (t : zt_symbol_target_t).

(** When the command is given: the runner's invariant holds, names resolve to themselves, the
    function is code of the program, in the address space and away from the pool, and its probe, if it has one,
    is not installed. *)
Record ready : Prop := {
  rdy_inv : world_inv true w;
  rdy_resolve : forall t, e_resolve E symbol = Some t -> tgt_symbol t = symbol;
  rdy_target : target_of E w symbol = Some t;
  rdy_probe : forall p, zt_probe_find_by_symbol (w_probes w) symbol = Some p -> installable p;
  rdy_low : 0 <= tgt_remote_addr t;
  rdy_high : tgt_remote_addr t + 40 <= 2 ^ 64;
  rdy_pool : pool_apart w (tgt_remote_addr t);
  rdy_text : in_text (text := text) (tgt_remote_addr t);
  rdy_stub : is_u64 (rt_remote_entry_stub_addr (w_runtime w))
}.

Let entry := rt_remote_entry_stub_addr (w_runtime w).

(** What an installation on AArch64 leaves: the probe in the table, the trampoline's
    [bytes] and the jump in memory, and how the processor runs them. *)
Lemma a64_installed cs_disasm :
  ready -> a64_disasm_sound cs_disasm ->
  zt_trace_install_probe (A := A64.aarch64_arch) (Bd := a64_builder cs_disasm) K TK E symbol filter w = (0, w') ->
  exists p insns code bytes,
    let a := tgt_remote_addr t in
    let tramp := pr_trampoline_addr p in
    let back := tramp + stub_return (pr_probe_id p) entry in
    probe_at w' (pr_probe_id p) = Some p /\ pr_state p = ZT_PROBE_INSTALLED /\ pr_target p = t /\
    read_bytes (wmem w) a (Z.to_nat (pr_orig_len p)) = Some (displaced p) /\
    (forall x, ~ in_pool w' x -> ~ in_range a 16 x -> wmem w' x = wmem w x) /\
    cs_disasm (displaced p) a = Some insns /\ reloc_all insns = Some code /\ is_u64 (pr_probe_id p) /\
    (0 <= tramp /\ tramp + ZT_TRAMPOLINE_MAX_SIZE <= 2 ^ 64) /\
    (forall c, sees c (wmem w') -> code_at c tramp bytes /\ code_at c a (A64.a64_jump_patch tramp)) /\
    Z.of_nat (length bytes) <= ZT_TRAMPOLINE_MAX_SIZE /\
    forall cc c, code_at (amem c) tramp bytes ->
      (pc c = a -> code_at (amem c) a (A64.a64_jump_patch tramp) ->
         exists n c', a64_run cc n c = Some c' /\ pc c' = entry /\ amem c' = amem c /\
         get c' 17 = pr_probe_id p /\ get c' 15 = get c 30 /\ get c' 30 = back /\
         forall r, r <> 15 -> r <> 16 -> r <> 17 -> r <> 30 -> get c' r = get c r) /\
      (pc c = back -> a64_step cc c = Some (goto (back + 4) (set 30 (get c 15) c)) /\ words_at (amem c) (back + 4) code) /\
      (pc c = back + 4 + 4 * Z.of_nat (length code) ->
         exists n c', a64_run cc n c = Some c' /\ amem c' = amem c /\ pc c' = (a +64 pr_orig_len p) /\
           forall r, r <> 16 -> get c' r = get c r).
Proof.
  intros [I1 I2 I3 I4 I5 I6 I7 I9 I8] Hs Hrun.
  destruct (install_effect (L := aarch64_laws) (BL := a64_builder_laws cs_disasm Hs) K TK E symbol filter w w' t)
    as (p & tramp & Hk); try done.
  pose proof (installs_install_probe (A := A64.aarch64_arch) (Bd := a64_builder cs_disasm) K TK E symbol filter w I1) as Hinv.
  rewrite Hrun in Hinv. cbn [snd] in Hinv.
  destruct Hk as [Hp Hst Ht _ Hlen Hsaved (out & size & p0 & Hp0 & Hb & Htr) [R1 R2] Htramp Hjump Hframe].
  pose proof (probe_id_u64 _ _ _ _ Hinv Hp) as Hid. cbn [build_trampoline a64_builder] in Hb. fold entry in Hb, I8.
  destruct (installed_fields _ _ _ Hp0) as (Eid & Etg & Eol & Edi).
  assert (Hol : 0 <= pr_orig_len p0) by (pose proof (@patch_len_range A64.aarch64_arch aarch64_laws); lia).
  destruct (a64_build_disasm _ _ _ _ _ _ Hs Hb) as [insns Hd].
  destruct (a64_build_inv _ _ _ _ _ _ _ _ Hd Hol Hb) as (code & Hcode & _ & _ & Hblen).
  exists p, insns, code, (take (Z.to_nat size) out). cbv zeta. split_and!; [done..|exact Hframe| |done|done|lia|lia| | |].
  { rewrite Edi, <- Ht, Etg. apply Hd. }
  { intros c Hsee. rewrite <- Htr. split; eapply sees_code; [done|exact Htramp|done|exact Hjump]. }
  { rewrite length_take, Hblen, length_replicate. unfold ZT_TRAMPOLINE_MAX_SIZE. lia. }
  intros cc c Hc.
  destruct (a64_build_trampoline_runs cs_disasm p0 entry (pr_trampoline_addr p) _ insns out size cc Hd Hol I8 ltac:(by rewrite <- Eid) Hb)
    as (code' & Hcode' & H1 & H2 & H3).
  assert (code' = code) as -> by congruence. rewrite <- Eid, <- ?Eol, <- ?Etg, ?Ht in *.
  split_and!.
  - intros Hpc Hj. rewrite <- Hpc in Hj.
    destruct (a64_jump_patch_runs cc c (pr_trampoline_addr p)) as (c1 & J1 & J2 & J3 & J4);
      [unfold is_u64, ZT_TRAMPOLINE_MAX_SIZE in *; lia|lia|lia|exact Hj|].
    destruct (H1 c1) as (n & c2 & S1 & S2 & S3 & S4 & S5 & S6 & S7); [by rewrite J3|done|].
    exists (2 + n)%nat, c2. split_and!; [by rewrite a64_run_add, J1|done|congruence|done|by rewrite S5, J4|done|].
    intros r ? ? ? ?. rewrite S7, J4 by done. done.
  - intros Hpc. by apply H2.
  - intros Hpc. destruct (H3 c Hc) as (n & c2 & S1 & S2 & S3 & S4); [by rewrite Hpc; lia|]. exists n, c2. done.
Qed.

(** The same on x86_64. *)
Lemma x86_installed cs_disasm :
  ready -> x86_disasm_sound cs_disasm -> disasm_within cs_disasm ->
  zt_trace_install_probe (A := X86.x86_64_arch cs_disasm) (Bd := x86_builder cs_disasm) K TK E symbol filter w = (0, w') ->
  exists p insns code bytes,
    let a := tgt_remote_addr t in
    let tramp := pr_trampoline_addr p in
    probe_at w' (pr_probe_id p) = Some p /\ pr_state p = ZT_PROBE_INSTALLED /\ pr_target p = t /\
    read_bytes (wmem w) a (Z.to_nat (pr_orig_len p)) = Some (displaced p) /\
    (forall x, ~ in_pool w' x -> ~ in_range a 14 x -> wmem w' x = wmem w x) /\
    cs_disasm (displaced p) a = Some insns /\ reloc_code (tramp +64 16) 0 insns = Some code /\
    (0 <= tramp /\ tramp + ZT_TRAMPOLINE_MAX_SIZE <= 2 ^ 64) /\
    (forall c, sees c (wmem w') -> code_at c tramp bytes /\ code_at c a (X86.x86_jump_patch tramp)) /\
    Z.of_nat (length bytes) <= ZT_TRAMPOLINE_MAX_SIZE /\
    forall cc c, code_at (mem c) tramp bytes ->
      (rip c = a -> code_at (mem c) a (X86.x86_jump_patch tramp) -> below_apart (rsp c) 16 tramp ZT_TRAMPOLINE_MAX_SIZE ->
         exists c', x86_run cc 3 c = Some c' /\ rip c' = entry /\ rsp c' = rsp c - 16 /\ r11 c' = r11 c /\
           load (mem c') (rsp c') 8 = u64 (tramp + 11) /\ load (mem c') (rsp c' + 8) 8 = u64 (i32 (pr_probe_id p)) /\
           forall x, x < rsp c - 16 \/ rsp c <= x -> mem c' x = mem c x) /\
      (rip c = tramp + 11 -> x86_step cc c = Some (mk_cpu (tramp + 16) (rsp c + 8) (r11 c) (mem c)) /\
         code_at (mem c) (tramp + 16) code) /\
      (rip c = tramp + 16 + Z.of_nat (length code) -> x86_step cc c = Some (jump (a +64 pr_orig_len p) c)).
Proof.
  intros [I1 I2 I3 I4 I5 I6 I7 I9 I8] Hs Hwithin Hrun.
  destruct (install_effect (L := x86_64_laws cs_disasm Hwithin) (BL := x86_builder_laws cs_disasm Hs) K TK E symbol filter w w' t)
    as (p & tramp & Hk); try done.
  destruct Hk as [Hp Hst Ht _ Hlen Hsaved (out & size & p0 & Hp0 & Hb & Htr) [R1 R2] Htramp Hjump Hframe].
  cbn [build_trampoline x86_builder] in Hb. fold entry in Hb, I8.
  destruct (installed_fields _ _ _ Hp0) as (Eid & Etg & Eol & Edi).
  assert (Hol : 0 <= pr_orig_len p0) by (pose proof (@patch_len_range _ (x86_64_laws cs_disasm Hwithin)); lia).
  assert (Hbuf : tramp_buf_ok (replicate (Z.to_nat ZT_TRAMPOLINE_MAX_SIZE) 0)) by reflexivity.
  destruct (x86_build_disasm _ _ _ _ _ _ Hs Hb) as [insns Hd].
  destruct (build_inv _ _ _ _ _ _ _ _ Hd Hbuf Hol Hb) as (code & Hcode & Hsize & Hmax & Hlay).
  exists p, insns, code, (take (Z.to_nat size) out). cbv zeta. split_and!; [done..|exact Hframe| |done|lia|lia| | |].
  { rewrite Edi, <- Ht, Etg. apply Hd. }
  { intros c Hsee. rewrite <- Htr. split; eapply sees_code; [done|exact Htramp|done|exact Hjump]. }
  { rewrite length_take. unfold ZT_TRAMPOLINE_MAX_SIZE in *. lia. }
  intros cc c Hc.
  destruct (zt_build_trampoline_runs cs_disasm p0 entry (pr_trampoline_addr p) _ insns out size cc Hd Hbuf Hol I8 Hb)
    as (H1 & H2 & H3).
  rewrite <- Eid, <- ?Eol, <- ?Etg, ?Ht in *. split_and!.
  - intros Hpc Hj Hap. rewrite <- Hpc in Hj.
    change (x86_run cc 3 c) with (match x86_step cc c with None => None | Some s => x86_run cc 2 s end).
    rewrite (x86_jump_patch_runs cc c (pr_trampoline_addr p)); [|unfold is_u64, ZT_TRAMPOLINE_MAX_SIZE in *; lia|exact Hj].
    apply (H1 (jump (pr_trampoline_addr p) c)); [exact Hc|done|]. unfold below_apart, ZT_TRAMPOLINE_MAX_SIZE in *. cbn [jump rsp]. lia.
  - intros Hpc. split; [by apply H2|]. rewrite Hlay in Hc.
    by apply layout_parts in Hc as (_ & _ & _ & Hc & _).
  - intros Hpc. apply H3; [exact Hc|lia].
Qed.

(** C3: on AArch64, after a probe was installed on a function, the table has the probe, with the
    function's instructions saved, and nothing in the target differs outside the pool and
    the patch.  A thread that calls the function arrives in entry_stub with the probe's id
    in x17, the return address in x15 and every other register but x16 and the link
    register as it was; from entry_stub's return it restores the link register and reaches
    the relocated instructions, and from their end the instruction behind the patch. *)
Theorem a64_traced_call cs_disasm :
  ready -> a64_disasm_sound cs_disasm ->
  zt_trace_install_probe (A := A64.aarch64_arch) (Bd := a64_builder cs_disasm) K TK E symbol filter w = (0, w') ->
  exists p insns code,
    let a := tgt_remote_addr t in
    let tramp := pr_trampoline_addr p in
    let back := tramp + stub_return (pr_probe_id p) entry in
    probe_at w' (pr_probe_id p) = Some p /\ pr_state p = ZT_PROBE_INSTALLED /\ pr_target p = t /\
    read_bytes (wmem w) a (Z.to_nat (pr_orig_len p)) = Some (displaced p) /\
    (forall x, ~ in_pool w' x -> ~ in_range a 16 x -> wmem w' x = wmem w x) /\
    cs_disasm (displaced p) a = Some insns /\ reloc_all insns = Some code /\
    forall cc c, sees (amem c) (wmem w') ->
      (pc c = a -> exists n c', a64_run cc n c = Some c' /\ pc c' = entry /\ amem c' = amem c /\
         get c' 17 = pr_probe_id p /\ get c' 15 = get c 30 /\ get c' 30 = back /\
         forall r, r <> 15 -> r <> 16 -> r <> 17 -> r <> 30 -> get c' r = get c r) /\
      (pc c = back -> a64_step cc c = Some (goto (back + 4) (set 30 (get c 15) c)) /\ words_at (amem c) (back + 4) code) /\
      (pc c = back + 4 + 4 * Z.of_nat (length code) ->
         exists n c', a64_run cc n c = Some c' /\ amem c' = amem c /\ pc c' = (a +64 pr_orig_len p) /\
           forall r, r <> 16 -> get c' r = get c r).
Proof.
  intros Hr Hs Hrun. destruct (a64_installed cs_disasm Hr Hs Hrun) as (p & insns & code & bytes & I1 & I2 & I3 & I4 & I5 & I6 & I7 & _ & _ & Hsee & _ & H).
  exists p, insns, code. cbv zeta in *. split_and!; [done..|]. intros cc c Hc. destruct (Hsee _ Hc) as [Hb Hj].
  destruct (H cc c Hb) as (H1 & H2 & H3). split_and!; [|done..]. intros Hpc. by apply H1.
Qed.

(** C4: the same on x86_64, where the jump and the trampoline use the stack: a thread
    that calls the function arrives in entry_stub after three instructions with the
    trampoline's return address and the probe's id on the stack and the caller's frame
    untouched; from entry_stub's return the stack pointer is that of the call and the
    relocated instructions follow; from their end it reaches the instruction behind the
    patch. *)
Theorem x86_traced_call cs_disasm :
  ready -> x86_disasm_sound cs_disasm -> disasm_within cs_disasm ->
  zt_trace_install_probe (A := X86.x86_64_arch cs_disasm) (Bd := x86_builder cs_disasm) K TK E symbol filter w = (0, w') ->
  exists p insns code,
    let a := tgt_remote_addr t in
    let tramp := pr_trampoline_addr p in
    probe_at w' (pr_probe_id p) = Some p /\ pr_state p = ZT_PROBE_INSTALLED /\ pr_target p = t /\
    read_bytes (wmem w) a (Z.to_nat (pr_orig_len p)) = Some (displaced p) /\
    (forall x, ~ in_pool w' x -> ~ in_range a 14 x -> wmem w' x = wmem w x) /\
    cs_disasm (displaced p) a = Some insns /\ reloc_code (tramp +64 16) 0 insns = Some code /\
    forall cc c, sees (mem c) (wmem w') ->
      (rip c = a -> below_apart (rsp c) 16 tramp ZT_TRAMPOLINE_MAX_SIZE ->
         exists c', x86_run cc 3 c = Some c' /\ rip c' = entry /\ rsp c' = rsp c - 16 /\ r11 c' = r11 c /\
           load (mem c') (rsp c') 8 = u64 (tramp + 11) /\ load (mem c') (rsp c' + 8) 8 = u64 (i32 (pr_probe_id p)) /\
           forall x, x < rsp c - 16 \/ rsp c <= x -> mem c' x = mem c x) /\
      (rip c = tramp + 11 -> x86_step cc c = Some (mk_cpu (tramp + 16) (rsp c + 8) (r11 c) (mem c)) /\
         code_at (mem c) (tramp + 16) code) /\
      (rip c = tramp + 16 + Z.of_nat (length code) -> x86_step cc c = Some (jump (a +64 pr_orig_len p) c)).
Proof.
  intros Hr Hs Hw Hrun. destruct (x86_installed cs_disasm Hr Hs Hw Hrun) as (p & insns & code & bytes & I1 & I2 & I3 & I4 & I5 & I6 & I7 & _ & Hsee & _ & H).
  exists p, insns, code. cbv zeta in *. split_and!; [done..|]. intros cc c Hc. destruct (Hsee _ Hc) as [Hb Hj].
  destruct (H cc c Hb) as (H1 & H2 & H3). split_and!; [|done..]. intros Hpc. by apply H1.
Qed.
End call.

(** ** Witnesses *)

(** A kernel that maps above 0x7f0000000000, where no program code is. *)
Definition low_text (x : Z) : Prop := x < 0x7f0000000000.

Definition high_remote : Remote :=
  {| remote_mmap size _ _ p :=
       let a := 0x7f0000000000 in
       if a + size + 8 <=? 2 ^ 64
       then (Some a, pr_store (fun x => if (a <=? x) && (x <? a + Z.of_nat (Z.to_nat size)) then Some 0 else pm p x) p)
       else (None, p);
     remote_munmap a size p := (0, sample_munmap a size p);
     remote_call2 _ _ _ p := (0, Some 1, pr_call p) |}.

#[export] Instance high_mmap_laws : MmapLaws high_remote low_text.
Proof.
  constructor.
  - intros size prot flags p a p'. cbn [remote_mmap high_remote]. destruct (Z.leb_spec (0x7f0000000000 + size + 8) (2 ^ 64)); [|done].
    intros E. assert (a = 0x7f0000000000) as -> by congruence. split_and!; [done|done|].
    intros x Hx. unfold in_range in Hx. unfold low_text. lia.
  - intros size prot flags p r p' x. cbn [remote_mmap high_remote]. destruct (_ <=? _); [|by intros [= <- <-]].
    intros E Hx. injection E as <- <-. specialize (Hx _ eq_refl). unfold in_range in Hx. cbn.
    by destruct (Z.leb_spec 0x7f0000000000 x), (Z.ltb_spec x (0x7f0000000000 + Z.of_nat (Z.to_nat size))); [lia| | |].
Qed.

(** The target's memory, with 1 where nothing is mapped. *)
Definition memory_of (w : world) : Z -> Z := fun x => default 1 (wmem w x).

Lemma memory_of_sees w : sees (memory_of w) (wmem w).
Proof. intros x b H. unfold memory_of. by rewrite H. Qed.

Definition high_code (x : Z) : bool := 0x700000 <=? x.

(** The sample target with entry_stub known to be at 0x600000. *)
Definition ready_world : world :=
  mk_world fresh_inj (at_set_runtime (rt_set_entry_stub 0x600000 zero_runtime) zero_active) 0 zero_reader (mk_sigconf [] false).

Definition write_target : zt_symbol_target_t := mk_target (lit "write") (lit "/bin/t") 0x401000.

Lemma ready_world_ready : ready low_text sample_env (lit "write") ready_world write_target.
Proof.
  destruct (fresh_world_inv _ sample_fresh) as [T1 T2 T3 T4]. constructor.
  - constructor; [exact T1|exact T2|exact T3|]. intros _. vm_compute. reflexivity.
  - intros t Ht. injection Ht as <-. reflexivity.
  - reflexivity.
  - discriminate.
  - discriminate.
  - discriminate.
  - intros Hp. destruct Hp. reflexivity.
  - intros x Hx. unfold in_range in Hx. change (Z.to_nat ZT_PROBE_ORIG_CODE_MAX) with 32%nat in Hx. change (tgt_remote_addr write_target) with 0x401000 in Hx. unfold low_text. lia.
  - split; [discriminate|reflexivity].
Qed.

Lemma sample_a64_sound : a64_disasm_sound sample_a64_disasm.
Proof. intros code addr insns E. injection E as <-. exact sample_a64_bytes_ok. Qed.

(** C3: `write` at 0x401000 is traced; a call arrives in entry_stub at 0x600000. *)
Lemma a64_traced_call_witness :
  let '(rc, w') := zt_trace_install_probe (A := A64.aarch64_arch) (Rm := high_remote) (Bd := a64_builder sample_a64_disasm)
    plain_kernel sample_thread_kernel sample_env (lit "write") None ready_world in
  rc = 0 /\ exists p n c',
    a64_run (fun _ => false) n (mk_a64 0x401000 (fun r => r) (fun x => default 0 (wmem w' x))) = Some c' /\
    pc c' = 0x600000 /\ get c' 17 = pr_probe_id p /\ get c' 15 = 30.
Proof.
  destruct (zt_trace_install_probe (A := A64.aarch64_arch) (Rm := high_remote) (Bd := a64_builder sample_a64_disasm)
    plain_kernel sample_thread_kernel sample_env (lit "write") None ready_world) as [rc w'] eqn:E.
  assert (rc = 0) as -> by (change rc with (fst (rc, w')); rewrite <- E; vm_compute; reflexivity).
  split; [reflexivity|].
  destruct (a64_traced_call (Rm := high_remote) low_text plain_kernel sample_thread_kernel sample_env (lit "write") None ready_world w'
    write_target sample_a64_disasm ready_world_ready sample_a64_sound E) as (p & insns & code & _ & _ & _ & _ & _ & _ & _ & H).
  destruct (H (fun _ => false) (mk_a64 0x401000 (fun r => r) (fun x => default 0 (wmem w' x))) (sees_default _)) as [H1 _].
  destruct (H1 eq_refl) as (n & c' & R1 & R2 & _ & R3 & R4 & _). exists p, n, c'. split; [exact R1|]. split; [exact R2|].
  split; [exact R3|exact R4].
Defined.

(** A disassembler for code that is all nops. *)
Definition nops_disasm (code : list Z) (addr : Z) : option (list cs_insn) :=
  match code with [] => None | _ => nop_disasm code addr end.

Lemma nops_within : disasm_within nops_disasm.
Proof. intros [|b code] addr insns E; [discriminate E|]. exact (nop_disasm_within (b :: code) addr insns E). Qed.

Lemma nops_sound : x86_disasm_sound nops_disasm.
Proof.
  intros [|b code] addr insns E; [discriminate E|]. injection E as <-.
  assert (Hnop : insn_ok nop_insn) by (split; [reflexivity|discriminate]).
  constructor; [exact Hnop|]. apply Forall_fmap, Forall_true. by intros ?.
Qed.

Abbreviation x86_sample_install :=
  (zt_trace_install_probe (A := X86.x86_64_arch nops_disasm) (Rm := high_remote) (Bd := x86_builder nops_disasm)
    plain_kernel sample_thread_kernel sample_env (lit "write") None).

Definition high_trampoline (p : zt_probe_info_t) : bool := (pr_probe_id p =? 0) || (0x700000 <=? pr_trampoline_addr p).

Lemma high_trampolines w id p :
  forallb high_trampoline (w_probes w) = true -> probe_at w id = Some p -> 0x700000 <= pr_trampoline_addr p.
Proof.
  intros H (i & [Hi Hid] & _)%find_by_id_lookup. rewrite forallb_forall in H.
  specialize (H p (proj1 (list_elem_of_In _ _) (list_elem_of_lookup_2 _ _ _ Hi))). unfold high_trampoline in H.
  apply orb_true_iff in H as [H|H]; zbool; [done|exact H].
Qed.

Lemma x86_sample_tramps : forallb high_trampoline (w_probes (snd (x86_sample_install ready_world))) = true.
Proof. vm_compute. reflexivity. Qed.

(** C4: the same target read as x86_64 code, with the stack at 0x700000. *)
Lemma x86_traced_call_witness :
  let '(rc, w') := x86_sample_install ready_world in
  rc = 0 /\ exists p c',
    x86_run (fun _ => false) 3 (mk_cpu 0x401000 0x700000 0 (fun x => default 0 (wmem w' x))) = Some c' /\
    rip c' = 0x600000 /\ load (mem c') (rsp c' + 8) 8 = u64 (i32 (pr_probe_id p)).
Proof.
  destruct (x86_sample_install ready_world) as [rc w'] eqn:E.
  assert (rc = 0) as -> by (change rc with (fst (rc, w')); rewrite <- E; vm_compute; reflexivity).
  split; [reflexivity|]. pose proof x86_sample_tramps as Ht. rewrite E in Ht.
  destruct (x86_traced_call (Rm := high_remote) low_text plain_kernel sample_thread_kernel sample_env (lit "write") None ready_world w'
    write_target nops_disasm ready_world_ready nops_sound nops_within E) as (p & insns & code & H0 & _ & _ & _ & _ & _ & _ & H).
  destruct (H (fun _ => false) (mk_cpu 0x401000 0x700000 0 (fun x => default 0 (wmem w' x))) (sees_default _)) as [H1 _].
  destruct H1 as (c' & R1 & R2 & _ & _ & _ & R3 & _);
    [reflexivity| |exists p, c'; split; [exact R1|split; [exact R2|exact R3]]].
  left. exact (high_trampolines _ _ _ Ht H0).
Defined.
