(* ===== verification/TraceX86.v ===== *)
(** * A traced call on x86_64, from the caller and back

    The processor that runs the patched function and its trampoline (X86Spec) and
    the one that runs the stubs (StubX86) are the same thread: a call of a traced function
    goes through the jump, the trampoline and entry_stub to the function's own
    instructions, and its return through exit_stub to the caller. *)

From S2P Require Import Prelude CLib Types Payload ShadowStack Reader RemoteMem RemoteMemSpec Emit X86Trampoline X86Spec Arch ArchSpec Threads ThreadsSpec Probes ProbesSpec Pool SigConf TraceRunner TraceSample TableInv TraceInv TraceStop TraceInstall TraceEffect TraceCall StubFrame StubX86 StubX86Spec.

(** The part of a thread the trampoline's instructions use, and a thread after them. *)
Definition cpu_of (a : Z) (s : xs) : cpu := mk_cpu a (gp s RSP) (gp s R11) (smem s).
Definition with_cpu (c : cpu) (s : xs) : xs := set_mem (mem c) (set_gp R11 (r11 c) (set_gp RSP (rsp c) s)).

Lemma with_cpu_registers c s : r11 c = gp s R11 -> same_registers s (with_cpu c s).
Proof.
  intros H. constructor; [|done..]. intros r _ Hne. cbn. destruct (Z.eq_dec r R11) as [->|Hr]; [by rewrite upd_same|].
  by rewrite !upd_other.
Qed.

Lemma with_cpu_ctx c s a b : r11 c = gp s R11 -> x86_ctx (with_cpu c s) a b = x86_ctx s a b.
Proof. intros H. unfold x86_ctx. cbn. by rewrite H. Qed.

Lemma with_cpu_ok c s : r11 c = gp s R11 -> is_u64 (rsp c) -> machine_ok s -> machine_ok (with_cpu c s).
Proof.
  intros H Hr [O1 O2 O3]. constructor; [|done..]. intros r. cbn. unfold upd. destruct (r =? R11); [by rewrite H|].
  by destruct (r =? RSP).
Qed.

(** A range of code away from a gap is on one side of it. *)
Lemma apart_below (code : Z -> Prop) R a :
  (forall x, code x -> x < R - 304 \/ R + 16 <= x) -> (forall x, a <= x < a + ZT_TRAMPOLINE_MAX_SIZE -> code x) ->
  below_apart R 16 a ZT_TRAMPOLINE_MAX_SIZE.
Proof.
  unfold below_apart, ZT_TRAMPOLINE_MAX_SIZE in *. intros Ha Hc. pose proof (Ha a (Hc a ltac:(lia))).
  destruct (Z.le_gt_cases R a); [by left|]. right. pose proof (Ha (a + 511) (Hc (a + 511) ltac:(lia))).
  destruct (Z.lt_ge_cases (a + 511) (R - 304)); [lia|]. pose proof (Ha (R - 304) (Hc (R - 304) ltac:(lia))). lia.
Qed.

Section call.
Context `{Rm : Remote} (text : Z -> Prop) {ML : MmapLaws Rm text} (K : kernel_t) (TK : thread_kernel) (E : TraceRunner.env_t).
Context (symbol : cstr) (filter : option zt_probe_filter_t) (w w' : world) (t : zt_symbol_target_t).
Context (P : Payload.env_t) (V : stub_env) (top : Z) (code : Z -> Prop) (ABI : abi V top code) `{!CalleeBalanced P d}.

(** A thread at the function's first instruction: its return address is on the stack,
    there is room for the stubs below and for a frame of the shadow stack, and it
    runs the code of the target. *)
Record calling (s : xs) (ret : Z) : Prop := {
  cg_ok : machine_ok s;
  cg_low : 1040 <= gp s RSP;
  cg_top : gp s RSP + 8 <= top;
  cg_apart : forall x, code x -> x < gp s RSP - 304 \/ gp s RSP + 16 <= x;
  cg_room : room d (pl s);
  cg_frame : room 1 (pl s);
  cg_ret : load (smem s) (gp s RSP) 8 = ret;
  cg_u64 : is_u64 ret;
  cg_sees : sees (smem s) (wmem w')
}.

(** The thread at the function's own instructions: as it was, but that the
    return address is exit_stub's and the payload has the entry and the frame. *)
Record entered (id back ret : Z) (s s' : xs) : Prop := {
  en_regs : same_registers s s';
  en_rsp : gp s' RSP = gp s RSP;
  en_ret : slot (smem s') (gp s RSP) (se_exit V);
  en_stack : forall x, gp s RSP + 8 <= x < top -> smem s' x = smem s x;
  en_payload : pl s' = entry_stub P (x86_ctx s back (u64 (i32 id))) (vec_bytes (xmm s)) ret (pl s)
}.

(** The function has returned, with the frames of its inner calls popped. *)
Record returned (s s' : xs) : Prop := {
  rt_ok : machine_ok s';
  rt_rsp : gp s' RSP = gp s RSP + 8;
  rt_frames : same_stack (pl s) (pl s')
}.

(** The thread back at its caller. *)
Record resumed (s s3 s4 : xs) : Prop := {
  rs_rsp : gp s4 RSP = gp s RSP + 8;
  rs_same : same_registers s3 s4;
  rs_stack : forall x, gp s RSP + 8 <= x < top -> smem s4 x = smem s3 x;
  rs_payload : pl s4 = snd (exit_stub P (x86_ctx s3 0 0) (vec_bytes (xmm s3)) (pl s3));
  rs_shadow : shadow (pl_tls (pl s4)) = shadow (pl_tls (pl s))
}.

Let entry := rt_remote_entry_stub_addr (w_runtime w).

(** C2: after a probe was installed on a function, with the trampoline in memory the
    payload does not write: a thread that calls the function runs the jump, the
    trampoline, entry_stub and the trampoline's second half, and then is at the function's
    relocated instructions with every register, the flags, the argument vectors and the
    stack of the call, except that it will return to exit_stub; the payload
    recorded the entry.  Whatever the function does, its return runs exit_stub, which
    records it and goes on at the caller's return address with the function's registers,
    flags, result and stack and the caller's shadow stack. *)
Theorem x86_call_through cs_disasm :
  ready text E symbol w t -> x86_disasm_sound cs_disasm -> disasm_within cs_disasm ->
  zt_trace_install_probe (A := X86.x86_64_arch cs_disasm) (Bd := x86_builder cs_disasm) K TK E symbol filter w = (0, w') ->
  exists p insns prologue,
    let tramp := pr_trampoline_addr p in
    probe_at w' (pr_probe_id p) = Some p /\ pr_state p = ZT_PROBE_INSTALLED /\
    cs_disasm (displaced p) (tgt_remote_addr t) = Some insns /\ reloc_code (tramp +64 16) 0 insns = Some prologue /\
    ((forall x, tramp <= x < tramp + ZT_TRAMPOLINE_MAX_SIZE -> code x) ->
     forall cc s ret, calling s ret ->
       exists c1 s1 c2 s2,
         x86_run cc 3 (cpu_of (tgt_remote_addr t) s) = Some c1 /\ rip c1 = entry /\
         run_ret P V x86_entry_stub (with_cpu c1 s) = (tramp + 11, s1) /\
         x86_step cc (cpu_of (tramp + 11) s1) = Some c2 /\ rip c2 = tramp + 16 /\ s2 = with_cpu c2 s1 /\
         code_at (smem s2) (tramp + 16) prologue /\ entered (pr_probe_id p) (tramp + 11) ret s s2 /\
         forall s3, returned s2 s3 -> exists s4, run_ret P V x86_exit_stub s3 = (ret, s4) /\ resumed s s3 s4).
Proof.
  intros Hr Hs Hw Hrun.
  destruct (x86_installed text K TK E symbol filter w w' t cs_disasm Hr Hs Hw Hrun)
    as (p & insns & prologue & bytes & I1 & I2 & I3 & _ & _ & I6 & I7 & I8 & Hsee & Hlen & H).
  exists p, insns, prologue. cbv zeta in *. split_and!; [done..|]. intros Hcode cc s ret [Hok Hlo Ht Hap Hd H1 Hret Uret Hsees].
  set (a := tgt_remote_addr t) in *. set (tramp := pr_trampoline_addr p) in *. destruct (Hsee _ Hsees) as [Hb Hj].
  destruct (H cc (cpu_of a s) Hb) as [R1 _].
  destruct (R1 eq_refl Hj (apart_below code _ _ Hap Hcode)) as (c1 & E1 & E2 & E3 & E4 & E5 & E6 & E7).
  change (rsp (cpu_of a s)) with (gp s RSP) in *. change (mem (cpu_of a s)) with (smem s) in *.
  set (s0 := with_cpu c1 s). assert (S0 : gp s0 RSP = gp s RSP - 16) by exact E3. change (mem c1) with (smem s0) in *.
  assert (Hu : u64 (tramp + 11) = tramp + 11) by (apply u64_small; unfold is_u64, ZT_TRAMPOLINE_MAX_SIZE in *; lia).
  destruct (x86_probed_call P V top code ABI s0 (u64 (i32 (pr_probe_id p))) ret)
    as (s1 & F1 & F2 & F3 & F4 & F5 & F6 & F7).
  { apply with_cpu_ok; [done| |done]. pose proof (mo_gp _ Hok RSP). unfold is_u64 in *. lia. }
  { lia. } { lia. } { intros x Hx%Hap. lia. } { done. } { done. } { by rewrite S0, <- E3. } { apply u64_range. }
  { rewrite <- Hret, S0. replace (gp s RSP - 16 + 16) with (gp s RSP) by lia. apply load_ext. intros x Hx. apply E7. lia. }
  { done. }
  assert (Hb1 : code_at (smem s1) tramp bytes).
  { eapply code_at_ext; [|exact Hb]. intros x Hx. assert (Hc : code x) by (apply Hcode; lia). pose proof (Hap x Hc).
    rewrite F5, E7 by (done || lia || by right). done. }
  destruct (H cc (cpu_of (tramp + 11) s1) Hb1) as (_ & R2 & _). destruct (R2 eq_refl) as [G1 G2].
  set (c2 := mk_cpu (tramp + 16) (gp s1 RSP + 8) (gp s1 R11) (smem s1)). set (s2 := with_cpu c2 s1).
  rewrite Hu in E5. change (gp s0 RSP) with (rsp c1) in F1. rewrite E5 in F1. rewrite S0 in F2, F4, F5, F7.
  assert (S2 : gp s2 RSP = gp s RSP) by (change (gp s1 RSP + 8 = gp s RSP); lia).
  exists c1, s1, c2, s2. split_and!; [done|done|exact F1|exact G1|done|done|exact G2| |].
  - constructor; [|done| | |].
    + eapply same_registers_trans; [apply (with_cpu_registers c1 s E4)|]. eapply same_registers_trans; [exact F3|by apply with_cpu_registers].
    + replace (gp s RSP) with (gp s RSP - 16 + 16) by lia. exact F4.
    + intros x Hx. change (smem s2 x) with (smem s1 x). rewrite F5, E7 by lia. done.
    + change (pl s2) with (pl s1). rewrite F6. change (gp s0 RSP) with (rsp c1). by rewrite E5, <- (with_cpu_ctx c1 s _ _ E4).
  - intros s3 [T1 T2 T3]. rewrite S2 in T2.
    destruct (F7 s3 T1) as (s4 & X1 & X2 & X3 & X4 & X5 & X6); [lia|intros x Hx%Hap; lia|done|].
    exists s4. split; [done|]. constructor; [lia|done| |done|done]. intros x Hx. apply X4. lia.
Qed.
End call.

(** ** Witness *)

Lemma x86_sample_ret : load (memory_of (snd (x86_sample_install ready_world))) 0x300000 8 = 0x101010101010101.
Proof. vm_compute. reflexivity. Qed.

(** C2: a call of `write` from 0x101010101010101, with the stack at 0x300000: back to
    the caller through both stubs. *)
Lemma x86_call_through_witness :
  let '(rc, w') := x86_sample_install ready_world in
  let V := sample_stubs high_code in
  let s := sample_thread 0x300000 (memory_of w') sample_state in
  rc = 0 /\ exists c1 s1 s2 s3 s4,
    x86_run (fun _ => false) 3 (cpu_of 0x401000 s) = Some c1 /\ rip c1 = 0x600000 /\
    snd (run_ret ShadowStack.sample_env V x86_entry_stub (with_cpu c1 s)) = s1 /\
    gp s2 RSP = 0x300000 /\ s3 = sample_thread 0x300008 (memory_of w') (pl s2) /\
    run_ret ShadowStack.sample_env V x86_exit_stub s3 = (0x101010101010101, s4) /\ gp s4 RSP = 0x300008.
Proof.
  destruct (x86_sample_install ready_world) as [rc w'] eqn:E.
  assert (rc = 0) as -> by (change rc with (fst (rc, w')); rewrite <- E; vm_compute; reflexivity).
  split; [reflexivity|]. pose proof x86_sample_tramps as Ht. rewrite E in Ht.
  pose proof x86_sample_ret as Hm. rewrite E in Hm. cbn [snd] in Ht, Hm.
  destruct (x86_call_through (Rm := high_remote) low_text plain_kernel sample_thread_kernel sample_env (lit "write") None ready_world w'
    write_target ShadowStack.sample_env (sample_stubs high_code) 0x400000 _ (sample_abi high_code 0x400000)
    nops_disasm ready_world_ready nops_sound nops_within E) as (p & insns & pro & H0 & _ & _ & _ & H).
  destruct (H) with (cc := fun _ : Z => false) (s := sample_thread 0x300000 (memory_of w') sample_state) (ret := 0x101010101010101)
    as (c1 & s1 & c2 & s2 & A1 & A2 & A3 & _ & _ & _ & _ & [_ B1 _ _ _] & A4).
  - intros x Hx. unfold high_code. pose proof (high_trampolines _ _ _ Ht H0). apply Z.leb_le. lia.
  - constructor.
    + apply sample_thread_ok. split; [discriminate|reflexivity].
    + discriminate.
    + discriminate.
    + intros x Hx%Z.leb_le. right. change (gp (sample_thread 0x300000 (memory_of w') sample_state) RSP) with 0x300000. lia.
    + vm_compute. split; [split; [reflexivity|split; discriminate]|discriminate].
    + vm_compute. split; [split; [reflexivity|split; discriminate]|discriminate].
    + exact Hm.
    + split; [discriminate|reflexivity].
    + apply memory_of_sees.
  - destruct (A4 (sample_thread 0x300008 (memory_of w') (pl s2))) as (s4 & A5 & [A6 _ _ _ _]).
    { constructor; [apply sample_thread_ok; split; [discriminate|reflexivity]|rewrite B1; reflexivity|exact (Equivalence_Reflexive _)]. }
    exists c1, s1, s2, (sample_thread 0x300008 (memory_of w') (pl s2)), s4.
    split; [exact A1|]. split; [exact A2|]. split; [by rewrite A3|]. split; [exact B1|]. split; [reflexivity|]. split; [exact A5|exact A6].
Defined.
