(* ===== verification/TraceA64.v ===== *)
(** * A traced call on AArch64, from the caller and back

    As TraceX86, with the processor of A64Machine for the patched function and its
    trampoline and that of StubA64 for the stubs. *)

From S2P Require Import Prelude CLib Types Payload ShadowStack Reader RemoteMem RemoteMemSpec Emit A64Machine A64Trampoline A64Spec A64Build Arch ArchSpec Threads ThreadsSpec Probes ProbesSpec Pool SigConf TraceRunner TraceSample TableInv TraceInv TraceStop TraceInstall TraceEffect TraceCall StubFrame StubA64 StubA64Spec.

(** The part of a thread the trampoline's instructions use, and a thread after
    them; the stack pointer is not among it. *)
Definition cpu_of (a : Z) (s : as_t) : a64_cpu := mk_a64 a (gx s) (amem s).
Definition with_cpu (c : a64_cpu) (s : as_t) : as_t :=
  mk_as (fun r => if r =? SP then gx s SP else get c r) (sysr s) (qv s) (A64Machine.amem c) (apl s).

Lemma with_cpu_get c s r : r <> SP -> gx (with_cpu c s) r = get c r.
Proof. intros H. cbn. by rewrite (proj2 (Z.eqb_neq r SP) H). Qed.

Lemma cpu_of_get a s r : r <> SP -> get (cpu_of a s) r = gx s r.
Proof. intros H. unfold get. by rewrite (proj2 (Z.eqb_neq r 31) H). Qed.

(** The registers a call keeps and the function may rely on: arguments, the
    indirect result, the callee-saved registers and the stack pointer. *)
Definition call_regs : list Z := seqZ 0 9 ++ seqZ 18 12 ++ [SP].

Lemma call_regs_range r : r ∈ call_regs -> r = SP \/ 0 <= r < 9 \/ 18 <= r < 30.
Proof.
  unfold call_regs. rewrite !elem_of_app, !elem_of_seqZ, elem_of_cons, elem_of_nil. intros [H|[H|[H|[]]]]; [lia|lia|by left].
Qed.

Lemma call_entry_regs r : r ∈ call_regs -> r ∈ entry_regs.
Proof. intros H%call_regs_range. unfold entry_regs, SP in *. rewrite elem_of_app, !elem_of_seqZ. lia. Qed.

(** The context's arguments by index. *)
Lemma entry_ctx_arg s c i : entry_ctx s c -> 0 <= i < 6 -> zt_context_gp_arg (Some c) i = gx s i.
Proof.
  intros [A0 A1 A2 A3 A4 A5 _ _ _] Hi. assert (i ∈ seqZ 0 6) as Hin by (apply elem_of_seqZ; lia).
  clear Hi. revert i Hin. apply Forall_forall. repeat constructor; done.
Qed.

(** What the last step of the trampoline changes. *)
Definition set_lr (a : Z) (s : as_t) : a64_cpu := goto (a + 4) (set 30 (get (cpu_of a s) 15) (cpu_of a s)).

Lemma set_lr_effect a s :
  let s' := with_cpu (set_lr a s) s in
  gx s' 30 = gx s 15 /\ (forall r, r <> 30 -> gx s' r = gx s r) /\ sysr s' = sysr s /\ qv s' = qv s /\ amem s' = amem s /\ apl s' = apl s.
Proof.
  cbv zeta. split_and!; try done. intros r Hr. destruct (Z.eq_dec r SP) as [->|Hs]; [done|]. rewrite with_cpu_get by done.
  unfold set_lr, get, goto, set. cbn [regs]. rewrite (proj2 (Z.eqb_neq r 31) Hs), (proj2 (Z.eqb_neq r 30) Hr). done.
Qed.

(** A thread that arrives in entry_stub from the trampoline. *)
Lemma arrived_ok s s0 :
  machine_ok s -> (forall r, r <> 15 -> r <> 16 -> r <> 17 -> r <> 30 -> gx s0 r = gx s r) ->
  is_u64 (gx s0 15) -> is_u64 (gx s0 17) -> is_u64 (gx s0 30) -> sysr s0 = sysr s -> qv s0 = qv s -> machine_ok s0.
Proof.
  intros [O1 O2 O3] H0 U15 U17 U30 Hy Hq. constructor; [|by rewrite Hy|by rewrite Hq]. intros r Hr.
  destruct (Z.eq_dec r 15) as [->|]; [done|]. destruct (Z.eq_dec r 17) as [->|]; [done|].
  destruct (Z.eq_dec r 30) as [->|]; [done|]. rewrite H0 by done. by apply O1.
Qed.

(** The registers of the call behind the trampoline's first part, entry_stub and the move to
    the link register. *)
Lemma after_trampoline_regs s s0 s1 s2 :
  (forall r, r <> 15 -> r <> 16 -> r <> 17 -> r <> 30 -> gx s0 r = gx s r) -> sysr s0 = sysr s -> qv s0 = qv s ->
  same_registers entry_regs s0 s1 ->
  (forall r, r <> 30 -> gx s2 r = gx s1 r) -> sysr s2 = sysr s1 -> qv s2 = qv s1 -> same_registers call_regs s s2.
Proof.
  intros H0 Hy Hq [R1 R2 R3] H2 Hy2 Hq2. constructor.
  - intros r Hr. pose proof (call_regs_range r Hr) as Hrr. unfold SP in Hrr.
    rewrite H2, R1, H0 by (lia || by apply call_entry_regs). done.
  - intros y. by rewrite Hy2, R2, Hy.
  - intros i Hi. by rewrite Hq2, R3, Hq.
Qed.

Section call.
Context `{Rm : Remote} (text : Z -> Prop) {ML : MmapLaws Rm text} (K : kernel_t) (TK : thread_kernel) (E : TraceRunner.env_t).
Context (symbol : cstr) (filter : option zt_probe_filter_t) (w w' : world) (t : zt_symbol_target_t).
Context (P : Payload.env_t) (V : stub_env) (top : Z) (code : Z -> Prop) (ABI : abi V top code) `{!CalleeBalanced P d}.

(** A thread at the function's first instruction, as on x86_64; the return address
    is in x30. *)
Record calling (s : as_t) : Prop := {
  cg_ok : machine_ok s;
  cg_align : gx s SP mod 16 = 0;
  cg_low : 1024 <= gx s SP;
  cg_top : gx s SP <= top;
  cg_apart : forall x, code x -> x < gx s SP - 640 \/ gx s SP <= x;
  cg_room : room d (apl s);
  cg_frame : room 1 (apl s);
  cg_sees : sees (amem s) (wmem w')
}.

(** The thread at the function's own instructions. *)
Record entered (id : Z) (s s' : as_t) : Prop := {
  en_regs : same_registers call_regs s s';
  en_lr : gx s' 30 = se_exit V;
  en_stack : forall x, gx s SP <= x < top -> amem s' x = amem s x;
  en_payload : exists ctx, (forall i, 0 <= i < 6 -> zt_context_gp_arg (Some ctx) i = gx s i) /\ func_id ctx = id /\
    apl s' = entry_stub P ctx (vec_bytes (qv s)) (gx s 30) (apl s)
}.

Record returned (s s' : as_t) : Prop := {
  rt_ok : machine_ok s';
  rt_sp : gx s' SP = gx s SP;
  rt_frames : same_stack (apl s) (apl s')
}.

(** The thread back at its caller. *)
Record resumed (s s3 s4 : as_t) : Prop := {
  rs_same : same_registers exit_regs s3 s4;
  rs_stack : forall x, gx s SP <= x < top -> amem s4 x = amem s3 x;
  rs_payload : exists ctx, gp_retval0 ctx = gx s3 0 /\ apl s4 = snd (exit_stub P ctx (vec_bytes (qv s3)) (apl s3));
  rs_shadow : shadow (pl_tls (apl s4)) = shadow (pl_tls (apl s))
}.

Let entry := rt_remote_entry_stub_addr (w_runtime w).

(** C1: after a probe was installed on a function, with the trampoline in memory the
    payload does not write: a thread that calls the function runs the jump, the
    trampoline, entry_stub and the move of x15 to the link register, and then is at
    the function's relocated instructions with x0-x8, x18-x29, the stack pointer, the flags, the
    floating-point control and status, the argument vectors and the stack of the call and
    exit_stub in the link register; the payload recorded the entry with the argument
    registers.  The function's return runs exit_stub, which records x0 and goes
    on at the caller's return address with the function's registers and stack and
    the caller's shadow stack. *)
Theorem a64_call_through cs_disasm :
  ready text E symbol w t -> a64_disasm_sound cs_disasm ->
  zt_trace_install_probe (A := A64.aarch64_arch) (Bd := a64_builder cs_disasm) K TK E symbol filter w = (0, w') ->
  exists p insns prologue,
    let tramp := pr_trampoline_addr p in
    let back := tramp + stub_return (pr_probe_id p) entry in
    probe_at w' (pr_probe_id p) = Some p /\ pr_state p = ZT_PROBE_INSTALLED /\
    cs_disasm (displaced p) (tgt_remote_addr t) = Some insns /\ reloc_all insns = Some prologue /\
    ((forall x, tramp <= x < tramp + ZT_TRAMPOLINE_MAX_SIZE -> code x) ->
     forall cc s, calling s ->
       exists n c1 s1 c2 s2,
         a64_run cc n (cpu_of (tgt_remote_addr t) s) = Some c1 /\ pc c1 = entry /\
         run_ret P V a64_entry_stub (with_cpu c1 s) = (back, s1) /\
         a64_step cc (cpu_of back s1) = Some c2 /\ pc c2 = back + 4 /\ s2 = with_cpu c2 s1 /\
         words_at (amem s2) (back + 4) prologue /\ entered (pr_probe_id p) s s2 /\
         forall s3, returned s2 s3 -> exists s4, run_ret P V a64_exit_stub s3 = (gx s 30, s4) /\ resumed s s3 s4).
Proof.
  intros Hr Hs Hrun.
  destruct (a64_installed text K TK E symbol filter w w' t cs_disasm Hr Hs Hrun)
    as (p & insns & prologue & bytes & I1 & I2 & I3 & _ & _ & I6 & I7 & Hid & I8 & Hsee & Hlen & H).
  exists p, insns, prologue. cbv zeta in *. split_and!; [done..|]. intros Hcode cc s [Hok Ha Hlo Ht Hap Hd H1 Hsees].
  set (tramp := pr_trampoline_addr p) in *. fold entry in H. set (back := tramp + stub_return (pr_probe_id p) entry) in *.
  destruct (Hsee _ Hsees) as [Hb Hj].
  destruct (H cc (cpu_of (tgt_remote_addr t) s) Hb) as [R1 _].
  destruct (R1 eq_refl Hj) as (n & c1 & E1 & E2 & E3 & E4 & E5 & E6 & E7).
  set (s0 := with_cpu c1 s). assert (G0 : forall r, r <> 15 -> r <> 16 -> r <> 17 -> r <> 30 -> gx s0 r = gx s r).
  { intros r N2 N3 N4 N5. destruct (Z.eq_dec r SP) as [->|N1]; [done|]. unfold s0. rewrite with_cpu_get, E7, cpu_of_get by done. done. }
  assert (G15 : gx s0 15 = gx s 30) by exact E5. assert (G17 : gx s0 17 = pr_probe_id p) by exact E4.
  assert (G30 : gx s0 30 = back) by exact E6. assert (GS : gx s0 SP = gx s SP) by done.
  assert (Hback : is_u64 back).
  { unfold back, stub_return, is_u64, ZT_TRAMPOLINE_MAX_SIZE in *. pose proof (zt_mov_abs_size_range (pr_probe_id p)).
    pose proof (zt_mov_abs_size_range entry). lia. }
  assert (Hok0 : machine_ok s0) by (eapply arrived_ok; [done|done|by rewrite G15; apply Hok|by rewrite G17|by rewrite G30|done|done]).
  destruct (a64_probed_call P V top code ABI s0 Hok0) as (s1 & ctx & F1 & F2 & F3 & F4 & F5 & F6 & F7); [by rewrite GS..|done|done|].
  rewrite G15, G30, ?GS in *. assert (M0 : amem s0 = amem s) by exact E3.
  assert (Hb1 : code_at (amem s1) tramp bytes).
  { eapply code_at_ext; [|exact Hb]. intros x Hx. change (A64Machine.amem (cpu_of (tgt_remote_addr t) s)) with (amem s).
    rewrite <- M0. apply F4. right. apply Hcode. lia. }
  destruct (H cc (cpu_of back s1) Hb1) as (_ & R2 & _). destruct (R2 eq_refl) as [S1 W1].
  destruct (set_lr_effect back s1) as (L1 & L2 & L3 & L4 & L5 & L6).
  exists n, c1, s1, (set_lr back s1), (with_cpu (set_lr back s1) s1).
  split_and!; [done|done|exact F1|exact S1|done|done|exact W1| |].
  - constructor.
    + eapply after_trampoline_regs; [exact G0|done|done|exact F2|exact L2|done|done].
    + by rewrite L1.
    + intros x Hx. rewrite L5, F4, M0 by (by left). done.
    + exists ctx. split_and!; [|by rewrite (ec_id _ _ F5)|by rewrite L6].
      intros i Hi. rewrite (entry_ctx_arg _ _ _ F5 Hi). apply G0; lia.
  - intros s3 [T1 T2 T3]. rewrite L6 in T3. rewrite L2, (sr_gx _ _ _ F2) in T2 by (done || by apply (bool_decide_eq_true_1 _)).
    destruct (F7 s3 T1) as (s4 & c4 & X1 & X2 & X3 & X4 & X5 & X6); [by rewrite T2|done|].
    exists s4. split; [done|]. constructor; [done| |exists c4; split; [apply X4|done]|done].
    intros x Hx. apply X3. by left.
Qed.
End call.

(** ** Witness *)

Abbreviation a64_sample_install :=
  (zt_trace_install_probe (A := A64.aarch64_arch) (Rm := high_remote) (Bd := a64_builder sample_a64_disasm)
    plain_kernel sample_thread_kernel sample_env (lit "write") None).

Lemma a64_sample_tramps : forallb high_trampoline (w_probes (snd (a64_sample_install ready_world))) = true.
Proof. vm_compute. reflexivity. Qed.

(** C1: a call of `write` with 130 in the link register and the stack at 0x300000. *)
Lemma a64_call_through_witness :
  let '(rc, w') := a64_sample_install ready_world in
  let V := sample_stubs high_code in
  let s := sample_thread (memory_of w') sample_state in
  rc = 0 /\ exists n c1 s1 s2 s3 s4,
    a64_run (fun _ => false) n (cpu_of 0x401000 s) = Some c1 /\ pc c1 = 0x600000 /\
    snd (run_ret ShadowStack.sample_env V a64_entry_stub (with_cpu c1 s)) = s1 /\
    gx s2 0 = 100 /\ gx s2 30 = 0x600100 /\ s3 = sample_thread (memory_of w') (apl s2) /\
    run_ret ShadowStack.sample_env V a64_exit_stub s3 = (130, s4) /\ gx s4 SP = 0x300000.
Proof.
  destruct (a64_sample_install ready_world) as [rc w'] eqn:E.
  assert (rc = 0) as -> by (change rc with (fst (rc, w')); rewrite <- E; vm_compute; reflexivity).
  split; [reflexivity|]. pose proof a64_sample_tramps as Ht. rewrite E in Ht. cbn [snd] in Ht.
  destruct (a64_call_through (Rm := high_remote) low_text plain_kernel sample_thread_kernel sample_env (lit "write") None ready_world w'
    write_target ShadowStack.sample_env (sample_stubs high_code) 0x400000 _ (a64_sample_abi high_code 0x400000)
    sample_a64_disasm ready_world_ready sample_a64_sound E) as (p & insns & pro & H0 & _ & _ & _ & H).
  destruct (H) with (cc := fun _ : Z => false) (s := sample_thread (memory_of w') sample_state)
    as (n & c1 & s1 & c2 & s2 & A1 & A2 & A3 & _ & _ & _ & _ & [B1 B2 _ _] & A4).
  - intros x Hx. unfold high_code. pose proof (high_trampolines _ _ _ Ht H0). apply Z.leb_le. lia.
  - constructor.
    + apply a64_sample_thread_ok.
    + reflexivity.
    + discriminate.
    + discriminate.
    + intros x Hx%Z.leb_le. right. change (gx (sample_thread (memory_of w') sample_state) SP) with 0x300000. lia.
    + vm_compute. split; [split; [reflexivity|split; discriminate]|discriminate].
    + vm_compute. split; [split; [reflexivity|split; discriminate]|discriminate].
    + apply memory_of_sees.
  - destruct (A4 (sample_thread (memory_of w') (apl s2))) as (s4 & A5 & [A6 _ _ _]).
    { constructor; [apply a64_sample_thread_ok|rewrite (sr_gx _ _ _ B1) by (by apply (bool_decide_eq_true_1 _)); reflexivity|exact (Equivalence_Reflexive _)]. }
    exists n, c1, s1, s2, (sample_thread (memory_of w') (apl s2)), s4.
    split; [exact A1|]. split; [exact A2|]. split; [by rewrite A3|]. split; [apply (sr_gx _ _ _ B1); left|]. split; [exact B2|].
    split; [reflexivity|]. split; [exact A5|]. apply (sr_gx _ _ _ A6). by apply (bool_decide_eq_true_1 _).
Defined.
