(* ===== verification/MapsSpec.v ===== *)
(** * /proc/<pid>/maps

    The kernel's text of a process's mappings, and what the injector reads from it:
    the load address of an image and whether an address is mapped are those of the
    mappings. *)

From S2P Require Import Prelude CLib Types RemoteMem Arch Threads SigConf SigConfSpec SigFormat Symbols.

(** ** The kernel's text *)

Record mapping := mk_mapping {
  mp_start : Z; mp_end : Z; mp_perms : cstr; mp_offset : Z; mp_dev : cstr; mp_inode : cstr; mp_pad : nat; mp_path : cstr
}.

(** "%08lx" *)
Definition hex8 (z : Z) : cstr := let d := hex_aux 16 z [] in replicate (8 - length d) 48 ++ d.

Definition print_mapping (m : mapping) : cstr :=
  hex8 (mp_start m) ++ 45 :: hex8 (mp_end m) ++ 32 :: mp_perms m ++ 32 :: hex8 (mp_offset m) ++ 32 :: mp_dev m ++
  32 :: mp_inode m ++ replicate (mp_pad m) 32 ++ mp_path m.

Definition word (s : cstr) : Prop := Forall (fun c => c <> 0 /\ isspace c = false) s.

(** The path is empty, or a word after at least one blank; a line fits the buffer. *)
Definition mapping_ok (m : mapping) : Prop :=
  is_u64 (mp_start m) /\ is_u64 (mp_end m) /\ is_u64 (mp_offset m) /\
  (word (mp_perms m) /\ length (mp_perms m) = 4%nat) /\ (word (mp_dev m) /\ mp_dev m <> []) /\
  (word (mp_inode m) /\ mp_inode m <> []) /\ word (mp_path m) /\ (mp_path m <> [] -> (1 <= mp_pad m)%nat) /\
  (length (print_mapping m) <= 4000)%nat.

#[export] Instance word_dec s : Decision (word s).
Proof. unfold word. apply _. Defined.
#[export] Instance mapping_ok_dec m : Decision (mapping_ok m).
Proof. unfold mapping_ok, is_u64. apply _. Defined.

Definition print_maps (ms : list mapping) : list Z := concat (map (fun m => print_mapping m ++ [10]) ms).

(** ** Numbers *)

Lemma digit_in_hex d : 0 <= d < 16 -> digit_in 16 (hex_digit d) = Some d.
Proof.
  intros Hd. unfold digit_in, digit_val, isdigit, hex_digit. destruct (Z.ltb_spec d 10).
  - replace ((48 <=? 48 + d) && (48 + d <=? 57)) with true by lia.
    replace (48 + d - 48) with d by lia. by replace (d <? 16) with true by lia.
  - replace ((48 <=? 87 + d) && (87 + d <=? 57)) with false by lia.
    replace ((97 <=? 87 + d) && (87 + d <=? 122)) with true by lia.
    replace (87 + d - 87) with d by lia. by replace (d <? 16) with true by lia.
Qed.

Definition hexes (s : cstr) : Prop := Forall (fun c => ishex c = true) s.

Lemma hex_digit_ishex d : 0 <= d < 16 -> ishex (hex_digit d) = true.
Proof. intros Hd. unfold ishex. apply bool_decide_eq_true. rewrite digit_in_hex by done. by eexists. Qed.

Lemma hex_aux_spec fuel z acc :
  0 <= z < 16 ^ Z.of_nat fuel ->
  exists ds, hex_aux fuel z acc = ds ++ acc /\ hexes ds /\
    forall a r, strto_digits 16 a (ds ++ r) = strto_digits 16 (a * 16 ^ Z.of_nat (length ds) + z) r.
Proof.
  revert z acc. induction fuel as [|fuel IH]; intros z acc Hz.
  { exists []. cbn in *. replace z with 0 by lia. split_and!; [done|constructor|]. intros. f_equal. lia. }
  cbn [hex_aux]. pose proof (Z.mod_pos_bound z 16 ltac:(lia)) as Hm.
  destruct (Z.ltb_spec z 16) as [Hlt|Hge].
  - exists [hex_digit (z mod 16)]. rewrite Z.mod_small in * by lia.
    split_and!; [done|by repeat constructor; apply hex_digit_ishex|].
    intros a r. cbn [app strto_digits length]. rewrite digit_in_hex by lia. f_equal; lia.
  - assert (Hq : 0 <= z / 16 < 16 ^ Z.of_nat fuel).
    { rewrite Nat2Z.inj_succ, Z.pow_succ_r in Hz by lia.
      split; [apply Z.div_pos; lia|]. apply Z.div_lt_upper_bound; lia. }
    destruct (IH (z / 16) (hex_digit (z mod 16) :: acc) Hq) as (ds & -> & Hd & Hs).
    exists (ds ++ [hex_digit (z mod 16)]). rewrite <- app_assoc. split_and!; [done| |].
    + apply Forall_app. split; [done|]. repeat constructor. by apply hex_digit_ishex.
    + intros a r. rewrite <- app_assoc, Hs. cbn [app strto_digits]. rewrite digit_in_hex by lia. f_equal.
      rewrite length_app. cbn [length]. rewrite Nat2Z.inj_add, Z.pow_add_r by lia.
      pose proof (Z.div_mod z 16 ltac:(lia)). lia.
Qed.

Lemma strto_digits_zeros n a r : strto_digits 16 a (replicate n 48 ++ r) = strto_digits 16 (a * 16 ^ Z.of_nat n) r.
Proof.
  revert a. induction n as [|n IH]; intros a; [cbn; f_equal; lia|]. cbn [replicate app strto_digits].
  change (digit_in 16 48) with (Some 0). cbv iota. rewrite IH, Nat2Z.inj_succ, Z.pow_succ_r by lia. f_equal. lia.
Qed.

Lemma hex8_spec z :
  is_u64 z -> hexes (hex8 z) /\ (8 <= length (hex8 z))%nat /\ forall r, strto_digits 16 0 (hex8 z ++ r) = strto_digits 16 z r.
Proof.
  intros Hz. unfold is_u64 in Hz. unfold hex8. destruct (hex_aux_spec 16 z []) as (ds & E & Hd & Hs).
  { change (16 ^ Z.of_nat 16) with (2 ^ 64). lia. }
  rewrite app_nil_r in E. rewrite E. split_and!.
  - apply Forall_app. split; [by apply Forall_replicate|done].
  - rewrite length_app, length_replicate. lia.
  - intros r. rewrite <- app_assoc, strto_digits_zeros, Hs. by rewrite !Z.mul_0_l.
Qed.

(** ** Scanning what was printed *)

Lemma ishex_not c : ishex c = true -> isspace c = false /\ c <> 45 /\ c <> 43 /\ c <> 120 /\ c <> 88 /\ c <> 0 /\ c <> 10.
Proof.
  unfold ishex, digit_in, digit_val, isdigit, isspace. rewrite bool_decide_eq_true. intros [d Hd].
  repeat case_match; simplify_eq; zbool; split_and!; lia.
Qed.

Lemma skip_while_stop f p r : Forall (fun c => f c = true) p -> f (chr r) = false -> skip_while f (p ++ r) = r.
Proof. intros Hp Hr. rewrite skip_while_app by done. by apply skip_while_idem. Qed.

Lemma scan_hex_hex8 z r : is_u64 z -> digit_in 16 (chr r) = None -> scan_hex (hex8 z ++ r) = Some (z, r).
Proof.
  intros Hz Hr. destruct (hex8_spec z Hz) as (Hd & Hl & Hs). specialize (Hs r).
  rewrite (strto_digits_stop 16 z r Hr) in Hs. revert Hd Hl Hs. generalize (hex8 z) as ds. intros ds Hd Hl Hs.
  destruct ds as [|c [|c2 ds]]; cbn [length] in Hl; [lia|lia|].
  apply Forall_cons in Hd as [Hc Hd]. apply Forall_cons in Hd as [Hc2 Hd].
  destruct (ishex_not c Hc) as (Hsp & H45 & H43 & _). destruct (ishex_not c2 Hc2) as (_ & _ & _ & H120 & H88 & _).
  unfold scan_hex. cbn [app]. rewrite skip_while_idem by done.
  replace (match c :: c2 :: ds ++ r with 45 :: q => (true, q) | 43 :: q => (false, q) | _ => (false, c :: c2 :: ds ++ r) end)
    with (false, c :: c2 :: ds ++ r) by (symmetry; repeat case_match; congruence).
  replace (match c :: c2 :: ds ++ r with 48 :: x :: q => if (x =? 120) || (x =? 88) then q else c :: c2 :: ds ++ r
           | _ => c :: c2 :: ds ++ r end) with (c :: c2 :: ds ++ r)
    by (rewrite (proj2 (Z.eqb_neq c2 120) H120), (proj2 (Z.eqb_neq c2 88) H88); cbn; repeat case_match; congruence).
  cbn [chr]. rewrite Hc. cbn [app] in Hs. rewrite Hs. unfold is_u64, ULLONG_MAX in *.
  by destruct (Z.ltb_spec (2 ^ 64 - 1) z); [lia|].
Qed.

Lemma scan_set_hex8 z r : is_u64 z -> ishex (chr r) = false -> scan_set ishex (hex8 z ++ r) = Some r.
Proof.
  intros Hz Hr. destruct (hex8_spec z Hz) as (Hd & Hl & _). unfold scan_set. rewrite skip_while_stop by done.
  destruct (hex8 z) as [|c ds]; cbn [length] in Hl; [lia|]. apply Forall_cons in Hd as [Hc _]. cbn [app chr]. by rewrite Hc.
Qed.

Lemma span_word_stop n w r :
  word w -> (length w <= n)%nat -> isspace (chr r) = true \/ r = [] -> span_word n (w ++ r) = (w, r).
Proof.
  intros Hw. revert n. induction Hw as [|c w [_ Hc] _ IH]; intros n Hn Hr.
  - destruct n, r as [|d r]; try done. destruct Hr as [Hr|]; [|done]. cbn [chr] in Hr. cbn. by rewrite Hr.
  - destruct n as [|n]; cbn [length] in Hn; [lia|]. cbn [app span_word]. rewrite Hc, IH by (done || lia). done.
Qed.

Lemma scan_word_stop n sp w r :
  Forall (fun c => isspace c = true) sp -> word w -> w <> [] -> (length w <= n)%nat -> isspace (chr r) = true \/ r = [] ->
  scan_word n (sp ++ w ++ r) = Some (w, r).
Proof.
  intros Hsp Hw Hne Hn Hr. unfold scan_word. rewrite skip_while_stop; [|done|].
  - rewrite span_word_stop by done. by destruct w.
  - destruct w as [|c w]; [done|]. apply Forall_cons in Hw as [[_ Hc] _]. exact Hc.
Qed.

Lemma scan_word_end n sp : Forall (fun c => isspace c = true) sp -> scan_word n sp = None.
Proof.
  intros Hsp. unfold scan_word. replace (skip_while isspace sp) with (@nil Z); [by destruct n|].
  symmetry. rewrite <- (app_nil_r sp). by apply skip_while_stop.
Qed.

(** ** A line *)

(** The text from the permissions on, and its scan. *)
Definition after_range (m : mapping) : cstr :=
  32 :: mp_perms m ++ 32 :: hex8 (mp_offset m) ++ 32 :: mp_dev m ++ 32 :: mp_inode m ++ replicate (mp_pad m) 32 ++ mp_path m ++ [10].
Definition after_offset (m : mapping) : cstr :=
  32 :: mp_dev m ++ 32 :: mp_inode m ++ replicate (mp_pad m) 32 ++ mp_path m ++ [10].

Lemma print_mapping_split m :
  print_mapping m ++ [10] = hex8 (mp_start m) ++ 45 :: hex8 (mp_end m) ++ after_range m.
Proof. unfold print_mapping, after_range. app_eq. Qed.

Definition the_path (m : mapping) : option cstr := if decide (mp_path m = []) then None else Some (mp_path m).

Lemma scan_after_offset m :
  mapping_ok m ->
  ('(_, p) ← scan_word (length (after_offset m)) (after_offset m);
   '(_, p) ← scan_word (length p) p;
   '(path, _) ← scan_word (length p) p;
   Some path) = the_path m.
Proof.
  intros (_ & _ & _ & _ & [Hd Hdn] & [Hi Hin] & Hp & Hpad & _). unfold after_offset.
  set (t1 := 32 :: mp_inode m ++ _). assert (E1 : scan_word (length (32 :: mp_dev m ++ t1)) ([32] ++ mp_dev m ++ t1) = Some (mp_dev m, t1)).
  { apply scan_word_stop; [by repeat constructor|done|done|cbn; rewrite length_app; lia|by left]. }
  cbn [app] in E1. rewrite E1. cbn [mbind option_bind]. unfold t1.
  set (t2 := replicate _ _ ++ _). assert (Ht2 : isspace (chr t2) = true \/ t2 = []).
  { left. unfold t2. destruct (mp_pad m) as [|n]; [|done]. cbn. destruct (mp_path m) as [|c w]; [done|]. specialize (Hpad ltac:(done)). lia. }
  assert (E2 : scan_word (length (32 :: mp_inode m ++ t2)) ([32] ++ mp_inode m ++ t2) = Some (mp_inode m, t2)).
  { apply scan_word_stop; [by repeat constructor|done|done|cbn; rewrite length_app; lia|done]. }
  cbn [app] in E2. rewrite E2. cbn [mbind option_bind]. unfold t2, the_path.
  assert (Hsp : Forall (fun c => isspace c = true) (replicate (mp_pad m) 32)) by (by apply Forall_replicate).
  destruct (decide (mp_path m = [])) as [->|Hne].
  - cbn [app]. rewrite scan_word_end; [done|]. apply Forall_app. split; [done|by repeat constructor].
  - rewrite scan_word_stop; [done|done|done|done|rewrite !length_app; lia|by left].
Qed.

Lemma scan_after_range m :
  mapping_ok m ->
  scan_word 7 (after_range m) = Some (mp_perms m, 32 :: hex8 (mp_offset m) ++ after_offset m).
Proof.
  intros (_ & _ & _ & [Hp Hl] & _). apply (scan_word_stop 7 [32] (mp_perms m) (32 :: _));
    [by repeat constructor|done|by destruct (mp_perms m)|lia|by left].
Qed.

Lemma scan_hex_skip z r : is_u64 z -> digit_in 16 (chr r) = None -> scan_hex (32 :: hex8 z ++ r) = Some (z, r).
Proof. intros Hz Hr. exact (scan_hex_hex8 z r Hz Hr). Qed.

Lemma scan_image_line_print m :
  mapping_ok m -> scan_image_line (print_mapping m ++ [10]) = (fun path => (mp_start m, mp_offset m, path)) <$> the_path m.
Proof.
  intros Hm. pose proof Hm as (Hs & He & Ho & _). rewrite print_mapping_split. unfold scan_image_line.
  rewrite scan_hex_hex8 by done. cbn [mbind option_bind scan_char]. rewrite Z.eqb_refl. cbn [mbind option_bind].
  rewrite scan_set_hex8 by done. cbn [mbind option_bind]. rewrite scan_after_range by done. cbn [mbind option_bind].
  rewrite scan_hex_skip by done. cbn [mbind option_bind]. rewrite <- (scan_after_offset m Hm).
  destruct (scan_word _ (after_offset m)) as [[? p]|]; [|done]. cbn [mbind option_bind].
  destruct (scan_word _ p) as [[? p2]|]; [|done]. cbn [mbind option_bind]. by destruct (scan_word _ p2) as [[? p3]|].
Qed.

Lemma scan_path_print m : mapping_ok m -> scan_path (print_mapping m ++ [10]) = the_path m.
Proof.
  intros Hm. pose proof Hm as (Hs & He & Ho & _). rewrite print_mapping_split. unfold scan_path.
  rewrite scan_set_hex8 by done. cbn [mbind option_bind scan_char]. rewrite Z.eqb_refl. cbn [mbind option_bind].
  rewrite scan_set_hex8 by done. cbn [mbind option_bind]. rewrite scan_after_range by done. cbn [mbind option_bind].
  assert (Hsk : skip_while isspace (32 :: hex8 (mp_offset m) ++ after_offset m) = hex8 (mp_offset m) ++ after_offset m).
  { destruct (hex8_spec (mp_offset m) Ho) as (Hd & Hl & _). cbn [skip_while]. apply skip_while_idem.
    destruct (hex8 (mp_offset m)) as [|c ds]; [cbn in Hl; lia|]. apply Forall_cons in Hd as [Hc _]. by apply ishex_not. }
  rewrite Hsk, scan_set_hex8 by done. cbn [mbind option_bind]. by apply scan_after_offset.
Qed.

Lemma scan_range_print m : mapping_ok m -> scan_range (print_mapping m ++ [10]) = Some (mp_start m, mp_end m).
Proof.
  intros Hm. pose proof Hm as (Hs & He & _). rewrite print_mapping_split. unfold scan_range.
  rewrite scan_hex_hex8 by done. cbn [mbind option_bind scan_char]. rewrite Z.eqb_refl. cbn [mbind option_bind].
  by rewrite scan_hex_hex8 by done.
Qed.

(** ** The file *)

Lemma print_mapping_chars m : mapping_ok m -> Forall (fun c => c <> 0 /\ c <> 10) (print_mapping m).
Proof.
  intros (Hs & He & Ho & [Hp _] & [Hd _] & [Hi _] & Hpath & _).
  assert (Hw : forall w, word w -> Forall (fun c => c <> 0 /\ c <> 10) w).
  { intros w Hw. eapply Forall_impl; [exact Hw|]. intros c [H0 Hc]. split; [done|]. intros ->. done. }
  assert (Hh : forall z, is_u64 z -> Forall (fun c => c <> 0 /\ c <> 10) (hex8 z)).
  { intros z Hz. destruct (hex8_spec z Hz) as (Hx & _). eapply Forall_impl; [exact Hx|]. intros c Hc%ishex_not. tauto. }
  unfold print_mapping. repeat first [solve [auto] | by apply Forall_replicate | apply Forall_app; split | apply Forall_cons; split; [done|]].
Qed.

Lemma fgets_mapping m ms :
  mapping_ok m -> fgets sizeof_maps_line (print_maps (m :: ms)) = Some (print_mapping m ++ [10], print_maps ms).
Proof.
  intros Hm. pose proof (print_mapping_chars m Hm) as Hc. destruct Hm as (_ & _ & _ & _ & _ & _ & _ & _ & Hl).
  transitivity (fgets sizeof_maps_line (print_mapping m ++ 10 :: print_maps ms)).
  { f_equal. unfold print_maps. cbn [map concat]. app_eq. }
  apply fgets_line; [eapply Forall_impl; [exact Hc|by intros ? [? ?]]|]. unfold sizeof_maps_line, PATH_MAX. lia.
Qed.

Lemma until_nul_line m : mapping_ok m -> until_nul (print_mapping m ++ [10]) = print_mapping m ++ [10].
Proof.
  intros Hm. assert (H : Forall (fun c => c <> 0) (print_mapping m ++ [10])).
  { apply Forall_app. split; [|by repeat constructor]. eapply Forall_impl; [by apply print_mapping_chars|by intros ? [? _]]. }
  revert H. generalize (print_mapping m ++ [10]) as l. induction 1 as [|c l Hc _ IH]; [done|]. cbn.
  rewrite (proj2 (Z.eqb_neq c 0) Hc). by rewrite IH.
Qed.

Lemma lines_loop_print {B} (try : cstr -> option B) ms fuel :
  Forall mapping_ok ms -> (length (print_maps ms) < fuel)%nat ->
  lines_loop try fuel (print_maps ms) = head (omap (fun m => try (print_mapping m ++ [10])) ms).
Proof.
  intros Hms. revert fuel. induction Hms as [|m ms Hm Hms IH]; intros fuel Hf; (destruct fuel as [|fuel]; [lia|]); cbn [lines_loop].
  { done. }
  rewrite fgets_mapping, until_nul_line by done. cbn [omap list_omap].
  destruct (try (print_mapping m ++ [10])); [done|]. apply IH. unfold print_maps in Hf |- *. cbn [map concat] in Hf.
  rewrite !length_app in Hf. cbn [length] in Hf. lia.
Qed.

Lemma image_base_spec fs pid ms :
  fs_open fs (maps_path pid) = inl (print_maps ms) -> Forall mapping_ok ms ->
  forall path, path <> [] ->
  zt_read_image_base fs pid path =
    match List.find (fun m => (mp_offset m =? 0) && bool_decide (mp_path m = path)) ms with
    | Some m => inl (mp_start m)
    | None => inr (- ENOENT)
    end.
Proof.
  intros Hfs Hms path Hpath. unfold zt_read_image_base. rewrite Hfs, lines_loop_print by (done || lia).
  clear Hfs. induction Hms as [|m ms Hm _ IH]; [done|]. cbn [omap list_omap List.find]. rewrite scan_image_line_print by done.
  unfold the_path. destruct (decide (mp_path m = [])) as [E|E]; cbn [fmap option_fmap option_map].
  - rewrite E, (bool_decide_false ([] = path)) by congruence. rewrite andb_false_r. apply IH.
  - destruct (_ && _); [done|]. apply IH.
Qed.

(** C38: what the injector reads from /proc/<pid>/maps is what the kernel wrote, for any list
    of mappings whose printed lines fit the line buffer and whose paths contain no blank:
    the load address of an image is the start of its first mapping with offset 0, -ENOENT
    if there is none, and an address is mapped exactly if it lies in one of the mappings. *)
Theorem maps_queries fs pid ms :
  fs_open fs (maps_path pid) = inl (print_maps ms) -> Forall mapping_ok ms -> 0 < pid ->
  (forall path, path <> [] ->
     zt_read_image_base fs pid path =
       match List.find (fun m => (mp_offset m =? 0) && bool_decide (mp_path m = path)) ms with
       | Some m => inl (mp_start m)
       | None => inr (- ENOENT)
       end) /\
  (forall addr, addr <> 0 ->
     zt_remote_addr_is_mapped fs pid addr = existsb (fun m => (mp_start m <=? addr) && (addr <? mp_end m)) ms).
Proof.
  intros Hfs Hms Hpid. split; [by apply image_base_spec|].
  intros addr Haddr. unfold zt_remote_addr_is_mapped.
  rewrite (proj2 (Z.leb_gt pid 0) Hpid), (proj2 (Z.eqb_neq addr 0) Haddr). cbn [orb].
  rewrite Hfs, lines_loop_print by (done || lia).
  clear Hfs. induction Hms as [|m ms Hm _ IH]; [done|]. cbn [omap list_omap existsb]. rewrite scan_range_print by done.
  destruct (_ && _); [done|]. apply IH.
Qed.

(** ** Witness *)

(** "00400000-00401000 r-xp 00000000 08:01 1234    /bin/t" and an anonymous mapping. *)
Definition sample_mappings : list mapping :=
  [mk_mapping 0x400000 0x401000 (lit "r-xp") 0 (lit "08:01") (lit "1234") 4 (lit "/bin/t");
   mk_mapping 0x7f0000000000 0x7f0000002000 (lit "rw-p") 0 (lit "00:00") (lit "0") 0 []].

Definition sample_files : files_t :=
  mk_files (fun path => if bool_decide (path = maps_path 100) then inl (print_maps sample_mappings) else inr ENOENT)
    (fun _ => inr ENOENT) (fun _ => 0) (fun _ => true).

(** C38 for the two mappings. *)
Lemma maps_queries_witness :
  zt_read_image_base sample_files 100 (lit "/bin/t") = inl 0x400000 /\
  zt_remote_addr_is_mapped sample_files 100 0x7f0000001fff = true /\
  zt_remote_addr_is_mapped sample_files 100 0x401000 = false.
Proof.
  destruct (maps_queries sample_files 100 sample_mappings) as [H1 H2].
  - reflexivity.
  - assert (H : bool_decide (Forall mapping_ok sample_mappings) = true) by (vm_compute; reflexivity).
    exact (bool_decide_eq_true_1 _ H).
  - reflexivity.
  - rewrite H1 by discriminate. rewrite !H2 by discriminate. vm_compute. split; [reflexivity|split; reflexivity].
Defined.
