(* ===== verification/ElfSpec.v ===== *)
(** * Symbol tables of an ELF file

    On a well-formed file the injector's search reads nothing outside its buffers
    and finds the first defined function of the name, in the order of the sections
    and of their entries. *)

From S2P Require Import Prelude CLib Types RemoteMem Arch Threads SigConf SigConfSpec SigFormat Symbols.

(** ** The tables, as they are laid out *)

Record shdr := mk_shdr { sh_type : Z; sh_offset : Z; sh_size : Z; sh_link : Z; sh_entsize : Z }.
Record sym := mk_sym { sy_name : Z; sy_info : Z; sy_shndx : Z; sy_value : Z; sy_size : Z }.

Definition encode_shdr (h : shdr) : list Z :=
  le_bytes 4 0 ++ le_bytes 4 (sh_type h) ++ le_bytes 8 0 ++ le_bytes 8 0 ++ le_bytes 8 (sh_offset h) ++
  le_bytes 8 (sh_size h) ++ le_bytes 4 (sh_link h) ++ le_bytes 4 0 ++ le_bytes 8 0 ++ le_bytes 8 (sh_entsize h).

Definition encode_sym (s : sym) : list Z :=
  le_bytes 4 (sy_name s) ++ le_bytes 1 (sy_info s) ++ [0] ++ le_bytes 2 (sy_shndx s) ++ le_bytes 8 (sy_value s) ++
  le_bytes 8 (sy_size s).

Definition shdr_ok (h : shdr) : Prop :=
  is_u32 (sh_type h) /\ is_u64 (sh_offset h) /\ is_u64 (sh_size h) /\ is_u32 (sh_link h) /\ is_u64 (sh_entsize h).
Definition sym_ok (s : sym) : Prop :=
  is_u32 (sy_name s) /\ is_byte (sy_info s) /\ 0 <= sy_shndx s < 2 ^ 16 /\ is_u64 (sy_value s).

#[export] Instance shdr_ok_dec h : Decision (shdr_ok h).
Proof. unfold shdr_ok, is_u32, is_u64. apply _. Defined.
#[export] Instance sym_ok_dec s : Decision (sym_ok s).
Proof. unfold sym_ok, is_u32, is_u64, is_byte. apply _. Defined.

(** A symbol table with its strings. *)
Definition table : Type := list sym * list Z.

(** A section: no symbol table, or one whose entries and NUL-terminated strings are in the file. *)
Definition section_ok (f : list Z) (hs : list shdr) (h : shdr) (t : option table) : Prop :=
  shdr_ok h /\
  match t with
  | None => sh_type h <> SHT_SYMTAB /\ sh_type h <> SHT_DYNSYM
  | Some (syms, strings) =>
      (sh_type h = SHT_SYMTAB \/ sh_type h = SHT_DYNSYM) /\ sh_entsize h = sizeof_Elf64_Sym /\ Forall sym_ok syms /\
      sh_size h = sizeof_Elf64_Sym * Z.of_nat (length syms) /\
      pread f (sh_size h) (sh_offset h) = Some (concat (map encode_sym syms)) /\
      exists strtab, hs !! Z.to_nat (sh_link h) = Some strtab /\ sh_size strtab = Z.of_nat (length strings) /\
        pread f (sh_size strtab) (sh_offset strtab) = Some strings /\ last strings = Some 0
  end.

Record elf_ok (fs : files_t) (path : cstr) (ehdr : Elf64_Ehdr) (f : list Z) (hs : list shdr) (ts : list (option table)) : Prop := {
  eo_header : zt_read_elf_header fs path = inl ehdr;
  eo_file : fs_open fs path = inl f;
  eo_entsize : e_shentsize ehdr = sizeof_Elf64_Shdr;
  eo_num : e_shnum ehdr = Z.of_nat (length hs);
  eo_small : e_shentsize ehdr * e_shnum ehdr < 2 ^ 31;
  eo_headers : pread f (e_shentsize ehdr * e_shnum ehdr) (e_shoff ehdr) = Some (concat (map encode_shdr hs));
  eo_sections : Forall2 (section_ok f hs) hs ts;
  eo_malloc : forall n, fs_malloc fs n = true
}.

(** What is looked for: a defined function (or untyped symbol) of the name. *)
Definition defines (name : cstr) (strings : list Z) (s : sym) : Prop :=
  sy_name s < Z.of_nat (length strings) /\ cstr_at strings (Z.to_nat (sy_name s)) = name /\
  sy_shndx s <> SHN_UNDEF /\ sy_value s <> 0 /\
  (Z.land (sy_info s) 15 = STT_FUNC \/ Z.land (sy_info s) 15 = STT_GNU_IFUNC \/ Z.land (sy_info s) 15 = STT_NOTYPE).

#[export] Instance defines_dec name strings s : Decision (defines name strings s).
Proof. unfold defines. apply _. Defined.

Definition find_in_table (name : cstr) (t : table) : option Z :=
  sy_value <$> List.find (fun s => bool_decide (defines name (snd t) s)) (fst t).

(** The first in file order. *)
Definition find_symbol (name : cstr) (ts : list (option table)) : option Z :=
  head (omap (fun t => t ≫= find_in_table name) ts).

(** ** Reading fields *)

Lemma take_prefix {B} (n : nat) (a b : list B) : (n <= length a)%nat -> take n (a ++ b) = take n a.
Proof. intros H. by rewrite take_app_le. Qed.

Lemma drop_entries {B} (enc : B -> list Z) w xs j x :
  (forall x, length (enc x) = w) -> xs !! j = Some x ->
  exists rest, drop (w * j) (concat (map enc xs)) = enc x ++ rest.
Proof.
  intros Hw. revert j. induction xs as [|y xs IH]; intros j Hj; [done|]. destruct j as [|j].
  - cbn in Hj. simplify_eq. rewrite Nat.mul_0_r. cbn. by eexists.
  - cbn in Hj. destruct (IH j Hj) as [rest Hr]. exists rest. cbn [map concat].
    replace (w * S j)%nat with (length (enc y) + w * j)%nat by (rewrite Hw; lia). by rewrite <- drop_drop, drop_app_length.
Qed.

Lemma length_entries {B} (enc : B -> list Z) w xs :
  (forall x, length (enc x) = w) -> length (concat (map enc xs)) = (w * length xs)%nat.
Proof. intros Hw. induction xs as [|x xs IH]; cbn; [lia|]. rewrite length_app, IH, Hw. lia. Qed.

(** A field of an entry is the entry's. *)
Lemma field_entry {B} (enc : B -> list Z) w xs j x off n v :
  (forall x, length (enc x) = w) -> xs !! j = Some x -> 0 <= off -> 0 <= n ->
  field (enc x) off n = Some v -> field (concat (map enc xs)) (Z.of_nat w * Z.of_nat j + off) n = Some v.
Proof.
  intros Hw Hj Ho Hn Hf. unfold field in *. rewrite (length_entries _ _ _ Hw). rewrite Hw in Hf.
  destruct ((0 <=? off) && (off + n <=? Z.of_nat w)) eqn:E; [|done]. zbool. pose proof (lookup_lt_Some _ _ _ Hj) as Hlt.
  assert (Hw' : (0 <=? Z.of_nat w * Z.of_nat j + off) && (Z.of_nat w * Z.of_nat j + off + n <=? Z.of_nat (w * length xs)) = true).
  { apply andb_true_iff. split; [apply Z.leb_le; lia|]. apply Z.leb_le.
    assert (Z.of_nat w * (Z.of_nat j + 1) <= Z.of_nat w * Z.of_nat (length xs)) by (apply Z.mul_le_mono_nonneg_l; lia). lia. }
  rewrite Hw'. injection Hf as <-. f_equal. f_equal.
  replace (Z.to_nat (Z.of_nat w * Z.of_nat j + off)) with (w * j + Z.to_nat off)%nat by lia.
  destruct (drop_entries enc w xs j x Hw Hj) as [rest Hr]. rewrite <- drop_drop, Hr.
  rewrite drop_app_le by (rewrite Hw; lia). apply take_prefix. rewrite length_drop, Hw. lia.
Qed.

Lemma le_field n z : 0 <= z < 256 ^ Z.of_nat n -> le_word (le_bytes n z) = z.
Proof. intros H. by rewrite le_word_le_bytes, Z.mod_small. Qed.

Lemma length_encode_sym s : length (encode_sym s) = 24%nat.
Proof. done. Qed.

Lemma length_encode_shdr h : length (encode_shdr h) = 64%nat.
Proof. done. Qed.

Lemma sym_fields s :
  sym_ok s -> field (encode_sym s) 0 4 = Some (sy_name s) /\ field (encode_sym s) 4 1 = Some (sy_info s) /\
  field (encode_sym s) 6 2 = Some (sy_shndx s) /\ field (encode_sym s) 8 8 = Some (sy_value s).
Proof.
  intros (Hn & Hi & Hx & Hv). unfold is_u32, is_byte, is_u64 in *.
  split_and!; (transitivity (Some (le_word (le_bytes 4 (sy_name s)))); [reflexivity|]) ||
    (transitivity (Some (le_word (le_bytes 1 (sy_info s)))); [reflexivity|]) ||
    (transitivity (Some (le_word (le_bytes 2 (sy_shndx s)))); [reflexivity|]) ||
    (transitivity (Some (le_word (le_bytes 8 (sy_value s)))); [reflexivity|]); f_equal; apply le_field; cbn; lia.
Qed.

Lemma shdr_fields h :
  shdr_ok h -> field (encode_shdr h) 4 4 = Some (sh_type h) /\ field (encode_shdr h) 24 8 = Some (sh_offset h) /\
  field (encode_shdr h) 32 8 = Some (sh_size h) /\ field (encode_shdr h) 40 4 = Some (sh_link h) /\
  field (encode_shdr h) 56 8 = Some (sh_entsize h).
Proof.
  intros (Ht & Ho & Hs & Hl & He). unfold is_u32, is_u64 in *.
  split_and!; (transitivity (Some (le_word (le_bytes 4 (sh_type h)))); [reflexivity|]) ||
    (transitivity (Some (le_word (le_bytes 8 (sh_offset h)))); [reflexivity|]) ||
    (transitivity (Some (le_word (le_bytes 8 (sh_size h)))); [reflexivity|]) ||
    (transitivity (Some (le_word (le_bytes 4 (sh_link h)))); [reflexivity|]) ||
    (transitivity (Some (le_word (le_bytes 8 (sh_entsize h)))); [reflexivity|]); f_equal; apply le_field; cbn; lia.
Qed.

(** ** Comparing names *)

Lemma strcmp_eq_nul buf s : 0 ∈ buf -> nul_free s -> strcmp_eq buf s = Some (bool_decide (until_nul buf = s)).
Proof.
  revert s. induction buf as [|b buf IH]; intros s Hin Hs; [by apply not_elem_of_nil in Hin|].
  cbn [strcmp_eq until_nul]. destruct s as [|c s].
  - destruct (Z.eqb_spec b 0); [by rewrite bool_decide_true|by rewrite bool_decide_false].
  - apply Forall_cons in Hs as [Hc Hs]. destruct (Z.eqb_spec b c) as [->|Hbc].
    + rewrite (proj2 (Z.eqb_neq c 0) Hc). rewrite IH; [|by apply elem_of_cons in Hin as [?|?]; [congruence|]|done].
      f_equal. apply bool_decide_ext. naive_solver.
    + destruct (Z.eqb_spec b 0); by rewrite bool_decide_false by congruence.
Qed.

Lemma nul_after strings n : last strings = Some 0 -> (n < length strings)%nat -> 0 ∈ drop n strings.
Proof.
  intros Hl Hn. apply last_Some in Hl as [l ->]. rewrite length_app in Hn. cbn in Hn.
  rewrite drop_app_le by lia. apply elem_of_app. right. by apply list_elem_of_singleton.
Qed.

(** ** One table *)

Lemma try_symbol_spec syms strings name j s :
  Forall sym_ok syms -> last strings = Some 0 -> nul_free name -> syms !! j = Some s ->
  try_symbol (concat (map encode_sym syms)) strings name (Z.of_nat j) =
    Some (if decide (defines name strings s) then Some (sy_value s) else None).
Proof.
  intros Hsyms Hlast Hname Hj. assert (Hs : sym_ok s) by (by eapply Forall_lookup_1).
  destruct (sym_fields s Hs) as (F0 & F4 & F6 & F8).
  assert (Hf : forall off n v, 0 <= off -> 0 <= n -> field (encode_sym s) off n = Some v ->
    field (concat (map encode_sym syms)) (sizeof_Elf64_Sym * Z.of_nat j + off) n = Some v).
  { intros off n v. by apply (field_entry encode_sym 24). }
  unfold try_symbol. rewrite <- (Z.add_0_r (sizeof_Elf64_Sym * Z.of_nat j)) at 1.
  rewrite (Hf 0 4 _ ltac:(lia) ltac:(lia) F0). cbn [mbind option_bind]. rewrite Z.geb_leb.
  destruct (Z.leb_spec (Z.of_nat (length strings)) (sy_name s)).
  { rewrite decide_False; [done|]. intros [? _]. lia. }
  rewrite (Hf 4 1 _ ltac:(lia) ltac:(lia) F4). cbn [mbind option_bind]. destruct Hs as ([Hn0 _] & _).
  rewrite strcmp_eq_nul; [|apply nul_after; [done|lia]|done]. cbn [mbind option_bind]. fold (cstr_at strings (Z.to_nat (sy_name s))).
  unfold defines. case_bool_decide as Hnm; cbn [negb]; [|by rewrite decide_False by tauto].
  rewrite (Hf 6 2 _ ltac:(lia) ltac:(lia) F6). cbn [mbind option_bind].
  destruct (Z.eqb_spec (sy_shndx s) SHN_UNDEF); [by rewrite decide_False by tauto|].
  rewrite (Hf 8 8 _ ltac:(lia) ltac:(lia) F8). cbn [mbind option_bind].
  destruct (Z.eqb_spec (sy_value s) 0); [by rewrite decide_False by tauto|].
  destruct (Z.eqb_spec (Z.land (sy_info s) 15) STT_FUNC), (Z.eqb_spec (Z.land (sy_info s) 15) STT_GNU_IFUNC),
    (Z.eqb_spec (Z.land (sy_info s) 15) STT_NOTYPE); cbn [negb andb];
    first [by rewrite decide_True by tauto|by rewrite decide_False by tauto].
Qed.

Lemma symbol_loop_spec syms strings name :
  Forall sym_ok syms -> last strings = Some 0 -> nul_free name ->
  symbol_loop (concat (map encode_sym syms)) strings name (seqZ 0 (Z.of_nat (length syms))) =
    match find_in_table name (syms, strings) with Some v => Ok v | None => Failed end.
Proof.
  intros Hsyms Hlast Hname.
  assert (H : forall rest k, drop k syms = rest ->
    symbol_loop (concat (map encode_sym syms)) strings name (seqZ (Z.of_nat k) (Z.of_nat (length rest))) =
    match find_in_table name (rest, strings) with Some v => Ok v | None => Failed end).
  { induction rest as [|s rest IH]; intros k Hk; [done|]. cbn [length]. rewrite Nat2Z.inj_succ, <- Z.add_1_l.
    rewrite seqZ_cons by lia. cbn [symbol_loop].
    assert (Hj : syms !! k = Some s) by (rewrite <- (Nat.add_0_r k), <- lookup_drop, Hk; done).
    rewrite (try_symbol_spec _ _ _ _ _ Hsyms Hlast Hname Hj). unfold find_in_table. cbn [List.find fst snd].
    destruct (decide (defines name strings s)) as [Hd|Hd]; [by rewrite bool_decide_true|].
    rewrite bool_decide_false by done. replace (Z.pred (1 + Z.of_nat (length rest))) with (Z.of_nat (length rest)) by lia.
    replace (Z.succ (Z.of_nat k)) with (Z.of_nat (S k)) by lia. apply IH.
    by rewrite <- Nat.add_1_r, <- drop_drop, Hk. }
  apply (H syms 0%nat). by rewrite drop_0.
Qed.

(** ** The sections *)

Section file.
Context (fs : files_t) (f : list Z) (hs : list shdr) (name : cstr).
Context (Hmalloc : forall n, fs_malloc fs n = true) (Hname : nul_free name) (Hhs : Forall shdr_ok hs).

Lemma shdr_field h i off n v :
  hs !! i = Some h -> 0 <= off -> 0 <= n -> field (encode_shdr h) off n = Some v ->
  field (concat (map encode_shdr hs)) (sizeof_Elf64_Shdr * Z.of_nat i + off) n = Some v.
Proof. by apply (field_entry encode_shdr 64). Qed.

Lemma try_section_spec h t i :
  section_ok f hs h t -> hs !! i = Some h ->
  try_section fs f (concat (map encode_shdr hs)) (Z.of_nat (length hs)) name (Z.of_nat i) =
    match t ≫= find_in_table name with Some v => Return (Ok v) | None => NextSection end.
Proof.
  intros [Hh Ht] Hi. destruct (shdr_fields h Hh) as (F4 & F24 & F32 & F40 & F56). unfold try_section, reading.
  rewrite (shdr_field h i 4 4 _ Hi ltac:(lia) ltac:(lia) F4).
  destruct t as [[syms strings]|]; cbn [mbind option_bind].
  2: { destruct Ht as [H1 H2]. by rewrite (proj2 (Z.eqb_neq _ _) H1), (proj2 (Z.eqb_neq _ _) H2). }
  destruct Ht as (Hty & Hent & Hsyms & Hsize & Hread & strtab & Hst & Hstsize & Hstread & Hlast).
  replace (negb (sh_type h =? SHT_SYMTAB) && negb (sh_type h =? SHT_DYNSYM)) with false
    by (symmetry; destruct Hty as [-> | ->]; done).
  rewrite (shdr_field h i 40 4 _ Hi ltac:(lia) ltac:(lia) F40). pose proof (lookup_lt_Some _ _ _ Hst) as Hlink.
  destruct Hh as (_ & _ & _ & [Hl0 _] & _). rewrite Z.geb_leb, (proj2 (Z.leb_gt _ _)) by lia.
  rewrite (shdr_field h i 56 8 _ Hi ltac:(lia) ltac:(lia) F56), Hent. change (sizeof_Elf64_Sym =? 0) with false. cbv iota.
  rewrite (shdr_field h i 32 8 _ Hi ltac:(lia) ltac:(lia) F32).
  assert (Hso : shdr_ok strtab) by (by eapply Forall_lookup_1). destruct (shdr_fields strtab Hso) as (_ & G24 & G32 & _).
  replace (sh_link h) with (Z.of_nat (Z.to_nat (sh_link h))) by lia.
  rewrite (shdr_field strtab _ 32 8 _ Hst ltac:(lia) ltac:(lia) G32), !Hmalloc. cbn [negb orb].
  rewrite (shdr_field h i 24 8 _ Hi ltac:(lia) ltac:(lia) F24), Hread.
  rewrite (shdr_field strtab _ 24 8 _ Hst ltac:(lia) ltac:(lia) G24), Hstread.
  assert (Hcount : sh_size h / sizeof_Elf64_Sym = Z.of_nat (length syms)).
  { by rewrite Hsize, Z.mul_comm, Z.div_mul. }
  rewrite Hcount, symbol_loop_spec by done. by destruct (find_in_table name (syms, strings)).
Qed.

Lemma section_loop_spec ts :
  Forall2 (section_ok f hs) hs ts ->
  section_loop fs f (concat (map encode_shdr hs)) (Z.of_nat (length hs)) name (seqZ 0 (Z.of_nat (length hs))) =
    match find_symbol name ts with Some v => Ok v | None => Failed end.
Proof.
  intros Hall.
  assert (H : forall rest rts k, drop k hs = rest -> Forall2 (section_ok f hs) rest rts ->
    section_loop fs f (concat (map encode_shdr hs)) (Z.of_nat (length hs)) name (seqZ (Z.of_nat k) (Z.of_nat (length rest))) =
    match find_symbol name rts with Some v => Ok v | None => Failed end).
  { intros rest rts k Hk Hr. revert k Hk. induction Hr as [|h t rest rts Ht Hr IH]; intros k Hk; [done|].
    cbn [length]. rewrite Nat2Z.inj_succ, <- Z.add_1_l, seqZ_cons by lia. cbn [section_loop].
    assert (Hj : hs !! k = Some h) by (rewrite <- (Nat.add_0_r k), <- lookup_drop, Hk; done).
    rewrite (try_section_spec h t k Ht Hj). unfold find_symbol. cbn [omap list_omap].
    destruct (t ≫= find_in_table name); [done|].
    replace (Z.pred (1 + Z.of_nat (length rest))) with (Z.of_nat (length rest)) by lia.
    replace (Z.succ (Z.of_nat k)) with (Z.of_nat (S k)) by lia. apply IH. by rewrite <- Nat.add_1_r, <- drop_drop, Hk. }
  by apply (H hs ts 0%nat).
Qed.
End file.

(** The search reads nothing outside its buffers and returns the value of the first defined
    function (or untyped symbol) of the name, or fails if there is none. *)
Lemma find_symbol_addr_spec fs path ehdr f hs ts name :
  elf_ok fs path ehdr f hs ts -> nul_free name ->
  zt_find_symbol_addr fs path name = match find_symbol name ts with Some v => Ok v | None => Failed end.
Proof.
  intros [Hh Hf He Hn Hs Hr Hsec Hm] Hname. unfold zt_find_symbol_addr. rewrite Hh, Hf.
  rewrite (proj2 (Z.leb_gt _ _) Hs), Hm, Hr, Hn. cbn [negb]. apply section_loop_spec; try done.
  apply Forall_lookup. intros i h Hi. destruct (Forall2_lookup_l _ _ _ _ _ Hsec Hi) as (t & _ & [Hok _]). done.
Qed.
