(* ===== verification/ResolveSpec.v ===== *)
(** * Resolving a symbol

    The address a probe is put at is where the loader mapped the function: the
    executable's own definition, or the first mapped file's that has one. *)

From S2P Require Import Prelude CLib Types RemoteMem Arch Threads SigConf SigConfSpec SigFormat Symbols MapsSpec ElfSpec.

(** What is known of a file: [None] if it is no ELF file the injector accepts. *)
Definition file_info : Type := option (Elf64_Ehdr * list (option table)).

Definition describes (fs : files_t) (path : cstr) (i : file_info) : Prop :=
  match i with
  | None => exists rc, zt_read_elf_header fs path = inr rc
  | Some (ehdr, ts) => exists f hs, elf_ok fs path ehdr f hs ts
  end.

(** ** The specification *)

Definition image_base (ms : list mapping) (path : cstr) : option Z :=
  mp_start <$> List.find (fun m => (mp_offset m =? 0) && bool_decide (mp_path m = path)) ms.

(** The address of a symbol of a mapped file. *)
Definition module_addr (ms : list mapping) (path : cstr) (i : file_info) (name : cstr) : option Z :=
  '(ehdr, ts) ← i;
  v ← find_symbol name ts;
  if e_type ehdr =? ET_DYN then base ← image_base ms path; Some (base +64 v)
  else if e_type ehdr =? ET_EXEC then Some v else None.

(** The first mapped file that has it. *)
Definition first_module (ms : list mapping) (info : cstr -> file_info) (name : cstr) : option (cstr * Z) :=
  head (omap (fun m => if chr (mp_path m) =? 47 then (fun a => (mp_path m, a)) <$> module_addr ms (mp_path m) (info (mp_path m)) name
                       else None) ms).

Definition resolved (im : image_t) (ms : list mapping) (info : cstr -> file_info) (name : cstr) : option (cstr * Z) :=
  match '(_, ts) ← info (im_exe_path im); find_symbol name ts with
  | Some v => Some (im_exe_path im, if im_is_pie im then v +64 im_base im else v)
  | None => first_module ms info name
  end.

(** ** The search *)

Section resolve.
Context (fs : files_t) (pid : Z) (ms : list mapping) (info : cstr -> file_info) (name : cstr).
Context (Hmaps : fs_open fs (maps_path pid) = inl (print_maps ms)) (Hms : Forall mapping_ok ms) (Hpid : 0 < pid).
Context (Hname : nul_free name).

Lemma find_symbol_described path :
  describes fs path (info path) ->
  zt_find_symbol_addr fs path name =
    match '(_, ts) ← info path; find_symbol name ts with Some v => Ok v | None => Failed end.
Proof.
  unfold describes. destruct (info path) as [[ehdr ts]|]; cbn [mbind option_bind].
  - intros (f & hs & Helf). by eapply find_symbol_addr_spec.
  - intros [rc Hrc]. unfold zt_find_symbol_addr. by rewrite Hrc.
Qed.

Lemma find_remote_spec path :
  describes fs path (info path) -> path <> [] ->
  zt_find_remote_symbol_addr fs pid path name =
    match module_addr ms path (info path) name with Some a => Ok a | None => Failed end.
Proof.
  intros Hd Hne. unfold zt_find_remote_symbol_addr. rewrite (find_symbol_described path Hd). unfold module_addr.
  unfold describes in Hd. destruct (info path) as [[ehdr ts]|]; cbn [mbind option_bind]; [|done].
  destruct Hd as (f & hs & [Hh _ _ _ _ _ _ _]). destruct (find_symbol name ts) as [v|]; cbn [mbind option_bind]; [|done].
  unfold zt_check_is_pie. rewrite Hh. destruct (e_type ehdr =? ET_DYN); [|by destruct (e_type ehdr =? ET_EXEC)].
  rewrite (image_base_spec fs pid ms Hmaps Hms path Hne). unfold image_base.
  by destruct (List.find _ ms).
Qed.

Lemma modules_loop_spec rest fuel :
  Forall mapping_ok rest -> (forall m, m ∈ rest -> chr (mp_path m) = 47 -> describes fs (mp_path m) (info (mp_path m))) ->
  (length (print_maps rest) < fuel)%nat ->
  modules_loop fs pid name fuel (print_maps rest) =
    match head (omap (fun m => if chr (mp_path m) =? 47
                               then (fun a => (mp_path m, a)) <$> module_addr ms (mp_path m) (info (mp_path m)) name else None) rest) with
    | Some r => Ok r
    | None => Failed
    end.
Proof.
  intros Hok. revert fuel. induction Hok as [|m rest Hm Hok IH]; intros fuel Hd Hf; (destruct fuel as [|fuel]; [lia|]);
    cbn [modules_loop]; [done|].
  rewrite fgets_mapping, until_nul_line, scan_path_print by done. unfold the_path. cbn [omap list_omap].
  assert (IH' : modules_loop fs pid name fuel (print_maps rest) =
    match head (omap (fun m => if chr (mp_path m) =? 47
                               then (fun a => (mp_path m, a)) <$> module_addr ms (mp_path m) (info (mp_path m)) name else None) rest) with
    | Some r => Ok r
    | None => Failed
    end).
  { apply IH; [intros m' Hm'; apply Hd; by apply elem_of_cons; right|].
    unfold print_maps in Hf. cbn [map concat] in Hf. rewrite !length_app in Hf. cbn [length] in Hf. unfold print_maps. lia. }
  specialize (Hd m ltac:(by apply elem_of_cons; left)). destruct (decide (mp_path m = [])) as [->|Hne]; [exact IH'|].
  destruct (Z.eqb_spec (chr (mp_path m)) 47) as [Hc|Hc]; cbn [negb]; [|exact IH'].
  rewrite find_remote_spec by auto. by destruct (module_addr ms (mp_path m) _ name).
Qed.

Lemma resolve_spec im :
  describes fs (im_exe_path im) (info (im_exe_path im)) ->
  (forall m, m ∈ ms -> chr (mp_path m) = 47 -> describes fs (mp_path m) (info (mp_path m))) ->
  zt_resolve_symbol_target fs pid im name =
    match resolved im ms info name with
    | Some (path, addr) => Ok (mk_target (take 63 name) (take 511 path) addr)
    | None => Failed
    end.
Proof.
  intros Hexe Hall. unfold zt_resolve_symbol_target, resolved. rewrite (find_symbol_described _ Hexe).
  destruct ('(_, ts) ← info (im_exe_path im); find_symbol name ts) as [v|]; [done|].
  rewrite Hmaps, modules_loop_spec by (done || lia). fold (first_module ms info name).
  by destruct (first_module ms info name) as [[path addr]|].
Qed.
End resolve.

(** C37: resolving a symbol finds where the loader put it.  With well-formed files, the
    result is the executable's definition at its load address if it has one, and
    otherwise that of the first file in the mappings that has the symbol, relocated by the
    start of the file's own mapping; if no file defines it the resolution fails, and in no
    case is anything read outside a buffer. *)
Theorem zt_resolve_symbol_target_spec fs pid ms info name im :
  fs_open fs (maps_path pid) = inl (print_maps ms) -> Forall mapping_ok ms -> 0 < pid -> nul_free name ->
  describes fs (im_exe_path im) (info (im_exe_path im)) ->
  (forall m, m ∈ ms -> chr (mp_path m) = 47 -> describes fs (mp_path m) (info (mp_path m))) ->
  zt_resolve_symbol_target fs pid im name =
    match resolved im ms info name with
    | Some (path, addr) => Ok (mk_target (take 63 name) (take 511 path) addr)
    | None => Failed
    end.
Proof. intros. by apply resolve_spec. Qed.

(** ** Witness *)

(** A shared object with the function `write` at 0x1100, and the file that describes it. *)
Definition lib_syms : list sym := [mk_sym 0 0 0 0 0; mk_sym 1 0x12 1 0x1100 16].
Definition lib_strings : list Z := 0 :: lit "write" ++ [0].
Definition lib_shdrs : list shdr :=
  [mk_shdr 0 0 0 0 0; mk_shdr SHT_DYNSYM 256 48 2 24; mk_shdr 3 304 7 0 0].

Definition lib_elf : list Z :=
  [127; 69; 76; 70; 2; 1; 1; 0] ++ replicate 8 0 ++ le_bytes 2 ET_DYN ++ le_bytes 2 62 ++ le_bytes 4 1 ++ le_bytes 8 0 ++
  le_bytes 8 0 ++ le_bytes 8 64 ++ le_bytes 4 0 ++ le_bytes 2 64 ++ le_bytes 2 0 ++ le_bytes 2 0 ++ le_bytes 2 64 ++
  le_bytes 2 3 ++ le_bytes 2 0 ++
  concat (map encode_shdr lib_shdrs) ++ concat (map encode_sym lib_syms) ++ lib_strings.

Definition lib_ehdr : Elf64_Ehdr := mk_ehdr ET_DYN 64 64 3.
Definition lib_tables : list (option table) := [None; Some (lib_syms, lib_strings); None].

Definition lib_mappings : list mapping :=
  [mk_mapping 0x400000 0x401000 (lit "r-xp") 0 (lit "08:01") (lit "1234") 4 (lit "/bin/t");
   mk_mapping 0x7f0000000000 0x7f0000002000 (lit "r-xp") 0 (lit "08:01") (lit "77") 4 (lit "/lib/libc.so")].

(** The executable is not an ELF file the injector can read. *)
Definition lib_files : files_t :=
  mk_files (fun path => if bool_decide (path = maps_path 100) then inl (print_maps lib_mappings)
                        else if bool_decide (path = lit "/lib/libc.so") then inl lib_elf else inr ENOENT)
    (fun _ => inr ENOENT) (fun _ => 0) (fun _ => true).

Definition lib_info (path : cstr) : file_info :=
  if bool_decide (path = lit "/lib/libc.so") then Some (lib_ehdr, lib_tables) else None.

Lemma lib_elf_ok : elf_ok lib_files (lit "/lib/libc.so") lib_ehdr lib_elf lib_shdrs lib_tables.
Proof.
  constructor; [vm_compute; reflexivity|reflexivity|reflexivity|reflexivity|reflexivity|vm_compute; reflexivity| |done].
  assert (Hok : forall h, bool_decide (shdr_ok h) = true -> shdr_ok h) by (intros h; apply bool_decide_eq_true_1).
  constructor; [split; [by apply Hok|split; discriminate]|]. constructor; [|constructor; [|constructor]].
  - split; [by apply Hok|]. split_and!; [by right|reflexivity| |reflexivity|vm_compute; reflexivity|].
    + by apply (bool_decide_eq_true_1 (Forall sym_ok lib_syms)).
    + exists (mk_shdr 3 304 7 0 0). split_and!; vm_compute; reflexivity.
  - split; [by apply Hok|split; discriminate].
Qed.

(** C37 for `write` in a library mapped at 0x7f0000000000. *)
Lemma zt_resolve_symbol_target_spec_witness :
  zt_resolve_symbol_target lib_files 100 (mk_image (lit "/bin/t") 0x400000 false) (lit "write") =
    Ok (mk_target (lit "write") (lit "/lib/libc.so") 0x7f0000001100).
Proof.
  rewrite (zt_resolve_symbol_target_spec lib_files 100 lib_mappings lib_info).
  - vm_compute. reflexivity.
  - reflexivity.
  - assert (H : bool_decide (Forall mapping_ok lib_mappings) = true) by (vm_compute; reflexivity).
    exact (bool_decide_eq_true_1 _ H).
  - reflexivity.
  - repeat constructor; discriminate.
  - exists (- ENOENT). reflexivity.
  - intros m Hm _. apply elem_of_cons in Hm as [->|Hm]; [exists (- ENOENT); reflexivity|].
    apply list_elem_of_singleton in Hm as ->. exists lib_elf, lib_shdrs. exact lib_elf_ok.
Defined.
