(* ===== verification/FileLoops.v ===== *)
(** * The loops over files end

    The signature file, /proc/<pid>/maps and the modules in it are read by
    `while (fgets(...))` loops, which the definitions run with the file's length as
    fuel.  Every call of fgets takes at least a byte off the file, so more fuel than
    that changes nothing: the fuel is never what ends a loop. *)

From S2P Require Import Prelude CLib Types SigConf Threads Symbols.

Lemma fgets_upto_le n f : (length (snd (fgets_upto n f)) <= length f)%nat.
Proof.
  revert f. induction n as [|n IH]; intros [|c f]; cbn; [lia..|].
  destruct (c =? 10); cbn; [lia|]. specialize (IH f). destruct (fgets_upto n f). cbn in *. lia.
Qed.

Lemma fgets_upto_shorter n c f : (length (snd (fgets_upto (S n) (c :: f))) < length (c :: f))%nat.
Proof.
  cbn. destruct (c =? 10); cbn; [lia|]. pose proof (fgets_upto_le n f) as H. destruct (fgets_upto n f). cbn in *. lia.
Qed.

(** Every call reads at least a byte. *)
Lemma fgets_shorter size f line f' : (1 < size)%nat -> fgets size f = Some (line, f') -> (length f' < length f)%nat.
Proof.
  intros Hs. unfold fgets. destruct f as [|c f]; [done|]. destruct size as [|[|n]]; [lia|lia|].
  replace (S (S n) - 1)%nat with (S n) by lia. pose proof (fgets_upto_shorter n c f) as H.
  destruct (fgets_upto (S n) (c :: f)) as [l r]. intros [= <- <-]. exact H.
Qed.

(** The signature file. *)
Lemma load_loop_fuel fuel fuel' f table :
  (length f < fuel)%nat -> (length f < fuel')%nat -> load_loop fuel f table = load_loop fuel' f table.
Proof.
  revert fuel' f table. induction fuel as [|fuel IH]; intros [|fuel'] f table H1 H2; [lia..|]. cbn [load_loop].
  destruct (fgets sizeof_line f) as [[line f']|] eqn:Hf; [|done].
  apply fgets_shorter in Hf; [|unfold sizeof_line; lia]. destruct (zt_trim _ _) as [buf p]. cbv zeta.
  destruct (_ || _); [apply IH; lia|]. destruct (_ <=? _); [done|].
  destruct (zt_parse_sig_line buf p); apply IH; lia.
Qed.

(** The queries of /proc/<pid>/maps. *)
Lemma lines_loop_fuel {A} (try : cstr -> option A) fuel fuel' f :
  (length f < fuel)%nat -> (length f < fuel')%nat -> lines_loop try fuel f = lines_loop try fuel' f.
Proof.
  revert fuel' f. induction fuel as [|fuel IH]; intros [|fuel'] f H1 H2; [lia..|]. cbn [lines_loop].
  destruct (fgets sizeof_maps_line f) as [[line f']|] eqn:Hf; [|done].
  apply fgets_shorter in Hf; [|unfold sizeof_maps_line, PATH_MAX; lia].
  destruct (try _); [done|]. apply IH; lia.
Qed.

(** The search of the mapped modules. *)
Lemma modules_loop_fuel fs pid symbol_name fuel fuel' f :
  (length f < fuel)%nat -> (length f < fuel')%nat ->
  modules_loop fs pid symbol_name fuel f = modules_loop fs pid symbol_name fuel' f.
Proof.
  revert fuel' f. induction fuel as [|fuel IH]; intros [|fuel'] f H1 H2; [lia..|]. cbn [modules_loop].
  destruct (fgets sizeof_maps_line f) as [[line f']|] eqn:Hf; [|done].
  apply fgets_shorter in Hf; [|unfold sizeof_maps_line, PATH_MAX; lia].
  destruct (scan_path _) as [path|]; [|apply IH; lia]. destruct (negb _); [apply IH; lia|].
  destruct (zt_find_remote_symbol_addr fs pid path symbol_name); [done|apply IH; lia|done].
Qed.
