(* ===== verification/Cli.v ===== *)
(** * The command line (src/zt_cli.c)

    The interactive shell: strtok's view of the input line, the command table, the
    handlers that translate a line into operations of the injector and of the trace
    runner, log tailing, the event hook and the main loop.  The terminal (readline) is
    a list of prompts: the runs of the event hook, then the line entered. *)

From S2P Require Import Prelude CLib Types Reader RemoteMem Arch Threads Probes Pool SigConf SigFormat Filter Symbols TraceRunner.

(** ** State *)

Definition CLI_LOG_POLL_INTERVAL_NS : Z := 50000000.

(** The static variables of the file, with the session (in [cl_world] and [cl_image]), the
    line being parsed with strtok's saved pointer, and what was printed. *)
Record cli_t := mk_cli {
  cl_world : world;
  cl_image : image_t;
  g_cli_attached : bool;
  g_cli_log_path : cstr;
  g_cli_log_offset : Z;
  g_cli_last_poll_ns : Z;
  cl_line : list Z;
  cl_save : nat;
  cl_out : cstr
}.

Definition C (A : Type) : Type := cli_t -> A * cli_t.

Definition cl_set_attached (b : bool) (c : cli_t) : cli_t :=
  mk_cli (cl_world c) (cl_image c) b (g_cli_log_path c) (g_cli_log_offset c) (g_cli_last_poll_ns c) (cl_line c) (cl_save c) (cl_out c).
Definition cl_set_log (path : cstr) (offset poll_ns : Z) (c : cli_t) : cli_t :=
  mk_cli (cl_world c) (cl_image c) (g_cli_attached c) path offset poll_ns (cl_line c) (cl_save c) (cl_out c).
Definition cl_set_line (line : list Z) (save : nat) (c : cli_t) : cli_t :=
  mk_cli (cl_world c) (cl_image c) (g_cli_attached c) (g_cli_log_path c) (g_cli_log_offset c) (g_cli_last_poll_ns c) line save (cl_out c).
Definition cl_set_session (w : world) (im : image_t) (c : cli_t) : cli_t :=
  mk_cli w im (g_cli_attached c) (g_cli_log_path c) (g_cli_log_offset c) (g_cli_last_poll_ns c) (cl_line c) (cl_save c) (cl_out c).

Definition printf (s : cstr) : C unit := modify (fun c =>
  mk_cli (cl_world c) (cl_image c) (g_cli_attached c) (g_cli_log_path c) (g_cli_log_offset c) (g_cli_last_poll_ns c)
    (cl_line c) (cl_save c) (cl_out c ++ s)).

(** A message and a newline, and the handler's 0. *)
Definition say (s : cstr) : C Z := let* _ := printf (s ++ [10]) in ret 0.

(** An operation on the tracer's state. *)
Definition lift {A} (m : M A) : C A := fun c => let '(a, w) := m (cl_world c) in (a, cl_set_session w (cl_image c) c).

Definition cl_pid (c : cli_t) : Z := ses_pid (w_ses (cl_world c)).

(** ** Formatting *)

(** "%-<n>s" and "%016lx" *)
Definition pad_right (n : nat) (s : cstr) : cstr := s ++ replicate (n - length s) 32.
Definition hex16 (z : Z) : cstr := let d := hex_aux 16 z [] in replicate (16 - length d) 48 ++ d.

(** ** Arguments *)

(** strtol(p, &endptr, 10): [None] if there is no number. *)
Definition strtol (p : cstr) : option (Z * cstr) :=
  let p1 := skip_while isspace p in
  let '(neg, p2) := match p1 with 45 :: q => (true, q) | 43 :: q => (false, q) | _ => (false, p1) end in
  if isdigit (chr p2) then
    let '(v, rest) := strto_digits 10 0 p2 in
    let v := if neg : bool then - v else v in
    Some (Z.max (- 2 ^ 63) (Z.min (2 ^ 63 - 1) v), rest)
  else None.

(** strtok(args, delimiter): the token. *)
Definition strtok_arg (d : Z) (args : option nat) : C (option cstr) := fun c =>
  let start := default (cl_save c) args in
  match strtok d (cl_line c) start with
  | Some (p, line, save) => (Some (cstr_at line p), cl_set_line line save c)
  | None => (None, cl_set_line (cl_line c) (start + length (cstr_at (cl_line c) start)) c)
  end.

Definition zt_next_arg (args : option nat) : C (option cstr) := strtok_arg 32 args.

Definition zt_cli_compile_remaining_filter (filter : zt_probe_filter_t) : C (Z * zt_probe_filter_t) :=
  let* rest := strtok_arg 10 None in ret (zt_probe_filter_compile rest filter).

Definition zt_cli_parse_trace_filter : C (Z * zt_probe_filter_t) :=
  let* maybe_if := zt_next_arg None in
  match maybe_if with
  | None => ret (0, zero_filter)
  | Some maybe_if =>
      if negb (bool_decide (maybe_if = lit "if")) then ret (-1, zero_filter)
      else zt_cli_compile_remaining_filter zero_filter
  end.

Definition zt_cli_parse_call_arg (text : cstr) : option zt_call_action_arg_t :=
  if starts_with (lit "arg") text then
    let r := strtoull (drop 3 text) 10 in
    if negb (st_erange r) && negb (bool_decide (st_rest r = drop 3 text)) && (chr (st_rest r) =? 0) &&
       (st_value r <? ZT_TRACE_GP_ARG_COUNT)
    then Some (mk_call_arg ZT_CALL_ACTION_ARG_ENTRY_ARG (st_value r)) else None
  else
    let r := strtoull text 0 in
    if st_erange r || bool_decide (st_rest r = text) || negb (chr (st_rest r) =? 0) then None
    else Some (mk_call_arg ZT_CALL_ACTION_ARG_CONST (st_value r)).

(** The text of one argument, its separator first. *)
Definition call_arg_text (i : Z) (a : zt_call_action_arg_t) : cstr :=
  (if i =? 0 then [] else lit ", ") ++
  (if ca_kind a =? ZT_CALL_ACTION_ARG_ENTRY_ARG then lit "arg" ++ dec_str (ca_value a) else hex_str (ca_value a)).

(** snprintf at [used] of a buffer of [size]: cut off once the text does not fit. *)
Fixpoint format_args_loop (size : Z) (i : Z) (args : list zt_call_action_arg_t) (buffer : cstr) : cstr :=
  match args with
  | [] => buffer
  | a :: args =>
      let text := call_arg_text i a in
      if size - Z.of_nat (length buffer) <=? Z.of_nat (length text) then take (Z.to_nat (size - 1)) (buffer ++ text)
      else format_args_loop size (i + 1) args (buffer ++ text)
  end.

Definition zt_cli_format_call_args (action : zt_probe_call_action_t) (buffer_size : Z) : cstr :=
  format_args_loop buffer_size 0 (take (Z.to_nat (Z.min (act_arg_count action) ZT_CALL_ACTION_ARG_CAP)) (act_args action)) [].

(** The probe and its id. *)
Definition zt_cli_find_probe (probes : list zt_probe_info_t) (target : cstr) : option (zt_probe_info_t * Z) :=
  let by_symbol := (fun p => (p, pr_probe_id p)) <$> zt_probe_find_by_symbol probes target in
  match strtol target with
  | Some (probe_id, rest) =>
      if (chr rest =? 0) && (0 <? probe_id) then (fun p => (p, probe_id)) <$> zt_probe_find_by_id probes probe_id
      else by_symbol
  | None => by_symbol
  end.

(** ** Log tailing *)

Definition zt_cli_reset_log_state : C unit := modify (cl_set_log [] 0 0).

(** One run of the event hook: the clock (0 if it fails) and the log file then. *)
Record hook_t := mk_hook { hk_now : Z; hk_log : option (list Z) }.

(** What is new in the file is printed, after the line being edited was erased. *)
Definition zt_cli_print_log_updates (log : option (list Z)) : C unit := fun c =>
  match g_cli_log_path c, log with
  | [], _ | _, None => (tt, c)
  | path, Some f =>
      let text := drop (Z.to_nat (g_cli_log_offset c)) f in
      let c := cl_set_log path (Z.max (g_cli_log_offset c) (Z.of_nat (length f))) (g_cli_last_poll_ns c) c in
      match text with [] => (tt, c) | _ => printf (13 :: 27 :: lit "[2K" ++ text) c end
  end.

Section cli.
Context `{A : Arch} `{Rm : Remote} `{Bd : Builder} (K : kernel_t) (TK : thread_kernel) (R : remote_t) (fs : files_t).
(** The runner's environment for a process and its image, and the working directory. *)
Context (env_of : Z -> image_t -> env_t) (cwd : option cstr).
Context (sig_formats : zt_probe_info_t -> option zt_trace_event_t -> zt_trace_event_t -> bool).

Definition E_now : C env_t := gets (fun c => env_of (cl_pid c) (cl_image c)).

Definition trace_is_active : C bool := lift zt_trace_is_active.

Definition zt_cli_event_hook (fuel : nat) (h : hook_t) : C Z :=
  let* active := trace_is_active in
  if negb active then ret 0
  else
    let* last := gets g_cli_last_poll_ns in
    if negb (hk_now h =? 0) && negb (last =? 0) && (u64 (hk_now h - last) <? CLI_LOG_POLL_INTERVAL_NS) then ret 0
    else
      let* _ := modify (fun c => cl_set_log (g_cli_log_path c) (g_cli_log_offset c) (hk_now h) c) in
      let* E := E_now in
      let* rc := lift (zt_trace_poll TK R E sig_formats fuel) in
      let* _ := if bool_decide (rc = Some 0) then zt_cli_print_log_updates (hk_log h) else ret tt in
      ret 0.

(** ** Requirements *)

Definition zt_cli_stop_target : C Z :=
  let* attached := gets g_cli_attached in
  if negb attached then ret (-1) else lift (with_threads (zt_injector_interrupt_all TK)).

Definition zt_cli_set_target_running (running : bool) : C Z :=
  let* active := trace_is_active in
  if active then (if running then lift (zt_trace_resume TK) else lift (zt_trace_pause TK))
  else if running then lift (with_threads (zt_injector_continue_all TK)) else zt_cli_stop_target.

(** The handler goes on only with a target, or with a target and a trace. *)
Definition require_attached (k : C Z) : C Z :=
  let* attached := gets g_cli_attached in
  if negb attached then say (lit "No target attached") else k.

Definition require_active_trace (k : C Z) : C Z :=
  require_attached (
    let* active := trace_is_active in
    if negb active then say (lit "No active trace") else k).

Definition require_probe_target (target : cstr) (k : Z -> C Z) : C Z :=
  let* found := gets (fun c => zt_cli_find_probe (w_probes (cl_world c)) target) in
  match found with
  | None => say (lit "Probe not found: " ++ target)
  | Some (_, probe_id) => k probe_id
  end.

(** A token the command cannot do without. *)
Definition require_arg (args : option nat) (usage : cstr) (k : cstr -> C Z) : C Z :=
  let* arg := zt_next_arg args in
  match arg with None => say usage | Some arg => k arg end.

(** ** Commands *)

Definition cmd_names : list (cstr * cstr) :=
  [(lit "help", lit "Show help message"); (lit "exit", lit "Exit the CLI"); (lit "quit", lit "Exit the CLI");
   (lit "attach", lit "Attach to target process: attach <pid>"); (lit "detach", lit "Detach from current target");
   (lit "trace", lit "Register and enable a probe: trace <symbol> [if <expr>]");
   (lit "stop", lit "Stop the target process and keep probes unchanged");
   (lit "enable", lit "Enable a probe again: enable <symbol|id>");
   (lit "disable", lit "Disable probe(s): disable <symbol|id|all>");
   (lit "update", lit "Update probe behavior: update <symbol|id> if <expr> | clear | call <symbol|clear> [arg0|...|arg5|0x...]");
   (lit "untrace", lit "Remove a probe: untrace <symbol|id>"); (lit "info", lit "Show info: info target | info probes");
   (lit "continue", lit "Continue the stopped target process")].

Definition help_line (e : cstr * cstr) : cstr := lit "  " ++ pad_right 10 (fst e) ++ lit " " ++ snd e ++ [10].

Definition cmd_help (args : option nat) : C Z :=
  let* arg := zt_next_arg args in
  match arg with
  | None => let* _ := printf (concat (map help_line cmd_names)) in ret 0
  | Some arg =>
      match List.find (fun e => bool_decide (arg = fst e)) cmd_names with
      | Some e => let* _ := printf (help_line e) in ret 0
      | None => say (lit "Unknown command: " ++ arg)
      end
  end.

(** Detaching forgets the session. *)
Definition detach : C unit := fun c =>
  let '(_, w) := with_threads (fun s k => let '(s, k) := zt_injector_detach TK s k in (tt, s, k)) (cl_world c) in
  (tt, cl_set_attached false (cl_set_session w zero_image c)).

Definition cmd_exit (args : option nat) : C Z :=
  let* attached := gets g_cli_attached in
  let* _ := if attached then detach else ret tt in
  ret 1.

Definition attach (pid : Z) : C Z := fun c =>
  let i := w_inj (cl_world c) in
  let '(rc, s, im, k) := zt_injector_attach TK fs pid (in_k i) in
  let w := cl_world c in
  (rc, cl_set_session (mk_world (mk_inj s (in_proc i) k) (g_active_trace w) (g_trace_exit_observed w) (w_reader w) (w_sigconf w)) im c).

Definition cmd_attach (args : option nat) : C Z :=
  require_arg args (lit "Usage: attach <pid>") (fun pid_str =>
  match strtol pid_str with
  | Some (pid, rest) =>
      if negb (chr rest =? 0) || (pid <=? 0) then say (lit "Invalid pid: " ++ pid_str)
      else
        let* attached := gets g_cli_attached in
        let* old := gets cl_pid in
        if attached then say (lit "Already attached to pid " ++ sdec_str old)
        else
          let* rc := attach (i32 pid) in
          if negb (rc =? 0) then say (lit "Failed to attach to pid " ++ sdec_str pid)
          else
            let* rc := lift (with_threads (zt_injector_continue_all TK)) in
            let* now := gets cl_pid in
            if negb (rc =? 0) then
              let* _ := printf (lit "Attached to pid " ++ sdec_str now ++ lit " but failed to continue it" ++ [10]) in
              let* _ := detach in ret 0
            else
              let* _ := modify (cl_set_attached true) in
              let* exe := gets (fun c => im_exe_path (cl_image c)) in
              say (lit "Attached to pid " ++ sdec_str now ++ lit " (" ++ exe ++ lit ") and continued")
  | None => say (lit "Invalid pid: " ++ pid_str)
  end).

Definition cmd_detach (args : option nat) : C Z :=
  require_attached (let* _ := detach in say (lit "Detached")).

Definition kTraceUsage : cstr := lit "Usage: trace <symbol> [if <expr>]".

(** Build the path of a new log; 0 if it fits. *)
Definition build_log_path : C Z :=
  match cwd with
  | None => ret (-1)
  | Some cwd =>
      let* pid := gets cl_pid in
      let path := cwd ++ lit "/ztrace." ++ sdec_str pid ++ lit ".log" in
      let* _ := modify (fun c => cl_set_log (take (Z.to_nat (PATH_MAX - 1)) path) (g_cli_log_offset c) (g_cli_last_poll_ns c) c) in
      ret (if PATH_MAX <=? Z.of_nat (length path) then -1 else 0)
  end.

(** From the request to the runner on. *)
Definition trace_symbol (symbol : cstr) (filter : zt_probe_filter_t) : C Z :=
  let* E := E_now in
  let* log_path := gets g_cli_log_path in
  let enabled := negb (flt_enabled filter =? 0) in
  let* rc := lift (zt_trace_start_filtered_in_session K TK E symbol log_path (if enabled then Some filter else None)) in
  if negb (rc =? 0) then
    let* _ := printf (lit "Failed to trace " ++ symbol ++ [10]) in
    let* active := trace_is_active in
    let* _ := if negb active then zt_cli_reset_log_state else ret tt in
    ret 0
  else if enabled then say (lit "Tracing " ++ symbol ++ lit " if " ++ flt_expr filter ++ lit ", log file: " ++ log_path)
  else say (lit "Tracing " ++ symbol ++ lit ", log file: " ++ log_path).

Definition cmd_trace (args : option nat) : C Z :=
  require_attached (
  require_arg args kTraceUsage (fun symbol =>
  let* r := zt_cli_parse_trace_filter in
  if negb (fst r =? 0) then
    let* _ := printf (kTraceUsage ++ [10]) in say (lit "Example: trace write if arg0 == 1 && arg2 > 0")
  else
    let* active := trace_is_active in
    let* rc := if active then ret 0 else zt_cli_stop_target in
    let* pid := gets cl_pid in
    if negb (rc =? 0) then say (lit "Failed to stop pid " ++ sdec_str pid ++ lit " before tracing")
    else
      let* active := trace_is_active in
      let* rc := if active then ret 0 else build_log_path in
      if negb (rc =? 0) then say (lit "Failed to build trace log path")
      else
        let* _ := if active then ret tt else modify (fun c => cl_set_log (g_cli_log_path c) 0 0 c) in
        trace_symbol symbol (snd r))).

Definition cmd_stop (args : option nat) : C Z :=
  require_attached (
    let* rc := zt_cli_set_target_running false in
    let* pid := gets cl_pid in
    if negb (rc =? 0) then say (lit "Failed to stop pid " ++ sdec_str pid)
    else say (lit "Pid " ++ sdec_str pid ++ lit " stopped")).

Definition cmd_continue (args : option nat) : C Z :=
  require_attached (
    let* rc := zt_cli_set_target_running true in
    let* pid := gets cl_pid in
    if negb (rc =? 0) then say (lit "Failed to continue pid " ++ sdec_str pid)
    else say (lit "Continued pid " ++ sdec_str pid)).

Definition cmd_enable (args : option nat) : C Z :=
  require_active_trace (
  require_arg args (lit "Usage: enable <symbol|id>") (fun target =>
  require_probe_target target (fun probe_id =>
    let* E := E_now in
    let* rc := lift (zt_trace_enable_probe K TK E probe_id) in
    if negb (rc =? 0) then say (lit "Failed to enable probe " ++ target)
    else say (lit "Enabled probe " ++ target)))).

(** Over the entries of the table, as each one is when it is reached. *)
Fixpoint disable_all_loop (indices : list nat) (disabled failed : Z) : C (Z * Z) :=
  match indices with
  | [] => ret (disabled, failed)
  | i :: indices =>
      let* probe := gets (fun c => w_probes (cl_world c) !! i) in
      match probe with
      | Some probe =>
          if (pr_probe_id probe =? 0) || negb (bool_decide (pr_state probe = ZT_PROBE_INSTALLED))
          then disable_all_loop indices disabled failed
          else
            let* rc := lift (zt_trace_disable_probe K TK (pr_probe_id probe)) in
            if negb (rc =? 0) then
              let* _ := printf (lit "Failed to disable probe " ++ tgt_symbol (pr_target probe) ++ [10]) in
              disable_all_loop indices disabled (failed + 1)
            else disable_all_loop indices (disabled + 1) failed
      | None => disable_all_loop indices disabled failed
      end
  end.

Definition cmd_disable (args : option nat) : C Z :=
  require_active_trace (
  require_arg args (lit "Usage: disable <symbol|id|all>") (fun target =>
  if bool_decide (target = lit "all") then
    let* r := disable_all_loop (seq 0 (Z.to_nat ZT_PROBES_CAPACITY)) 0 0 in
    let '(disabled, failed) := r in
    if (disabled =? 0) && (failed =? 0) then say (lit "No installed probes to disable")
    else
      say (lit "Disabled " ++ sdec_str disabled ++ lit " probe(s)" ++
           (if 0 <? failed then lit ", " ++ sdec_str failed ++ lit " failed" else []))
  else
    require_probe_target target (fun probe_id =>
      let* rc := lift (zt_trace_disable_probe K TK probe_id) in
      if negb (rc =? 0) then say (lit "Failed to disable probe " ++ target)
      else say (lit "Disabled probe " ++ target)))).

Definition kUpdateUsage : cstr :=
  lit "Usage: update <symbol|id> if <expr> | clear | call <symbol|clear> [arg0|...|arg5|0x...]".
Definition kUpdateCallUsage : cstr := lit "Usage: update <symbol|id> call <symbol|clear> [arg0|...|arg5|0x...]".

(** The arguments of a call action up to the end of the line, [None] if one is not valid or
    there are too many; each round takes a token off the line, [fuel] bounds them. *)
Fixpoint call_args_loop (fuel : nat) (args : list zt_call_action_arg_t) : C (option (list zt_call_action_arg_t)) :=
  let* text := zt_next_arg None in
  match text with
  | None => ret (Some args)
  | Some text =>
      if ZT_CALL_ACTION_ARG_CAP <=? Z.of_nat (length args) then ret None
      else
        match zt_cli_parse_call_arg text, fuel with
        | Some a, S fuel => call_args_loop fuel (args ++ [a])
        | _, _ => ret None
        end
  end.

Definition update_call (target : cstr) (probe_id : Z) : C Z :=
  require_arg None kUpdateCallUsage (fun callee =>
  let* args := call_args_loop (Z.to_nat ZT_CALL_ACTION_ARG_CAP) [] in
  match args with
  | None => say kUpdateCallUsage
  | Some args =>
      if bool_decide (callee = lit "clear") then
        if negb (length args =? 0)%nat then say (lit "Usage: update <symbol|id> call clear")
        else
          let* rc := lift (zt_trace_clear_probe_call_action K probe_id) in
          if negb (rc =? 0) then say (lit "Failed to clear call action for probe " ++ target)
          else say (lit "Cleared call action for probe " ++ target)
      else
        let* E := E_now in
        let* rc := lift (zt_trace_update_probe_call_action_args K E probe_id callee args) in
        if negb (rc =? 0) then say (lit "Failed to update probe " ++ target ++ lit " call action to " ++ callee)
        else say (lit "Updated probe " ++ target ++ lit " call action to " ++ callee)
  end).

Definition update_clear (target : cstr) (probe_id : Z) : C Z :=
  let* extra := zt_next_arg None in
  match extra with
  | Some _ => say (lit "Usage: update <symbol|id> clear")
  | None =>
      let* rc := lift (zt_trace_update_probe_filter probe_id None) in
      if negb (rc =? 0) then say (lit "Failed to update probe " ++ target)
      else say (lit "Cleared filter for probe " ++ target)
  end.

Definition update_if (target : cstr) (probe_id : Z) : C Z :=
  let* r := zt_cli_compile_remaining_filter zero_filter in
  if negb (fst r =? 0) then say kUpdateUsage
  else
    let* rc := lift (zt_trace_update_probe_filter probe_id (Some (snd r))) in
    if negb (rc =? 0) then say (lit "Failed to update probe " ++ target)
    else say (lit "Updated probe " ++ target ++ lit " filter to " ++ flt_expr (snd r)).

Definition cmd_update (args : option nat) : C Z :=
  require_active_trace (
  let* target := zt_next_arg args in
  let* mode := zt_next_arg None in
  match target, mode with
  | Some target, Some mode =>
      require_probe_target target (fun probe_id =>
        if bool_decide (mode = lit "clear") then update_clear target probe_id
        else if bool_decide (mode = lit "call") then update_call target probe_id
        else if bool_decide (mode = lit "if") then update_if target probe_id
        else say kUpdateUsage)
  | _, _ => say kUpdateUsage
  end).

Definition cmd_untrace (args : option nat) : C Z :=
  require_attached (
  require_arg args (lit "Usage: untrace <symbol|id>") (fun target =>
  require_probe_target target (fun probe_id =>
    let* rc := lift (zt_trace_remove_probe K TK probe_id) in
    if negb (rc =? 0) then say (lit "Failed to remove probe " ++ target)
    else
      let* active := trace_is_active in
      let* _ := if negb active then zt_cli_reset_log_state else ret tt in
      say (lit "Removed probe " ++ target)))).

(** The lines of one probe. *)
Definition probe_lines (p : zt_probe_info_t) : cstr :=
  pad_right 4 (dec_str (pr_probe_id p)) ++ lit " " ++ pad_right 20 (take 20 (tgt_symbol (pr_target p))) ++ lit " " ++
  pad_right 10 (zt_probe_state_name (pr_state p)) ++ lit " " ++ pad_right 5 (dec_str (pr_orig_len p)) ++ lit " 0x" ++
  hex16 (tgt_remote_addr (pr_target p)) ++ lit " " ++ tgt_module_path (pr_target p) ++ [10] ++
  (if negb (flt_enabled (pr_filter p) =? 0) && negb (chr (flt_expr (pr_filter p)) =? 0)
   then lit "     filter: " ++ flt_expr (pr_filter p) ++ [10] else []) ++
  (if negb (act_enabled (pr_call_action p) =? 0) && negb (chr (pr_call_symbol p) =? 0)
   then lit "       call: " ++ pr_call_symbol p ++ lit "(" ++ zt_cli_format_call_args (pr_call_action p) 160 ++ lit ")" ++ [10]
   else []).

Definition probes_header (cells : list cstr) : cstr :=
  match cells with
  | [a; b; c; d; e; f] =>
      pad_right 4 a ++ lit " " ++ pad_right 20 b ++ lit " " ++ pad_right 10 c ++ lit " " ++ pad_right 5 d ++ lit " " ++
      pad_right 18 e ++ lit " " ++ f ++ [10]
  | _ => []
  end.

Definition info_probes (c : cli_t) : cstr :=
  if ses_probe_count (w_ses (cl_world c)) =? 0 then lit "No probes" ++ [10]
  else
    probes_header [lit "id"; lit "symbol"; lit "state"; lit "len"; lit "addr"; lit "module"] ++
    probes_header [lit "--"; lit "--------------------"; lit "----------"; lit "-----"; lit "------------------"; lit "------"] ++
    concat (map probe_lines (filter (fun p => pr_probe_id p <> 0) (w_probes (cl_world c)))).

Definition info_target (with_count : bool) (c : cli_t) : cstr :=
  lit "pid       : " ++ sdec_str (cl_pid c) ++ [10] ++
  lit "exe       : " ++ im_exe_path (cl_image c) ++ [10] ++
  lit "is_pie    : " ++ sdec_str (if im_is_pie (cl_image c) then 1 else 0) ++ [10] ++
  lit "image_base: " ++ hex_str (im_base (cl_image c)) ++ [10] ++
  (if with_count then lit "probes    : " ++ sdec_str (ses_probe_count (w_ses (cl_world c))) ++ [10] else []).

Definition cmd_info (args : option nat) : C Z :=
  require_attached (
  let* subcmd := zt_next_arg args in
  let* c := gets (fun c => c) in
  match subcmd with
  | None => let* _ := printf (info_target true c) in ret 0
  | Some subcmd =>
      if bool_decide (subcmd = lit "target") then let* _ := printf (info_target false c) in ret 0
      else if bool_decide (subcmd = lit "probes") then let* _ := printf (info_probes c) in ret 0
      else say (lit "Usage: info target | info probes")
  end).

(** ** The main loop *)

Definition cmd_table : list (cstr * (option nat -> C Z)) :=
  [(lit "help", cmd_help); (lit "exit", cmd_exit); (lit "quit", cmd_exit); (lit "attach", cmd_attach);
   (lit "detach", cmd_detach); (lit "trace", cmd_trace); (lit "stop", cmd_stop); (lit "enable", cmd_enable);
   (lit "disable", cmd_disable); (lit "update", cmd_update); (lit "untrace", cmd_untrace); (lit "info", cmd_info);
   (lit "continue", cmd_continue)].

(** One line: whether to leave the loop.  The arguments are looked for at strlen(cmd) from the
    start of the line, which strtok has just overwritten with a NUL, so they are usually
    NULL and the handlers go on from strtok's pointer. *)
Definition run_line (input : cstr) : C bool :=
  let* _ := modify (cl_set_line (input ++ [0]) 0) in
  let* cmd := strtok_arg 32 (Some 0%nat) in
  match cmd with
  | None => ret false
  | Some cmd =>
      let* line := gets cl_line in
      let s := cstr_at line (length cmd) in
      let rest := skip_while (Z.eqb 32) s in
      let args := if chr rest =? 0 then None else Some (length cmd + (length s - length rest))%nat in
      match List.find (fun e => bool_decide (cmd = fst e)) cmd_table with
      | Some (_, handler) => let* rc := handler args in ret (negb (rc =? 0))
      | None => let* _ := say (lit "Unknown command: " ++ cmd) in ret false
      end
  end.

Fixpoint run_hooks (fuel : nat) (hooks : list hook_t) : C unit :=
  match hooks with
  | [] => ret tt
  | h :: hooks => let* _ := zt_cli_event_hook fuel h in run_hooks fuel hooks
  end.

Fixpoint zt_cli_main_loop (fuel : nat) (prompts : list (list hook_t * cstr)) : C unit :=
  match prompts with
  | [] => ret tt
  | (hooks, input) :: prompts =>
      let* _ := run_hooks fuel hooks in
      let* leave := run_line input in
      if leave then ret tt else zt_cli_main_loop fuel prompts
  end.
End cli.
