(* ===== verification/CliSpec.v ===== *)
(** * The command line does what a command says

    A command printed as a line and entered is parsed back: the shell performs the
    trace runner's operation on the probe, the callee, the arguments and the
    condition it names. *)

From S2P Require Import Prelude CLib Types Reader RemoteMem Arch Threads Probes Pool SigConf SigConfSpec SigFormat Filter Symbols MapsSpec TraceRunner Cli.

(** ** Tokens *)

(** A word of a line: not empty, no blank, no line end. *)
Definition token (w : cstr) : Prop := w <> [] /\ Forall (fun c => c <> 0 /\ c <> 32 /\ c <> 10) w.

#[export] Instance token_dec w : Decision (token w).
Proof. unfold token. apply _. Defined.

Fixpoint unwords (ws : list cstr) : cstr :=
  match ws with
  | [] => []
  | [w] => w
  | w :: ws => w ++ 32 :: unwords ws
  end.

Lemma token_nul_free w : token w -> nul_free w.
Proof. intros [_ H]. eapply Forall_impl; [exact H|]. by intros c [? _]. Qed.

Lemma token_no_blank w : token w -> Forall (fun c => c <> 32) w.
Proof. intros [_ H]. eapply Forall_impl; [exact H|]. by intros c (_ & ? & _). Qed.

Lemma unwords_cons w w2 ws : unwords (w :: w2 :: ws) = w ++ 32 :: unwords (w2 :: ws).
Proof. done. Qed.

Lemma unwords_nul_free ws : Forall token ws -> nul_free (unwords ws).
Proof.
  induction 1 as [|w ws Hw Hws IH]; [constructor|]. destruct ws as [|w2 ws]; [by apply token_nul_free|].
  rewrite unwords_cons. apply Forall_app. split; [by apply token_nul_free|]. by constructor.
Qed.

Lemma strchr_at d w r : Forall (fun c => c <> d) w -> strchr (w ++ d :: r) d = Some (length w).
Proof. induction 1 as [|c w Hc _ IH]; cbn; [by rewrite Z.eqb_refl|]. rewrite (proj2 (Z.eqb_neq c d) Hc). by rewrite IH. Qed.

Lemma strchr_no d w : Forall (fun c => c <> d) w -> strchr w d = None.
Proof. induction 1 as [|c w Hc _ IH]; cbn; [done|]. rewrite (proj2 (Z.eqb_neq c d) Hc). by rewrite IH. Qed.

(** strtok at a word that a delimiter ends, and at the last one. *)
Lemma strtok_word d pre w r post :
  w <> [] -> Forall (fun c => c <> d) w -> nul_free (w ++ d :: r) ->
  strtok d (pre ++ (w ++ d :: r) ++ 0 :: post) (length pre) =
    Some (length pre, pre ++ w ++ 0 :: r ++ 0 :: post, S (length (pre ++ w))).
Proof.
  intros Hne Hw Hn. unfold strtok. rewrite cstr_at_app by done.
  assert (Hs : skip_while (Z.eqb d) (w ++ d :: r) = w ++ d :: r).
  { apply skip_while_idem. destruct w as [|c w]; [done|]. apply Forall_cons in Hw as [Hc _]. cbn. apply Z.eqb_neq. congruence. }
  rewrite Hs, Nat.sub_diag, Nat.add_0_r, strchr_at by done.
  replace (pre ++ (w ++ d :: r) ++ 0 :: post) with ((pre ++ w) ++ d :: r ++ 0 :: post) by app_eq.
  rewrite length_app. destruct (w ++ d :: r) eqn:E; [by destruct w|]. rewrite insert_at by (rewrite length_app; done).
  do 2 f_equal. f_equal. app_eq.
Qed.

Lemma strtok_last_word d pre w post :
  w <> [] -> Forall (fun c => c <> d) w -> nul_free w ->
  strtok d (pre ++ w ++ 0 :: post) (length pre) = Some (length pre, pre ++ w ++ 0 :: post, length (pre ++ w)).
Proof.
  intros Hne Hw Hn. unfold strtok. rewrite cstr_at_app by done.
  assert (Hs : skip_while (Z.eqb d) w = w).
  { apply skip_while_idem. destruct w as [|c w]; [done|]. apply Forall_cons in Hw as [Hc _]. cbn. apply Z.eqb_neq. congruence. }
  rewrite Hs, Nat.sub_diag, Nat.add_0_r, strchr_no by done. rewrite length_app. by destruct w.
Qed.

(** ** The line's state *)

(** The text strtok has still to look at. *)
Definition at_text (c : cli_t) (t : cstr) : Prop :=
  nul_free t /\ exists pre post, cl_line c = pre ++ t ++ 0 :: post /\ cl_save c = length pre.

(** The same but for the line. *)
Definition same_but_line (c c' : cli_t) : Prop := exists line save, c' = cl_set_line line save c.

Lemma same_but_line_refl c : same_but_line c c.
Proof. exists (cl_line c), (cl_save c). by destruct c. Qed.

Lemma same_but_line_trans c1 c2 c3 : same_but_line c1 c2 -> same_but_line c2 c3 -> same_but_line c1 c3.
Proof. intros (l & s & ->) (l' & s' & ->). by exists l', s'. Qed.

Lemma strtok_arg_word d c w r :
  at_text c (w ++ d :: r) -> w <> [] -> Forall (fun c => c <> d) w ->
  exists c', strtok_arg d None c = (Some w, c') /\ same_but_line c c' /\ at_text c' r.
Proof.
  intros (Hn & pre & post & Hl & Hs) Hne Hw. unfold strtok_arg. cbn [default]. rewrite Hl, Hs, strtok_word by done.
  apply Forall_app in Hn as [Hn1 Hn2]. apply Forall_cons in Hn2 as [_ Hn2]. eexists. split_and!.
  - by rewrite cstr_at_app.
  - by eexists _, _.
  - split; [done|]. exists (pre ++ w ++ [0]), post. cbn [cl_line cl_save cl_set_line]. split; [app_eq|].
    rewrite !length_app. cbn. lia.
Qed.

Lemma strtok_arg_last d c w :
  at_text c w -> w <> [] -> Forall (fun c => c <> d) w ->
  exists c', strtok_arg d None c = (Some w, c') /\ same_but_line c c' /\ at_text c' [].
Proof.
  intros (Hn & pre & post & Hl & Hs) Hne Hw. unfold strtok_arg. cbn [default]. rewrite Hl, Hs, strtok_last_word by done.
  eexists. split_and!.
  - by rewrite cstr_at_app.
  - by eexists _, _.
  - split; [constructor|]. exists (pre ++ w), post. cbn [cl_line cl_save cl_set_line]. split; [app_eq|done].
Qed.

Lemma strtok_arg_end d c :
  at_text c [] -> exists c', strtok_arg d None c = (None, c') /\ same_but_line c c' /\ at_text c' [].
Proof.
  intros (Hn & pre & post & Hl & Hs). unfold strtok_arg. cbn [default].
  assert (Hst : strtok d (cl_line c) (cl_save c) = None).
  { unfold strtok. rewrite Hl, Hs. change (pre ++ [] ++ 0 :: post) with (pre ++ [] ++ 0 :: post). by rewrite cstr_at_app. }
  rewrite Hst. eexists. split_and!; [done|by eexists _, _|]. split; [constructor|]. exists pre, post.
  cbn [cl_line cl_save cl_set_line]. split; [done|]. rewrite Hl, Hs, cstr_at_app by done. cbn. lia.
Qed.

(** The words come one by one. *)
Lemma next_arg_unwords c w ws :
  at_text c (unwords (w :: ws)) -> token w ->
  exists c', zt_next_arg None c = (Some w, c') /\ same_but_line c c' /\ at_text c' (unwords ws).
Proof.
  intros Ht Hw. unfold zt_next_arg. destruct ws as [|w2 ws].
  - apply strtok_arg_last; [done|apply Hw|by apply token_no_blank].
  - rewrite unwords_cons in Ht. apply strtok_arg_word; [done|apply Hw|by apply token_no_blank].
Qed.

Lemma next_arg_none c : at_text c (unwords []) -> exists c', zt_next_arg None c = (None, c') /\ same_but_line c c'.
Proof. intros Ht. destruct (strtok_arg_end 32 c Ht) as (c' & H1 & H2 & _). by exists c'. Qed.

(** ** Arguments of a call action *)

Definition arg_ok (a : zt_call_action_arg_t) : Prop :=
  ca_kind a = ZT_CALL_ACTION_ARG_ENTRY_ARG /\ 0 <= ca_value a < ZT_TRACE_GP_ARG_COUNT \/
  ca_kind a = ZT_CALL_ACTION_ARG_CONST /\ is_u64 (ca_value a).

#[export] Instance arg_ok_dec a : Decision (arg_ok a).
Proof. unfold arg_ok, is_u64. apply _. Defined.

Definition print_arg (a : zt_call_action_arg_t) : cstr := call_arg_text 0 a.

Lemma hex_digits_spec z :
  is_u64 z -> hexes (hex_aux 16 z []) /\ hex_aux 16 z [] <> [] /\ strto_digits 16 0 (hex_aux 16 z []) = (z, []).
Proof.
  intros Hz. unfold is_u64 in Hz. destruct (hex_aux_spec 16 z []) as (ds & E & Hd & Hs).
  { change (16 ^ Z.of_nat 16) with (2 ^ 64). lia. }
  rewrite app_nil_r in E. split_and!; [by rewrite E| |].
  { change (hex_aux 16 z []) with
      (if z <? 16 then [hex_digit (z mod 16)] else hex_aux 15 (z / 16) [hex_digit (z mod 16)]).
    destruct (z <? 16); [done|]. destruct (hex_aux_spec 15 (z / 16) [hex_digit (z mod 16)]) as (ds' & -> & _).
    - split; [apply Z.div_pos; lia|]. apply Z.div_lt_upper_bound; [lia|]. change (16 * 16 ^ Z.of_nat 15) with (2 ^ 64). lia.
    - by destruct ds'. }
  rewrite E. specialize (Hs 0 []). rewrite app_nil_r in Hs. rewrite Hs. done.
Qed.

(** What `info probes` prints as an argument, `update ... call` reads back. *)
Lemma parse_print_arg a : arg_ok a -> zt_cli_parse_call_arg (print_arg a) = Some a.
Proof.
  destruct a as [k v]. intros [[Hk Hv]|[Hk Hv]]; cbn [ca_kind ca_value] in *; subst k; unfold print_arg, call_arg_text; cbn [ca_kind ca_value].
  - unfold ZT_TRACE_GP_ARG_COUNT in Hv. assert (v = 0 \/ v = 1 \/ v = 2 \/ v = 3 \/ v = 4 \/ v = 5) as Hc by lia.
    destruct Hc as [->|[->|[->|[->|[->| ->]]]]]; reflexivity.
  - change (ZT_CALL_ACTION_ARG_CONST =? ZT_CALL_ACTION_ARG_ENTRY_ARG) with false. cbn [app Z.eqb]. unfold hex_str.
    destruct (hex_digits_spec v Hv) as (Hd & Hne & Hs). destruct (hex_aux 16 v []) as [|c ds]; [done|].
    apply Forall_cons in Hd as [Hc _]. change (lit "0x") with [48; 120]. cbn [app].
    unfold zt_cli_parse_call_arg. change (starts_with (lit "arg") (48 :: 120 :: c :: ds)) with false. cbv iota.
    assert (E : strtoull (48 :: 120 :: c :: ds) 0 = {| st_value := v; st_erange := false; st_rest := [] |}).
    { unfold ishex in Hc. assert (Hp : strto_prefix 0 (48 :: 120 :: c :: ds) = (16, c :: ds)).
      { transitivity (if true && bool_decide (is_Some (digit_in 16 c)) then (16, c :: ds) else (8, 48 :: 120 :: c :: ds));
          [reflexivity|by rewrite Hc]. }
      unfold strtoull. change (skip_while isspace (48 :: 120 :: c :: ds)) with (48 :: 120 :: c :: ds). cbv iota zeta.
      rewrite Hp. cbn [chr]. rewrite Hc, Hs.
      unfold is_u64, ULLONG_MAX in *. by destruct (Z.ltb_spec (2 ^ 64 - 1) v); [lia|]. }
    rewrite E. done.
Qed.

Lemma arg_token a : arg_ok a -> token (print_arg a).
Proof.
  destruct a as [k v]. intros [[Hk Hv]|[Hk Hv]]; cbn [ca_kind ca_value] in *; subst k; unfold print_arg, call_arg_text; cbn [ca_kind ca_value].
  - unfold ZT_TRACE_GP_ARG_COUNT in Hv. assert (v = 0 \/ v = 1 \/ v = 2 \/ v = 3 \/ v = 4 \/ v = 5) as Hc by lia.
    destruct Hc as [->|[->|[->|[->|[->| ->]]]]]; (split; [discriminate|]); repeat constructor; discriminate.
  - change (ZT_CALL_ACTION_ARG_CONST =? ZT_CALL_ACTION_ARG_ENTRY_ARG) with false. cbn [app Z.eqb]. unfold hex_str.
    destruct (hex_digits_spec v Hv) as (Hd & _ & _). split; [discriminate|]. change (lit "0x") with [48; 120]. cbn [app].
    do 2 (constructor; [done|]). eapply Forall_impl; [exact Hd|]. intros c Hc. destruct (ishex_not c Hc) as (Hsp & H).
    split_and!; try tauto. intros ->. done.
Qed.

Lemma call_args_loop_spec fuel args0 args c :
  at_text c (unwords (map print_arg args)) -> Forall arg_ok args -> (length args <= fuel)%nat ->
  Z.of_nat (length args0 + length args) <= ZT_CALL_ACTION_ARG_CAP ->
  exists c', call_args_loop fuel args0 c = (Some (args0 ++ args), c') /\ same_but_line c c'.
Proof.
  revert fuel args0 c. induction args as [|a args IH]; intros fuel args0 c Ht Hok Hf Hcap.
  - destruct (next_arg_none c Ht) as (c' & H1 & H2). exists c'. rewrite app_nil_r.
    destruct fuel; cbn [call_args_loop]; unfold bind; by rewrite H1.
  - apply Forall_cons in Hok as [Ha Hok]. cbn [length] in *. destruct fuel as [|fuel]; [lia|].
    destruct (next_arg_unwords c _ _ Ht (arg_token a Ha)) as (c1 & H1 & H2 & H3).
    destruct (IH fuel (args0 ++ [a]) c1 H3 Hok ltac:(lia)) as (c2 & H4 & H5); [rewrite length_app; cbn; lia|].
    exists c2. split; [|by eapply same_but_line_trans]. cbn [call_args_loop]. unfold bind. rewrite H1.
    destruct (Z.leb_spec ZT_CALL_ACTION_ARG_CAP (Z.of_nat (length args0))); [lia|].
    rewrite (parse_print_arg a Ha), H4. by rewrite <- app_assoc.
Qed.

(** ** Commands *)

(** What names a probe: its id or its symbol. *)
Inductive target := ById (probe_id : Z) | BySymbol (symbol : cstr).

(** The table of commands the shell documents. *)
Inductive command :=
| Help (name : option cstr)
| Exit
| Quit
| Attach (pid : Z)
| Detach
| Trace (symbol : cstr) (condition : option cstr)
| Stop
| Enable (t : target)
| Disable (t : target)
| DisableAll
| UpdateIf (t : target) (condition : cstr)
| UpdateClear (t : target)
| UpdateCall (t : target) (callee : cstr) (args : list zt_call_action_arg_t)
| UpdateCallClear (t : target)
| Untrace (t : target)
| Info (what : option cstr)
| Continue.

(** A condition is the rest of the line. *)
Definition condition (e : cstr) : Prop := e <> [] /\ Forall (fun c => c <> 0 /\ c <> 10) e.

#[export] Instance condition_dec e : Decision (condition e).
Proof. unfold condition. apply _. Defined.

(** A symbol that cannot be taken for a number: it starts with no blank, digit or sign. *)
Definition symbolic (s : cstr) : Prop :=
  token s /\ isspace (chr s) = false /\ isdigit (chr s) = false /\ chr s <> 43 /\ chr s <> 45.

Definition target_ok (t : target) : Prop :=
  match t with ById id => 0 < id < 2 ^ 63 | BySymbol s => symbolic s end.

Definition command_ok (cmd : command) : Prop :=
  match cmd with
  | Help (Some w) | Info (Some w) => token w
  | Attach pid => 0 < pid < 2 ^ 31
  | Trace s None => token s
  | Trace s (Some e) => token s /\ condition e
  | Enable t | Untrace t | UpdateClear t | UpdateCallClear t => target_ok t
  | Disable t => target_ok t /\ t <> BySymbol (lit "all")
  | UpdateIf t e => target_ok t /\ condition e
  | UpdateCall t callee args =>
      target_ok t /\ (token callee /\ callee <> lit "clear") /\ Forall arg_ok args /\ Z.of_nat (length args) <= ZT_CALL_ACTION_ARG_CAP
  | Help None | Info None | Exit | Quit | Detach | DisableAll | Stop | Continue => True
  end.

Definition print_target (t : target) : cstr := match t with ById id => dec_str id | BySymbol s => s end.

(** The name of a command and the words after it. *)
Definition command_words (cmd : command) : cstr * list cstr :=
  match cmd with
  | Help w => (lit "help", option_list w)
  | Exit => (lit "exit", [])
  | Quit => (lit "quit", [])
  | Attach pid => (lit "attach", [dec_str pid])
  | Detach => (lit "detach", [])
  | Trace s None => (lit "trace", [s])
  | Trace s (Some e) => (lit "trace", [s; lit "if"; e])
  | Stop => (lit "stop", [])
  | Enable t => (lit "enable", [print_target t])
  | Disable t => (lit "disable", [print_target t])
  | DisableAll => (lit "disable", [lit "all"])
  | UpdateIf t e => (lit "update", [print_target t; lit "if"; e])
  | UpdateClear t => (lit "update", [print_target t; lit "clear"])
  | UpdateCall t callee args => (lit "update", print_target t :: lit "call" :: callee :: map print_arg args)
  | UpdateCallClear t => (lit "update", [print_target t; lit "call"; lit "clear"])
  | Untrace t => (lit "untrace", [print_target t])
  | Info w => (lit "info", option_list w)
  | Continue => (lit "continue", [])
  end.

Definition print_command (cmd : command) : cstr := let '(name, ws) := command_words cmd in unwords (name :: ws).

(** The id of the probe a target names: of the entry with that id, or of the first one in
    use that has that symbol. *)
Definition probe_named (t : target) (ps : list zt_probe_info_t) : option Z :=
  match t with
  | ById id => if decide (Exists (fun p => pr_probe_id p = id) ps) then Some id else None
  | BySymbol s => (fun e => pr_probe_id (snd e)) <$> list_find (fun p => pr_probe_id p <> 0 /\ tgt_symbol (pr_target p) = s) ps
  end.

Definition active (w : world) : bool := negb (bool_decide (at_state (g_active_trace w) = ZT_TRACE_RUNTIME_INACTIVE)).

(** The log file of a new trace: ztrace.<pid>.log in the working directory. *)
Definition new_log (cwd : option cstr) (pid : Z) : option cstr :=
  match cwd with
  | Some dir =>
      let path := dir ++ lit "/ztrace." ++ sdec_str pid ++ lit ".log" in
      if Z.of_nat (length path) <? PATH_MAX then Some path else None
  | None => None
  end.

Section commands.
Context `{A : Arch} `{Rm : Remote} `{Bd : Builder} (K : kernel_t) (TK : thread_kernel) (R : remote_t) (fs : files_t).
Context (env_of : Z -> image_t -> env_t) (cwd : option cstr).

(** An operation on the probe a target names, none if there is no such probe. *)
Definition on_target (t : target) (k : Z -> M Z) : M Z := fun w =>
  match probe_named t (w_probes w) with Some probe_id => k probe_id w | None => (-1, w) end.

Definition compiled (e : cstr) (k : zt_probe_filter_t -> M Z) : M Z :=
  let '(rc, f) := zt_probe_filter_compile (Some e) zero_filter in if rc =? 0 then k f else ret (-1).

(** Only while a trace is active. *)
Definition tracing (k : M Z) : M Z := fun w => if active w then k w else (-1, w).

Definition with_env (im : image_t) (k : env_t -> M Z) : M Z := fun w => k (env_of (ses_pid (w_ses w)) im) w.

(** A trace is extended; the first one starts with the target stopped and a log of its own. *)
Definition start_trace (im : image_t) (log_path symbol : cstr) (f : option zt_probe_filter_t) : M Z := fun w =>
  let start log := with_env im (fun E => zt_trace_start_filtered_in_session K TK E symbol log f) in
  if active w then start log_path w
  else
    let '(rc, w') := with_threads (zt_injector_interrupt_all TK) w in
    if rc =? 0 then match new_log cwd (ses_pid (w_ses w')) with Some log => start log w' | None => (-1, w') end
    else (-1, w').

(** Each probe of the table that is installed when its turn comes is disabled. *)
Definition disable_installed (w : world) (i : nat) : world :=
  match w_probes w !! i with
  | Some p =>
      if decide (pr_probe_id p <> 0 /\ pr_state p = ZT_PROBE_INSTALLED) then snd (zt_trace_disable_probe K TK (pr_probe_id p) w) else w
  | None => w
  end.

(** The operation a command asks for in a session. *)
Definition command_op (im : image_t) (log_path : cstr) (cmd : command) : M Z :=
  match cmd with
  | Trace symbol None => start_trace im log_path symbol None
  | Trace symbol (Some e) =>
      compiled e (fun f => start_trace im log_path symbol (if flt_enabled f =? 0 then None else Some f))
  | Enable t => tracing (on_target t (fun id => with_env im (fun E => zt_trace_enable_probe K TK E id)))
  | Disable t => tracing (on_target t (zt_trace_disable_probe K TK))
  | DisableAll => tracing (fun w => (0, foldl disable_installed w (seq 0 (Z.to_nat ZT_PROBES_CAPACITY))))
  | UpdateIf t e => tracing (on_target t (fun id => compiled e (fun f => zt_trace_update_probe_filter id (Some f))))
  | UpdateClear t => tracing (on_target t (fun id => zt_trace_update_probe_filter id None))
  | UpdateCall t callee args =>
      tracing (on_target t (fun id => with_env im (fun E => zt_trace_update_probe_call_action_args K E id callee args)))
  | UpdateCallClear t => tracing (on_target t (zt_trace_clear_probe_call_action K))
  | Untrace t => on_target t (zt_trace_remove_probe K TK)
  | Stop => fun w => if active w then zt_trace_pause TK w else with_threads (zt_injector_interrupt_all TK) w
  | Continue => fun w => if active w then zt_trace_resume TK w else with_threads (zt_injector_continue_all TK) w
  | Help _ | Exit | Quit | Attach _ | Detach | Info _ => ret 0
  end.

(** ** Sessions *)

(** What a command acts on: the tracer and its target, the image and whether the shell has a
    target. *)
Definition seen (c : cli_t) : world * image_t * bool := (cl_world c, cl_image c, g_cli_attached c).

Definition detached (w : world) : world * image_t * bool :=
  (snd (with_threads (fun s k => let '(s, k) := zt_injector_detach TK s k in (tt, s, k)) w), zero_image, false).

Definition attached_to (pid : Z) (w : world) : world * image_t * bool :=
  let '(rc, s, im, k) := zt_injector_attach TK fs pid (in_k (w_inj w)) in
  let w := mk_world (mk_inj s (in_proc (w_inj w)) k) (g_active_trace w) (g_trace_exit_observed w) (w_reader w) (w_sigconf w) in
  if rc =? 0 then
    let '(rc, w) := with_threads (zt_injector_continue_all TK) w in
    if rc =? 0 then (w, im, true) else detached w
  else (w, im, false).

Definition after (op : M Z) (c : cli_t) : world * image_t * bool := (snd (op (cl_world c)), cl_image c, g_cli_attached c).

(** A second `attach` does nothing; without a target only `attach` does something. *)
Definition command_effect (cmd : command) (c : cli_t) : world * image_t * bool :=
  if g_cli_attached c then
    match cmd with
    | Exit | Quit | Detach => detached (cl_world c)
    | _ => after (command_op (cl_image c) (g_cli_log_path c) cmd) c
    end
  else match cmd with Attach pid => attached_to pid (cl_world c) | _ => seen c end.

Definition leaves (cmd : command) : bool := match cmd with Exit | Quit => true | _ => false end.

(** ** Targets *)

Lemma strtol_dec z : 0 < z < 2 ^ 63 -> strtol (dec_str z) = Some (z, []).
Proof.
  intros Hz. destruct (dec_str_spec z ltac:(unfold is_u64; lia)) as (Hne & Hd & _ & _ & Hs).
  specialize (Hs []). rewrite app_nil_r in Hs. destruct (dec_str z) as [|d ds] eqn:E; [done|].
  apply Forall_cons in Hd as [Hd _]. unfold isdigit in Hd. zbool. unfold strtol.
  assert (Hsp : skip_while isspace (d :: ds) = d :: ds) by (cbn; unfold isspace; case_match; zbool; [lia|done]).
  rewrite Hsp. assert (d <> 45 /\ d <> 43) as [H1 H2] by lia.
  replace (match d :: ds with 45 :: q => (true, q) | 43 :: q => (false, q) | _ => (false, d :: ds) end) with (false, d :: ds)
    by (clear - H1 H2; repeat (case_match; try done)).
  cbn [chr]. replace (isdigit d) with true by (unfold isdigit; lia). rewrite Hs. cbn [strto_digits]. do 2 f_equal. lia.
Qed.

Lemma strtol_symbol s : symbolic s -> strtol s = None.
Proof.
  intros ([Hne _] & Hsp & Hd & Hp & Hm). destruct s as [|c s]; [done|]. cbn [chr] in *. unfold strtol.
  cbn [skip_while]. rewrite Hsp.
  replace (match c :: s with 45 :: q => (true, q) | 43 :: q => (false, q) | _ => (false, c :: s) end) with (false, c :: s)
    by (clear - Hp Hm; repeat (case_match; try done)).
  cbn [chr]. by rewrite Hd.
Qed.

(** The shell's lookup finds the probe the target names. *)
Lemma find_probe_named t ps :
  target_ok t -> snd <$> zt_cli_find_probe ps (print_target t) = probe_named t ps.
Proof.
  destruct t as [id|s]; intros Ht; unfold zt_cli_find_probe; cbn [print_target probe_named target_ok] in *.
  - rewrite (strtol_dec id Ht). cbn [chr Z.eqb andb]. destruct (Z.ltb_spec 0 id); [|lia].
    unfold zt_probe_find_by_id. destruct (Z.eqb_spec id 0); [lia|].
    destruct (decide (Exists _ ps)) as [He|He].
    + induction ps as [|p ps IH]; [by apply Exists_nil in He|]. cbn. destruct (Z.eqb_spec (pr_probe_id p) id) as [|Hn]; [done|].
      apply IH. apply Exists_cons in He as [He|He]; [done|done].
    + induction ps as [|p ps IH]; [done|]. cbn. destruct (Z.eqb_spec (pr_probe_id p) id) as [|Hn]; [by destruct He; left|].
      apply IH. intros H'. by apply He; right.
  - rewrite (strtol_symbol s Ht). unfold zt_probe_find_by_symbol, cstr_eqb.
    induction ps as [|p ps IH]; [done|]. cbn [List.find list_find].
    destruct (Z.eqb_spec (pr_probe_id p) 0); cbn [negb andb];
      [|destruct (bool_decide_reflect (tgt_symbol (pr_target p) = s))].
    2: by rewrite decide_True.
    all: rewrite decide_False by tauto; rewrite IH; by destruct (list_find _ ps) as [[? ?]|].
Qed.

Lemma target_token t : target_ok t -> token (print_target t).
Proof.
  destruct t as [id|s]; [|by intros [? _]]. intros Hi. cbn [target_ok print_target] in *.
  destruct (dec_str_spec id ltac:(unfold is_u64; lia)) as (Hne & Hd & _). split; [done|]. eapply Forall_impl; [exact Hd|].
  intros c Hc. unfold isdigit in Hc. zbool. lia.
Qed.

Lemma lit_token s : bool_decide (token (lit s)) = true -> token (lit s).
Proof. apply bool_decide_eq_true_1. Qed.

Lemma print_target_not_all t : target_ok t -> t <> BySymbol (lit "all") -> print_target t <> lit "all".
Proof.
  destruct t as [id|s]; cbn [target_ok print_target]; [|by intros _ H ->; apply H]. intros Hi _ E.
  pose proof (strtol_dec id Hi) as H. rewrite E in H. discriminate.
Qed.

Lemma with_threads_active {B} (f : zt_injector_session_t -> kstate -> B * zt_injector_session_t * kstate) w b w' :
  with_threads f w = (b, w') -> active w' = active w.
Proof. unfold with_threads, with_inj. destruct (f _ _) as [[b0 s] k]. by intros [= _ <-]. Qed.

(** ** Pieces *)

(** What a handler returns and what it leaves. *)
Definition result (p : Z * cli_t) : Z * (world * image_t * bool) := (fst p, seen (snd p)).

(** After a word was read off the line, seen from before. *)
Ltac rebase S1 :=
  let l := fresh "l" in let s := fresh "s" in
  destruct S1 as (l & s & ->);
  match goal with
  | |- _ = (0, after ?op ?c) => change (after op c) with (after op (cl_set_line l s c))
  | _ => idtac
  end.

Lemma say_if_result (b : bool) s1 s2 c : result ((if b then say s1 else say s2) c) = (0, seen c).
Proof. by destruct b. Qed.

Lemma trace_is_active_eq c : trace_is_active c = (active (cl_world c), c).
Proof. unfold trace_is_active, lift, zt_trace_is_active, gets. by destruct c. Qed.

(** A message, and the log forgotten if no trace is left. *)
Lemma reset_log_result (k : C Z) c :
  (forall c, result (k c) = (0, seen c)) ->
  result ((let* active := trace_is_active in
           let* _ := if negb active then zt_cli_reset_log_state else ret tt in k) c) = (0, seen c).
Proof. intros Hk. unfold bind. rewrite trace_is_active_eq. destruct (negb _); (etransitivity; [apply Hk|done]). Qed.

Lemma lift_result {B} (m : M B) (op : M Z) (k : B -> C Z) c :
  snd (m (cl_world c)) = snd (op (cl_world c)) -> (forall b c, result (k b c) = (0, seen c)) ->
  result ((let* b := lift m in k b) c) = (0, after op c).
Proof. intros Hm Hk. unfold bind, lift, after. rewrite <- Hm. destruct (m (cl_world c)) as [b w]. by rewrite Hk. Qed.

Lemma require_attached_result k c v :
  (g_cli_attached c = true -> result (k c) = (0, v)) ->
  result (require_attached k c) = (0, if g_cli_attached c then v else seen c).
Proof. intros Hk. unfold require_attached, bind, gets. by destruct (g_cli_attached c); [apply Hk|]. Qed.

Lemma require_active_result k c op :
  result (k c) = (0, after op c) ->
  result (require_active_trace k c) = (0, if g_cli_attached c then after (tracing op) c else seen c).
Proof.
  intros Hk. apply require_attached_result. intros Ha. unfold bind. rewrite trace_is_active_eq.
  unfold after, tracing in *. by destruct (active (cl_world c)).
Qed.

Lemma on_target_result c t k (op : Z -> M Z) :
  target_ok t -> (forall id, result (k id c) = (0, after (op id) c)) ->
  result (require_probe_target (print_target t) k c) = (0, after (on_target t op) c).
Proof.
  intros Ht Hk. unfold require_probe_target, bind, gets, after, on_target. rewrite <- (find_probe_named t) by done.
  destruct (zt_cli_find_probe (w_probes (cl_world c)) (print_target t)) as [[p id]|]; [apply Hk|done].
Qed.

Lemma require_arg_word c w ws usage k :
  at_text c (unwords (w :: ws)) -> token w ->
  exists c', same_but_line c c' /\ at_text c' (unwords ws) /\ require_arg None usage k c = k w c'.
Proof.
  intros Ht Hw. destruct (next_arg_unwords c w ws Ht Hw) as (c' & H1 & H2 & H3). exists c'. split_and!; [done|done|].
  unfold require_arg, bind. by rewrite H1.
Qed.

(** The handler of a command is run on the rest of the line. *)
Lemma run_line_words c name rest h :
  token name -> nul_free rest ->
  List.find (fun e => bool_decide (name = fst e)) (cmd_table K TK fs env_of cwd) = Some (name, h) ->
  exists c1, same_but_line c c1 /\ at_text c1 rest /\
    run_line K TK fs env_of cwd (name ++ 32 :: rest) c = (let '(rc, c') := h None c1 in (negb (rc =? 0), c')).
Proof.
  intros Hn Hr Hf. unfold run_line, bind at 1, modify. unfold bind at 1.
  assert (Hnf : nul_free (name ++ 32 :: rest)) by (apply Forall_app; split; [by apply token_nul_free|by constructor]).
  pose proof (strtok_word 32 [] name rest [] (proj1 Hn) (token_no_blank _ Hn) Hnf) as Hst.
  change (length (@nil Z)) with 0%nat in Hst. cbn [app] in Hst.
  unfold strtok_arg at 1. cbn [from_option id cl_line cl_set_line]. rewrite Hst.
  replace (cstr_at (name ++ 0 :: rest ++ [0]) 0) with name by (symmetry; by apply (cstr_at_app [] name), token_nul_free).
  set (c1 := cl_set_line _ _ _). exists c1. split_and!.
  - by eexists _, _.
  - split; [done|]. exists (name ++ [0]), []. cbn. split; [app_eq|]. rewrite length_app. cbn. lia.
  - unfold bind at 1, gets. cbn [cl_line c1 cl_set_line].
    assert (E : cstr_at (name ++ 0 :: rest ++ [0]) (length name) = []) by (unfold cstr_at; by rewrite drop_app_length).
    rewrite E. cbn [skip_while chr Z.eqb]. rewrite Hf. unfold bind, ret. by destruct (h None _).
Qed.

Lemma run_line_word c name h :
  token name -> List.find (fun e => bool_decide (name = fst e)) (cmd_table K TK fs env_of cwd) = Some (name, h) ->
  exists c1, same_but_line c c1 /\ at_text c1 [] /\
    run_line K TK fs env_of cwd name c = (let '(rc, c') := h None c1 in (negb (rc =? 0), c')).
Proof.
  intros Hn Hf. unfold run_line, bind at 1, modify. unfold bind at 1.
  pose proof (strtok_last_word 32 [] name [] (proj1 Hn) (token_no_blank _ Hn) (token_nul_free _ Hn)) as Hst.
  change (length (@nil Z)) with 0%nat in Hst. cbn [app] in Hst.
  unfold strtok_arg at 1. cbn [from_option id cl_line cl_set_line]. rewrite Hst.
  replace (cstr_at (name ++ [0]) 0) with name by (symmetry; by apply (cstr_at_app [] name), token_nul_free).
  set (c1 := cl_set_line _ _ _). exists c1. split_and!.
  - by eexists _, _.
  - split; [constructor|]. exists name, []. by cbn.
  - unfold bind at 1, gets. cbn [cl_line c1 cl_set_line].
    assert (E : cstr_at (name ++ [0]) (length name) = []) by (unfold cstr_at; by rewrite drop_app_length).
    rewrite E. cbn [skip_while chr Z.eqb]. rewrite Hf. unfold bind, ret. by destruct (h None _).
Qed.

(** The handler of a command is run on the rest of the line. *)
Lemma run_command_words c name ws h leave v :
  token name -> nul_free (unwords ws) ->
  List.find (fun e => bool_decide (name = fst e)) (cmd_table K TK fs env_of cwd) = Some (name, h) ->
  (forall c1, same_but_line c c1 -> at_text c1 (unwords ws) -> result (h None c1) = (if leave : bool then 1 else 0, v)) ->
  fst (run_line K TK fs env_of cwd (unwords (name :: ws)) c) = leave /\
  seen (snd (run_line K TK fs env_of cwd (unwords (name :: ws)) c)) = v.
Proof.
  intros Hn Hws Hf Hh.
  assert (exists c1, same_but_line c c1 /\ at_text c1 (unwords ws) /\
    run_line K TK fs env_of cwd (unwords (name :: ws)) c = (let '(rc, c') := h None c1 in (negb (rc =? 0), c')))
    as (c1 & S1 & T1 & ->).
  { destruct ws as [|w ws]; [by apply run_line_word|]. rewrite unwords_cons. by apply run_line_words. }
  specialize (Hh c1 S1 T1). destruct (h None c1) as [rc c']. unfold result in Hh. cbn [fst snd] in *.
  injection Hh as -> ->. by destruct leave.
Qed.

(** ** The handlers *)

(** Take the next word of the line. *)
Ltac take_arg Ht Hw c1 S1 T1 :=
  match goal with
  | |- context [require_arg None ?u ?k ?c] =>
      destruct (require_arg_word c _ _ u k Ht Hw) as (c1 & S1 & T1 & ->)
  end.

(** An operation on the tracer and a message. *)
Ltac lift_and_say := apply lift_result; [done|]; intros; apply say_if_result.

Lemma cmd_enable_result c t :
  at_text c (unwords [print_target t]) -> target_ok t ->
  result (cmd_enable K TK env_of None c) = (0, command_effect (Enable t) c).
Proof.
  intros Ht Hok. apply require_active_result. take_arg Ht (target_token t Hok) c1 S1 T1. rebase S1.
  apply on_target_result; [done|]. intros id. unfold bind at 1, E_now, gets. lift_and_say.
Qed.

Lemma disable_all_seen indices d f c :
  seen (snd (disable_all_loop K TK indices d f c)) = (foldl disable_installed (cl_world c) indices, cl_image c, g_cli_attached c).
Proof.
  revert d f c. induction indices as [|i indices IH]; intros d f c; [done|]. cbn [disable_all_loop foldl].
  unfold bind at 1, gets, disable_installed at 2. destruct (w_probes (cl_world c) !! i) as [p|]; [|apply IH].
  destruct (Z.eqb_spec (pr_probe_id p) 0) as [|Hid]; cbn [orb]; [rewrite decide_False by tauto; apply IH|].
  destruct (bool_decide_reflect (pr_state p = ZT_PROBE_INSTALLED)) as [Hst|Hst]; cbn [negb];
    [rewrite decide_True by done|rewrite decide_False by tauto; apply IH].
  unfold bind at 1, lift. destruct (zt_trace_disable_probe K TK (pr_probe_id p) (cl_world c)) as [rc w].
  destruct (negb (rc =? 0)); [unfold bind at 1, printf, modify|]; by rewrite IH.
Qed.

Lemma cmd_disable_all_result c :
  at_text c (unwords [lit "all"]) -> result (cmd_disable K TK None c) = (0, command_effect DisableAll c).
Proof.
  intros Ht. apply require_active_result. take_arg Ht (lit_token "all" eq_refl) c1 S1 T1. rebase S1.
  rewrite bool_decide_true by done. unfold bind at 1.
  match goal with |- context [disable_all_loop K TK ?l ?d ?f ?c0] => pose proof (disable_all_seen l d f c0) as Hs end.
  destruct (disable_all_loop _ _ _ _ _ _) as [[d f] c2]. cbn [snd] in Hs. rewrite say_if_result, Hs. unfold after. cbn [snd]. reflexivity.
Qed.

Lemma cmd_disable_result c t :
  at_text c (unwords [print_target t]) -> target_ok t -> t <> BySymbol (lit "all") ->
  result (cmd_disable K TK None c) = (0, command_effect (Disable t) c).
Proof.
  intros Ht Hok Hall. apply require_active_result. take_arg Ht (target_token t Hok) c1 S1 T1. rebase S1.
  rewrite bool_decide_false by (by apply print_target_not_all). apply on_target_result; [done|]. intros id. lift_and_say.
Qed.

Lemma cmd_untrace_result c t :
  at_text c (unwords [print_target t]) -> target_ok t ->
  result (cmd_untrace K TK None c) = (0, command_effect (Untrace t) c).
Proof.
  intros Ht Hok. apply require_attached_result. intros _. take_arg Ht (target_token t Hok) c1 S1 T1. rebase S1.
  apply on_target_result; [done|]. intros id. apply lift_result; [done|]. intros rc c'. destruct (negb _); [done|].
  by apply reset_log_result.
Qed.

(** `update <target> <mode>`: the mode's branch runs behind the two words. *)
Lemma cmd_update_mode c t mode ws (op : Z -> M Z) :
  at_text c (unwords (print_target t :: mode :: ws)) -> target_ok t -> token mode ->
  (forall c1 id, same_but_line c c1 -> at_text c1 (unwords ws) ->
     result ((if bool_decide (mode = lit "clear") then update_clear (print_target t) id
              else if bool_decide (mode = lit "call") then update_call K env_of (print_target t) id
              else if bool_decide (mode = lit "if") then update_if (print_target t) id else say kUpdateUsage) c1) =
     (0, after (op id) c1)) ->
  result (cmd_update K env_of None c) = (0, if g_cli_attached c then after (tracing (on_target t op)) c else seen c).
Proof.
  intros Ht Hok Hm Hop. apply require_active_result.
  destruct (next_arg_unwords c _ _ Ht (target_token t Hok)) as (c1 & H1 & S1 & T1). unfold bind at 1. rewrite H1.
  destruct (next_arg_unwords c1 _ _ T1 Hm) as (c2 & H2 & S2 & T2). unfold bind at 1. rewrite H2.
  pose proof (same_but_line_trans _ _ _ S1 S2) as S3. pose proof S3 as S4. rebase S4. apply on_target_result; [done|].
  intros id. by apply Hop.
Qed.

(** The condition at the end of a line. *)
Lemma remaining_filter c e :
  at_text c (unwords [e]) -> condition e ->
  exists c1, same_but_line c c1 /\
    zt_cli_compile_remaining_filter zero_filter c = (zt_probe_filter_compile (Some e) zero_filter, c1).
Proof.
  intros Ht [Hne He]. destruct (strtok_arg_last 10 c e Ht Hne) as (c1 & H1 & S1 & _).
  { eapply Forall_impl; [exact He|]. by intros x [_ ?]. }
  exists c1. split; [done|]. unfold zt_cli_compile_remaining_filter, bind. by rewrite H1.
Qed.

Lemma update_if_result c t id e :
  at_text c (unwords [e]) -> condition e ->
  result (update_if t id c) = (0, after (compiled e (fun f => zt_trace_update_probe_filter id (Some f))) c).
Proof.
  intros Ht He. destruct (remaining_filter c e Ht He) as (c1 & S1 & H1). unfold update_if, bind at 1. rewrite H1. rebase S1.
  unfold compiled. destruct (zt_probe_filter_compile (Some e) zero_filter) as [rc f]. cbn [fst snd].
  destruct (rc =? 0); cbn [negb]; [lift_and_say|done].
Qed.

Lemma update_clear_result c t id :
  at_text c (unwords []) -> result (update_clear t id c) = (0, after (zt_trace_update_probe_filter id None) c).
Proof.
  intros Ht. destruct (next_arg_none c Ht) as (c1 & H1 & S1). unfold update_clear, bind at 1. rewrite H1. rebase S1. lift_and_say.
Qed.

Lemma update_call_result c t id callee args :
  at_text c (unwords (callee :: map print_arg args)) -> token callee -> callee <> lit "clear" -> Forall arg_ok args ->
  Z.of_nat (length args) <= ZT_CALL_ACTION_ARG_CAP ->
  result (update_call K env_of t id c) =
    (0, after (with_env (cl_image c) (fun E => zt_trace_update_probe_call_action_args K E id callee args)) c).
Proof.
  intros Ht Hc Hne Hargs Hcap. unfold update_call. take_arg Ht Hc c1 S1 T1.
  destruct (call_args_loop_spec (Z.to_nat ZT_CALL_ACTION_ARG_CAP) [] args c1 T1 Hargs) as (c2 & H2 & S2); [lia|done|].
  unfold bind at 1. rewrite H2. cbn [app]. rewrite bool_decide_false by done. unfold bind at 1, E_now, gets.
  pose proof (same_but_line_trans _ _ _ S1 S2) as S3. rebase S3. lift_and_say.
Qed.

Lemma update_call_clear_result c t id :
  at_text c (unwords [lit "clear"]) ->
  result (update_call K env_of t id c) = (0, after (zt_trace_clear_probe_call_action K id) c).
Proof.
  intros Ht. unfold update_call. take_arg Ht (lit_token "clear" eq_refl) c1 S1 T1.
  destruct (call_args_loop_spec (Z.to_nat ZT_CALL_ACTION_ARG_CAP) [] [] c1 T1) as (c2 & H2 & S2); [constructor|cbn; lia|done|].
  unfold bind at 1. rewrite H2. cbn [app length]. rewrite bool_decide_true by done.
  pose proof (same_but_line_trans _ _ _ S1 S2) as S3. rebase S3. lift_and_say.
Qed.

(** The request to the runner behind the words of `trace`. *)
Lemma trace_symbol_result c symbol f :
  result (trace_symbol K TK env_of symbol f c) =
    (0, after (with_env (cl_image c) (fun E => zt_trace_start_filtered_in_session K TK E symbol (g_cli_log_path c)
                 (if flt_enabled f =? 0 then None else Some f))) c).
Proof.
  unfold trace_symbol, bind at 1, E_now, gets, bind at 1.
  replace (if negb (flt_enabled f =? 0) then Some f else None) with (if flt_enabled f =? 0 then None else Some f)
    by (by destruct (flt_enabled f =? 0)).
  apply lift_result; [done|]. intros rc c'. destruct (negb (rc =? 0)); [|apply say_if_result].
  unfold bind at 1, printf, modify. by rewrite reset_log_result.
Qed.

Lemma stop_target_eq c : g_cli_attached c = true -> zt_cli_stop_target TK c = lift (with_threads (zt_injector_interrupt_all TK)) c.
Proof. intros Ha. unfold zt_cli_stop_target, bind, gets. by rewrite Ha. Qed.

(** A running trace, or a new one. *)
Lemma trace_run_result c symbol f :
  g_cli_attached c = true ->
  result ((let* active := trace_is_active in
      let* rc := if active then ret 0 else zt_cli_stop_target TK in
      let* pid := gets cl_pid in
      if negb (rc =? 0) then say (lit "Failed to stop pid " ++ sdec_str pid ++ lit " before tracing")
      else
        let* active := trace_is_active in
        let* rc := if active then ret 0 else build_log_path cwd in
        if negb (rc =? 0) then say (lit "Failed to build trace log path")
        else
          let* _ := if active then ret tt else modify (fun c => cl_set_log (g_cli_log_path c) 0 0 c) in
          trace_symbol K TK env_of symbol f) c) =
    (0, after (start_trace (cl_image c) (g_cli_log_path c) symbol (if flt_enabled f =? 0 then None else Some f)) c).
Proof.
  intros Ha. unfold bind, ret, gets. rewrite trace_is_active_eq. unfold after, start_trace.
  destruct (active (cl_world c)) eqn:Hact.
  { cbn [negb Z.eqb]. rewrite trace_is_active_eq, Hact. cbn [negb Z.eqb]. by rewrite trace_symbol_result. }
  rewrite stop_target_eq by done. unfold lift.
  destruct (with_threads (zt_injector_interrupt_all TK) (cl_world c)) as [rc w] eqn:Ew.
  destruct (rc =? 0); cbn [negb]; [|done]. rewrite trace_is_active_eq. cbn [cl_world cl_set_session].
  replace (active w) with false by (rewrite <- Hact; symmetry; exact (with_threads_active _ _ _ _ Ew)).
  unfold build_log_path, new_log. destruct cwd as [dir|]; [|done]. unfold bind, gets, modify, ret.
  match goal with |- context [PATH_MAX <=? ?n] => rewrite (Z.leb_antisym n PATH_MAX) end.
  change (cl_pid (cl_set_session w (cl_image c) c)) with (ses_pid (w_ses w)).
  destruct (Z.ltb_spec (Z.of_nat (length (dir ++ lit "/ztrace." ++ sdec_str (ses_pid (w_ses w)) ++ lit ".log"))) PATH_MAX)
    as [Hlen|Hlen]; cbn [negb Z.eqb]; [|done].
  rewrite trace_symbol_result. cbn [cl_image g_cli_log_path cl_set_log cl_set_session]. rewrite take_ge by lia. done.
Qed.

Lemma cmd_trace_result c symbol e :
  token symbol ->
  match e with
  | None => at_text c (unwords [symbol])
  | Some e => at_text c (unwords [symbol; lit "if"; e]) /\ condition e
  end ->
  result (cmd_trace K TK env_of cwd None c) = (0, command_effect (Trace symbol e) c).
Proof.
  intros Hs Ht. apply require_attached_result. intros Ha. destruct e as [e|].
  - destruct Ht as [Ht He]. take_arg Ht Hs c1 S1 T1.
    destruct (next_arg_unwords c1 _ _ T1 (lit_token "if" eq_refl)) as (c2 & H2 & S2 & T2).
    destruct (remaining_filter c2 e T2 He) as (c3 & S3 & H3).
    unfold bind at 1, zt_cli_parse_trace_filter, bind at 1. rewrite H2, bool_decide_true by done. cbn [negb]. rewrite H3.
    pose proof (same_but_line_trans _ _ _ S1 (same_but_line_trans _ _ _ S2 S3)) as S4. rebase S4.
    cbn [command_op]. unfold compiled. destruct (zt_probe_filter_compile (Some e) zero_filter) as [rc f]. cbn [fst snd].
    destruct (rc =? 0); cbn [negb]; [exact (trace_run_result (cl_set_line _ _ c) symbol f Ha)|done].
  - take_arg Ht Hs c1 S1 T1. destruct (next_arg_none c1 T1) as (c2 & H2 & S2).
    unfold bind at 1, zt_cli_parse_trace_filter, bind at 1. rewrite H2. cbn [ret fst snd Z.eqb negb].
    pose proof (same_but_line_trans _ _ _ S1 S2) as S3. rebase S3. exact (trace_run_result (cl_set_line _ _ c) symbol zero_filter Ha).
Qed.

Lemma running_result running c (s1 s2 : Z -> cstr) :
  g_cli_attached c = true ->
  result ((let* rc := zt_cli_set_target_running TK running in
           let* pid := gets cl_pid in if negb (rc =? 0) then say (s1 pid) else say (s2 pid)) c) =
    (0, after (command_op (cl_image c) (g_cli_log_path c) (if running then Continue else Stop)) c).
Proof.
  intros Ha. unfold bind at 1, zt_cli_set_target_running, bind at 1. rewrite trace_is_active_eq. unfold after.
  destruct running; cbn [command_op]; destruct (active (cl_world c)); rewrite ?stop_target_eq by done; unfold lift;
    match goal with |- context [snd ?m] => destruct m as [rc w] end; apply say_if_result.
Qed.

Lemma cmd_attach_result c pid :
  at_text c (unwords [dec_str pid]) -> 0 < pid < 2 ^ 31 ->
  result (cmd_attach TK fs None c) = (0, command_effect (Attach pid) c).
Proof.
  intros Ht Hp. assert (Hok : target_ok (ById pid)) by (cbn; lia). unfold cmd_attach.
  take_arg Ht (target_token _ Hok) c1 S1 T1. rewrite strtol_dec by lia. cbn [chr Z.eqb negb orb].
  destruct (Z.leb_spec pid 0); [lia|]. destruct S1 as (l & s & ->). unfold bind at 1 2, gets. cbn [g_cli_attached cl_set_line].
  unfold command_effect. destruct (g_cli_attached c) eqn:Ha; [reflexivity|].
  replace (i32 pid) with pid by (unfold i32, u32; rewrite Z.mod_small by lia; destruct (Z.ltb_spec pid (2 ^ 31)); lia). unfold bind at 1, attach, attached_to. cbn [cl_world cl_set_line].
  destruct (zt_injector_attach TK fs pid (in_k (w_inj (cl_world c)))) as [[[rc ses] im] k].
  destruct (rc =? 0); cbn [negb]; [|by unfold result, seen; cbn; rewrite Ha]. unfold bind at 1, lift. cbn [cl_world cl_set_session].
  destruct (with_threads (zt_injector_continue_all TK) _) as [rc2 w2]. unfold bind at 1, gets.
  destruct (rc2 =? 0); cbn [negb]; [done|]. unfold bind, printf, modify, detach, detached. cbn [cl_world cl_set_session].
  by destruct (with_threads _ w2).
Qed.

Lemma detach_seen c : seen (snd (detach TK c)) = detached (cl_world c).
Proof. unfold detach, detached. by destruct (with_threads _ (cl_world c)). Qed.

Lemma cmd_exit_result c cmd : leaves cmd = true -> result (cmd_exit TK None c) = (1, command_effect cmd c).
Proof.
  intros Hl. unfold result, cmd_exit, bind, gets, command_effect. destruct (g_cli_attached c) eqn:Ha.
  - pose proof (detach_seen c) as Hd. destruct (detach TK c) as [[] c']. cbn in *. rewrite Hd. by destruct cmd.
  - by destruct cmd.
Qed.

Lemma cmd_detach_result c : result (cmd_detach TK None c) = (0, command_effect Detach c).
Proof.
  apply require_attached_result. intros Ha. unfold bind at 1. pose proof (detach_seen c) as Hd.
  destruct (detach TK c) as [[] c']. cbn in *. by rewrite <- Hd.
Qed.

(** A word that may be there is read, and only messages follow. *)
Lemma option_word_result c w (k : option cstr -> C Z) :
  at_text c (unwords (option_list w)) -> match w with Some w => token w | None => True end ->
  (forall o c, result (k o c) = (0, seen c)) -> result ((let* o := zt_next_arg None in k o) c) = (0, seen c).
Proof.
  intros Ht Hw Hk. unfold bind at 1. destruct w as [w|]; cbn [option_list] in Ht.
  - destruct (next_arg_unwords c w [] Ht Hw) as (c1 & -> & (l & s & ->) & _). by rewrite Hk.
  - destruct (next_arg_none c Ht) as (c1 & -> & (l & s & ->)). by rewrite Hk.
Qed.

Lemma cmd_help_result c w :
  at_text c (unwords (option_list w)) -> match w with Some w => token w | None => True end ->
  result (cmd_help None c) = (0, command_effect (Help w) c).
Proof.
  intros Ht Hw. transitivity (0, seen c); [|unfold command_effect; by destruct (g_cli_attached c) eqn:E].
  apply (option_word_result c w); [done|done|]. intros [o|] c'; [|done]. by destruct (List.find _ _).
Qed.

Lemma cmd_info_result c w :
  at_text c (unwords (option_list w)) -> match w with Some w => token w | None => True end ->
  result (cmd_info None c) = (0, command_effect (Info w) c).
Proof.
  intros Ht Hw. apply require_attached_result. intros _. apply (option_word_result c w); [done|done|].
  intros [o|] c'; unfold bind at 1, gets; [|done]. by repeat case_bool_decide.
Qed.

(** ** A printed command is carried out *)

Lemma condition_nul_free e : condition e -> nul_free e.
Proof. intros [_ He]. eapply Forall_impl; [exact He|]. by intros x [? _]. Qed.

Lemma word_nul_free w rest : token w -> nul_free rest -> nul_free (w ++ 32 :: rest).
Proof. intros Hw Hrest. apply Forall_app. split; [by apply token_nul_free|by constructor]. Qed.

Lemma call_line_nul_free t callee args :
  target_ok t -> token callee -> Forall arg_ok args ->
  nul_free (unwords (print_target t :: lit "call" :: callee :: map print_arg args)).
Proof.
  intros Ht Hc Ha. apply unwords_nul_free. repeat (constructor; [by eauto using target_token, lit_token|]).
  apply Forall_map. eapply Forall_impl; [exact Ha|]. apply arg_token.
Qed.

Lemma option_nul_free w : match w with Some w => token w | None => True end -> nul_free (unwords (option_list w)).
Proof. destruct w; [apply token_nul_free|]. constructor. Qed.

Create HintDb cli.
#[local] Hint Resolve condition_nul_free token_nul_free target_token lit_token call_line_nul_free option_nul_free : cli.
#[local] Hint Extern 3 (nul_free (_ ++ 32 :: _)) => apply word_nul_free : cli.
#[local] Hint Extern 3 (token (lit _)) => apply lit_token; reflexivity : cli.
#[local] Hint Extern 3 (nul_free []) => constructor : cli.
#[local] Hint Extern 3 (nul_free (dec_str ?id)) => apply (token_nul_free (print_target (ById id))) : cli.

(** The command's name is read, its handler runs. *)
Ltac run_command c c1 T1 :=
  eapply run_command_words;
    [by apply lit_token|solve [auto with cli|cbn [unwords]; auto with cli]|reflexivity|
     let l := fresh "l" in let s := fresh "s" in intros ? (l & s & ->) T1; pose (c1 := cl_set_line l s c)].

(** C39: a command of the shell's table, printed as a line and entered in any state,
    attached or not, tracing or not, does what the command names and nothing else to the
    tracer, the target's image and the attachment: `attach` and `detach` open and end the
    session; `trace` extends the trace or, as the first one, stops the target and starts it
    with the log ztrace.<pid>.log; `enable`, `disable`, `untrace` and `update` run the
    runner's operation on the probe with the id or symbol given (the callee, arguments and
    condition as given, nothing if there is no such probe or the condition does not
    compile); `disable all` disables what is installed; `stop` and `continue` act on the
    trace or on the bare target; `info` and `help` change nothing; without a target only
    `attach` acts; and only `exit` and `quit` leave the loop.  Symbols that start like a
    number are outside: the shell takes them for ids. *)
Theorem run_line_command c cmd :
  command_ok cmd ->
  fst (run_line K TK fs env_of cwd (print_command cmd) c) = leaves cmd /\
  seen (snd (run_line K TK fs env_of cwd (print_command cmd) c)) = command_effect cmd c.
Proof.
  intros Hok. unfold print_command.
  destruct cmd as [w| | |pid| |s [e|]| |t|t| |t e|t|t callee args|t|t|w|]; cbn [command_ok command_words leaves] in *;
    try match type of Hok with _ /\ _ => destruct Hok as [Ht Hok] end.
  - run_command c c1 T1. exact (cmd_help_result c1 w T1 Hok).
  - run_command c c1 T1. exact (cmd_exit_result c1 Exit eq_refl).
  - run_command c c1 T1. exact (cmd_exit_result c1 Quit eq_refl).
  - assert (target_ok (ById pid)) by (cbn; lia). run_command c c1 T1. exact (cmd_attach_result c1 pid T1 (conj Ht Hok)).
  - run_command c c1 T1. exact (cmd_detach_result c1).
  - run_command c c1 T1. exact (cmd_trace_result c1 s (Some e) Ht (conj T1 Hok)).
  - run_command c c1 T1. exact (cmd_trace_result c1 s None Hok T1).
  - run_command c c1 T1. apply (require_attached_result _ c1). apply (running_result false c1).
  - run_command c c1 T1. exact (cmd_enable_result c1 t T1 Hok).
  - run_command c c1 T1. exact (cmd_disable_result c1 t T1 Ht Hok).
  - run_command c c1 T1. exact (cmd_disable_all_result c1 T1).
  - run_command c c1 T1.
    apply (cmd_update_mode c1 t (lit "if") [e] (fun id => compiled e (fun f => zt_trace_update_probe_filter id (Some f))));
      [done|done|by apply lit_token|]. intros c2 id _ T2. by apply update_if_result.
  - run_command c c1 T1. apply (cmd_update_mode c1 t (lit "clear") [] (fun id => zt_trace_update_probe_filter id None));
      [done|done|by apply lit_token|]. intros c2 id _ T2. by apply update_clear_result.
  - destruct Hok as ([Hc Hne] & Hargs & Hcap). run_command c c1 T1.
    apply (cmd_update_mode c1 t (lit "call") (callee :: map print_arg args)
      (fun id => with_env (cl_image c1) (fun E => zt_trace_update_probe_call_action_args K E id callee args)));
      [done|done|by apply lit_token|]. intros c2 id (l2 & s2 & ->) T2. by apply (update_call_result (cl_set_line l2 s2 c1)).
  - run_command c c1 T1. apply (cmd_update_mode c1 t (lit "call") [lit "clear"] (zt_trace_clear_probe_call_action K));
      [done|done|by apply lit_token|]. intros c2 id _ T2. by apply update_call_clear_result.
  - run_command c c1 T1. exact (cmd_untrace_result c1 t T1 Hok).
  - run_command c c1 T1. exact (cmd_info_result c1 w T1 Hok).
  - run_command c c1 T1. apply (require_attached_result _ c1). apply (running_result true c1).
Qed.
End commands.
