(* ===== verification/LogText.v ===== *)
(** * The text of the log (src/zt_trace_runner.c)

    The lines Reader writes as values, as the bytes of the log file: the prefix with
    thread, cpu and time, the raw forms of entries, returns and call records, and
    the markers of losses.  Every number of a line can be read back from it. *)

From S2P Require Import Prelude CLib Types Payload SigConf SigFormat SigFormatSpec MapsSpec CliSpec Reader TraceRunner.

(** ** printf *)

(** The conversions the log uses: text, "%llx" and "%llu" with a width and a fill character. *)
Inductive fmt :=
| FLit (s : cstr)
| FHex
| FDec (width : nat) (fill : Z).

Definition pad (width : nat) (fill : Z) (s : cstr) : cstr := replicate (width - length s) fill ++ s.

Fixpoint printf (f : list fmt) (vals : list Z) : cstr :=
  match f, vals with
  | FLit s :: f, _ => s ++ printf f vals
  | FHex :: f, v :: vals => hex_aux 16 v [] ++ printf f vals
  | FDec n c :: f, v :: vals => pad n c (dec_str v) ++ printf f vals
  | _, _ => []
  end.

(** Reading a line by its format. *)
Fixpoint strip_prefix (s p : cstr) : option cstr :=
  match s, p with
  | [], _ => Some p
  | c :: s, d :: p => if c =? d then strip_prefix s p else None
  | _, [] => None
  end.

Fixpoint scan_line (f : list fmt) (p : cstr) : option (list Z) :=
  match f with
  | [] => if bool_decide (p = []) then Some [] else None
  | FLit s :: f => match strip_prefix s p with Some p => scan_line f p | None => None end
  | FHex :: f => let '(v, p) := strto_digits 16 0 p in cons v <$> scan_line f p
  | FDec _ _ :: f => let '(v, p) := strto_digits 10 0 (skip_while isspace p) in cons v <$> scan_line f p
  end.

Definition numbers (f : list fmt) : nat := length (List.filter (fun x => match x with FLit _ => false | _ => true end) f).

(** A number ends where a character follows that is no digit. *)
Definition ends (base : Z) (f : list fmt) : bool :=
  match f with FLit (c :: _) :: _ => bool_decide (digit_in base c = None) | _ => false end.

Fixpoint readable (f : list fmt) : bool :=
  match f with
  | [] => true
  | FLit _ :: f => readable f
  | FHex :: f => ends 16 f && readable f
  | FDec _ c :: f => ((c =? 48) || (c =? 32)) && ends 10 f && readable f
  end.

Lemma strip_prefix_app s p : strip_prefix s (s ++ p) = Some p.
Proof. induction s as [|c s IH]; [by destruct p|]. cbn. by rewrite Z.eqb_refl. Qed.

Lemma ends_printf base f vals : ends base f = true -> digit_in base (chr (printf f vals)) = None.
Proof. destruct f as [|[[|c s]| |] f]; try done. cbn. by intros ?%bool_decide_eq_true. Qed.

(** Leading blanks and zeros do not change the number. *)
Lemma skip_blanks n p : skip_while isspace (replicate n 32 ++ p) = skip_while isspace p.
Proof. by induction n as [|n IH]. Qed.

Lemma strto_zeros n p : strto_digits 10 0 (replicate n 48 ++ p) = strto_digits 10 0 p.
Proof. by induction n as [|n IH]. Qed.

Lemma skip_digits p : isdigit (chr p) = true -> skip_while isspace p = p.
Proof.
  destruct p as [|c p]; [done|]. cbn [chr skip_while]. intros H. destruct (isspace c) eqn:Hs; [|done].
  unfold isdigit, isspace in *. zbool. lia.
Qed.

Lemma scan_dec n c v r :
  is_u64 v -> c = 48 \/ c = 32 -> digit_in 10 (chr r) = None ->
  strto_digits 10 0 (skip_while isspace (pad n c (dec_str v) ++ r)) = (v, r).
Proof.
  intros Hv Hc Hr. destruct (dec_str_spec v Hv) as (Hne & Hd & _ & _ & Hs). unfold pad. rewrite <- app_assoc.
  assert (Hfirst : isdigit (chr (dec_str v ++ r)) = true) by (destruct (dec_str v); [done|by inversion Hd]).
  destruct Hc as [-> | ->].
  - rewrite skip_digits, strto_zeros, Hs by (by destruct (n - length (dec_str v))%nat). by apply strto_digits_stop.
  - rewrite skip_blanks, skip_digits, Hs by done. by apply strto_digits_stop.
Qed.

Lemma scan_hex v r : is_u64 v -> digit_in 16 (chr r) = None -> strto_digits 16 0 (hex_aux 16 v [] ++ r) = (v, r).
Proof.
  intros Hv Hr. unfold is_u64 in Hv. destruct (hex_aux_spec 16 v []) as (ds & -> & _ & Hs).
  { change (16 ^ Z.of_nat 16) with (2 ^ 64). lia. }
  rewrite app_nil_r, Hs. cbn [Z.mul]. by apply strto_digits_stop.
Qed.

(** printf and back. *)
Lemma scan_printf f vals :
  readable f = true -> Forall is_u64 vals -> length vals = numbers f -> scan_line f (printf f vals) = Some vals.
Proof.
  revert vals. induction f as [|x f IH]; intros vals Hf Hv Hl.
  - by destruct vals.
  - destruct x as [s| |n c].
    + cbn. rewrite strip_prefix_app. by apply IH.
    + destruct vals as [|v vals]; [done|]. apply Forall_cons in Hv as [Hv Hvs]. cbn in Hf. apply andb_prop in Hf as [He Hf].
      cbn [printf scan_line]. rewrite scan_hex by (done || by apply ends_printf). rewrite IH; [done|done|done|by injection Hl].
    + destruct vals as [|v vals]; [done|]. apply Forall_cons in Hv as [Hv Hvs]. cbn in Hf.
      apply andb_prop in Hf as [[Hc He]%andb_prop Hf]. apply orb_prop in Hc. rewrite !Z.eqb_eq in Hc.
      cbn [printf scan_line]. rewrite scan_dec by (done || by apply ends_printf). rewrite IH; [done|done|done|by injection Hl].
Qed.

Lemma printf_app f g vs ws : length vs = numbers f -> printf (f ++ g) (vs ++ ws) = printf f vs ++ printf g ws.
Proof.
  revert vs. induction f as [|x f IH]; intros vs Hl; [by destruct vs|].
  destruct x as [s| |n c]; cbn [app printf]; [by rewrite IH, app_assoc|..];
    (destruct vs as [|v vs]; [done|]); cbn [app]; rewrite IH, app_assoc by (by injection Hl); done.
Qed.

Lemma numbers_app f g : numbers (f ++ g) = (numbers f + numbers g)%nat.
Proof. unfold numbers. by rewrite List.filter_app, length_app. Qed.

(** ** Lines *)

(** [exe_path] behind its last slash. *)
Fixpoint after_last (c : Z) (s : cstr) : option cstr :=
  match s with
  | [] => None
  | d :: s => match after_last c s with Some r => Some r | None => if d =? c then Some s else None end
  end.

Definition zt_trace_session_comm (exe_path : cstr) : cstr :=
  match after_last 47 exe_path with Some comm => comm | None => exe_path end.

(** snprintf at the end of a buffer of [size]: cut off once the text does not fit. *)
Fixpoint event_args_loop (size i : Z) (args : list Z) (buffer : cstr) : cstr :=
  match args with
  | [] => buffer
  | a :: args =>
      let text := (if i =? 0 then [] else lit ", ") ++ hex_str a in
      if size - Z.of_nat (length buffer) <=? Z.of_nat (length text) then take (Z.to_nat (size - 1)) (buffer ++ text)
      else event_args_loop size (i + 1) args (buffer ++ text)
  end.

(** The recorded arguments of a call record: call_arg_count is value2, call_args
    the prefix of fp_args. *)
Definition recorded_args (event : zt_trace_event_t) : list Z :=
  take (Z.to_nat (Z.min (arr_get (ev_args event) 2) ZT_CALL_ACTION_ARG_CAP)) (ev_fp_args event).

Definition zt_format_call_args (event : zt_trace_event_t) (buffer_size : Z) : cstr :=
  if buffer_size =? 0 then [] else event_args_loop buffer_size 0 (recorded_args event) [].

Section lines.
(** The session: its name and pid, the probes and the names of callees; the text of
    zt_format_trace_event_with_sig. *)
Context (comm : cstr) (pid : Z) (probes : list zt_probe_info_t) (call_symbols : list zt_call_symbol_cache_entry_t).
Context (sig_text : zt_probe_info_t -> option zt_trace_event_t -> zt_trace_event_t -> cstr).

Definition prefix_fmt (kind : cstr) : list fmt :=
  [FLit (comm ++ lit "-" ++ sdec_str pid ++ lit "/"); FDec 0 32; FLit (lit " ["); FDec 3 48; FLit (lit "] "); FDec 5 32;
   FLit (lit "."); FDec 9 48; FLit (lit ": ztrace:" ++ kind ++ lit ": ")].

Definition prefix_vals (event : zt_trace_event_t) : list Z :=
  [ev_tid event; ev_cpu_id event; ev_timestamp_ns event / NSEC_PER_SEC; ev_timestamp_ns event mod NSEC_PER_SEC].

Definition zt_trace_print_event_prefix (event : zt_trace_event_t) (kind : cstr) : cstr :=
  printf (prefix_fmt kind) (prefix_vals event).

Definition symbol_name (event : zt_trace_event_t) : cstr :=
  match zt_probe_find_by_id probes (ev_probe_id event) with Some p => tgt_symbol (pr_target p) | None => lit "<unknown>" end.

Definition callee_name (event : zt_trace_event_t) : cstr :=
  let callee := arr_get (ev_args event) 0 in
  match zt_trace_find_call_symbol call_symbols callee with
  | Some name => name
  | None =>
      match zt_probe_find_by_id probes (ev_probe_id event) with
      | Some p =>
          if truthy (act_enabled (pr_call_action p)) && (act_callee_addr (pr_call_action p) =? callee) &&
             negb (bool_decide (pr_call_symbol p = []))
          then pr_call_symbol p else lit "<unknown>"
      | None => lit "<unknown>"
      end
  end.

Definition call_fmt (event : zt_trace_event_t) : list fmt :=
  [FLit (symbol_name event ++ lit " => " ++ callee_name event ++ lit "(" ++ zt_format_call_args event 160 ++ lit ") -> 0x");
   FHex; FLit (lit " callee=0x"); FHex; FLit [10]].

Definition entry_fmt (event : zt_trace_event_t) : list fmt :=
  [FLit (symbol_name event ++ lit "(arg0=0x"); FHex; FLit (lit ", arg1=0x"); FHex; FLit (lit ", arg2=0x"); FHex;
   FLit (lit ", arg3=0x"); FHex; FLit (lit ", arg4=0x"); FHex; FLit (lit ", arg5=0x"); FHex; FLit (lit ")" ++ [10])].

Definition return_fmt (event : zt_trace_event_t) : list fmt :=
  [FLit (symbol_name event ++ lit " -> 0x"); FHex; FLit [10]].

Definition event_fmt (event : zt_trace_event_t) : list fmt :=
  [FLit (symbol_name event ++ lit " type="); FDec 0 32; FLit (lit " seq="); FDec 0 32; FLit [10]].

Definition lost_fmt : list fmt :=
  [FLit (comm ++ lit "-" ++ sdec_str pid ++ lit " [---] ztrace:lost: dropped "); FDec 0 32; FLit (lit " events starting at seq=");
   FDec 0 32; FLit (lit " (write_seq="); FDec 0 32; FLit (lit " capacity="); FDec 0 32; FLit (lit ")" ++ [10])].

(** What each line of Reader's log is in the file. *)
Definition line_text (l : out_line) : cstr :=
  match l with
  | OCall e =>
      zt_trace_print_event_prefix e (lit "call") ++ printf (call_fmt e) [arr_get (ev_args e) 1; arr_get (ev_args e) 0]
  | OSig e entry =>
      zt_trace_print_event_prefix e (if ev_event_type e =? ZT_TRACE_EVENT_RETURN then lit "return" else lit "entry") ++
      match zt_probe_find_by_id probes (ev_probe_id e) with Some p => sig_text p entry e | None => [] end
  | OEntry e => zt_trace_print_event_prefix e (lit "entry") ++ printf (entry_fmt e) (take 6 (ev_args e))
  | OReturn e => zt_trace_print_event_prefix e (lit "return") ++ printf (return_fmt e) [arr_get (ev_args e) 0]
  | OEvent e seq => zt_trace_print_event_prefix e (lit "event") ++ printf (event_fmt e) [ev_event_type e; seq]
  | OLost first_lost lost_count write_seq =>
      printf lost_fmt [lost_count; first_lost; write_seq; ZT_TRACE_EVENT_CAPACITY]
  | OBadMagic => lit "trace buffer magic mismatch" ++ [10]
  end.

(** ** Reading lines back *)

(** The arguments of a call record as numbers. *)
Fixpoint args_fmt (first : bool) (args : list Z) : list fmt :=
  match args with
  | [] => []
  | _ :: args => FLit (if first then lit "0x" else lit ", 0x") :: FHex :: args_fmt false args
  end.

Definition call_line_fmt (e : zt_trace_event_t) : list fmt :=
  [FLit (symbol_name e ++ lit " => " ++ callee_name e ++ lit "(")] ++ args_fmt true (recorded_args e) ++
  [FLit (lit ") -> 0x"); FHex; FLit (lit " callee=0x"); FHex; FLit [10]].

(** The format and the numbers of the lines that are not written by a signature. *)
Definition line_fmt (l : out_line) : list fmt :=
  match l with
  | OCall e => prefix_fmt (lit "call") ++ call_line_fmt e
  | OSig e _ => []
  | OEntry e => prefix_fmt (lit "entry") ++ entry_fmt e
  | OReturn e => prefix_fmt (lit "return") ++ return_fmt e
  | OEvent e _ => prefix_fmt (lit "event") ++ event_fmt e
  | OLost _ _ _ => lost_fmt
  | OBadMagic => [FLit (lit "trace buffer magic mismatch" ++ [10])]
  end.

(** Thread, cpu, and the time in seconds and nanoseconds. *)
Definition stamp (e : zt_trace_event_t) : list Z :=
  [ev_tid e; ev_cpu_id e; ev_timestamp_ns e / 1000000000; ev_timestamp_ns e mod 1000000000].

Definition line_vals (l : out_line) : list Z :=
  match l with
  | OCall e => stamp e ++ recorded_args e ++ [arr_get (ev_args e) 1; arr_get (ev_args e) 0]
  | OSig e _ => []
  | OEntry e => stamp e ++ ev_args e
  | OReturn e => stamp e ++ [arr_get (ev_args e) 0]
  | OEvent e seq => stamp e ++ [ev_event_type e; seq]
  | OLost first_lost lost_count write_seq => [lost_count; first_lost; write_seq; ZT_TRACE_EVENT_CAPACITY]
  | OBadMagic => []
  end.

(** An event as the struct holds it. *)
Record event_ok (e : zt_trace_event_t) : Prop := {
  ek_head : Forall is_u64 [ev_event_type e; ev_timestamp_ns e; ev_tid e; ev_cpu_id e];
  ek_args : Forall is_u64 (ev_args e);
  ek_fp_args : Forall is_u64 (ev_fp_args e);
  ek_len : length (ev_args e) = 6%nat
}.

Definition line_ok (l : out_line) : Prop :=
  match l with
  | OCall e | OEntry e | OReturn e => event_ok e
  | OSig _ _ => False
  | OEvent e seq => event_ok e /\ is_u64 seq
  | OLost a b c => is_u64 a /\ is_u64 b /\ is_u64 c
  | OBadMagic => True
  end.

(** The buffer of 160 bytes holds every argument list: six arguments of at most twenty
    characters each. *)
Lemma event_args_loop_fits i args buffer :
  0 <= i -> Z.of_nat (length buffer + 20 * length args) < 160 ->
  event_args_loop 160 i args buffer = buffer ++ printf (args_fmt (i =? 0) args) args.
Proof.
  revert i buffer. induction args as [|a args IH]; intros i buffer Hi Hl; [by rewrite app_nil_r|].
  cbn [event_args_loop args_fmt printf length] in *. set (text := (if i =? 0 then [] else lit ", ") ++ hex_str a).
  assert (Ht : text = (if i =? 0 then lit "0x" else lit ", 0x") ++ hex_aux 16 a []) by (unfold text, hex_str; by destruct (i =? 0)).
  assert (Hlen : (length text <= 20)%nat).
  { rewrite Ht, length_app. pose proof (length_hex_aux 16 a []). destruct (i =? 0); cbn in *; lia. }
  destruct (Z.leb_spec (160 - Z.of_nat (length buffer)) (Z.of_nat (length text))); [lia|].
  rewrite IH by (rewrite ?length_app; lia). destruct (Z.eqb_spec (i + 1) 0); [lia|]. by rewrite Ht, <- !app_assoc.
Qed.

Lemma format_call_args_text e : zt_format_call_args e 160 = printf (args_fmt true (recorded_args e)) (recorded_args e).
Proof.
  unfold zt_format_call_args. cbn [Z.eqb]. rewrite event_args_loop_fits; [done|lia|]. unfold recorded_args.
  rewrite length_take. unfold ZT_CALL_ACTION_ARG_CAP, ZT_TRACE_GP_ARG_COUNT. cbn [length]. lia.
Qed.

Lemma numbers_args first args : numbers (args_fmt first args) = length args.
Proof. revert first. induction args as [|a args IH]; intros first; [done|]. cbn. f_equal. apply (IH false). Qed.

Lemma readable_args first args f : ends 16 f = true -> readable f = true -> readable (args_fmt first args ++ f) = true.
Proof.
  intros He Hf. revert first. induction args as [|a args IH]; intros first; [done|]. cbn [args_fmt app readable].
  rewrite (IH false). destruct args; [cbn [args_fmt app]; by rewrite He|done].
Qed.

Lemma prefix_ok e : event_ok e -> Forall is_u64 (stamp e).
Proof.
  intros [Hh _ _ _]. rewrite !Forall_cons in Hh. destruct Hh as (_ & Ht & H1 & H2 & _). unfold is_u64 in Ht.
  repeat constructor; try apply H1; try apply H2; try (apply Z.div_pos; lia);
    try (apply Z.mod_pos_bound; lia); [apply Z.div_lt_upper_bound; lia|].
  etransitivity; [by apply Z.mod_pos_bound|lia].
Qed.

Lemma event_arg e i : event_ok e -> 0 <= i < 6 -> is_u64 (arr_get (ev_args e) i).
Proof.
  intros [_ Ha _ Hl] Hi. rewrite Forall_forall in Ha. apply Ha. unfold arr_get.
  destruct (lookup_lt_is_Some_2 (ev_args e) (Z.to_nat i)) as [v Hv]; [lia|].
  rewrite (list_lookup_total_correct _ _ _ Hv). by eapply list_elem_of_lookup_2.
Qed.

(** Every line that is not written by a signature is the format filled with the numbers. *)
Lemma line_text_printf l : line_ok l -> line_text l = printf (line_fmt l) (line_vals l).
Proof.
  destruct l as [e|e m|e|e|e seq|a b c|]; intros Hok; try done; cbn [line_text line_fmt line_vals];
    unfold zt_trace_print_event_prefix; rewrite printf_app by done; f_equal.
  - unfold call_line_fmt. change (recorded_args e ++ ?l) with ([] ++ recorded_args e ++ l). rewrite !printf_app by (done || by rewrite numbers_args).
    unfold call_fmt. cbn [printf]. rewrite format_call_args_text. rewrite <- !app_assoc. done.
  - destruct Hok as [_ _ _ Hl]. by rewrite take_ge by lia.
Qed.

Lemma line_shape l :
  line_ok l -> readable (line_fmt l) = true /\ Forall is_u64 (line_vals l) /\ length (line_vals l) = numbers (line_fmt l).
Proof.
  destruct l as [e|e m|e|e|e seq|a b c|]; intros Hok; try done; cbn [line_fmt line_vals].
  - split_and!.
    + cbn [prefix_fmt call_line_fmt app readable]. rewrite readable_args by done. done.
    + rewrite !Forall_app. split_and!; [by apply prefix_ok|by apply Forall_take, Hok|]. repeat constructor; by apply event_arg.
    + rewrite !length_app. unfold call_line_fmt. rewrite !numbers_app, numbers_args. cbn. lia.
  - split_and!; [done|apply Forall_app; split; [by apply prefix_ok|apply Hok]|]. rewrite length_app, (ek_len _ Hok). done.
  - split_and!; [done|apply Forall_app; split; [by apply prefix_ok|]|done]. repeat constructor; by apply event_arg.
  - destruct Hok as [Hok Hs]. split_and!; [done|apply Forall_app; split; [by apply prefix_ok|]|done].
    pose proof (ek_head _ Hok) as Hh. apply Forall_cons in Hh as [Ht _]. rewrite !Forall_cons. by split_and!.
  - destruct Hok as (H1 & H2 & H3). split_and!; [done| |done]. rewrite !Forall_cons. by split_and!.
Qed.

(** C40: a line of the log, other than one written by a signature, can be read back: scanning
    the text by the line's format gives the thread, the cpu, the time and every value of
    the record, or the numbers of a loss. *)
Theorem log_line_read_back l : line_ok l -> scan_line (line_fmt l) (line_text l) = Some (line_vals l).
Proof.
  intros Hok. rewrite line_text_printf by done. destruct (line_shape l Hok) as (H1 & H2 & H3). by apply scan_printf.
Qed.
End lines.

(** A call record of thread 77 on cpu 3 after 1.000000005 seconds: the callee took 1 and 2 and
    returned 255. *)
Definition sample_call_event : zt_trace_event_t := mk_event 1 7 ZT_TRACE_EVENT_CALL 1 1000000005 77 3 [0x401000; 255; 2; 0; 0; 0] [1; 2; 0; 0; 0; 0; 0; 0].

(** C40 at this record. *)
Lemma log_line_read_back_witness :
  let l := OCall sample_call_event in
  line_text (lit "t") 42 [] [] (fun _ _ _ => []) l =
    lit "t-42/77 [003]     1.000000005: ztrace:call: <unknown> => <unknown>(0x1, 0x2) -> 0xff callee=0x401000" ++ [10] /\
  scan_line (line_fmt (lit "t") 42 [] [] l) (line_text (lit "t") 42 [] [] (fun _ _ _ => []) l) =
    Some [77; 3; 1; 5; 1; 2; 255; 0x401000].
Proof.
  intros l. split; [vm_compute; reflexivity|].
  apply (log_line_read_back (lit "t") 42 [] [] (fun _ _ _ => []) l).
  constructor; [repeat constructor; discriminate..|reflexivity].
Defined.
