(* ===== verification/CliInv.v ===== *)
(** * The shell keeps the invariant

    Whatever is typed, whatever the target does and whatever fails: in every state of
    the shell the tracer's invariant holds, and without a target there are no probes. *)

From stdpp Require Import relations.
From S2P Require Import Prelude CLib Types Reader RemoteMem RemoteMemSpec A64Build Arch Threads ThreadsSpec Probes ProbesSpec Pool SigConf SigFormat Filter Symbols MapsSpec TraceRunner TraceSample TableInv TraceInv Cli.
#[local] Open Scope Z_scope.

(** ** The invariant *)

Definition empty_probes : list zt_probe_info_t := replicate (Z.to_nat ZT_PROBES_CAPACITY) zero_probe.

Record shell_inv (fresh : bool) (c : cli_t) : Prop := {
  si_world : world_inv fresh (cl_world c);
  si_detached : g_cli_attached c = false -> w_probes (cl_world c) = empty_probes
}.

(** A computation of the shell that keeps the invariant, and one that may register a probe;
    both start with a target attached, or leave the table alone. *)
Definition keeps_shell {A} (m : C A) : Prop := forall b c, shell_inv b c -> shell_inv b (snd (m c)).
Definition installs_shell {A} (m : C A) : Prop := forall c, shell_inv true c -> shell_inv false (snd (m c)).

(** With a target attached. *)
Definition keeps_attached {A} (m : C A) : Prop := forall b c,
  world_inv b (cl_world c) -> g_cli_attached c = true ->
  world_inv b (cl_world (snd (m c))) /\ g_cli_attached (snd (m c)) = true.
Definition installs_attached {A} (m : C A) : Prop := forall c,
  world_inv true (cl_world c) -> g_cli_attached c = true ->
  world_inv false (cl_world (snd (m c))) /\ g_cli_attached (snd (m c)) = true.

Lemma shell_weaken b c : shell_inv b c -> shell_inv false c.
Proof. intros [Hw Hd]. constructor; [by eapply inv_weaken|done]. Qed.

Section calculus.
Context {A B : Type}.

Lemma keeps_shell_bind (m : C A) (k : A -> C B) : keeps_shell m -> (forall a, keeps_shell (k a)) -> keeps_shell (bind m k).
Proof. intros Hm Hk b c Hc. unfold bind. specialize (Hm b c Hc). destruct (m c) as [a c1]. by apply Hk. Qed.

Lemma installs_shell_after (m : C A) (k : A -> C B) :
  keeps_shell m -> (forall a, installs_shell (k a)) -> installs_shell (bind m k).
Proof. intros Hm Hk c Hc. unfold bind. specialize (Hm true c Hc). destruct (m c) as [a c1]. by apply Hk. Qed.

Lemma installs_shell_before (m : C A) (k : A -> C B) :
  installs_shell m -> (forall a, keeps_shell (k a)) -> installs_shell (bind m k).
Proof. intros Hm Hk c Hc. unfold bind. specialize (Hm c Hc). destruct (m c) as [a c1]. by apply Hk. Qed.

Lemma keeps_attached_bind (m : C A) (k : A -> C B) :
  keeps_attached m -> (forall a, keeps_attached (k a)) -> keeps_attached (bind m k).
Proof.
  intros Hm Hk b c Hw Ha. unfold bind. destruct (Hm b c Hw Ha) as [Hw1 Ha1]. destruct (m c) as [a c1]. by apply Hk.
Qed.

Lemma installs_attached_after (m : C A) (k : A -> C B) :
  keeps_attached m -> (forall a, installs_attached (k a)) -> installs_attached (bind m k).
Proof.
  intros Hm Hk c Hw Ha. unfold bind. destruct (Hm true c Hw Ha) as [Hw1 Ha1]. destruct (m c) as [a c1]. by apply Hk.
Qed.

Lemma installs_attached_before (m : C A) (k : A -> C B) :
  installs_attached m -> (forall a, keeps_attached (k a)) -> installs_attached (bind m k).
Proof.
  intros Hm Hk c Hw Ha. unfold bind. destruct (Hm c Hw Ha) as [Hw1 Ha1]. destruct (m c) as [a c1]. by apply Hk.
Qed.

Lemma keeps_attached_installs (m : C A) : keeps_attached m -> installs_attached m.
Proof. intros Hm c Hw Ha. destruct (Hm true c Hw Ha). split; [by eapply inv_weaken|done]. Qed.

(** Not touching the tracer. *)
Definition quiet (m : C A) : Prop := forall c, cl_world (snd (m c)) = cl_world c /\ g_cli_attached (snd (m c)) = g_cli_attached c.

Lemma quiet_attached (m : C A) : quiet m -> keeps_attached m.
Proof. intros Hq b c Hw Ha. destruct (Hq c) as [-> ->]. done. Qed.

Lemma quiet_shell (m : C A) : quiet m -> keeps_shell m.
Proof. intros Hq b c [Hw Hd]. destruct (Hq c) as [E1 E2]. constructor; rewrite E1; [done|]. by rewrite E2. Qed.

Lemma lift_attached (m : M A) : keeps m -> keeps_attached (lift m).
Proof. intros Hm b c Hw Ha. unfold lift. specialize (Hm b (cl_world c) Hw). by destruct (m (cl_world c)). Qed.

Lemma lift_installs (m : M A) : installs m -> installs_attached (lift m).
Proof. intros Hm c Hw Ha. unfold lift. specialize (Hm (cl_world c) Hw). by destruct (m (cl_world c)). Qed.
End calculus.

Lemma quiet_ret {A} (a : A) : quiet (ret a).
Proof. done. Qed.
Lemma quiet_gets {A} (f : cli_t -> A) : quiet (gets f).
Proof. done. Qed.
Lemma quiet_printf s : quiet (printf s).
Proof. done. Qed.
Lemma quiet_say s : quiet (say s).
Proof. done. Qed.
Lemma quiet_reset : quiet zt_cli_reset_log_state.
Proof. done. Qed.
Lemma quiet_strtok d p : quiet (strtok_arg d p).
Proof. intros c. unfold strtok_arg. by destruct (strtok d (cl_line c) _) as [[[? ?] ?]|]. Qed.
Lemma quiet_active : quiet trace_is_active.
Proof. done. Qed.
Lemma quiet_set_log f g h : quiet (modify (fun c => cl_set_log (f c) (g c) (h c) c)).
Proof. done. Qed.
Lemma quiet_set_line l s : quiet (modify (cl_set_line l s)).
Proof. done. Qed.

Create HintDb shell.
#[export] Hint Resolve quiet_ret quiet_gets quiet_printf quiet_say quiet_reset quiet_strtok quiet_active quiet_set_log
  quiet_set_line quiet_attached quiet_shell lift_attached : shell.

Ltac shell_step :=
  match goal with
  | |- forall _, _ => intros ?
  | |- keeps_attached (bind _ _) => apply keeps_attached_bind
  | |- keeps_shell (bind _ _) => apply keeps_shell_bind
  | |- _ (if ?x then _ else _) => destruct x
  | |- _ (match ?x with _ => _ end) => destruct x
  end.
Ltac shell_tac := repeat first [assumption | solve [eauto with shell] | shell_step].

Section shell.
Context `{A : Arch} `{Rm : Remote} `{Bd : Builder} (K : kernel_t) (TK : thread_kernel) (R : remote_t) (fs : files_t).
Context (env_of : Z -> image_t -> env_t) (cwd : option cstr).
Context (sig_formats : zt_probe_info_t -> option zt_trace_event_t -> zt_trace_event_t -> bool).

Lemma quiet_E : quiet (E_now env_of).
Proof. done. Qed.
#[local] Hint Resolve quiet_E : shell.

Lemma keeps_interrupt : keeps (with_threads (zt_injector_interrupt_all TK)).
Proof. apply keeps_with_threads, interrupt_all_table. Qed.
Lemma keeps_continue : keeps (with_threads (zt_injector_continue_all TK)).
Proof. apply keeps_with_threads, continue_all_table. Qed.

#[local] Hint Resolve keeps_interrupt keeps_continue keeps_ensure_running keeps_ensure_stopped keeps_remove keeps_disable
  keeps_update_filter keeps_update_action keeps_clear_action keeps_poll : shell.

(** ** Commands that need a target *)

Lemma attached_shell (m : C Z) : keeps_attached m -> keeps_shell (require_attached m).
Proof.
  intros Hm b c [Hw Hd]. unfold require_attached, bind, gets. destruct (g_cli_attached c) eqn:Ha; cbn [negb].
  - destruct (Hm b c Hw Ha) as [Hw1 Ha1]. constructor; [done|]. by rewrite Ha1.
  - constructor; [done|]. intros _. by apply Hd.
Qed.

Lemma attached_installs (m : C Z) : installs_attached m -> installs_shell (require_attached m).
Proof.
  intros Hm c [Hw Hd]. unfold require_attached, bind, gets. destruct (g_cli_attached c) eqn:Ha; cbn [negb].
  - destruct (Hm c Hw Ha) as [Hw1 Ha1]. constructor; [done|]. by rewrite Ha1.
  - constructor; [by eapply inv_weaken|]. intros _. by apply Hd.
Qed.

Lemma active_attached (m : C Z) :
  keeps_attached m -> keeps_attached (let* active := trace_is_active in if negb active then say (lit "No active trace") else m).
Proof. intros Hm. shell_tac. Qed.

Lemma keeps_require_probe t k : (forall id, keeps_attached (k id)) -> keeps_attached (require_probe_target t k).
Proof. intros Hk. unfold require_probe_target. shell_tac. Qed.

Lemma keeps_require_arg p u k : (forall w, keeps_attached (k w)) -> keeps_attached (require_arg p u k).
Proof. intros Hk. unfold require_arg, zt_next_arg. shell_tac. Qed.

Lemma installs_require_arg p u k : (forall w, installs_attached (k w)) -> installs_attached (require_arg p u k).
Proof.
  intros Hk. unfold require_arg, zt_next_arg. apply installs_attached_after; [eauto with shell|]. intros [w|]; [apply Hk|].
  apply keeps_attached_installs. eauto with shell.
Qed.

#[local] Hint Resolve keeps_require_probe keeps_require_arg : shell.

Lemma keeps_set_running r : keeps_attached (zt_cli_set_target_running TK r).
Proof. unfold zt_cli_set_target_running, zt_cli_stop_target, zt_trace_resume, zt_trace_pause. shell_tac. Qed.

Lemma keeps_compile_filter f : keeps_attached (zt_cli_compile_remaining_filter f).
Proof. unfold zt_cli_compile_remaining_filter. shell_tac. Qed.

#[local] Hint Resolve keeps_set_running keeps_compile_filter : shell.

Lemma keeps_disable_all js d f : keeps_attached (disable_all_loop K TK js d f).
Proof. revert d f. induction js as [|j js IH]; intros d f; cbn [disable_all_loop]; shell_tac. Qed.

Lemma keeps_call_args fuel args : keeps_attached (call_args_loop fuel args).
Proof. revert args. induction fuel as [|fuel IH]; intros args; cbn [call_args_loop]; unfold zt_next_arg; shell_tac. Qed.

#[local] Hint Resolve keeps_disable_all keeps_call_args : shell.

Lemma keeps_cmd_stop p : keeps_shell (cmd_stop TK p).
Proof. apply attached_shell. shell_tac. Qed.

Lemma keeps_cmd_continue p : keeps_shell (cmd_continue TK p).
Proof. apply attached_shell. shell_tac. Qed.

Lemma keeps_cmd_disable p : keeps_shell (cmd_disable K TK p).
Proof. apply attached_shell, active_attached, keeps_require_arg. shell_tac. apply keeps_require_probe. shell_tac. Qed.

Lemma keeps_cmd_update p : keeps_shell (cmd_update K env_of p).
Proof.
  apply attached_shell, active_attached. unfold zt_next_arg. shell_tac. apply keeps_require_probe. intros id.
  unfold update_clear, update_call, update_if, zt_next_arg. shell_tac. apply keeps_require_arg. shell_tac.
Qed.

Lemma keeps_cmd_untrace p : keeps_shell (cmd_untrace K TK p).
Proof. apply attached_shell, keeps_require_arg. intros t. apply keeps_require_probe. shell_tac. Qed.

Lemma keeps_cmd_info p : keeps_shell (cmd_info p).
Proof. apply attached_shell. unfold zt_next_arg. shell_tac. Qed.

Lemma keeps_cmd_help p : keeps_shell (cmd_help p).
Proof. unfold cmd_help, zt_next_arg. shell_tac. Qed.

Lemma installs_cmd_enable p : installs_shell (cmd_enable K TK env_of p).
Proof.
  apply attached_installs. apply installs_attached_after; [eauto with shell|]. intros active.
  destruct (negb active); [apply keeps_attached_installs; eauto with shell|]. apply installs_require_arg. intros t.
  unfold require_probe_target. apply installs_attached_after; [eauto with shell|].
  intros [[q id]|]; [|apply keeps_attached_installs; eauto with shell].
  apply installs_attached_after; [eauto with shell|]. intros E.
  apply installs_attached_before; [apply lift_installs, installs_enable|]. shell_tac.
Qed.

Lemma keeps_parse_filter : keeps_attached zt_cli_parse_trace_filter.
Proof. unfold zt_cli_parse_trace_filter, zt_next_arg. shell_tac. Qed.

Lemma keeps_stop_target : keeps_attached (zt_cli_stop_target TK).
Proof. unfold zt_cli_stop_target. shell_tac. Qed.

Lemma keeps_log_path : keeps_attached (build_log_path cwd).
Proof. unfold build_log_path. shell_tac. Qed.

#[local] Hint Resolve keeps_parse_filter keeps_stop_target keeps_log_path : shell.

Lemma installs_trace_symbol s f : installs_attached (trace_symbol K TK env_of s f).
Proof.
  unfold trace_symbol. do 2 (apply installs_attached_after; [eauto with shell|]; intros ?).
  apply installs_attached_before; [apply lift_installs, installs_start|]. shell_tac.
Qed.

Lemma installs_cmd_trace p : installs_shell (cmd_trace K TK env_of cwd p).
Proof.
  apply attached_installs, installs_require_arg. intros s. apply installs_attached_after; [eauto with shell|]. intros r.
  destruct (negb _); [apply keeps_attached_installs; shell_tac|].
  apply installs_attached_after; [eauto with shell|]. intros a1. apply installs_attached_after; [shell_tac|]. intros rc.
  apply installs_attached_after; [eauto with shell|]. intros pid.
  destruct (negb _); [apply keeps_attached_installs; shell_tac|].
  apply installs_attached_after; [eauto with shell|]. intros a2. apply installs_attached_after; [shell_tac|]. intros rc2.
  destruct (negb _); [apply keeps_attached_installs; shell_tac|].
  apply installs_attached_after; [shell_tac|]. intros _. apply installs_trace_symbol.
Qed.

(** ** Attaching and detaching *)

(** A world whose session has no probes. *)
Definition blank (b : bool) (c : cli_t) : Prop := world_inv b (cl_world c) /\ w_probes (cl_world c) = empty_probes.

Lemma blank_shell b c : blank b c -> shell_inv b c.
Proof. intros [Hw Hp]. by constructor. Qed.

Definition blank_session (s : zt_injector_session_t) : Prop :=
  ses_probes s = empty_probes /\ ses_probe_count s = 0 /\ 0 <= ses_next_probe_id s <= 1.

Lemma blank_table s s' : ses_table s' = ses_table s -> blank_session s -> blank_session s'.
Proof. unfold ses_table, blank_session. by intros [= -> -> ->]. Qed.

Lemma blank_world b w s p k obs rd sc :
  active_inv (g_active_trace w) -> blank_session s ->
  let w' := mk_world (mk_inj s p k) (g_active_trace w) obs rd sc in world_inv b w' /\ w_probes w' = empty_probes.
Proof.
  intros Ha (Hp & Hc & Hn). destruct (empty_table_inv s Hp) as [Ht Hs]; [lia|done|]. split; [|done].
  constructor; [done|done|done|]. intros _. cbn. lia.
Qed.

Lemma attach_blank pid k : let '(_, s, _, _) := zt_injector_attach TK fs pid k in blank_session s.
Proof.
  unfold zt_injector_attach. set (s0 := mk_session pid 1 0 0 0 [] _).
  assert (H0 : blank_session s0) by (split_and!; [done|done|cbn; lia..]).
  assert (Hz : forall rc s k, let '(_, s', _, _) := (let '(s, k) := zt_injector_detach TK s k in (rc, s, zero_image, k)) : Z * _ * _ * _ in
    blank_session s').
  { intros rc s k'. unfold zt_injector_detach. destruct (if _ && _ then _ else _) as [[? ?] ?].
    split_and!; [done|done|cbn; lia..]. }
  pose proof (refresh_table TK s0 k) as H1. destruct (zt_injector_refresh_threads TK s0 k) as [[rc s1] k1].
  apply (blank_table _ _ H1) in H0.
  assert (H2 : let '(_, s2, _) := if rc =? 0 then zt_injector_interrupt_all TK s1 k1 else (rc, s1, k1) in blank_session s2).
  { destruct (rc =? 0); [|done]. pose proof (interrupt_all_table TK s1 k1) as H2.
    destruct (zt_injector_interrupt_all TK s1 k1) as [[? ?] ?]. by eapply blank_table. }
  destruct (if rc =? 0 then _ else _) as [[rc2 s2] k2]. destruct (negb (rc2 =? 0)); [apply Hz|].
  destruct (match fs_readlink fs (exe_link pid) with inl _ => _ | inr _ => _ end) as [exe s3] eqn:E.
  assert (H3 : blank_session s3) by (destruct (fs_readlink fs (exe_link pid)); by injection E as <- <-).
  destruct (bool_decide _); [apply Hz|]. destruct (zt_check_is_pie fs exe); [|apply Hz].
  by destruct (zt_read_image_base fs pid exe); [|apply Hz].
Qed.

Lemma attach_inv b pid c : shell_inv b c -> blank b (snd (attach TK fs pid c)).
Proof.
  intros [[_ _ Ha _] _]. unfold attach. pose proof (attach_blank pid (in_k (w_inj (cl_world c)))) as Hb.
  destruct (zt_injector_attach TK fs pid _) as [[[rc s] im] k]. cbn [snd]. by apply blank_world.
Qed.

Lemma detach_inv b c : world_inv b (cl_world c) -> blank b (snd (detach TK c)).
Proof.
  intros [_ _ Ha _]. unfold detach, with_threads, with_inj.
  assert (Hz : blank_session (fst (zt_injector_detach TK (in_ses (w_inj (cl_world c))) (in_k (w_inj (cl_world c)))))).
  { unfold zt_injector_detach. destruct (if _ && _ then _ else _) as [[? ?] ?]. split_and!; [done|done|cbn; lia..]. }
  destruct (zt_injector_detach TK _ _) as [s k]. by apply blank_world.
Qed.

Lemma continue_blank b c : blank b c -> blank b (snd (lift (with_threads (zt_injector_continue_all TK)) c)).
Proof.
  intros [Hw Hp]. pose proof (keeps_continue b (cl_world c) Hw) as Hw1. unfold lift, with_threads, with_inj in *.
  pose proof (continue_all_table TK (in_ses (w_inj (cl_world c))) (in_k (w_inj (cl_world c)))) as Ht.
  destruct (zt_injector_continue_all TK _ _) as [[rc s] k]. split; [exact Hw1|].
  unfold ses_table in Ht. injection Ht as Ht _ _. etransitivity; [exact Ht|exact Hp].
Qed.

Lemma keeps_cmd_detach p : keeps_shell (cmd_detach TK p).
Proof.
  intros b c Hc. pose proof Hc as [Hw _]. unfold cmd_detach, require_attached, bind at 1, gets.
  destruct (negb (g_cli_attached c)); [by apply quiet_shell; [apply quiet_say|]|].
  unfold bind. pose proof (detach_inv b c Hw) as Hb. destruct (detach TK c) as [[] c1]. apply quiet_shell; [apply quiet_say|].
  by apply blank_shell.
Qed.

Lemma keeps_cmd_exit p : keeps_shell (cmd_exit TK p).
Proof.
  intros b c Hc. pose proof Hc as [Hw _]. unfold cmd_exit, bind at 1, gets. destruct (g_cli_attached c); [|done].
  unfold bind. pose proof (detach_inv b c Hw) as Hb. destruct (detach TK c) as [[] c1]. by apply blank_shell.
Qed.

Lemma keeps_cmd_attach p : keeps_shell (cmd_attach TK fs p).
Proof.
  unfold cmd_attach, require_arg, zt_next_arg. apply keeps_shell_bind; [shell_tac|]. intros [w|]; [|shell_tac].
  destruct (strtol w) as [[pid rest]|]; [|shell_tac]. destruct (_ || _); [shell_tac|].
  intros b c Hc. unfold bind at 1 2, gets. destruct (g_cli_attached c) eqn:Ha; [by apply quiet_shell; [apply quiet_say|]|].
  unfold bind at 1. pose proof (attach_inv b (i32 pid) c Hc) as H1. destruct (attach TK fs (i32 pid) c) as [rc c1]. cbn [snd] in H1.
  destruct (negb (rc =? 0)); [apply quiet_shell; [apply quiet_say|by apply blank_shell]|].
  unfold bind at 1. pose proof (continue_blank b c1 H1) as H2. destruct (lift _ c1) as [rc2 c2]. cbn [snd] in H2.
  unfold bind at 1. destruct (negb (rc2 =? 0)).
  - unfold bind, printf, modify, ret. pose proof (detach_inv b) as Hdet.
    match goal with |- context [detach TK ?c3] => specialize (Hdet c3); destruct (detach TK c3) as [[] c4] end.
    apply blank_shell, Hdet, H2.
  - unfold bind, modify, gets. apply quiet_shell; [apply quiet_say|]. destruct H2 as [Hw2 Hp2]. by constructor.
Qed.

(** ** Lines and the event hook *)

Lemma keeps_installs_shell {B} (m : C B) : keeps_shell m -> installs_shell m.
Proof. intros Hm c Hc. eapply shell_weaken. by apply Hm. Qed.

(** Every handler of the command table. *)
Lemma installs_handlers name h : (name, h) ∈ cmd_table K TK fs env_of cwd -> forall p, installs_shell (h p).
Proof.
  unfold cmd_table. intros Hin p. repeat (apply elem_of_cons in Hin as [[= -> ->]|Hin]); [..|by apply not_elem_of_nil in Hin].
  all: first [apply installs_cmd_trace | apply installs_cmd_enable | apply keeps_installs_shell].
  - apply keeps_cmd_help.
  - apply keeps_cmd_exit.
  - apply keeps_cmd_exit.
  - apply keeps_cmd_attach.
  - apply keeps_cmd_detach.
  - apply keeps_cmd_stop.
  - apply keeps_cmd_disable.
  - apply keeps_cmd_update.
  - apply keeps_cmd_untrace.
  - apply keeps_cmd_info.
  - apply keeps_cmd_continue.
Qed.

Lemma installs_run_line input : installs_shell (run_line K TK fs env_of cwd input).
Proof.
  unfold run_line. do 2 (apply installs_shell_after; [shell_tac|]; intros ?).
  match goal with |- installs_shell (match ?x with _ => _ end) => destruct x as [cmd|] end;
    [|apply keeps_installs_shell; shell_tac].
  apply installs_shell_after; [shell_tac|]. intros line.
  destruct (List.find _ _) as [[name h]|] eqn:Hf; [|apply keeps_installs_shell; shell_tac].
  apply find_some in Hf as [Hin _]. apply list_elem_of_In in Hin.
  apply installs_shell_before; [by apply (installs_handlers name)|]. shell_tac.
Qed.

(** Polling does not touch the table. *)
Definition world_table (w : world) := ses_table (w_ses w).

Lemma same_exit_window E n a : same world_table (exit_window_loop E n a).
Proof.
  induction n as [|n IH]; cbn [exit_window_loop]; repeat first [done | apply same_ret | same_step].
Qed.

Lemma same_mark_exit E a : same world_table (zt_trace_mark_exit_window_if_needed E a).
Proof.
  unfold zt_trace_mark_exit_window_if_needed. apply same_bind; [apply same_exit_window|]. intros [|]; [|apply same_ret].
  apply same_bind; [done|]. intros _. apply same_ret.
Qed.

Lemma same_check_exit E : same world_table (zt_trace_check_exit_event TK E).
Proof.
  unfold zt_trace_check_exit_event, trace_state, buffer_addr. do 2 (apply same_bind; [done|]; intros ?).
  destruct (_ || _); [done|]. apply same_bind.
  - intros w. unfold world_table, with_threads, with_inj.
    pose proof (poll_events_table TK (in_ses (w_inj w)) (in_k (w_inj w))) as H.
    destruct (zt_injector_poll_events TK _ _) as [[[rc out] s'] k']. exact H.
  - intros r. destruct (negb (fst r =? 0)).
    + apply same_bind; [done|]. intros addr. apply same_bind; [apply same_mark_exit|]. intros. apply same_ret.
    + destruct (negb _); [|done]. apply same_bind; [done|]. intros. apply same_ret.
Qed.

Lemma poll_table fuel E : same world_table (zt_trace_poll TK R E sig_formats fuel).
Proof.
  unfold zt_trace_poll, trace_state, buffer_addr, zt_trace_handle_read_failure.
  do 2 (apply same_bind; [done|]; intros ?). destruct a; [done|done|].
  pose proof (same_check_exit E) as Hce. pose proof (same_mark_exit E) as Hme.
  assert (Hd : same world_table (dump_events R sig_formats fuel)).
  { intros w. unfold dump_events. by destruct (zt_dump_trace_events_since _ _ _ _ _ _ _) as [[[rc q]|] r]. }
  repeat first [apply Hce | apply Hme | apply Hd | apply same_ret | apply same_gets | same_step].
Qed.

Lemma poll_probes fuel E w : w_probes (snd (zt_trace_poll TK R E sig_formats fuel w)) = w_probes w.
Proof. pose proof (poll_table fuel E w) as H. unfold world_table, ses_table in H. by injection H. Qed.

Lemma keeps_hook fuel h : keeps_shell (zt_cli_event_hook TK R env_of sig_formats fuel h).
Proof.
  unfold zt_cli_event_hook. apply keeps_shell_bind; [shell_tac|]. intros active. destruct (negb active); [shell_tac|].
  apply keeps_shell_bind; [shell_tac|]. intros last. destruct (_ && _); [shell_tac|].
  do 2 (apply keeps_shell_bind; [shell_tac|]; intros ?). apply keeps_shell_bind.
  - intros b c [Hw Hd]. pose proof (keeps_poll TK R a0 sig_formats fuel b (cl_world c) Hw) as Hw1.
    pose proof (poll_probes fuel a0 (cl_world c)) as Hp. unfold lift.
    destruct (zt_trace_poll _ _ _ _ _ _) as [rc w]. cbn [snd] in *. constructor; [done|]. cbn. intros Ha. rewrite Hp. by apply Hd.
  - intros rc. apply keeps_shell_bind; [|shell_tac]. destruct (bool_decide _); [|shell_tac].
    apply quiet_shell. intros c. unfold zt_cli_print_log_updates. destruct (g_cli_log_path c); [done|].
    destruct (hk_log h) as [f|]; [|done]. by destruct (drop _ f).
Qed.

(** ** Reachable states *)

(** A line is entered, the event hook runs, or the target does. *)
Inductive shell_step : cli_t -> cli_t -> Prop :=
| shell_line input c : ids_left (cl_world c) -> shell_step c (snd (run_line K TK fs env_of cwd input c))
| shell_hook fuel h c : shell_step c (snd (zt_cli_event_hook TK R env_of sig_formats fuel h c))
| shell_target p k c : shell_step c (cl_set_session (target_runs p k (cl_world c)) (cl_image c) c).

(** The shell as it starts. *)
Definition shell_start (c : cli_t) : Prop :=
  g_cli_attached c = false /\ w_ses (cl_world c) = zero_session /\ g_active_trace (cl_world c) = zero_active.

Lemma shell_start_inv c : shell_start c -> shell_inv false c.
Proof.
  intros (_ & Hs & Ha). destruct (empty_table_inv (w_ses (cl_world c))) as [Ht Hsl]; [by rewrite Hs..|].
  constructor; [|intros _; unfold w_probes; by rewrite Hs]. constructor; [done|done| |done].
  rewrite Ha. split_and!; try done. constructor.
Qed.

Lemma shell_step_inv c c' : shell_step c c' -> shell_inv false c -> shell_inv false c'.
Proof.
  intros Hs Hc. inversion Hs; subst.
  - apply installs_run_line. destruct Hc as [[? ? ? ?] Hd]. constructor; [by constructor|done].
  - by apply keeps_hook.
  - destruct Hc as [[? ? ? ?] Hd]. constructor; [by constructor|done].
Qed.
End shell.

(** C8: in every state of the shell, whatever lines were entered, whenever the event hook
    ran and whatever the target did and the kernel refused, the tracer's invariant holds
    (the probe table is well formed, enabled call actions have slots of their own, a
    session and a log are there exactly while a trace is active), and without an attached
    target the table is empty. *)
Theorem shell_reachable_inv `{A : Arch} `{Rm : Remote} `{Bd : Builder} K TK R fs env_of cwd sig_formats c0 c :
  shell_start c0 -> rtc (shell_step K TK R fs env_of cwd sig_formats) c0 c -> shell_inv false c.
Proof.
  intros H0 Hr. apply shell_start_inv in H0. induction Hr as [|x y z Hs _ IH]; [done|]. apply IH. by eapply shell_step_inv.
Qed.
