(* ===== verification/CliSample.v ===== *)
(** * Sessions of the shell

    The shell on the sample target: a command's round trip, and how detaching leaves a
    trace behind. *)

From stdpp Require Import relations.
From S2P Require Import Prelude CLib Types Reader RemoteMem RemoteMemSpec A64Build Arch Threads ThreadsSpec Probes Pool SigConf SigConfSpec SigFormat Filter Symbols MapsSpec ResolveSpec TraceRunner TraceSample TableInv TraceInv Cli CliSpec CliInv.
#[local] Open Scope Z_scope.

(** Process 100 runs the sample library as its executable. *)
Definition shell_files : files_t :=
  mk_files (fs_open lib_files) (fun _ => inl (lit "/lib/libc.so")) (fun _ => 0) (fun _ => true).

Definition shell_fresh : cli_t :=
  mk_cli (mk_world (mk_inj zero_session sample_text (mk_kstate 0 (fun _ => 0x700000) [] (fun _ => false) (0%nat, []))) zero_active 0 zero_reader
            (mk_sigconf [] false)) zero_image false [] 0 0 [0] 0 [].

Definition shell_run (line : cstr) (c : cli_t) : cli_t :=
  snd (run_line (A := A64.aarch64_arch) (Rm := sample_remote) (Bd := a64_builder sample_a64_disasm) plain_kernel
    sample_thread_kernel shell_files (fun _ _ => sample_env) (Some (lit "/tmp")) line c).

(** A session: its output, and the state it ends in. *)
Lemma shell_session_run :
  let c := shell_run (lit "info probes") (shell_run (lit "trace write if arg0 == 1") (shell_run (lit "attach 100") shell_fresh)) in
  cl_out c =
    lit "Attached to pid 100 (/lib/libc.so) and continued" ++ [10] ++
    lit "Tracing write if arg0 == 1, log file: /tmp/ztrace.100.log" ++ [10] ++
    lit "id   symbol               state      len   addr               module" ++ [10] ++
    lit "--   -------------------- ---------- ----- ------------------ ------" ++ [10] ++
    lit "1    write                installed  16    0x0000000000401000 /bin/t" ++ [10] ++
    lit "     filter: arg0 == 1" ++ [10] /\
  g_cli_attached c = true /\ at_state (g_active_trace (cl_world c)) = ZT_TRACE_RUNTIME_RUNNING.
Proof. vm_compute. done. Qed.

Lemma attached_ids_left : ids_left (cl_world (shell_run (lit "attach 100") shell_fresh)).
Proof. unfold ids_left. vm_compute. reflexivity. Qed.

(** C8 after `attach 100` and `trace write`. *)
Lemma shell_reachable_inv_witness :
  let c := shell_run (lit "trace write") (shell_run (lit "attach 100") shell_fresh) in
  ses_probe_count (w_ses (cl_world c)) = 1 /\ shell_inv false c.
Proof.
  split; [vm_compute; reflexivity|]. unfold shell_run.
  apply (shell_reachable_inv (A := A64.aarch64_arch) (Rm := sample_remote) (Bd := a64_builder sample_a64_disasm) plain_kernel
    sample_thread_kernel (mk_remote (fun _ _ => None) (fun _ _ => None) (fun _ _ _ => None)) shell_files
    (fun _ _ => sample_env) (Some (lit "/tmp")) (fun _ _ _ => false) shell_fresh).
  - split; [reflexivity|split; reflexivity].
  - eapply rtc_l; [apply shell_line; reflexivity|]. eapply rtc_l; [apply shell_line; exact attached_ids_left|]. apply rtc_refl.
Defined.

(** The shell with `write` traced. *)
Definition sample_cli : cli_t :=
  mk_cli sample_tracing (mk_image (lit "/bin/t") 0x400000 false) true (lit "/tmp/log") 0 0 [0] 0 [].

Definition sample_line (line : cstr) : C bool :=
  run_line (A := A64.aarch64_arch) (Rm := sample_remote) (Bd := a64_builder sample_a64_disasm) plain_kernel
    sample_thread_kernel sample_files (fun _ _ => sample_env) (Some (lit "/tmp")) line.

Lemma seen_world c v : seen c = v -> cl_world c = fst (fst v).
Proof. by intros <-. Qed.

Lemma seen_image c v : seen c = v -> cl_image c = snd (fst v).
Proof. by intros <-. Qed.

Lemma write_named : target_ok (BySymbol (lit "write")).
Proof. split; [apply lit_token; reflexivity|]. repeat split; discriminate. Qed.

Definition sample_update : command :=
  UpdateCall (BySymbol (lit "write")) (lit "getpid")
    [mk_call_arg ZT_CALL_ACTION_ARG_ENTRY_ARG 0; mk_call_arg ZT_CALL_ACTION_ARG_CONST 16].

Lemma sample_update_ok : command_ok sample_update.
Proof.
  split; [exact write_named|]. split; [split; [apply lit_token; reflexivity|discriminate]|]. split; [|discriminate].
  constructor; [left; split; [reflexivity|split; [discriminate|reflexivity]]|].
  constructor; [right; split; [reflexivity|split; [discriminate|reflexivity]]|constructor].
Qed.

Lemma sample_disable_ok : command_ok (Disable (ById 1)).
Proof. split; [split; reflexivity|discriminate]. Qed.

Lemma sample_attach_ok : command_ok (Attach 100).
Proof. split; reflexivity. Qed.

(** C39 for "update write call getpid arg0 0x10", "disable 1" and, with no target, "attach 100". *)
Lemma run_line_command_witness :
  act_args <$> (pr_call_action <$> head (w_probes (cl_world (snd (sample_line (lit "update write call getpid arg0 0x10") sample_cli))))) =
    Some ([mk_call_arg ZT_CALL_ACTION_ARG_ENTRY_ARG 0; mk_call_arg ZT_CALL_ACTION_ARG_CONST 16] ++ replicate 4 zero_call_arg) /\
  pr_state <$> head (w_probes (cl_world (snd (sample_line (lit "disable 1") sample_cli)))) = Some ZT_PROBE_DISABLED /\
  im_exe_path (cl_image (shell_run (lit "attach 100") shell_fresh)) = lit "/lib/libc.so".
Proof.
  unfold sample_line, shell_run. split; [|split].
  - change (lit "update write call getpid arg0 0x10") with (print_command sample_update).
    erewrite seen_world; [|apply run_line_command, sample_update_ok]. vm_compute. reflexivity.
  - change (lit "disable 1") with (print_command (Disable (ById 1))).
    erewrite seen_world; [|apply run_line_command, sample_disable_ok]. vm_compute. reflexivity.
  - change (lit "attach 100") with (print_command (Attach 100)).
    erewrite seen_image; [|apply run_line_command, sample_attach_ok]. vm_compute. reflexivity.
Defined.

(** `detach` does not end the trace: the function's jump stays in the target's code, its
    table is forgotten, and the runner still holds the trace as running. *)
Lemma detach_leaves_trace :
  let c := snd (sample_line (lit "detach") sample_cli) in
  g_cli_attached c = false /\ at_state (g_active_trace (cl_world c)) = ZT_TRACE_RUNTIME_RUNNING /\
  ses_probe_count (w_ses (cl_world c)) = 0 /\
  read_bytes (pm (in_proc (w_inj (cl_world c)))) 0x401000 4 = Some (le_bytes 4 0x58000050).
Proof. vm_compute. done. Qed.

(** With blanks before the command, the last letters of its name are taken for its
    arguments: "  untrace write" looks for the probe "ce". *)
Lemma leading_blanks_shift_arguments :
  cl_out (snd (sample_line (lit "  untrace write") sample_cli)) = lit "Probe not found: ce" ++ [10].
Proof. vm_compute. done. Qed.
